(** * SQZ: a shallow embedding of the byte-scalable image codec of [sqz.h]

    The development follows the single header [src/sqz.h].  Machine integers
    are mathematical integers with their wrap-around written out, C arrays are
    lists addressed by offsets, and every function that takes a pointer to a
    structure and updates it takes the structure and returns the new one. *)

From stdpp Require Import prelude.
From Stdlib Require Import ZArith Lia.

Local Open Scope Z_scope.

(** ** Machine integers *)

Definition u8 (z : Z) : Z := z mod 2 ^ 8.
Definition u16 (z : Z) : Z := z mod 2 ^ 16.
Definition u32 (z : Z) : Z := z mod 2 ^ 32.
(** [size_t] is taken to be 64 bits wide. *)
Definition usize (z : Z) : Z := z mod 2 ^ 64.
Definition s16 (z : Z) : Z := (z + 2 ^ 15) mod 2 ^ 16 - 2 ^ 15.
Definition s32 (z : Z) : Z := (z + 2 ^ 31) mod 2 ^ 32 - 2 ^ 31.

(** C truth values. *)
Definition of_bool (b : bool) : Z := if b then 1 else 0.
Definition truthy (z : Z) : bool := negb (z =? 0).

(** Arrays: a load outside the list reads 0, a store outside it is dropped. *)
Definition load (l : list Z) (i : Z) : Z := l !!! Z.to_nat i.
Definition store (l : list Z) (i : Z) (v : Z) : list Z := <[Z.to_nat i := v]> l.

(** ** Constants and enumerations *)

Inductive SQZ_status_t :=
| SQZ_RESULT_OK
| SQZ_OUT_OF_MEMORY
| SQZ_INVALID_PARAMETER
| SQZ_BUFFER_TOO_SMALL
| SQZ_DATA_CORRUPTED.

(** The two enumerations of the descriptor are kept as the integers the C
    enumerators stand for, since the header reader casts raw bit fields to
    them and the validation compares them numerically. *)
Definition SQZ_COLOR_MODE_GRAYSCALE := 0.
Definition SQZ_COLOR_MODE_YCOCG_R := 1.
Definition SQZ_COLOR_MODE_OKLAB := 2.
Definition SQZ_COLOR_MODE_LOG_L1 := 3.
Definition SQZ_COLOR_MODE_COUNT := 4.

Definition SQZ_SCAN_ORDER_RASTER := 0.
Definition SQZ_SCAN_ORDER_SNAKE := 1.
Definition SQZ_SCAN_ORDER_MORTON := 2.
Definition SQZ_SCAN_ORDER_HILBERT := 3.
Definition SQZ_SCAN_ORDER_COUNT := 4.

Definition SQZ_DWT_MAX_LEVEL := 8.
Definition SQZ_MIN_DIMENSION := 8.
Definition SQZ_MAX_DIMENSION := 2 ^ 16 - 1.
Definition SQZ_HEADER_MAGIC := 165.
Definition SQZ_HEADER_SIZE := 6.
Definition SQZ_SPECTRAL_PLANES := 3.
Definition SQZ_DWT_SUBBANDS := 4.

Record SQZ_image_descriptor_t := mk_descriptor {
  color_mode : Z;
  scan_order : Z;
  width : Z;
  height : Z;
  dwt_levels : Z;
  num_planes : Z;
  subsampling : Z
}.

(** The table [SQZ_number_of_planes], one entry for each color mode. *)
Definition SQZ_number_of_planes : list Z := [1; 3; 3; 3].

(** [table[i]] where nothing in the code keeps [i] inside the array: C
    leaves a read outside the array undefined, and the read has no value
    then. *)
Definition table_read (table : list Z) (i : Z) : option Z :=
  if (0 <=? i) && (i <? Z.of_nat (length table)) then Some (load table i) else None.

(** ** Integer helpers *)

(** [__builtin_clz] on a non-zero 32-bit word. *)
Definition builtin_clz (x : Z) : Z := 31 - Z.log2 x.

Definition SQZ_ilog2 (x : Z) : Z :=
  if negb (x =? 0) then u32 (32 - builtin_clz x) else x.

(** The loop of [SQZ_mirror]; [None] when the fuel runs out. *)
Fixpoint SQZ_mirror_loop (fuel : nat) (value maximum : Z) : option Z :=
  if u32 maximum <? u32 value then
    match fuel with
    | O => None
    | S fuel' =>
        let value := s32 (- value) in
        let value := if value <? 0 then s32 (value + s32 (2 * maximum)) else value in
        SQZ_mirror_loop fuel' value maximum
    end
  else Some (u32 value).

Definition SQZ_mirror (fuel : nat) (value maximum : Z) : option Z :=
  if maximum =? 0 then Some 0 else SQZ_mirror_loop fuel value maximum.

Definition SQZ_deinterleave_u32_to_u16 (i : Z) : Z :=
  let i := Z.land i 0x55555555 in
  let i := Z.land (Z.lxor i (Z.shiftr i 1)) 0x33333333 in
  let i := Z.land (Z.lxor i (Z.shiftr i 2)) 0x0F0F0F0F in
  let i := Z.land (Z.lxor i (Z.shiftr i 4)) 0x00FF00FF in
  let i := Z.land (Z.lxor i (Z.shiftr i 8)) 0x0000FFFF in
  i.

Definition SQZ_interleave_u16_to_u32 (i : Z) : Z :=
  let i := Z.land i 0x0000FFFF in
  let i := Z.land (Z.lxor i (u32 (Z.shiftl i 8))) 0x00FF00FF in
  let i := Z.land (Z.lxor i (u32 (Z.shiftl i 4))) 0x0F0F0F0F in
  let i := Z.land (Z.lxor i (u32 (Z.shiftl i 2))) 0x33333333 in
  let i := Z.land (Z.lxor i (u32 (Z.shiftl i 1))) 0x55555555 in
  i.

(** ** Bit buffer

    [bb_data] is the backing array, the three pointers of the C structure
    are offsets into it ([data] itself is offset 0). *)

Record SQZ_bit_buffer_t := mk_bit_buffer {
  bb_data : list Z;
  bb_ptr : Z;
  bb_eob : Z;
  bb_index : Z
}.

Definition SQZ_bit_buffer_init (source : list Z) (capacity : Z) : SQZ_bit_buffer_t :=
  mk_bit_buffer source 0 capacity 0.

Definition SQZ_bit_buffer_eob (buffer : SQZ_bit_buffer_t) : bool :=
  bb_eob buffer <=? bb_ptr buffer.

Definition SQZ_bit_buffer_bits_used (buffer : SQZ_bit_buffer_t) : Z :=
  bb_ptr buffer * 8 + bb_index buffer.

Definition SQZ_BIT_BUFFER_MSB := 7.

(** [*(buffer->ptr) |= v], the store truncating to a byte. *)
Definition bb_or (buffer : SQZ_bit_buffer_t) (v : Z) : SQZ_bit_buffer_t :=
  let p := bb_ptr buffer in
  mk_bit_buffer (store (bb_data buffer) p (u8 (Z.lor (load (bb_data buffer) p) v)))
                p (bb_eob buffer) (bb_index buffer).

(** [buffer->ptr++; buffer->index = 0]. *)
Definition bb_next_byte (buffer : SQZ_bit_buffer_t) : SQZ_bit_buffer_t :=
  mk_bit_buffer (bb_data buffer) (bb_ptr buffer + 1) (bb_eob buffer) 0.

Definition bb_set_index (buffer : SQZ_bit_buffer_t) (i : Z) : SQZ_bit_buffer_t :=
  mk_bit_buffer (bb_data buffer) (bb_ptr buffer) (bb_eob buffer) i.

Definition SQZ_bit_buffer_write_bit (buffer : SQZ_bit_buffer_t) (bit : Z)
  : SQZ_bit_buffer_t * Z :=
  if SQZ_bit_buffer_eob buffer then (buffer, 0)
  else
    let buffer := bb_or buffer (u32 (Z.shiftl bit (SQZ_BIT_BUFFER_MSB - bb_index buffer))) in
    if bb_index buffer <? SQZ_BIT_BUFFER_MSB
    then (bb_set_index buffer (bb_index buffer + 1), 1)
    else (bb_next_byte buffer, 1).

(** The [do ... while (1)] of [SQZ_bit_buffer_write_bits].  Every turn that
    does not return consumes at least one bit of [width], so [width + 1]
    turns are enough; the recursion is on that bound. *)
Fixpoint write_bits_loop (n : nat) (buffer : SQZ_bit_buffer_t) (bits width : Z)
  : SQZ_bit_buffer_t * Z :=
  match n with
  | O => (buffer, 0)
  | S n' =>
      if SQZ_bit_buffer_eob buffer then (buffer, 0)
      else
        let bits_free := u32 ((SQZ_BIT_BUFFER_MSB + 1) - bb_index buffer) in
        if width <=? bits_free then
          let buffer :=
            bb_or buffer (u32 (Z.shiftl (Z.land bits (u32 (u32 (Z.shiftl 1 width) - 1)))
                                        (bits_free - width))) in
          let buffer := bb_set_index buffer (bb_index buffer + width) in
          if SQZ_BIT_BUFFER_MSB <? bb_index buffer
          then (bb_next_byte buffer, 1)
          else (buffer, 1)
        else
          let buffer :=
            bb_or buffer (Z.land (Z.shiftr bits (width - bits_free))
                                 (u32 (u32 (Z.shiftl 1 bits_free) - 1))) in
          write_bits_loop n' (bb_next_byte buffer) bits (u32 (width - bits_free))
  end.

Definition SQZ_bit_buffer_write_bits (buffer : SQZ_bit_buffer_t) (bits width : Z)
  : SQZ_bit_buffer_t * Z :=
  write_bits_loop (S (Z.to_nat width)) buffer bits width.

Definition SQZ_bit_buffer_read_bit (buffer : SQZ_bit_buffer_t) : SQZ_bit_buffer_t * Z :=
  if SQZ_bit_buffer_eob buffer then (buffer, -1)
  else
    let bit := Z.land (Z.shiftr (load (bb_data buffer) (bb_ptr buffer))
                                (SQZ_BIT_BUFFER_MSB - bb_index buffer)) 1 in
    if bb_index buffer <? SQZ_BIT_BUFFER_MSB
    then (bb_set_index buffer (bb_index buffer + 1), bit)
    else (bb_next_byte buffer, bit).

Fixpoint read_bits_loop (n : nat) (buffer : SQZ_bit_buffer_t) (bits width : Z)
  : SQZ_bit_buffer_t * Z :=
  match n with
  | O => (buffer, -1)
  | S n' =>
      if SQZ_bit_buffer_eob buffer then (buffer, -1)
      else
        let bits_available := u32 ((SQZ_BIT_BUFFER_MSB + 1) - bb_index buffer) in
        let byte := load (bb_data buffer) (bb_ptr buffer) in
        if width <=? bits_available then
          let bits := s32 (Z.shiftl bits width) in
          let bits :=
            s32 (Z.lor bits (Z.land (Z.shiftr byte (bits_available - width))
                                    (u32 (u32 (Z.shiftl 1 width) - 1)))) in
          let buffer := bb_set_index buffer (bb_index buffer + width) in
          if SQZ_BIT_BUFFER_MSB <? bb_index buffer
          then (bb_next_byte buffer, bits)
          else (buffer, bits)
        else
          let bits := s32 (Z.shiftl bits bits_available) in
          let bits :=
            s32 (Z.lor bits (Z.land byte (u32 (u32 (Z.shiftl 1 bits_available) - 1)))) in
          read_bits_loop n' (bb_next_byte buffer) bits (u32 (width - bits_available))
  end.

Definition SQZ_bit_buffer_read_bits (buffer : SQZ_bit_buffer_t) (width : Z)
  : SQZ_bit_buffer_t * Z :=
  read_bits_loop (S (Z.to_nat width)) buffer 0 width.

(** ** Node lists

    The three lists of a subband are singly linked through one node arena.
    A list is kept here as the sequence of its nodes in link order, a node
    being its pair of coordinates; the arena is its capacity and its bump
    cursor.  [SQZ_list_exchange] unlinks the node under the cursor of a
    traversal and appends it to the destination, [SQZ_list_merge] appends the
    whole source list to the destination and empties the source. *)

Definition SQZ_list_node_t : Type := Z * Z.
Definition SQZ_list_t : Type := list SQZ_list_node_t.

Record SQZ_list_node_cache_t := mk_cache {
  cache_capacity : Z;
  cache_index : Z
}.

Definition SQZ_node_cache_init (capacity : Z) : SQZ_list_node_cache_t :=
  mk_cache capacity 0.

Definition SQZ_list_init : SQZ_list_t := [].

Definition SQZ_list_add (cache : SQZ_list_node_cache_t) (l : SQZ_list_t) (x y : Z)
  : SQZ_list_node_cache_t * SQZ_list_t :=
  if cache_capacity cache <=? cache_index cache then (cache, l)
  else (mk_cache (cache_capacity cache) (cache_index cache + 1), l ++ [(u16 x, u16 y)]).

(** [visited] are the nodes of the source before the cursor, [rest] those
    after the exchanged [node]; the result is the source list, the
    destination list and the nodes that remain to be visited. *)
Definition SQZ_list_exchange (visited : SQZ_list_t) (node : SQZ_list_node_t)
  (rest : SQZ_list_t) (dest : SQZ_list_t) : SQZ_list_t * SQZ_list_t * SQZ_list_t :=
  (visited ++ rest, dest ++ [node], rest).

Definition SQZ_list_merge (source dest : SQZ_list_t) : SQZ_list_t * SQZ_list_t :=
  match source with
  | [] => (source, dest)
  | _ => ([], dest ++ source)
  end.

(** ** Scan orders *)

Record SQZ_snake_scan_context_t := mk_snake {
  tile_x : Z;
  tile_y : Z;
  tile_width : Z;
  tile_height : Z;
  tile_columns_remaining : Z;
  tile_columns_right_to_left : Z;
  tile_rows_remaining : Z;
  tile_defaults_width : Z;
  tile_defaults_height : Z;
  grid_x : Z;
  grid_y : Z;
  grid_width : Z;
  grid_height : Z;
  grid_columns_index : Z;
  grid_columns_odd : Z;
  grid_rows_odd : Z;
  offsets_x : Z;
  offsets_y : Z
}.

Record SQZ_morton_scan_context_t := mk_morton {
  morton_range : Z;
  morton_mask : Z;
  morton_index : Z;
  morton_length : Z
}.

Record SQZ_hilbert_scan_stack_item_t := mk_item {
  item_x : Z;
  item_y : Z;
  item_ax : Z;
  item_ay : Z;
  item_bx : Z;
  item_by : Z
}.

(** The stack of frames, the top first.  The C array holds 32 frames; the
    bound is not part of the embedding. *)
Record SQZ_hilbert_scan_context_t := mk_hilbert {
  hilbert_stack : list SQZ_hilbert_scan_stack_item_t;
  hilbert_width : Z;
  hilbert_height : Z;
  hilbert_dax : Z;
  hilbert_day : Z;
  hilbert_dbx : Z;
  hilbert_dby : Z;
  hilbert_index : Z
}.

(** What [workspace] points to. *)
Inductive scan_workspace :=
| WS_null
| WS_snake (snake : SQZ_snake_scan_context_t)
| WS_morton (morton : SQZ_morton_scan_context_t)
| WS_hilbert (hilbert : SQZ_hilbert_scan_context_t).

(** The functions [scan] can point to. *)
Inductive SQZ_scan_fn := Scan_null | Scan_raster | Scan_snake | Scan_morton | Scan_hilbert.

Record SQZ_scan_context_t := mk_scan {
  scan_workspace_of : scan_workspace;
  scan_fn_of : SQZ_scan_fn;
  scan_type : Z;
  scan_x : Z;
  scan_y : Z;
  scan_width : Z;
  scan_height : Z
}.

Definition scan_set_xy (ctx : SQZ_scan_context_t) (x y : Z) : SQZ_scan_context_t :=
  mk_scan (scan_workspace_of ctx) (scan_fn_of ctx) (scan_type ctx) x y
          (scan_width ctx) (scan_height ctx).

Definition scan_set_workspace (ctx : SQZ_scan_context_t) (w : scan_workspace)
  : SQZ_scan_context_t :=
  mk_scan w (scan_fn_of ctx) (scan_type ctx) (scan_x ctx) (scan_y ctx)
          (scan_width ctx) (scan_height ctx).

Definition SQZ_scan_raster (ctx : SQZ_scan_context_t) : SQZ_scan_context_t * Z :=
  let x := usize (scan_x ctx + 1) in
  if scan_width ctx <=? x then
    let y := usize (scan_y ctx + 1) in
    if scan_height ctx <=? y then (scan_set_xy ctx 0 y, 0) else (scan_set_xy ctx 0 y, 1)
  else (scan_set_xy ctx x (scan_y ctx), 1).

Definition SQZ_scan_init_raster_context (ctx : SQZ_scan_context_t) (width height : Z)
  : SQZ_scan_context_t :=
  mk_scan (scan_workspace_of ctx) Scan_raster SQZ_SCAN_ORDER_RASTER 0 0 width height.

(** *** Snake *)

Section snake_setters.
Variable s : SQZ_snake_scan_context_t.

Definition set_tile_x (v : Z) :=
  mk_snake v (tile_y s) (tile_width s) (tile_height s) (tile_columns_remaining s)
    (tile_columns_right_to_left s) (tile_rows_remaining s) (tile_defaults_width s)
    (tile_defaults_height s) (grid_x s) (grid_y s) (grid_width s) (grid_height s)
    (grid_columns_index s) (grid_columns_odd s) (grid_rows_odd s) (offsets_x s) (offsets_y s).
Definition set_tile_y (v : Z) :=
  mk_snake (tile_x s) v (tile_width s) (tile_height s) (tile_columns_remaining s)
    (tile_columns_right_to_left s) (tile_rows_remaining s) (tile_defaults_width s)
    (tile_defaults_height s) (grid_x s) (grid_y s) (grid_width s) (grid_height s)
    (grid_columns_index s) (grid_columns_odd s) (grid_rows_odd s) (offsets_x s) (offsets_y s).
Definition set_tile_width (v : Z) :=
  mk_snake (tile_x s) (tile_y s) v (tile_height s) (tile_columns_remaining s)
    (tile_columns_right_to_left s) (tile_rows_remaining s) (tile_defaults_width s)
    (tile_defaults_height s) (grid_x s) (grid_y s) (grid_width s) (grid_height s)
    (grid_columns_index s) (grid_columns_odd s) (grid_rows_odd s) (offsets_x s) (offsets_y s).
Definition set_tile_height (v : Z) :=
  mk_snake (tile_x s) (tile_y s) (tile_width s) v (tile_columns_remaining s)
    (tile_columns_right_to_left s) (tile_rows_remaining s) (tile_defaults_width s)
    (tile_defaults_height s) (grid_x s) (grid_y s) (grid_width s) (grid_height s)
    (grid_columns_index s) (grid_columns_odd s) (grid_rows_odd s) (offsets_x s) (offsets_y s).
Definition set_tile_columns_right_to_left (v : Z) :=
  mk_snake (tile_x s) (tile_y s) (tile_width s) (tile_height s) (tile_columns_remaining s)
    v (tile_rows_remaining s) (tile_defaults_width s)
    (tile_defaults_height s) (grid_x s) (grid_y s) (grid_width s) (grid_height s)
    (grid_columns_index s) (grid_columns_odd s) (grid_rows_odd s) (offsets_x s) (offsets_y s).
Definition set_grid_x (v : Z) :=
  mk_snake (tile_x s) (tile_y s) (tile_width s) (tile_height s) (tile_columns_remaining s)
    (tile_columns_right_to_left s) (tile_rows_remaining s) (tile_defaults_width s)
    (tile_defaults_height s) v (grid_y s) (grid_width s) (grid_height s)
    (grid_columns_index s) (grid_columns_odd s) (grid_rows_odd s) (offsets_x s) (offsets_y s).
Definition set_grid_y (v : Z) :=
  mk_snake (tile_x s) (tile_y s) (tile_width s) (tile_height s) (tile_columns_remaining s)
    (tile_columns_right_to_left s) (tile_rows_remaining s) (tile_defaults_width s)
    (tile_defaults_height s) (grid_x s) v (grid_width s) (grid_height s)
    (grid_columns_index s) (grid_columns_odd s) (grid_rows_odd s) (offsets_x s) (offsets_y s).
Definition set_grid_columns_index (v : Z) :=
  mk_snake (tile_x s) (tile_y s) (tile_width s) (tile_height s) (tile_columns_remaining s)
    (tile_columns_right_to_left s) (tile_rows_remaining s) (tile_defaults_width s)
    (tile_defaults_height s) (grid_x s) (grid_y s) (grid_width s) (grid_height s)
    v (grid_columns_odd s) (grid_rows_odd s) (offsets_x s) (offsets_y s).
Definition set_grid_columns_odd (v : Z) :=
  mk_snake (tile_x s) (tile_y s) (tile_width s) (tile_height s) (tile_columns_remaining s)
    (tile_columns_right_to_left s) (tile_rows_remaining s) (tile_defaults_width s)
    (tile_defaults_height s) (grid_x s) (grid_y s) (grid_width s) (grid_height s)
    (grid_columns_index s) v (grid_rows_odd s) (offsets_x s) (offsets_y s).
Definition set_grid_rows_odd (v : Z) :=
  mk_snake (tile_x s) (tile_y s) (tile_width s) (tile_height s) (tile_columns_remaining s)
    (tile_columns_right_to_left s) (tile_rows_remaining s) (tile_defaults_width s)
    (tile_defaults_height s) (grid_x s) (grid_y s) (grid_width s) (grid_height s)
    (grid_columns_index s) (grid_columns_odd s) v (offsets_x s) (offsets_y s).
Definition set_offsets_x (v : Z) :=
  mk_snake (tile_x s) (tile_y s) (tile_width s) (tile_height s) (tile_columns_remaining s)
    (tile_columns_right_to_left s) (tile_rows_remaining s) (tile_defaults_width s)
    (tile_defaults_height s) (grid_x s) (grid_y s) (grid_width s) (grid_height s)
    (grid_columns_index s) (grid_columns_odd s) (grid_rows_odd s) v (offsets_y s).
Definition set_offsets_y (v : Z) :=
  mk_snake (tile_x s) (tile_y s) (tile_width s) (tile_height s) (tile_columns_remaining s)
    (tile_columns_right_to_left s) (tile_rows_remaining s) (tile_defaults_width s)
    (tile_defaults_height s) (grid_x s) (grid_y s) (grid_width s) (grid_height s)
    (grid_columns_index s) (grid_columns_odd s) (grid_rows_odd s) (offsets_x s) v.
End snake_setters.

(** The three labels of [SQZ_scan_snake], innermost first; each falls through
    to the [return 1] at the end of the function. *)
Definition snake_loop_tile_columns (s : SQZ_snake_scan_context_t) : Z * Z :=
  let x := usize ((if truthy (tile_columns_right_to_left s)
                   then usize (usize (tile_width s - 1) - tile_x s)
                   else tile_x s) + offsets_x s) in
  let y := usize ((if truthy (grid_columns_odd s)
                   then usize (usize (tile_height s - 1) - tile_y s)
                   else tile_y s) + offsets_y s) in
  (x, y).

Definition snake_loop_tile_rows (s : SQZ_snake_scan_context_t) : SQZ_snake_scan_context_t :=
  let row := if truthy (grid_columns_odd s)
             then usize (usize (tile_height s - 1) - tile_y s)
             else tile_y s in
  set_tile_columns_right_to_left s (Z.land (Z.lxor (grid_y s) row) 1).

Definition snake_loop_grid_columns (s : SQZ_snake_scan_context_t) : SQZ_snake_scan_context_t :=
  let width := usize (grid_width s - 1) in
  let s := set_grid_x s (if truthy (grid_rows_odd s)
                         then usize (width - grid_columns_index s)
                         else grid_columns_index s) in
  let s := set_grid_columns_odd s (Z.land (grid_x s) 1) in
  let s := set_tile_width s (if grid_x s <? width
                             then tile_defaults_width s
                             else tile_columns_remaining s) in
  let s := set_offsets_x s (usize (grid_x s * tile_defaults_width s)) in
  snake_loop_tile_rows s.

Definition snake_step (s : SQZ_snake_scan_context_t)
  : SQZ_snake_scan_context_t * option (Z * Z) :=
  let s := set_tile_x s (usize (tile_x s + 1)) in
  if tile_x s <? tile_width s then (s, Some (snake_loop_tile_columns s))
  else
    let s := set_tile_x s 0 in
    let s := set_tile_y s (usize (tile_y s + 1)) in
    if tile_y s <? tile_height s then
      let s := snake_loop_tile_rows s in
      (s, Some (snake_loop_tile_columns s))
    else
      let s := set_tile_y s 0 in
      let s := set_grid_columns_index s (usize (grid_columns_index s + 1)) in
      if grid_columns_index s <? grid_width s then
        let s := snake_loop_grid_columns s in
        (s, Some (snake_loop_tile_columns s))
      else
        let s := set_grid_columns_index s 0 in
        let s := set_grid_y s (usize (grid_y s + 1)) in
        if grid_y s <? grid_height s then
          let s := set_grid_rows_odd s (Z.land (grid_y s) 1) in
          let s := set_tile_height s (if grid_y s <? usize (grid_height s - 1)
                                      then tile_defaults_height s
                                      else tile_rows_remaining s) in
          let s := set_offsets_y s (usize (grid_y s * tile_defaults_height s)) in
          let s := snake_loop_grid_columns s in
          (s, Some (snake_loop_tile_columns s))
        else (s, None).

(** [SQZ_scan_snake]: the workspace steps, and the position is stored in the
    context when the step returns 1. *)
Definition SQZ_scan_snake (ctx : SQZ_scan_context_t) : SQZ_scan_context_t * Z :=
  match scan_workspace_of ctx with
  | WS_snake s =>
      match snake_step s with
      | (s, Some (x, y)) => (scan_set_xy (scan_set_workspace ctx (WS_snake s)) x y, 1)
      | (s, None) => (scan_set_workspace ctx (WS_snake s), 0)
      end
  | _ => (ctx, 0)
  end.

(** [step = -(abs(step) + k) * ((step > 0) - (step < 0))] *)
Definition snake_next_step (step k : Z) : Z :=
  s32 (s32 (- s32 (Z.abs step + k)) * (of_bool (0 <? step) - of_bool (step <? 0))).

(** First [for (;;)] of [SQZ_scan_init_snake_context]: returns the tile
    width and the number of columns of the grid. *)
Fixpoint snake_fit_columns (fuel : nat) (width tile_width step : Z) : option (Z * Z) :=
  match fuel with
  | O => None
  | S fuel' =>
      let grid_width := usize (usize (width + tile_width) - 1) / tile_width in
      if negb (truthy (Z.land grid_width 1)) then
        let tile_width := usize (tile_width + step) in
        let tile_width :=
          if width <? tile_width then width
          else if tile_width =? 0 then 1 else tile_width in
        snake_fit_columns fuel' width tile_width (snake_next_step step 1)
      else Some (tile_width, grid_width)
  end.

(** Second [for (;;)]: returns the tile height and the rows that remain for
    the last line of the grid. *)
Fixpoint snake_fit_rows (fuel : nat) (height tile_height step : Z) : option (Z * Z) :=
  match fuel with
  | O => None
  | S fuel' =>
      let remaining := height mod tile_height in
      if (0 <? remaining) && negb (truthy (Z.land remaining 1)) then
        let tile_height := usize (tile_height + step) in
        let tile_height :=
          if height <? tile_height then height
          else if tile_height =? 0 then 1 else tile_height in
        snake_fit_rows fuel' height tile_height (snake_next_step step 2)
      else Some (tile_height, if remaining =? 0 then tile_height else remaining)
  end.

Definition snake_init (fuel : nat) (width height tile_width tile_height : Z)
  : option SQZ_snake_scan_context_t :=
  let tile_width := if width <? tile_width then width else tile_width in
  let tile_height := if height <? tile_height then height else tile_height in
  '(tile_width, grid_width) ← snake_fit_columns fuel width tile_width 1;
  let columns_remaining := width mod tile_width in
  let columns_remaining := if columns_remaining =? 0 then tile_width else columns_remaining in
  let tile_w := if (1 <? grid_width) || (0 <? columns_remaining)
                then tile_width else columns_remaining in
  '(tile_height, rows_remaining) ← snake_fit_rows fuel height tile_height 2;
  let grid_height := usize (usize (height + tile_height) - 1) / tile_height in
  let tile_h := if (1 <? grid_height) || (0 <? rows_remaining)
                then tile_height else rows_remaining in
  Some (mk_snake 0 0 tile_w tile_h columns_remaining 0 rows_remaining tile_width tile_height
                 0 0 grid_width grid_height 0 0 0 0 0).

Definition SQZ_scan_init_snake_context (fuel : nat) (ctx : SQZ_scan_context_t)
  (width height tile_width tile_height : Z) : option SQZ_scan_context_t :=
  snake ← snake_init fuel width height tile_width tile_height;
  Some (mk_scan (WS_snake snake) Scan_snake SQZ_SCAN_ORDER_SNAKE 0 0
                (scan_width ctx) (scan_height ctx)).

(** *** Morton *)

(** The [do ... while (morton->index < length)] of [SQZ_scan_morton].  The
    index grows by one each turn, so [length - index] turns (one at least)
    are enough; the recursion is on that bound. *)
Fixpoint morton_loop (n : nat) (morton : SQZ_morton_scan_context_t) (width height : Z)
  : SQZ_morton_scan_context_t * option (Z * Z) :=
  match n with
  | O => (morton, None)
  | S n' =>
      let index := usize (morton_index morton + 1) in
      let morton := mk_morton (morton_range morton) (morton_mask morton) index
                              (morton_length morton) in
      let mask := morton_mask morton in
      let x := SQZ_deinterleave_u32_to_u16 (u32 (Z.land index mask)) in
      let y := SQZ_deinterleave_u32_to_u16 (u32 (Z.land (Z.shiftr index 1) mask)) in
      let m := u32 (Z.shiftr (Z.land index (usize (Z.lnot mask))) (morton_range morton)) in
      let x := if height <? width then Z.lor x m else x in
      let y := if height <? width then y else Z.lor y m in
      if (x <? width) && (y <? height) then (morton, Some (x, y))
      else if index <? morton_length morton then morton_loop n' morton width height
      else (morton, None)
  end.

(** The position is stored in the context at every turn of the loop, so the
    last one tried stays when the scan ends. *)
Definition morton_last (morton : SQZ_morton_scan_context_t) (width height : Z) : Z * Z :=
  let index := morton_index morton in
  let mask := morton_mask morton in
  let x := SQZ_deinterleave_u32_to_u16 (u32 (Z.land index mask)) in
  let y := SQZ_deinterleave_u32_to_u16 (u32 (Z.land (Z.shiftr index 1) mask)) in
  let m := u32 (Z.shiftr (Z.land index (usize (Z.lnot mask))) (morton_range morton)) in
  (if height <? width then Z.lor x m else x, if height <? width then y else Z.lor y m).

Definition SQZ_scan_morton (ctx : SQZ_scan_context_t) : SQZ_scan_context_t * Z :=
  match scan_workspace_of ctx with
  | WS_morton morton =>
      let n := S (Z.to_nat (morton_length morton - morton_index morton)) in
      match morton_loop n morton (scan_width ctx) (scan_height ctx) with
      | (morton, Some (x, y)) =>
          (scan_set_xy (scan_set_workspace ctx (WS_morton morton)) x y, 1)
      | (morton, None) =>
          let '(x, y) := morton_last morton (scan_width ctx) (scan_height ctx) in
          (scan_set_xy (scan_set_workspace ctx (WS_morton morton)) x y, 0)
      end
  | _ => (ctx, 0)
  end.

Definition SQZ_scan_init_morton_context (ctx : SQZ_scan_context_t) (width height : Z)
  : SQZ_scan_context_t :=
  let range := SQZ_ilog2 (u32 (usize ((if height <? width then height else width) - 1))) in
  let mask := usize (usize (Z.shiftl 1 (usize (range * 2))) - 1) in
  let length :=
    usize (Z.shiftl 1 (usize (range + SQZ_ilog2 (u32 (usize ((if height <? width
                                                           then width else height) - 1)))))) in
  mk_scan (WS_morton (mk_morton range mask 0 length)) Scan_morton SQZ_SCAN_ORDER_MORTON
          0 0 width height.

(** *** Hilbert *)

Definition SQZ_sign (x : Z) : Z := if x <? 0 then -1 else if 0 <? x then 1 else 0.

Definition SQZ_scan_hilbert_stack_push (stack : list SQZ_hilbert_scan_stack_item_t)
  (x y ax ay bx b_y : Z) : list SQZ_hilbert_scan_stack_item_t :=
  mk_item x y ax ay bx b_y :: stack.

Section hilbert_setters.
Variable h : SQZ_hilbert_scan_context_t.

Definition set_hilbert_stack (v : list SQZ_hilbert_scan_stack_item_t) :=
  mk_hilbert v (hilbert_width h) (hilbert_height h) (hilbert_dax h) (hilbert_day h)
             (hilbert_dbx h) (hilbert_dby h) (hilbert_index h).
Definition set_hilbert_index (v : Z) :=
  mk_hilbert (hilbert_stack h) (hilbert_width h) (hilbert_height h) (hilbert_dax h)
             (hilbert_day h) (hilbert_dbx h) (hilbert_dby h) v.
End hilbert_setters.

(** The [if (hilbert->index < 0)] block: the extent and the directions of
    the frame on top of the stack are cached. *)
Definition hilbert_enter (h : SQZ_hilbert_scan_context_t) (item : SQZ_hilbert_scan_stack_item_t)
  : SQZ_hilbert_scan_context_t :=
  if hilbert_index h <? 0 then
    mk_hilbert (hilbert_stack h)
               (s32 (Z.abs (s32 (item_ax item + item_ay item))))
               (s32 (Z.abs (s32 (item_bx item + item_by item))))
               (SQZ_sign (item_ax item)) (SQZ_sign (item_ay item))
               (SQZ_sign (item_bx item)) (SQZ_sign (item_by item)) 0
  else h.

(** The frames pushed when the frame [current] is divided. *)
Definition hilbert_split (h : SQZ_hilbert_scan_context_t)
  (current : SQZ_hilbert_scan_stack_item_t) (stack : list SQZ_hilbert_scan_stack_item_t)
  : list SQZ_hilbert_scan_stack_item_t :=
  let x := item_x current in
  let y := item_y current in
  let ax := item_ax current in
  let ay := item_ay current in
  let bx := item_bx current in
  let b_y := item_by current in
  let ax2 := Z.quot ax 2 in
  let ay2 := Z.quot ay 2 in
  let bx2 := Z.quot bx 2 in
  let by2 := Z.quot b_y 2 in
  let w2 := s32 (Z.abs (s32 (ax2 + ay2))) in
  let h2 := s32 (Z.abs (s32 (bx2 + by2))) in
  if s32 (3 * hilbert_height h) <? s32 (2 * hilbert_width h) then
    let nudge := negb (Z.rem w2 2 =? 0) && (2 <? hilbert_width h) in
    let ax2 := if nudge then s32 (ax2 + hilbert_dax h) else ax2 in
    let ay2 := if nudge then s32 (ay2 + hilbert_day h) else ay2 in
    let stack := SQZ_scan_hilbert_stack_push stack (s32 (x + ax2)) (s32 (y + ay2))
                   (s32 (ax - ax2)) (s32 (ay - ay2)) bx b_y in
    SQZ_scan_hilbert_stack_push stack x y ax2 ay2 bx b_y
  else
    let nudge := negb (Z.rem h2 2 =? 0) && (2 <? hilbert_height h) in
    let bx2 := if nudge then s32 (bx2 + hilbert_dbx h) else bx2 in
    let by2 := if nudge then s32 (by2 + hilbert_dby h) else by2 in
    let stack := SQZ_scan_hilbert_stack_push stack
                   (s32 (s32 (x + s32 (ax - hilbert_dax h)) + s32 (bx2 - hilbert_dbx h)))
                   (s32 (s32 (y + s32 (ay - hilbert_day h)) + s32 (by2 - hilbert_dby h)))
                   (s32 (- bx2)) (s32 (- by2))
                   (s32 (- s32 (ax - ax2))) (s32 (- s32 (ay - ay2))) in
    let stack := SQZ_scan_hilbert_stack_push stack (s32 (x + bx2)) (s32 (y + by2))
                   ax ay (s32 (bx - bx2)) (s32 (b_y - by2)) in
    SQZ_scan_hilbert_stack_push stack x y bx2 by2 ax2 ay2.

(** A frame that is one cell high or wide is walked cell by cell along
    [(dx, dy)]. *)
Definition hilbert_walk (h : SQZ_hilbert_scan_context_t) (item : SQZ_hilbert_scan_stack_item_t)
  (rest : list SQZ_hilbert_scan_stack_item_t) (dx dy : Z)
  : SQZ_hilbert_scan_context_t * (Z * Z) :=
  let item' := mk_item (s32 (item_x item + dx)) (s32 (item_y item + dy))
                       (item_ax item) (item_ay item) (item_bx item) (item_by item) in
  let h := set_hilbert_stack h (item' :: rest) in
  (set_hilbert_index h (s32 (hilbert_index h + 1)),
   (usize (item_x item), usize (item_y item))).

(** [SQZ_scan_hilbert] from the label [loop]; [None] when the fuel runs out,
    otherwise the workspace and the position found, if any. *)
Fixpoint hilbert_loop (fuel : nat) (h : SQZ_hilbert_scan_context_t)
  : option (SQZ_hilbert_scan_context_t * option (Z * Z)) :=
  match fuel with
  | O => None
  | S fuel' =>
      match hilbert_stack h with
      | [] => Some (h, None)
      | item :: rest =>
          let h := hilbert_enter h item in
          if hilbert_height h =? 1 then
            if hilbert_index h <? hilbert_width h then
              let '(h, p) := hilbert_walk h item rest (hilbert_dax h) (hilbert_day h) in
              Some (h, Some p)
            else hilbert_loop fuel' (set_hilbert_index (set_hilbert_stack h rest) (-1))
          else if hilbert_width h =? 1 then
            if hilbert_index h <? hilbert_height h then
              let '(h, p) := hilbert_walk h item rest (hilbert_dbx h) (hilbert_dby h) in
              Some (h, Some p)
            else hilbert_loop fuel' (set_hilbert_index (set_hilbert_stack h rest) (-1))
          else
            let stack := hilbert_split h item rest in
            hilbert_loop fuel' (set_hilbert_index (set_hilbert_stack h stack) (-1))
      end
  end.

Definition SQZ_scan_hilbert (fuel : nat) (ctx : SQZ_scan_context_t)
  : option (SQZ_scan_context_t * Z) :=
  match scan_workspace_of ctx with
  | WS_hilbert h =>
      r ← hilbert_loop fuel h;
      match r with
      | (h, Some (x, y)) => Some (scan_set_xy (scan_set_workspace ctx (WS_hilbert h)) x y, 1)
      | (h, None) => Some (scan_set_workspace ctx (WS_hilbert h), 0)
      end
  | _ => Some (ctx, 0)
  end.

Definition SQZ_scan_init_hilbert_context (fuel : nat) (ctx : SQZ_scan_context_t)
  (width height : Z) : option SQZ_scan_context_t :=
  let stack :=
    if height <=? width
    then SQZ_scan_hilbert_stack_push [] 0 0 (s32 width) 0 0 (s32 height)
    else SQZ_scan_hilbert_stack_push [] 0 0 0 (s32 height) (s32 width) 0 in
  let h := mk_hilbert stack 0 0 0 0 0 0 (-1) in
  let ctx := mk_scan (WS_hilbert h) (scan_fn_of ctx) SQZ_SCAN_ORDER_HILBERT
                     (scan_x ctx) (scan_y ctx) (scan_width ctx) (scan_height ctx) in
  '(ctx, _) ← SQZ_scan_hilbert fuel ctx;
  Some (mk_scan (scan_workspace_of ctx) Scan_hilbert (scan_type ctx) (scan_x ctx) (scan_y ctx)
                (scan_width ctx) (scan_height ctx)).

(** [scan_ctx->scan(scan_ctx)] *)
Definition call_scan (fuel : nat) (ctx : SQZ_scan_context_t)
  : option (SQZ_scan_context_t * Z) :=
  match scan_fn_of ctx with
  | Scan_null => None
  | Scan_raster => Some (SQZ_scan_raster ctx)
  | Scan_snake => Some (SQZ_scan_snake ctx)
  | Scan_morton => Some (SQZ_scan_morton ctx)
  | Scan_hilbert => SQZ_scan_hilbert fuel ctx
  end.

Definition SQZ_SCAN_SNAKE_DEFAULT_TILE_WIDTH := 4.
Definition SQZ_SCAN_SNAKE_DEFAULT_TILE_HEIGHT := 15.

Definition SQZ_scan_init_dims (fuel : nat) (ctx : SQZ_scan_context_t) (width height : Z)
  : option (SQZ_scan_context_t * SQZ_status_t) :=
  if scan_type ctx =? SQZ_SCAN_ORDER_RASTER then
    Some (SQZ_scan_init_raster_context ctx width height, SQZ_RESULT_OK)
  else if scan_type ctx =? SQZ_SCAN_ORDER_SNAKE then
    ctx ← SQZ_scan_init_snake_context fuel ctx width height
            SQZ_SCAN_SNAKE_DEFAULT_TILE_WIDTH SQZ_SCAN_SNAKE_DEFAULT_TILE_HEIGHT;
    Some (ctx, SQZ_RESULT_OK)
  else if scan_type ctx =? SQZ_SCAN_ORDER_MORTON then
    Some (SQZ_scan_init_morton_context ctx width height, SQZ_RESULT_OK)
  else if scan_type ctx =? SQZ_SCAN_ORDER_HILBERT then
    ctx ← SQZ_scan_init_hilbert_context fuel ctx width height;
    Some (ctx, SQZ_RESULT_OK)
  else Some (ctx, SQZ_INVALID_PARAMETER).

(** ** Subbands, planes and the codec context

    [ctx_data] is the one allocation that holds the coefficients of all the
    planes; [plane_data] and [band_data] are offsets into it.  The array
    [band[SQZ_DWT_MAX_LEVEL][SQZ_DWT_SUBBANDS]] of a plane is laid out row
    by row. *)

Record SQZ_dwt_subband_t := mk_band {
  band_cache : SQZ_list_node_cache_t;
  LIP : SQZ_list_t;
  LSP : SQZ_list_t;
  NSP : SQZ_list_t;
  band_data : Z;
  band_width : Z;
  band_height : Z;
  band_stride : Z;
  band_max_bitplane : Z;
  band_bitplane : Z;
  band_round : Z
}.

Definition band_zero : SQZ_dwt_subband_t :=
  mk_band (mk_cache 0 0) [] [] [] 0 0 0 0 0 0 0.

#[global] Instance band_inhabited : Inhabited SQZ_dwt_subband_t := populate band_zero.

Record SQZ_spectral_plane_t := mk_plane {
  plane_band : list SQZ_dwt_subband_t;
  plane_data : Z
}.

Definition plane_zero : SQZ_spectral_plane_t :=
  mk_plane (replicate (Z.to_nat (SQZ_DWT_MAX_LEVEL * SQZ_DWT_SUBBANDS)) band_zero) 0.

#[global] Instance plane_inhabited : Inhabited SQZ_spectral_plane_t := populate plane_zero.

Record SQZ_context_t := mk_context {
  ctx_plane : list SQZ_spectral_plane_t;
  ctx_data : list Z;
  ctx_buffer : SQZ_bit_buffer_t;
  ctx_image : SQZ_image_descriptor_t
}.

(** [SQZ_context_t ctx = { 0 }] with the image descriptor and the bit buffer
    that the callers fill in next. *)
Definition context_zero (image : SQZ_image_descriptor_t) (buffer : SQZ_bit_buffer_t)
  : SQZ_context_t :=
  mk_context (replicate (Z.to_nat SQZ_SPECTRAL_PLANES) plane_zero) [] buffer image.

Definition ctx_set_data (ctx : SQZ_context_t) (data : list Z) : SQZ_context_t :=
  mk_context (ctx_plane ctx) data (ctx_buffer ctx) (ctx_image ctx).

Definition ctx_set_buffer (ctx : SQZ_context_t) (buffer : SQZ_bit_buffer_t) : SQZ_context_t :=
  mk_context (ctx_plane ctx) (ctx_data ctx) buffer (ctx_image ctx).

Definition band_slot (level orientation : Z) : nat :=
  Z.to_nat (level * SQZ_DWT_SUBBANDS + orientation).

(** [ctx->plane[plane].band[level][orientation]] *)
Definition get_band (ctx : SQZ_context_t) (plane level orientation : Z) : SQZ_dwt_subband_t :=
  plane_band (ctx_plane ctx !!! Z.to_nat plane) !!! band_slot level orientation.

Definition set_band (ctx : SQZ_context_t) (plane level orientation : Z)
  (band : SQZ_dwt_subband_t) : SQZ_context_t :=
  let p := ctx_plane ctx !!! Z.to_nat plane in
  let p := mk_plane (<[band_slot level orientation := band]> (plane_band p)) (plane_data p) in
  mk_context (<[Z.to_nat plane := p]> (ctx_plane ctx)) (ctx_data ctx) (ctx_buffer ctx)
             (ctx_image ctx).

Definition get_plane_data (ctx : SQZ_context_t) (plane : Z) : Z :=
  plane_data (ctx_plane ctx !!! Z.to_nat plane).

Definition set_plane_data (ctx : SQZ_context_t) (plane : Z) (data : Z) : SQZ_context_t :=
  let p := ctx_plane ctx !!! Z.to_nat plane in
  mk_context (<[Z.to_nat plane := mk_plane (plane_band p) data]> (ctx_plane ctx))
             (ctx_data ctx) (ctx_buffer ctx) (ctx_image ctx).

Definition SQZ_scan_init (fuel : nat) (ctx : SQZ_scan_context_t) (band : SQZ_dwt_subband_t)
  : option (SQZ_scan_context_t * SQZ_status_t) :=
  SQZ_scan_init_dims fuel ctx (band_width band) (band_height band).

(** ** Counted loops

    [for (i = lo; i < hi; ++i) body] over a state. *)
Fixpoint for_loop {T : Type} (n : nat) (i : Z) (body : Z → T → T) (s : T) : T :=
  match n with
  | O => s
  | S n' => for_loop n' (i + 1) body (body i s)
  end.

Definition for_range {T : Type} (lo hi : Z) (body : Z → T → T) (s : T) : T :=
  for_loop (Z.to_nat (hi - lo)) lo body s.

(** ** Color transforms *)

Definition s64 (z : Z) : Z := (z + 2 ^ 63) mod 2 ^ 64 - 2 ^ 63.

Definition SQZ_COLOR_8BPC_LEVEL_OFFSET := 128.

Definition SQZ_COLOR_CLIP (v : Z) : Z :=
  if v <? 0 then 0 else if 255 <? v then 255 else u8 v.

Definition SQZ_color_process_grayscale (ctx : SQZ_context_t) (buffer : list Z) (read : bool)
  : SQZ_context_t * list Z :=
  let length := usize (width (ctx_image ctx) * height (ctx_image ctx)) in
  if read then
    (ctx_set_data ctx
       (for_range 0 length
          (fun i data => store data i (s16 (s16 (load buffer i) - SQZ_COLOR_8BPC_LEVEL_OFFSET)))
          (ctx_data ctx)),
     buffer)
  else
    (ctx,
     for_range 0 length
       (fun i ptr =>
          let v := s16 (load (ctx_data ctx) i + SQZ_COLOR_8BPC_LEVEL_OFFSET) in
          store ptr i (if v <? 0 then 0 else if 255 <? v then 255 else u8 v))
       buffer).

Definition SQZ_color_process_ycocg_r (ctx : SQZ_context_t) (buffer : list Z) (read : bool)
  : SQZ_context_t * list Z :=
  let Y := get_plane_data ctx 0 in
  let Co := get_plane_data ctx 1 in
  let Cg := get_plane_data ctx 2 in
  let length := usize (width (ctx_image ctx) * height (ctx_image ctx)) in
  if read then
    (ctx_set_data ctx
       (for_range 0 length
          (fun i data =>
             let R := s16 (load buffer (3 * i)) in
             let G := s16 (load buffer (3 * i + 1)) in
             let B := s16 (load buffer (3 * i + 2)) in
             let t := s16 (Z.shiftr (R + B) 1) in
             let data := store data (Y + i)
                           (s16 (Z.shiftr (t + G) 1 - SQZ_COLOR_8BPC_LEVEL_OFFSET)) in
             let data := store data (Co + i) (s16 (R - B)) in
             store data (Cg + i) (s16 (G - t)))
          (ctx_data ctx)),
     buffer)
  else
    (ctx,
     for_range 0 length
       (fun i ptr =>
          let Y_ := s16 (load (ctx_data ctx) (Y + i) + SQZ_COLOR_8BPC_LEVEL_OFFSET) in
          let Co_ := load (ctx_data ctx) (Co + i) in
          let Cg_ := load (ctx_data ctx) (Cg + i) in
          let B := s16 (Y_ + Z.shiftr (1 - Cg_) 1 - Z.shiftr Co_ 1) in
          let G := s16 (Y_ - Z.shiftr (- Cg_) 1) in
          let R := s16 (Co_ + B) in
          let ptr := store ptr (3 * i) (SQZ_COLOR_CLIP R) in
          let ptr := store ptr (3 * i + 1) (SQZ_COLOR_CLIP G) in
          store ptr (3 * i + 2) (SQZ_COLOR_CLIP B))
       buffer).

Definition SQZ_COLOR_LINEAR_PRECISION := 16.
Definition SQZ_COLOR_LINEAR_MAX := 2 ^ 16 - 1.
Definition SQZ_COLOR_LINEAR_TO_SRGB_PRECISION := 9.
Definition SQZ_COLOR_LINEAR_TO_SRGB_LUT_SIZE := 2 ^ 9 - 1.

Definition SQZ_sRGB_to_linear : list Z :=
  [0; 20; 40; 60; 80; 99; 119; 139; 159; 179; 199; 219; 241; 264; 288; 313;
   340; 367; 396; 427; 458; 491; 526; 562; 599; 637; 677; 718; 761; 805; 851; 898;
   947; 997; 1048; 1101; 1156; 1212; 1270; 1330; 1391; 1453; 1517; 1583; 1651; 1720; 1790; 1863;
   1937; 2013; 2090; 2170; 2250; 2333; 2418; 2504; 2592; 2681; 2773; 2866; 2961; 3058; 3157; 3258;
   3360; 3464; 3570; 3678; 3788; 3900; 4014; 4129; 4247; 4366; 4488; 4611; 4736; 4864; 4993; 5124;
   5257; 5392; 5530; 5669; 5810; 5953; 6099; 6246; 6395; 6547; 6700; 6856; 7014; 7174; 7335; 7500;
   7666; 7834; 8004; 8177; 8352; 8528; 8708; 8889; 9072; 9258; 9445; 9635; 9828; 10022; 10219; 10417;
   10619; 10822; 11028; 11235; 11446; 11658; 11873; 12090; 12309; 12530; 12754; 12980; 13209; 13440; 13673; 13909;
   14146; 14387; 14629; 14874; 15122; 15371; 15623; 15878; 16135; 16394; 16656; 16920; 17187; 17456; 17727; 18001;
   18277; 18556; 18837; 19121; 19407; 19696; 19987; 20281; 20577; 20876; 21177; 21481; 21787; 22096; 22407; 22721;
   23038; 23357; 23678; 24002; 24329; 24658; 24990; 25325; 25662; 26001; 26344; 26688; 27036; 27386; 27739; 28094;
   28452; 28813; 29176; 29542; 29911; 30282; 30656; 31033; 31412; 31794; 32179; 32567; 32957; 33350; 33745; 34143;
   34544; 34948; 35355; 35764; 36176; 36591; 37008; 37429; 37852; 38278; 38706; 39138; 39572; 40009; 40449; 40891;
   41337; 41785; 42236; 42690; 43147; 43606; 44069; 44534; 45002; 45473; 45947; 46423; 46903; 47385; 47871; 48359;
   48850; 49344; 49841; 50341; 50844; 51349; 51858; 52369; 52884; 53401; 53921; 54445; 54971; 55500; 56032; 56567;
   57105; 57646; 58190; 58737; 59287; 59840; 60396; 60955; 61517; 62082; 62650; 63221; 63795; 64372; 64952; 65535].

Definition SQZ_linear_to_sRGB : list Z :=
  [0; 6; 13; 18; 22; 25; 28; 31; 34; 36; 38; 40; 42; 44; 46; 48;
   50; 51; 53; 54; 56; 57; 59; 60; 61; 62; 64; 65; 66; 67; 69; 70;
   71; 72; 73; 74; 75; 76; 77; 78; 79; 80; 81; 82; 83; 84; 85; 86;
   86; 87; 88; 89; 90; 91; 91; 92; 93; 94; 95; 95; 96; 97; 98; 98;
   99; 100; 101; 101; 102; 103; 103; 104; 105; 106; 106; 107; 108; 108; 109; 110;
   110; 111; 111; 112; 113; 113; 114; 115; 115; 116; 116; 117; 118; 118; 119; 119;
   120; 121; 121; 122; 122; 123; 123; 124; 125; 125; 126; 126; 127; 127; 128; 128;
   129; 129; 130; 130; 131; 132; 132; 133; 133; 134; 134; 135; 135; 136; 136; 137;
   137; 138; 138; 139; 139; 140; 140; 140; 141; 141; 142; 142; 143; 143; 144; 144;
   145; 145; 146; 146; 147; 147; 147; 148; 148; 149; 149; 150; 150; 151; 151; 151;
   152; 152; 153; 153; 154; 154; 154; 155; 155; 156; 156; 156; 157; 157; 158; 158;
   159; 159; 159; 160; 160; 161; 161; 161; 162; 162; 163; 163; 163; 164; 164; 165;
   165; 165; 166; 166; 166; 167; 167; 168; 168; 168; 169; 169; 169; 170; 170; 171;
   171; 171; 172; 172; 172; 173; 173; 174; 174; 174; 175; 175; 175; 176; 176; 176;
   177; 177; 177; 178; 178; 179; 179; 179; 180; 180; 180; 181; 181; 181; 182; 182;
   182; 183; 183; 183; 184; 184; 184; 185; 185; 185; 186; 186; 186; 187; 187; 187;
   188; 188; 188; 189; 189; 189; 190; 190; 190; 191; 191; 191; 192; 192; 192; 193;
   193; 193; 193; 194; 194; 194; 195; 195; 195; 196; 196; 196; 197; 197; 197; 198;
   198; 198; 198; 199; 199; 199; 200; 200; 200; 201; 201; 201; 201; 202; 202; 202;
   203; 203; 203; 204; 204; 204; 204; 205; 205; 205; 206; 206; 206; 206; 207; 207;
   207; 208; 208; 208; 208; 209; 209; 209; 210; 210; 210; 210; 211; 211; 211; 212;
   212; 212; 212; 213; 213; 213; 214; 214; 214; 214; 215; 215; 215; 215; 216; 216;
   216; 217; 217; 217; 217; 218; 218; 218; 218; 219; 219; 219; 220; 220; 220; 220;
   221; 221; 221; 221; 222; 222; 222; 222; 223; 223; 223; 224; 224; 224; 224; 225;
   225; 225; 225; 226; 226; 226; 226; 227; 227; 227; 227; 228; 228; 228; 228; 229;
   229; 229; 229; 230; 230; 230; 230; 231; 231; 231; 231; 232; 232; 232; 232; 233;
   233; 233; 233; 234; 234; 234; 234; 235; 235; 235; 235; 236; 236; 236; 236; 237;
   237; 237; 237; 238; 238; 238; 238; 239; 239; 239; 239; 239; 240; 240; 240; 240;
   241; 241; 241; 241; 242; 242; 242; 242; 243; 243; 243; 243; 243; 244; 244; 244;
   244; 245; 245; 245; 245; 246; 246; 246; 246; 246; 247; 247; 247; 247; 248; 248;
   248; 248; 249; 249; 249; 249; 249; 250; 250; 250; 250; 251; 251; 251; 251; 251;
   252; 252; 252; 252; 253; 253; 253; 253; 253; 254; 254; 254; 254; 255; 255; 255].

Definition SQZ_linear_i32_to_sRGB_u8 (v : Z) : Z :=
  if v <=? 0 then 0
  else if SQZ_COLOR_LINEAR_MAX <=? v then 255
  else
    let vmul := s32 (v * SQZ_COLOR_LINEAR_TO_SRGB_LUT_SIZE) in
    let offset := Z.shiftr vmul SQZ_COLOR_LINEAR_PRECISION in
    let interpoland := Z.land vmul SQZ_COLOR_LINEAR_MAX in
    let base := load SQZ_linear_to_sRGB offset in
    u8 (base + Z.shiftr (s32 (interpoland * (load SQZ_linear_to_sRGB (offset + 1) - base)))
                        SQZ_COLOR_LINEAR_PRECISION).

(** One turn of the [for] of [SQZ_i32_cbrt_01]. *)
Definition cbrt_iteration (v root : Z) : Z :=
  let n := s64 (s64 (root * root) * root) in
  let denominator := s64 (v + Z.shiftr n (SQZ_COLOR_LINEAR_PRECISION * 2 - 1)) in
  s64 (Z.quot (s64 (root * s64 (2 * v + Z.shiftr n (SQZ_COLOR_LINEAR_PRECISION * 2))))
              denominator).

Definition SQZ_i32_cbrt_01 (v : Z) : Z :=
  if v <=? 0 then 0
  else if SQZ_COLOR_LINEAR_MAX <=? v then SQZ_COLOR_LINEAR_MAX
  else
    let root :=
      s64 (Z.shiftr (s64 (v * s64 (Z.shiftr (s64 (v * (v - 144107)))
                                            SQZ_COLOR_LINEAR_PRECISION + 132114)))
                    SQZ_COLOR_LINEAR_PRECISION + 14379) in
    s32 (cbrt_iteration v (cbrt_iteration v root)).

Definition SQZ_COLOR_OKLAB_PRECISION := 12.
Definition SQZ_COLOR_OKLAB_MUL := 2 ^ (SQZ_COLOR_LINEAR_PRECISION - SQZ_COLOR_OKLAB_PRECISION).
Definition SQZ_COLOR_OKLAB_LEVEL_OFFSET := 2 ^ (SQZ_COLOR_OKLAB_PRECISION - 1).

Definition SQZ_color_process_oklab (ctx : SQZ_context_t) (buffer : list Z) (read : bool)
  : SQZ_context_t * list Z :=
  let L := get_plane_data ctx 0 in
  let a := get_plane_data ctx 1 in
  let b := get_plane_data ctx 2 in
  let length := usize (width (ctx_image ctx) * height (ctx_image ctx)) in
  let half := Z.quot SQZ_COLOR_LINEAR_MAX 2 in
  if read then
    (ctx_set_data ctx
       (for_range 0 length
          (fun i data =>
             let R := load SQZ_sRGB_to_linear (load buffer (3 * i)) in
             let G := load SQZ_sRGB_to_linear (load buffer (3 * i + 1)) in
             let B := load SQZ_sRGB_to_linear (load buffer (3 * i + 2)) in
             let l := SQZ_i32_cbrt_01 (s32 (Z.shiftr (27015 * R + 35149 * G + 3372 * B)
                                                     SQZ_COLOR_LINEAR_PRECISION)) in
             let m := SQZ_i32_cbrt_01 (s32 (Z.shiftr (13887 * R + 44610 * G + 7038 * B)
                                                     SQZ_COLOR_LINEAR_PRECISION)) in
             let s := SQZ_i32_cbrt_01 (s32 (Z.shiftr (5787 * R + 18462 * G + 41286 * B)
                                                     SQZ_COLOR_LINEAR_PRECISION)) in
             let data := store data (L + i)
                           (s16 (Z.shiftr (862 * l + 3250 * m - 17 * s + half)
                                          SQZ_COLOR_LINEAR_PRECISION
                                 - SQZ_COLOR_OKLAB_LEVEL_OFFSET)) in
             let data := store data (a + i)
                           (s16 (Z.shiftr (8100 * l - 9945 * m + 1845 * s + half)
                                          SQZ_COLOR_LINEAR_PRECISION)) in
             store data (b + i)
                   (s16 (Z.shiftr (106 * l + 3205 * m - 3311 * s + half)
                                  SQZ_COLOR_LINEAR_PRECISION)))
          (ctx_data ctx)),
     buffer)
  else
    (ctx,
     for_range 0 length
       (fun i ptr =>
          let L_ := s16 (load (ctx_data ctx) (L + i) + SQZ_COLOR_OKLAB_LEVEL_OFFSET) in
          let a_ := load (ctx_data ctx) (a + i) in
          let b_ := load (ctx_data ctx) (b + i) in
          let l_ := s64 (L_ * SQZ_COLOR_OKLAB_MUL
                         + Z.shiftr (25974 * a_ + 14143 * b_) SQZ_COLOR_OKLAB_PRECISION) in
          let m_ := s64 (L_ * SQZ_COLOR_OKLAB_MUL
                         + Z.shiftr (-6918 * a_ - 4185 * b_) SQZ_COLOR_OKLAB_PRECISION) in
          let s_ := s64 (L_ * SQZ_COLOR_OKLAB_MUL
                         + Z.shiftr (-5864 * a_ - 84638 * b_) SQZ_COLOR_OKLAB_PRECISION) in
          let l := Z.shiftr (s64 (s64 (l_ * l_) * l_)) (SQZ_COLOR_LINEAR_PRECISION * 2) in
          let m := Z.shiftr (s64 (s64 (m_ * m_) * m_)) (SQZ_COLOR_LINEAR_PRECISION * 2) in
          let s := Z.shiftr (s64 (s64 (s_ * s_) * s_)) (SQZ_COLOR_LINEAR_PRECISION * 2) in
          let ptr := store ptr (3 * i)
                       (SQZ_linear_i32_to_sRGB_u8
                          (s32 (Z.shiftr (s64 (267169 * l - 216771 * m + 15137 * s))
                                         SQZ_COLOR_LINEAR_PRECISION))) in
          let ptr := store ptr (3 * i + 1)
                       (SQZ_linear_i32_to_sRGB_u8
                          (s32 (Z.shiftr (s64 (-83127 * l + 171030 * m - 22368 * s))
                                         SQZ_COLOR_LINEAR_PRECISION))) in
          store ptr (3 * i + 2)
                (SQZ_linear_i32_to_sRGB_u8
                   (s32 (Z.shiftr (s64 (-275 * l - 46099 * m + 111909 * s))
                                  SQZ_COLOR_LINEAR_PRECISION))))
       buffer).

Definition SQZ_COLOR_LOGL1_LEVEL_OFFSET := 221.

Definition SQZ_color_process_logl1 (ctx : SQZ_context_t) (buffer : list Z) (read : bool)
  : SQZ_context_t * list Z :=
  let Y := get_plane_data ctx 0 in
  let c0 := get_plane_data ctx 1 in
  let c1 := get_plane_data ctx 2 in
  let length := usize (width (ctx_image ctx) * height (ctx_image ctx)) in
  if read then
    (ctx_set_data ctx
       (for_range 0 length
          (fun i data =>
             let R := s16 (load buffer (3 * i)) in
             let G := s16 (load buffer (3 * i + 1)) in
             let B := s16 (load buffer (3 * i + 2)) in
             let data := store data (Y + i)
                           (s16 (Z.shiftr (s32 (33779 * R + 41184 * G + 38182 * B)) 16
                                 - SQZ_COLOR_LOGL1_LEVEL_OFFSET)) in
             let data := store data (c0 + i)
                           (s16 (Z.shiftr (s32 (-52830 * R + 8188 * G + 37906 * B)) 16)) in
             store data (c1 + i)
                   (s16 (Z.shiftr (s32 (19051 * R - 50317 * G + 37420 * B)) 16)))
          (ctx_data ctx)),
     buffer)
  else
    (ctx,
     for_range 0 length
       (fun i ptr =>
          let Y_ := s16 (load (ctx_data ctx) (Y + i) + SQZ_COLOR_LOGL1_LEVEL_OFFSET) in
          let c0_ := load (ctx_data ctx) (c0 + i) in
          let c1_ := load (ctx_data ctx) (c1 + i) in
          let R := s16 (Z.shiftr (s32 (33779 * Y_ - 52830 * c0_ + 19051 * c1_)) 16) in
          let G := s16 (Z.shiftr (s32 (41184 * Y_ + 8188 * c0_ - 50317 * c1_)) 16) in
          let B := s16 (Z.shiftr (s32 (38182 * Y_ + 37906 * c0_ + 37420 * c1_)) 16) in
          let ptr := store ptr (3 * i) (SQZ_COLOR_CLIP R) in
          let ptr := store ptr (3 * i + 1) (SQZ_COLOR_CLIP G) in
          store ptr (3 * i + 2) (SQZ_COLOR_CLIP B))
       buffer).

Definition SQZ_color_process (ctx : SQZ_context_t) (buffer : list Z) (read : bool)
  : SQZ_context_t * list Z :=
  let mode := color_mode (ctx_image ctx) in
  if mode =? SQZ_COLOR_MODE_GRAYSCALE then SQZ_color_process_grayscale ctx buffer read
  else if mode =? SQZ_COLOR_MODE_YCOCG_R then SQZ_color_process_ycocg_r ctx buffer read
  else if mode =? SQZ_COLOR_MODE_OKLAB then SQZ_color_process_oklab ctx buffer read
  else if mode =? SQZ_COLOR_MODE_LOG_L1 then SQZ_color_process_logl1 ctx buffer read
  else (ctx, buffer).

(** ** Coefficients *)

Definition SQZ_dwt_get_max (data : list Z) (band : SQZ_dwt_subband_t) : Z :=
  for_range 0 (band_height band)
    (fun y max =>
       let ptr := band_data band + y * band_stride band in
       for_range 0 (band_width band)
         (fun x max => if max <? load data (ptr + x) then load data (ptr + x) else max)
         max)
    (load data (band_data band)).

Definition SQZ_dwt_convert_to_sign_magnitude (ctx : SQZ_context_t) : SQZ_context_t :=
  let image := ctx_image ctx in
  let size := usize (usize (width image * height image) * num_planes image) in
  ctx_set_data ctx
    (for_range 0 size
       (fun i data =>
          let v := load data i in
          store data i (s16 (if v <? 0 then Z.lor (-2 * v) 1 else 2 * v)))
       (ctx_data ctx)).

Definition SQZ_dwt_convert_from_sign_magnitude (ctx : SQZ_context_t) : SQZ_context_t :=
  let image := ctx_image ctx in
  let size := usize (usize (width image * height image) * num_planes image) in
  ctx_set_data ctx
    (for_range 0 size
       (fun i data =>
          let v := load data i in
          store data i (s16 (if truthy (Z.land v 1) then - Z.shiftr v 1 else Z.shiftr v 1)))
       (ctx_data ctx)).

(** ** Reversible 5/3 wavelet transform

    [data] is the coefficient allocation, [row] the offset of the line the
    pass works on, [scratch] the line buffer of [SQZ_dwt] and [SQZ_idwt]. *)

Record dwt_lift := mk_lift {
  lift_data : list Z;
  lift_cf0 : Z;
  lift_cf1 : Z;
  lift_cf2 : Z;
  lift_cf3 : Z
}.

(** The two-at-a-time [for (i = 1u; i < w; ++i)] of the forward pass. *)
Fixpoint dwt_horizontal_loop (n : nat) (i w : Z) (scratch : list Z) (l_band h_band odds : Z)
  (st : dwt_lift) : dwt_lift :=
  match n with
  | O => st
  | S n' =>
      if i <? w then
        let '(mk_lift data cf0 cf1 cf2 cf3) := st in
        let cf3 := load scratch (odds + i) in
        let cf0 := load scratch (i + 1) in
        let cf3 := s32 (cf3 + Z.shiftr (- (cf2 + cf0)) 1) in
        let data := store data (h_band + i) (s16 cf3) in
        let cf2 := s32 (cf2 + Z.shiftr (cf1 + cf3 + 2) 2) in
        let data := store data (l_band + i) (s16 cf2) in
        let i := i + 1 in
        let cf1 := load scratch (odds + i) in
        let cf2 := load scratch (i + 1) in
        let cf1 := s32 (cf1 + Z.shiftr (- (cf2 + cf0)) 1) in
        let data := store data (h_band + i) (s16 cf1) in
        let cf0 := s32 (cf0 + Z.shiftr (cf1 + cf3 + 2) 2) in
        let data := store data (l_band + i) (s16 cf0) in
        dwt_horizontal_loop n' (i + 1) w scratch l_band h_band odds
                            (mk_lift data cf0 cf1 cf2 cf3)
      else st
  end.

Definition SQZ_dwt_5_3i_horizontal_pass (data : list Z) (row : Z) (scratch : list Z) (width : Z)
  : list Z * list Z :=
  if width <? Z.shiftr SQZ_MIN_DIMENSION 1 then (data, scratch)
  else
    let half_w := Z.shiftr width 1 in
    let w := usize (half_w - 1) in
    let odd_w := truthy (Z.land width 1) in
    let stride := if odd_w then half_w + 1 else half_w in
    let odds := stride in
    let l_band := row in
    let h_band := row + stride in
    let scratch :=
      for_range 0 half_w
        (fun i scratch =>
           let scratch := store scratch i (load data (row + 2 * i)) in
           store scratch (odds + i) (load data (row + 2 * i + 1)))
        scratch in
    let scratch :=
      if odd_w then store scratch half_w (load data (row + 2 * half_w)) else scratch in
    let cf0 := load scratch 0 in
    let cf2 := load scratch 1 in
    let cf1 := s32 (load scratch odds + Z.shiftr (- (cf0 + cf2)) 1) in
    let data := store data h_band (s16 cf1) in
    let cf0 := s32 (cf0 + Z.shiftr (cf1 + 1) 1) in
    let data := store data l_band (s16 cf0) in
    let st := dwt_horizontal_loop (Z.to_nat w) 1 w scratch l_band h_band odds
                                  (mk_lift data cf0 cf1 cf2 0) in
    let data := lift_data st in
    let cf3 :=
      s32 (load scratch (odds + w)
           + (if odd_w then Z.shiftr (- (load scratch w + load scratch (w + 1))) 1
              else - load scratch w)) in
    let data := store data (h_band + w) (s16 cf3) in
    let data := store data (l_band + w)
                  (s16 (load scratch w + Z.shiftr (load data (h_band + usize (w - 1)) + cf3 + 2) 2)) in
    let data :=
      if odd_w
      then store data (l_band + w + 1) (s16 (load scratch (w + 1) + Z.shiftr (cf3 + 1) 1))
      else data in
    (data, scratch).

(** [for (k = 0u; k < width; ++k) p[k] -= (q[k] + r[k]) >> 1] and its
    siblings, on the lines at offsets [p], [q] and [r]. *)
Definition lift_rows (data : list Z) (width : Z) (p q r : Z) (f : Z → Z → Z → Z) : list Z :=
  for_range 0 width
    (fun k data => store data (p + k) (s16 (f (load data (p + k)) (load data (q + k))
                                             (load data (r + k)))))
    data.

Record dwt_rows := mk_rows {
  rows_data : list Z;
  rows_scratch : list Z;
  rows_a : Z;
  rows_b : Z
}.

(** The [for (i = -2; i < height; i += 2)] of [SQZ_dwt_5_3i]; [rows_a] and
    [rows_b] are the pointers [nnn] and [nn]. *)
Fixpoint dwt_vertical_loop (fuel : nat) (n : nat) (i : Z) (base width height stride : Z)
  (st : dwt_rows) : option dwt_rows :=
  match n with
  | O => Some st
  | S n' =>
      if i <? s32 height then
        let '(mk_rows data scratch nnn nn) := st in
        m1 ← SQZ_mirror fuel (s32 (i + 1)) (s32 (usize (height - 1)));
        m2 ← SQZ_mirror fuel (s32 (i + 2)) (s32 (usize (height - 1)));
        let n := base + m1 * stride in
        let r := base + m2 * stride in
        let '(data, scratch) :=
          if nn <=? r then SQZ_dwt_5_3i_horizontal_pass data n scratch width
          else (data, scratch) in
        let '(data, scratch) :=
          if s32 (i + 2) <? s32 height then SQZ_dwt_5_3i_horizontal_pass data r scratch width
          else (data, scratch) in
        let data :=
          if nn <=? r
          then lift_rows data width n nn r (fun a b c => a - Z.shiftr (s32 (b + c)) 1)
          else data in
        let data :=
          if nnn <=? n
          then lift_rows data width nn nnn n (fun a b c => a + Z.shiftr (s32 (b + c + 2)) 2)
          else data in
        dwt_vertical_loop fuel n' (s32 (i + 2)) base width height stride
                          (mk_rows data scratch n r)
      else Some st
  end.

Definition SQZ_dwt_5_3i (fuel : nat) (data : list Z) (base : Z) (scratch : list Z)
  (width height stride : Z) : option (list Z * list Z) :=
  m3 ← SQZ_mirror fuel (-3) (s32 (usize (height - 1)));
  m2 ← SQZ_mirror fuel (-2) (s32 (usize (height - 1)));
  st ← dwt_vertical_loop fuel (Z.to_nat (height / 2 + 2)) (-2) base width height stride
         (mk_rows data scratch (base + m3 * stride) (base + m2 * stride));
  Some (rows_data st, rows_scratch st).

Record dwt_levels_state := mk_levels {
  levels_data : list Z;
  levels_scratch : list Z;
  levels_width : Z;
  levels_height : Z
}.

(** [malloc(stride * sizeof(SQZ_dwt_coefficient_t))]: the line buffer, whose
    unspecified first content is taken to be zero.  Allocation succeeds. *)
Definition dwt_scratch (stride : Z) : list Z := replicate (Z.to_nat stride) 0.

Definition SQZ_dwt (fuel : nat) (ctx : SQZ_context_t) : option (SQZ_context_t * SQZ_status_t) :=
  let image := ctx_image ctx in
  let stride := width image in
  r ← for_range 0 (num_planes image)
        (fun plane acc =>
           '(data, scratch) ← acc;
           st ← for_range 0 (dwt_levels image)
                  (fun level acc =>
                     st ← acc;
                     '(data, scratch) ← SQZ_dwt_5_3i fuel (levels_data st)
                                          (get_plane_data ctx plane) (levels_scratch st)
                                          (levels_width st) (levels_height st)
                                          (usize (Z.shiftl stride level));
                     Some (mk_levels data scratch
                                     (Z.shiftr (usize (levels_width st + 1)) 1)
                                     (Z.shiftr (usize (levels_height st + 1)) 1)))
                  (Some (mk_levels data scratch stride (height image)));
           Some (levels_data st, levels_scratch st))
        (Some (ctx_data ctx, dwt_scratch stride));
  Some (ctx_set_data ctx r.1, SQZ_RESULT_OK).

Record idwt_lift := mk_ilift {
  ilift_scratch : list Z;
  ilift_cf0 : Z;
  ilift_cf1 : Z;
  ilift_cf2 : Z;
  ilift_cf3 : Z
}.

(** The two-at-a-time [for (i = 1u; i < w; ++i)] of the inverse pass. *)
Fixpoint idwt_horizontal_loop (n : nat) (i w : Z) (data : list Z) (l_band h_band odds : Z)
  (st : idwt_lift) : idwt_lift :=
  match n with
  | O => st
  | S n' =>
      if i <? w then
        let '(mk_ilift scratch cf0 cf1 cf2 cf3) := st in
        let cf2 := load data (l_band + i) in
        let cf3 := load data (h_band + i) in
        let cf2 := s32 (cf2 - Z.shiftr (cf1 + cf3 + 2) 2) in
        let scratch := store scratch i (s16 cf2) in
        let scratch := store scratch (odds + usize (i - 1))
                         (s16 (cf1 - Z.shiftr (- (cf0 + cf2)) 1)) in
        let i := i + 1 in
        let cf0 := load data (l_band + i) in
        let cf1 := load data (h_band + i) in
        let cf0 := s32 (cf0 - Z.shiftr (cf1 + cf3 + 2) 2) in
        let scratch := store scratch i (s16 cf0) in
        let scratch := store scratch (odds + usize (i - 1))
                         (s16 (cf3 - Z.shiftr (- (cf0 + cf2)) 1)) in
        idwt_horizontal_loop n' (i + 1) w data l_band h_band odds
                             (mk_ilift scratch cf0 cf1 cf2 cf3)
      else st
  end.

Definition SQZ_idwt_5_3i_horizontal_pass (data : list Z) (row : Z) (scratch : list Z) (width : Z)
  : list Z * list Z :=
  if width <? Z.shiftr SQZ_MIN_DIMENSION 1 then (data, scratch)
  else
    let half_w := Z.shiftr width 1 in
    let w := usize (half_w - 1) in
    let odd_w := truthy (Z.land width 1) in
    let stride := if odd_w then half_w + 1 else half_w in
    let odds := stride in
    let l_band := row in
    let h_band := row + stride in
    let cf1 := load data h_band in
    let cf0 := s32 (load data l_band - Z.shiftr (cf1 + 1) 1) in
    let scratch := store scratch 0 (s16 cf0) in
    let st := idwt_horizontal_loop (Z.to_nat w) 1 w data l_band h_band odds
                                   (mk_ilift scratch cf0 cf1 0 0) in
    let scratch := ilift_scratch st in
    let scratch :=
      store scratch w
            (s16 (load data (l_band + w)
                  - Z.shiftr (load data (h_band + usize (w - 1)) + load data (h_band + w) + 2) 2)) in
    let scratch :=
      store scratch (odds + usize (w - 1))
            (s16 (load data (h_band + usize (w - 1))
                  - Z.shiftr (- (load scratch (usize (w - 1)) + load scratch w)) 1)) in
    let scratch :=
      if odd_w
      then store scratch (w + 1)
                 (s16 (load data (l_band + w + 1) - Z.shiftr (load data (h_band + w) + 1) 1))
      else scratch in
    let scratch :=
      store scratch (odds + w)
            (s16 (load data (h_band + w)
                  - (if odd_w then Z.shiftr (- (load scratch w + load scratch (w + 1))) 1
                     else - load scratch w))) in
    let data :=
      for_range 0 half_w
        (fun i data =>
           let data := store data (row + 2 * i) (load scratch i) in
           store data (row + 2 * i + 1) (load scratch (odds + i)))
        data in
    let data :=
      if odd_w then store data (row + 2 * half_w) (load scratch half_w) else data in
    (data, scratch).

(** The [for (i = -1; i <= height; i += 2)] of [SQZ_idwt_5_3i]; [rows_a] and
    [rows_b] are the pointers [nn] and [n]. *)
Fixpoint idwt_vertical_loop (fuel : nat) (n : nat) (i : Z) (base width height stride : Z)
  (st : dwt_rows) : option dwt_rows :=
  match n with
  | O => Some st
  | S n' =>
      if i <=? s32 height then
        let '(mk_rows data scratch nn n) := st in
        m1 ← SQZ_mirror fuel (s32 (i + 1)) (s32 (usize (height - 1)));
        m2 ← SQZ_mirror fuel (s32 (i + 2)) (s32 (usize (height - 1)));
        let r := base + m1 * stride in
        let s := base + m2 * stride in
        let data :=
          if n <=? s
          then lift_rows data width r n s (fun a b c => a - Z.shiftr (s32 (b + c + 2)) 2)
          else data in
        let data :=
          if nn <=? r
          then lift_rows data width n nn r (fun a b c => a + Z.shiftr (s32 (b + c)) 1)
          else data in
        let '(data, scratch) :=
          if 0 <=? s32 (i - 1) then SQZ_idwt_5_3i_horizontal_pass data nn scratch width
          else (data, scratch) in
        let '(data, scratch) :=
          if nn <=? r then SQZ_idwt_5_3i_horizontal_pass data n scratch width
          else (data, scratch) in
        idwt_vertical_loop fuel n' (s32 (i + 2)) base width height stride
                           (mk_rows data scratch r s)
      else Some st
  end.

Definition SQZ_idwt_5_3i (fuel : nat) (data : list Z) (base : Z) (scratch : list Z)
  (width height stride : Z) : option (list Z * list Z) :=
  m2 ← SQZ_mirror fuel (-2) (s32 (usize (height - 1)));
  m1 ← SQZ_mirror fuel (-1) (s32 (usize (height - 1)));
  st ← idwt_vertical_loop fuel (Z.to_nat (height / 2 + 2)) (-1) base width height stride
         (mk_rows data scratch (base + m2 * stride) (base + m1 * stride));
  Some (rows_data st, rows_scratch st).

(** [for (l = level; l > 0; --l)]: the extent of the plane after [level]
    halvings. *)
Fixpoint halved (n : nat) (v : Z) : Z :=
  match n with
  | O => v
  | S n' => halved n' (Z.shiftr (usize (v + 1)) 1)
  end.

(** [for (level = dwt_levels - 1; level >= 0; --level)] over a state: [n]
    turns, the first at [level = n - 1]. *)
Fixpoint for_down {T : Type} (n : nat) (body : Z → T → T) (s : T) : T :=
  match n with
  | O => s
  | S n' => for_down n' body (body (Z.of_nat n') s)
  end.

Definition SQZ_idwt (fuel : nat) (ctx : SQZ_context_t) : option (SQZ_context_t * SQZ_status_t) :=
  let image := ctx_image ctx in
  let stride := width image in
  r ← for_range 0 (num_planes image)
        (fun plane acc =>
           acc ← acc;
           for_down (Z.to_nat (s32 (dwt_levels image)))
             (fun level acc =>
                '(data, scratch) ← acc;
                SQZ_idwt_5_3i fuel data (get_plane_data ctx plane) scratch
                              (halved (Z.to_nat level) (width image))
                              (halved (Z.to_nat level) (height image))
                              (usize (Z.shiftl stride level)))
             (Some acc))
        (Some (ctx_data ctx, dwt_scratch stride));
  Some (ctx_set_data ctx r.1, SQZ_RESULT_OK).

(** ** Codec context *)

Definition schedule_luma : list (list Z) :=
  [[0; 1; 1; 2]; [0; 2; 2; 3]; [0; 3; 3; 4]; [0; 4; 4; 5];
   [0; 5; 5; 6]; [0; 6; 6; 7]; [0; 7; 7; 8]; [0; 8; 8; 9]].

Definition schedule_chroma : list (list Z) :=
  [[1; 2; 2; 3]; [0; 3; 3; 4]; [0; 4; 4; 5]; [0; 5; 5; 6];
   [0; 6; 6; 7]; [0; 7; 7; 8]; [0; 8; 8; 9]; [0; 9; 9; 10]].

(** [{ { 0 } }]: a plane whose entries are all zero. *)
Definition schedule_none : list (list Z) := replicate 8 (replicate 4 0).

Definition SQZ_schedule : list (list (list (list Z))) :=
  [[schedule_luma; schedule_none; schedule_none];
   [schedule_luma; schedule_chroma; schedule_chroma];
   [schedule_luma; schedule_chroma; schedule_chroma];
   [schedule_luma; schedule_chroma; schedule_chroma]].

(** [SQZ_schedule[color_mode][plane][level][orientation]] *)
Definition schedule_entry (mode plane level orientation : Z) : Z :=
  (((SQZ_schedule !!! Z.to_nat mode) !!! Z.to_nat plane) !!! Z.to_nat level)
    !!! Z.to_nat orientation.

Record init_extent := mk_extent {
  extent_ctx : SQZ_context_t;
  extent_w : Z;
  extent_h : Z
}.

(** The body of the innermost loop of [SQZ_common_init_context]. *)
Definition init_band (image : SQZ_image_descriptor_t) (plane_data : Z)
  (plane level orientation w h : Z) (band : SQZ_dwt_subband_t) : SQZ_dwt_subband_t :=
  let bwidth := Z.shiftr (usize (w + of_bool (negb (truthy (Z.land orientation 1))))) 1 in
  let bheight := Z.shiftr (usize (h + of_bool (negb (1 <? orientation)))) 1 in
  let round := s32 (schedule_entry (color_mode image) plane level orientation
                    + Z.land (subsampling image) (of_bool (0 <? plane))) in
  let stride := usize (Z.shiftl (width image) (usize (dwt_levels image - level))) in
  let data := plane_data in
  let data := if truthy (Z.land orientation 1)
              then data + Z.shiftr (usize (w + 1)) 1 else data in
  let data := if 1 <? orientation then data + Z.shiftr stride 1 else data in
  mk_band (band_cache band) (LIP band) (LSP band) (NSP band) data bwidth bheight stride
          (band_max_bitplane band) (band_bitplane band) round.

(** [calloc]: the allocation succeeds and is zeroed. *)
Definition SQZ_common_init_context (ctx : SQZ_context_t) : SQZ_context_t * SQZ_status_t :=
  let image := ctx_image ctx in
  let ctx := ctx_set_data ctx
               (replicate (Z.to_nat (usize (usize (width image * height image)
                                            * num_planes image))) 0) in
  let ctx :=
    for_range 0 (num_planes image)
      (fun plane ctx =>
         let w := width image in
         let h := height image in
         let ctx := set_plane_data ctx plane (usize (usize (plane * w) * h)) in
         extent_ctx
           (for_down (Z.to_nat (s32 (dwt_levels image)))
              (fun level st =>
                 let '(mk_extent ctx w h) := st in
                 let ctx :=
                   for_range (of_bool (0 <? level)) SQZ_DWT_SUBBANDS
                     (fun orientation ctx =>
                        set_band ctx plane level orientation
                          (init_band image (get_plane_data ctx plane) plane level orientation
                                     w h (get_band ctx plane level orientation)))
                     ctx in
                 mk_extent ctx (Z.shiftr (usize (w + 1)) 1) (Z.shiftr (usize (h + 1)) 1))
              (mk_extent ctx w h)))
      ctx in
  (ctx, SQZ_RESULT_OK).

Section band_setters.
Variable band : SQZ_dwt_subband_t.

Definition band_set_lists (cache : SQZ_list_node_cache_t) (lip lsp nsp : SQZ_list_t) :=
  mk_band cache lip lsp nsp (band_data band) (band_width band) (band_height band)
          (band_stride band) (band_max_bitplane band) (band_bitplane band) (band_round band).
Definition band_set_bitplanes (max_bitplane bitplane : Z) :=
  mk_band (band_cache band) (LIP band) (LSP band) (NSP band) (band_data band)
          (band_width band) (band_height band) (band_stride band) max_bitplane bitplane
          (band_round band).
End band_setters.

(** The [do ... while (scan(scan_ctx))] of [SQZ_common_init_subband]. *)
Fixpoint init_subband_loop (fuel : nat) (n : nat) (cache : SQZ_list_node_cache_t)
  (lip : SQZ_list_t) (scan_ctx : SQZ_scan_context_t)
  : option (SQZ_list_node_cache_t * SQZ_list_t * SQZ_scan_context_t) :=
  match n with
  | O => None
  | S n' =>
      let '(cache, lip) := SQZ_list_add cache lip (scan_x scan_ctx) (scan_y scan_ctx) in
      '(scan_ctx, more) ← call_scan fuel scan_ctx;
      if truthy more then init_subband_loop fuel n' cache lip scan_ctx
      else Some (cache, lip, scan_ctx)
  end.

Definition SQZ_common_init_subband (fuel : nat) (band : SQZ_dwt_subband_t)
  (scan_ctx : SQZ_scan_context_t)
  : option (SQZ_dwt_subband_t * SQZ_scan_context_t * SQZ_status_t) :=
  let cache := SQZ_node_cache_init (usize (band_width band * band_height band)) in
  '(cache, lip, scan_ctx) ← init_subband_loop fuel fuel cache SQZ_list_init scan_ctx;
  Some (band_set_lists band cache lip SQZ_list_init SQZ_list_init, scan_ctx, SQZ_RESULT_OK).

Definition SQZ_encode_init_subband (fuel : nat) (data : list Z) (band : SQZ_dwt_subband_t)
  (scan_ctx : SQZ_scan_context_t) (buffer : SQZ_bit_buffer_t)
  : option (SQZ_dwt_subband_t * SQZ_scan_context_t * SQZ_bit_buffer_t * SQZ_status_t) :=
  '(band, scan_ctx, result) ← SQZ_common_init_subband fuel band scan_ctx;
  let max_bitplane := s32 (SQZ_ilog2 (u32 (Z.shiftr (SQZ_dwt_get_max data band) 1))) in
  let band := band_set_bitplanes band max_bitplane max_bitplane in
  let '(buffer, _) := SQZ_bit_buffer_write_bits buffer (u32 (band_max_bitplane band)) 4 in
  Some (band, scan_ctx, buffer, SQZ_RESULT_OK).

Definition SQZ_decode_init_subband (fuel : nat) (data : list Z) (band : SQZ_dwt_subband_t)
  (scan_ctx : SQZ_scan_context_t) (buffer : SQZ_bit_buffer_t)
  : option (SQZ_dwt_subband_t * SQZ_scan_context_t * SQZ_bit_buffer_t * SQZ_status_t) :=
  '(band, scan_ctx, result) ← SQZ_common_init_subband fuel band scan_ctx;
  let '(buffer, max_bitplane) := SQZ_bit_buffer_read_bits buffer 4 in
  let band := band_set_bitplanes band max_bitplane max_bitplane in
  Some (band, scan_ctx, buffer, SQZ_RESULT_OK).

(** ** Header *)

Definition SQZ_encode_header (descriptor : SQZ_image_descriptor_t) (buffer : SQZ_bit_buffer_t)
  : SQZ_bit_buffer_t * Z :=
  let '(buffer, _) := SQZ_bit_buffer_write_bits buffer SQZ_HEADER_MAGIC 8 in
  let '(buffer, _) := SQZ_bit_buffer_write_bits buffer (u32 (usize (width descriptor - 1))) 16 in
  let '(buffer, _) := SQZ_bit_buffer_write_bits buffer (u32 (usize (height descriptor - 1))) 16 in
  let '(buffer, _) := SQZ_bit_buffer_write_bits buffer (u32 (color_mode descriptor)) 2 in
  let '(buffer, _) := SQZ_bit_buffer_write_bits buffer (u32 (usize (dwt_levels descriptor - 1))) 3 in
  let '(buffer, _) := SQZ_bit_buffer_write_bits buffer (u32 (scan_order descriptor)) 2 in
  let '(buffer, _) := SQZ_bit_buffer_write_bit buffer (of_bool (truthy (subsampling descriptor))) in
  (buffer, of_bool (negb (SQZ_bit_buffer_eob buffer))).

(** The descriptor read so far is returned also when the function returns 0;
    [SQZ_decode] drops it then.  The color mode indexes the table
    [SQZ_number_of_planes] before the end of the buffer is tested: when the
    buffer ends before the mode, [SQZ_bit_buffer_read_bits] has returned -1,
    the index is outside the table and the function has no defined result,
    [None]. *)
Definition SQZ_decode_header (descriptor : SQZ_image_descriptor_t) (buffer : SQZ_bit_buffer_t)
  : option (SQZ_image_descriptor_t * SQZ_bit_buffer_t * Z) :=
  let '(buffer, magic) := SQZ_bit_buffer_read_bits buffer 8 in
  if negb (magic =? SQZ_HEADER_MAGIC) then Some (descriptor, buffer, 0)
  else
    let '(buffer, w) := SQZ_bit_buffer_read_bits buffer 16 in
    let '(buffer, h) := SQZ_bit_buffer_read_bits buffer 16 in
    let '(buffer, mode) := SQZ_bit_buffer_read_bits buffer 2 in
    let '(buffer, levels) := SQZ_bit_buffer_read_bits buffer 3 in
    let '(buffer, order) := SQZ_bit_buffer_read_bits buffer 2 in
    planes ← table_read SQZ_number_of_planes mode;
    let '(buffer, sub) := SQZ_bit_buffer_read_bit buffer in
    Some (mk_descriptor mode order (u32 (w + 1)) (u32 (h + 1)) (u32 (levels + 1)) planes
                        (of_bool (truthy sub)),
          buffer, of_bool (negb (SQZ_bit_buffer_eob buffer))).

(** ** Run lengths *)

Definition SQZ_encode_write_wdr_run (buffer : SQZ_bit_buffer_t) (run : Z)
  : SQZ_bit_buffer_t * Z :=
  let cost := u32 (SQZ_ilog2 run - 1) in
  if cost <=? 16 then
    SQZ_bit_buffer_write_bits buffer (SQZ_interleave_u16_to_u32 run) (u32 (cost * 2))
  else
    let '(buffer, ok) :=
      SQZ_bit_buffer_write_bits buffer (SQZ_interleave_u16_to_u32 (Z.shiftr run 16))
                                (u32 (u32 (cost - 16) * 2)) in
    if truthy ok
    then SQZ_bit_buffer_write_bits buffer (SQZ_interleave_u16_to_u32 run) 32
    else (buffer, 0).

(** The [while] of [SQZ_decode_read_wdr_run].  A turn that does not return
    reads two bits, so the bits left in the buffer bound the turns; the
    recursion is on that bound. *)
Fixpoint read_wdr_loop (n : nat) (buffer : SQZ_bit_buffer_t) (run : Z)
  : SQZ_bit_buffer_t * Z * Z :=
  match n with
  | O => (buffer, run, 1)
  | S n' =>
      let '(buffer, stop) := SQZ_bit_buffer_read_bit buffer in
      if stop =? 0 then
        let '(buffer, bit) := SQZ_bit_buffer_read_bit buffer in
        if bit <? 0 then (buffer, run, 0)
        else read_wdr_loop n' buffer (u32 (run + u32 (run + bit)))
      else (buffer, run, 1)
  end.

(** The buffer, [*run] and the value returned. *)
Definition SQZ_decode_read_wdr_run (buffer : SQZ_bit_buffer_t) : SQZ_bit_buffer_t * Z * Z :=
  read_wdr_loop (S (Z.to_nat (8 * (bb_eob buffer - bb_ptr buffer)))) buffer 1.

(** ** Bitplane passes

    [data] is the coefficient allocation the band points into. *)

(** [data[pixel->y * stride + pixel->x]] *)
Definition pixel_offset (band : SQZ_dwt_subband_t) (pixel : SQZ_list_node_t) : Z :=
  band_data band + usize (pixel.2 * band_stride band + pixel.1).

Definition bitplane_mask_of (band : SQZ_dwt_subband_t) : Z :=
  s16 (u32 (Z.shiftl 1 (band_bitplane band))).

Record sorting_state := mk_sorting {
  sorting_visited : SQZ_list_t;
  sorting_rest : SQZ_list_t;
  sorting_nsp : SQZ_list_t;
  sorting_buffer : SQZ_bit_buffer_t;
  sorting_i : Z;
  sorting_last : Z
}.

(** The [while (pixel != NULL)] of [SQZ_encode_sorting_pass]: [visited] are
    the nodes of LIP before [pixel], [rest] is [pixel] and the nodes after
    it.  A [break] leaves [pixel] in LIP. *)
Fixpoint encode_sorting_loop (data : list Z) (band : SQZ_dwt_subband_t) (mask : Z)
  (visited rest nsp : SQZ_list_t) (buffer : SQZ_bit_buffer_t) (i last : Z) : sorting_state :=
  match rest with
  | [] => mk_sorting visited rest nsp buffer i last
  | pixel :: rest' =>
      let v := load data (pixel_offset band pixel) in
      if truthy (Z.land v mask) then
        let '(buffer, ok) :=
          SQZ_bit_buffer_write_bits buffer (Z.lor 2 (Z.land v 1))
                                    (1 + of_bool (truthy last)) in
        if negb (truthy ok) then mk_sorting visited rest nsp buffer i last
        else
          let '(buffer, ok) := SQZ_encode_write_wdr_run buffer (u32 (i - last)) in
          if negb (truthy ok) then mk_sorting visited rest nsp buffer i last
          else
            let '(_, nsp, next) := SQZ_list_exchange visited pixel rest' nsp in
            encode_sorting_loop data band mask visited next nsp buffer (u32 (i + 1)) i
      else
        encode_sorting_loop data band mask (visited ++ [pixel]) rest' nsp buffer
                            (u32 (i + 1)) last
  end.

Definition SQZ_encode_sorting_pass (data : list Z) (band : SQZ_dwt_subband_t)
  (buffer : SQZ_bit_buffer_t) : SQZ_dwt_subband_t * SQZ_bit_buffer_t * Z :=
  if (Z.of_nat (length (LIP band)) =? 0) || (band_bitplane band <=? 0) then (band, buffer, 1)
  else
    let st := encode_sorting_loop data band (bitplane_mask_of band) [] (LIP band) (NSP band)
                                  buffer 1 0 in
    let lip := sorting_visited st ++ sorting_rest st in
    let nsp := sorting_nsp st in
    let buffer := sorting_buffer st in
    let '(buffer, _) :=
      SQZ_bit_buffer_write_bits buffer 3 (1 + of_bool (0 <? Z.of_nat (length nsp))) in
    let '(buffer, _) :=
      SQZ_encode_write_wdr_run buffer (u32 (sorting_i st - sorting_last st)) in
    let '(buffer, _) := SQZ_bit_buffer_write_bit buffer 1 in
    (band_set_lists band (band_cache band) lip (LSP band) nsp, buffer,
     of_bool (negb (SQZ_bit_buffer_eob buffer))).

(** [while ((--run > 0) && (pixel != NULL))]: [k] is the number of nodes the
    loop may pass, the run less one. *)
Fixpoint skip_nodes (k : Z) (visited rest : SQZ_list_t) : SQZ_list_t * SQZ_list_t :=
  match rest with
  | [] => (visited, rest)
  | pixel :: rest' =>
      if 0 <? k then skip_nodes (k - 1) (visited ++ [pixel]) rest' else (visited, rest)
  end.

Record decode_sorting_state := mk_decode_sorting {
  dsort_data : list Z;
  dsort_visited : SQZ_list_t;
  dsort_rest : SQZ_list_t;
  dsort_nsp : SQZ_list_t;
  dsort_buffer : SQZ_bit_buffer_t
}.

(** The [do ... while (1)] of [SQZ_decode_sorting_pass].  A turn that does
    not leave the loop moves one node out of LIP, so the length of LIP
    bounds the turns; the recursion is on that bound. *)
Fixpoint decode_sorting_loop (n : nat) (band : SQZ_dwt_subband_t) (mask : Z)
  (st : decode_sorting_state) : decode_sorting_state :=
  match n with
  | O => st
  | S n' =>
      let '(mk_decode_sorting data visited rest nsp buffer) := st in
      let '(buffer, sign) := SQZ_bit_buffer_read_bit buffer in
      if sign <? 0 then mk_decode_sorting data visited rest nsp buffer
      else
        let '(buffer, run, ok) := SQZ_decode_read_wdr_run buffer in
        if negb (truthy ok) then mk_decode_sorting data visited rest nsp buffer
        else
          let '(visited, rest) := skip_nodes (u32 (run - 1)) visited rest in
          match rest with
          | pixel :: rest' =>
              let data := store data (pixel_offset band pixel)
                            (s16 (Z.lor (load data (pixel_offset band pixel))
                                        (Z.lor mask sign))) in
              let '(_, nsp, next) := SQZ_list_exchange visited pixel rest' nsp in
              decode_sorting_loop n' band mask (mk_decode_sorting data visited next nsp buffer)
          | [] => mk_decode_sorting data visited rest nsp buffer
          end
  end.

Definition SQZ_decode_sorting_pass (data : list Z) (band : SQZ_dwt_subband_t)
  (buffer : SQZ_bit_buffer_t) : list Z * SQZ_dwt_subband_t * SQZ_bit_buffer_t * Z :=
  if (Z.of_nat (length (LIP band)) =? 0) || (band_bitplane band <=? 0)
  then (data, band, buffer, 1)
  else
    let st := decode_sorting_loop (S (length (LIP band))) band (bitplane_mask_of band)
                (mk_decode_sorting data [] (LIP band) (NSP band) buffer) in
    let buffer := dsort_buffer st in
    (dsort_data st,
     band_set_lists band (band_cache band) (dsort_visited st ++ dsort_rest st) (LSP band)
                    (dsort_nsp st),
     buffer, of_bool (negb (SQZ_bit_buffer_eob buffer))).

(** The [while (pixel != NULL)] of [SQZ_encode_refinement_pass] over the
    nodes of LSP from [pixel] on. *)
Fixpoint encode_refinement_loop (data : list Z) (band : SQZ_dwt_subband_t) (mask : Z)
  (rest : SQZ_list_t) (buffer : SQZ_bit_buffer_t) : SQZ_bit_buffer_t :=
  match rest with
  | [] => buffer
  | pixel :: rest' =>
      let v := load data (pixel_offset band pixel) in
      let '(buffer, ok) := SQZ_bit_buffer_write_bit buffer (of_bool (truthy (Z.land v mask))) in
      if negb (truthy ok) then buffer
      else encode_refinement_loop data band mask rest' buffer
  end.

Definition SQZ_encode_refinement_pass (data : list Z) (band : SQZ_dwt_subband_t)
  (buffer : SQZ_bit_buffer_t) : SQZ_bit_buffer_t * Z :=
  let buffer := encode_refinement_loop data band (bitplane_mask_of band) (LSP band) buffer in
  (buffer, of_bool (negb (SQZ_bit_buffer_eob buffer))).

Fixpoint decode_refinement_loop (band : SQZ_dwt_subband_t) (mask : Z)
  (rest : SQZ_list_t) (data : list Z) (buffer : SQZ_bit_buffer_t)
  : list Z * SQZ_bit_buffer_t :=
  match rest with
  | [] => (data, buffer)
  | pixel :: rest' =>
      let '(buffer, v) := SQZ_bit_buffer_read_bit buffer in
      if 0 <? v then
        let data := store data (pixel_offset band pixel)
                      (s16 (Z.lor (load data (pixel_offset band pixel)) mask)) in
        decode_refinement_loop band mask rest' data buffer
      else if v <? 0 then (data, buffer)
      else decode_refinement_loop band mask rest' data buffer
  end.

Definition SQZ_decode_refinement_pass (data : list Z) (band : SQZ_dwt_subband_t)
  (buffer : SQZ_bit_buffer_t) : list Z * SQZ_bit_buffer_t * Z :=
  let '(data, buffer) :=
    decode_refinement_loop band (bitplane_mask_of band) (LSP band) data buffer in
  (data, buffer, of_bool (negb (SQZ_bit_buffer_eob buffer))).

(** [SQZ_list_merge(&band->NSP, &band->LSP); band->bitplane -= (band->bitplane > 0)] *)
Definition bitplane_done (band : SQZ_dwt_subband_t) : SQZ_dwt_subband_t :=
  let '(nsp, lsp) := SQZ_list_merge (NSP band) (LSP band) in
  let band := band_set_lists band (band_cache band) (LIP band) lsp nsp in
  band_set_bitplanes band (band_max_bitplane band)
                     (s32 (band_bitplane band - of_bool (0 <? band_bitplane band))).

Definition SQZ_encode_bitplane (data : list Z) (band : SQZ_dwt_subband_t)
  (buffer : SQZ_bit_buffer_t) : list Z * SQZ_dwt_subband_t * SQZ_bit_buffer_t * Z :=
  let '(band, buffer, ok) := SQZ_encode_sorting_pass data band buffer in
  if negb (truthy ok) then (data, band, buffer, 0)
  else
    let '(buffer, ok) := SQZ_encode_refinement_pass data band buffer in
    if negb (truthy ok) then (data, band, buffer, 0)
    else (data, bitplane_done band, buffer, of_bool (negb (SQZ_bit_buffer_eob buffer))).

Definition SQZ_decode_bitplane (data : list Z) (band : SQZ_dwt_subband_t)
  (buffer : SQZ_bit_buffer_t) : list Z * SQZ_dwt_subband_t * SQZ_bit_buffer_t * Z :=
  let '(data, band, buffer, ok) := SQZ_decode_sorting_pass data band buffer in
  if negb (truthy ok) then (data, band, buffer, 0)
  else
    let '(data, buffer, ok) := SQZ_decode_refinement_pass data band buffer in
    if negb (truthy ok) then (data, band, buffer, 0)
    else (data, bitplane_done band, buffer, of_bool (negb (SQZ_bit_buffer_eob buffer))).

Definition SQZ_decode_round_coefficients (ctx : SQZ_context_t) : SQZ_context_t :=
  let image := ctx_image ctx in
  for_range 0 (num_planes image)
    (fun plane ctx =>
       for_range 0 (dwt_levels image)
         (fun level ctx =>
            for_range (of_bool (0 <? level)) SQZ_DWT_SUBBANDS
              (fun orientation ctx =>
                 let band := get_band ctx plane level orientation in
                 if (band_max_bitplane band =? 0) || (band_bitplane band <? 2) then ctx
                 else
                   let round_mask :=
                     s16 (Z.lxor (u32 (u32 (Z.shiftl 1 (band_bitplane band)) - 1)) 1) in
                   ctx_set_data ctx
                     (foldl (fun data pixel =>
                               store data (pixel_offset band pixel)
                                     (s16 (Z.lor (load data (pixel_offset band pixel))
                                                 round_mask)))
                            (ctx_data ctx) (LSP band)))
              ctx)
         ctx)
    ctx.

(** ** Scheduler *)

Definition SQZ_init_subband_fn : Type :=
  nat → list Z → SQZ_dwt_subband_t → SQZ_scan_context_t → SQZ_bit_buffer_t →
  option (SQZ_dwt_subband_t * SQZ_scan_context_t * SQZ_bit_buffer_t * SQZ_status_t).

Definition SQZ_bitplane_task_fn : Type :=
  list Z → SQZ_dwt_subband_t → SQZ_bit_buffer_t →
  list Z * SQZ_dwt_subband_t * SQZ_bit_buffer_t * Z.

(** The local variables of [SQZ_schedule_task] next to the context. *)
Record schedule_state := mk_schedule {
  sched_ctx : SQZ_context_t;
  sched_scan : SQZ_scan_context_t;
  sched_state : Z;
  sched_plane : Z;
  sched_level : Z;
  sched_orientation : Z;
  sched_round : Z;
  sched_done : Z
}.

(** How a turn of the inner [for (;;)] ends: it goes on, it breaks out of
    the loop, or the function returns. *)
Inductive schedule_step :=
| Step_next (st : schedule_state)
| Step_break (st : schedule_state)
| Step_return (ctx : SQZ_context_t) (result : SQZ_status_t).

(** The second half of the body of the [for (;;)]: the move to the next
    subband. *)
Definition schedule_advance (st : schedule_state) : schedule_step :=
  let '(mk_schedule ctx scan state plane level orientation round done) := st in
  let image := ctx_image ctx in
  if negb (truthy state) then
    let orientation := usize (orientation + 1) in
    if SQZ_DWT_SUBBANDS <=? orientation then
      let level := usize (level + 1) in
      let orientation := of_bool (level <? usize (dwt_levels image)) in
      if orientation =? 0 then
        let level := 0 in
        let state := of_bool (1 <? num_planes image) in
        let plane := state in
        if negb (truthy state)
        then Step_break (mk_schedule ctx scan state plane level orientation round done)
        else Step_next (mk_schedule ctx scan state plane level orientation round done)
      else Step_next (mk_schedule ctx scan state plane level orientation round done)
    else Step_next (mk_schedule ctx scan state plane level orientation round done)
  else
    let plane := usize (plane + 1) in
    if num_planes image <=? plane then
      let plane := 1 in
      let orientation := usize (orientation + 1) in
      if SQZ_DWT_SUBBANDS <=? orientation then
        let level := usize (level + 1) in
        let orientation := of_bool (level <? usize (dwt_levels image)) in
        if orientation =? 0 then
          Step_break (mk_schedule ctx scan 0 0 0 orientation round done)
        else Step_next (mk_schedule ctx scan state plane level orientation round done)
      else Step_next (mk_schedule ctx scan state plane level orientation round done)
    else Step_next (mk_schedule ctx scan state plane level orientation round done).

(** One turn of the [for (;;)]. *)
Definition schedule_visit (fuel : nat) (init : SQZ_init_subband_fn)
  (task : SQZ_bitplane_task_fn) (st : schedule_state) : option schedule_step :=
  let '(mk_schedule ctx scan state plane level orientation round done) := st in
  let band := get_band ctx plane level orientation in
  if (round <? band_round band)
     || ((band_round band <? round) && (band_bitplane band =? 0)) then
    let done := Z.land done (of_bool (band_round band <? round)) in
    Some (schedule_advance (mk_schedule ctx scan state plane level orientation round done))
  else
    r ← (if band_round band =? round then
           '(scan, _) ← SQZ_scan_init fuel scan band;
           '(band, scan, buffer, result) ← init fuel (ctx_data ctx) band scan (ctx_buffer ctx);
           Some (band, scan, buffer, result)
         else Some (band, scan, ctx_buffer ctx, SQZ_RESULT_OK));
    let '(band, scan, buffer, result) := r in
    let ctx := ctx_set_buffer (set_band ctx plane level orientation band) buffer in
    match result with
    | SQZ_RESULT_OK =>
        let '(data, band, buffer, ok) := task (ctx_data ctx) band (ctx_buffer ctx) in
        let ctx := ctx_set_buffer
                     (ctx_set_data (set_band ctx plane level orientation band) data) buffer in
        if negb (truthy ok) then Some (Step_return ctx SQZ_RESULT_OK)
        else
          let done := Z.land done (of_bool (band_bitplane band =? 0)) in
          Some (schedule_advance
                  (mk_schedule ctx scan state plane level orientation round done))
    | _ => Some (Step_return ctx result)
    end.

(** The inner [for (;;)]. *)
Fixpoint schedule_round (fuel : nat) (n : nat) (init : SQZ_init_subband_fn)
  (task : SQZ_bitplane_task_fn) (st : schedule_state) : option schedule_step :=
  match n with
  | O => None
  | S n' =>
      step ← schedule_visit fuel init task st;
      match step with
      | Step_next st => schedule_round fuel n' init task st
      | _ => Some step
      end
  end.

(** The outer [while ((!done) && (!SQZ_bit_buffer_eob(buffer)))]. *)
Fixpoint schedule_rounds (fuel : nat) (n : nat) (init : SQZ_init_subband_fn)
  (task : SQZ_bitplane_task_fn) (st : schedule_state)
  : option (SQZ_context_t * SQZ_status_t) :=
  match n with
  | O => None
  | S n' =>
      if negb (truthy (sched_done st)) && negb (SQZ_bit_buffer_eob (ctx_buffer (sched_ctx st)))
      then
        let '(mk_schedule ctx scan state plane level orientation round _) := st in
        step ← schedule_round fuel fuel init task
                 (mk_schedule ctx scan state plane level orientation round 1);
        match step with
        | Step_return ctx result => Some (ctx, result)
        | Step_break st | Step_next st =>
            let '(mk_schedule ctx scan state plane level orientation round done) := st in
            schedule_rounds fuel n' init task
              (mk_schedule ctx scan state plane level orientation (s32 (round + 1)) done)
        end
      else Some (sched_ctx st, SQZ_RESULT_OK)
  end.

Definition SQZ_schedule_task (fuel : nat) (ctx : SQZ_context_t) (init : SQZ_init_subband_fn)
  (task : SQZ_bitplane_task_fn) : option (SQZ_context_t * SQZ_status_t) :=
  let scan := mk_scan WS_null Scan_null (scan_order (ctx_image ctx)) 0 0 0 0 in
  schedule_rounds fuel fuel init task (mk_schedule ctx scan 0 0 0 0 0 0).

(** ** Entry points *)

Definition SQZ_validate_input (descriptor : SQZ_image_descriptor_t) (read_only : bool)
  : SQZ_image_descriptor_t * SQZ_status_t :=
  if (width descriptor <? SQZ_MIN_DIMENSION) || (SQZ_MAX_DIMENSION <? width descriptor)
     || (height descriptor <? SQZ_MIN_DIMENSION) || (SQZ_MAX_DIMENSION <? height descriptor)
     || (color_mode descriptor <? SQZ_COLOR_MODE_GRAYSCALE)
     || (SQZ_COLOR_MODE_COUNT <=? color_mode descriptor)
     || (scan_order descriptor <? SQZ_SCAN_ORDER_RASTER)
     || (SQZ_SCAN_ORDER_COUNT <=? scan_order descriptor)
     || (dwt_levels descriptor =? 0) || (SQZ_DWT_MAX_LEVEL <? dwt_levels descriptor)
  then (descriptor, if read_only then SQZ_DATA_CORRUPTED else SQZ_INVALID_PARAMETER)
  else
    let smallest_dimension :=
      if height descriptor <? width descriptor then height descriptor else width descriptor in
    let max_level := u32 (SQZ_ilog2 (u32 smallest_dimension) - 3) in
    let max_level := if SQZ_DWT_MAX_LEVEL <? max_level then SQZ_DWT_MAX_LEVEL else max_level in
    if max_level <? dwt_levels descriptor then
      if read_only then (descriptor, SQZ_DATA_CORRUPTED)
      else
        (mk_descriptor (color_mode descriptor) (scan_order descriptor) (width descriptor)
                       (height descriptor) max_level
                       (load SQZ_number_of_planes (color_mode descriptor)) (subsampling descriptor),
         SQZ_RESULT_OK)
    else if negb read_only then
      (mk_descriptor (color_mode descriptor) (scan_order descriptor) (width descriptor)
                     (height descriptor) (dwt_levels descriptor)
                     (load SQZ_number_of_planes (color_mode descriptor)) (subsampling descriptor),
       SQZ_RESULT_OK)
    else (descriptor, SQZ_RESULT_OK).

(** What a call of [SQZ_encode] leaves behind: the value returned, the two
    buffers, the descriptor and [*budget]. *)
Record encode_result := mk_encoded {
  encoded_status : SQZ_status_t;
  encoded_source : list Z;
  encoded_dest : list Z;
  encoded_descriptor : SQZ_image_descriptor_t;
  encoded_budget : Z
}.

Definition CHAR_BIT := 8.

(** Allocations succeed, so the branches on [SQZ_OUT_OF_MEMORY] are not
    taken; [None] is the fuel running out. *)
Definition SQZ_encode (fuel : nat) (source dest : list Z)
  (descriptor : SQZ_image_descriptor_t) (budget : Z) : option encode_result :=
  let '(descriptor, result) := SQZ_validate_input descriptor false in
  match result with
  | SQZ_RESULT_OK =>
      let ctx := context_zero descriptor (SQZ_bit_buffer_init dest budget) in
      let '(buffer, ok) := SQZ_encode_header descriptor (ctx_buffer ctx) in
      let ctx := ctx_set_buffer ctx buffer in
      if negb (truthy ok)
      then Some (mk_encoded SQZ_BUFFER_TOO_SMALL source (bb_data buffer) descriptor budget)
      else
        let '(ctx, result) := SQZ_common_init_context ctx in
        let '(ctx, source) := SQZ_color_process ctx source true in
        '(ctx, result) ← SQZ_dwt fuel ctx;
        let ctx := SQZ_dwt_convert_to_sign_magnitude ctx in
        '(ctx, result) ← SQZ_schedule_task fuel ctx SQZ_encode_init_subband SQZ_encode_bitplane;
        match result with
        | SQZ_RESULT_OK =>
            let budget :=
              usize (SQZ_bit_buffer_bits_used (ctx_buffer ctx) + (CHAR_BIT - 1)) / CHAR_BIT in
            Some (mk_encoded SQZ_RESULT_OK source (bb_data (ctx_buffer ctx)) descriptor budget)
        | _ => Some (mk_encoded result source (bb_data (ctx_buffer ctx)) descriptor budget)
        end
  | _ => Some (mk_encoded result source dest descriptor budget)
  end.

(** [SQZ_encode (buffer, buffer, descriptor, budget)]: one array given both
    as the pixels and as the destination.  The header is written in it
    before [SQZ_color_process] reads the pixels, which are read from the
    array as it is then; the array handed back, as source and as
    destination, is the one the stream was written in. *)
Definition SQZ_encode_in_place (fuel : nat) (buffer : list Z)
  (descriptor : SQZ_image_descriptor_t) (budget : Z) : option encode_result :=
  let '(descriptor, result) := SQZ_validate_input descriptor false in
  match result with
  | SQZ_RESULT_OK =>
      let ctx := context_zero descriptor (SQZ_bit_buffer_init buffer budget) in
      let '(buffer, ok) := SQZ_encode_header descriptor (ctx_buffer ctx) in
      let ctx := ctx_set_buffer ctx buffer in
      if negb (truthy ok)
      then Some (mk_encoded SQZ_BUFFER_TOO_SMALL (bb_data buffer) (bb_data buffer) descriptor
                            budget)
      else
        let '(ctx, result) := SQZ_common_init_context ctx in
        let '(ctx, _) := SQZ_color_process ctx (bb_data (ctx_buffer ctx)) true in
        '(ctx, result) ← SQZ_dwt fuel ctx;
        let ctx := SQZ_dwt_convert_to_sign_magnitude ctx in
        '(ctx, result) ← SQZ_schedule_task fuel ctx SQZ_encode_init_subband SQZ_encode_bitplane;
        match result with
        | SQZ_RESULT_OK =>
            let budget :=
              usize (SQZ_bit_buffer_bits_used (ctx_buffer ctx) + (CHAR_BIT - 1)) / CHAR_BIT in
            Some (mk_encoded SQZ_RESULT_OK (bb_data (ctx_buffer ctx)) (bb_data (ctx_buffer ctx))
                             descriptor budget)
        | _ => Some (mk_encoded result (bb_data (ctx_buffer ctx)) (bb_data (ctx_buffer ctx))
                                descriptor budget)
        end
  | _ => Some (mk_encoded result buffer buffer descriptor budget)
  end.

(** What a call of [SQZ_decode] leaves behind.  [dest] and [descriptor] are
    [None] for null pointers; [source] and [dest_size] are not null. *)
Record decode_result := mk_decoded {
  decoded_status : SQZ_status_t;
  decoded_source : list Z;
  decoded_dest : option (list Z);
  decoded_dest_size : Z;
  decoded_descriptor : option SQZ_image_descriptor_t
}.

Definition descriptor_zero : SQZ_image_descriptor_t := mk_descriptor 0 0 0 0 0 0 0.

(** [None] is the fuel running out, or [SQZ_decode_header] having no defined
    result. *)
Definition SQZ_decode (fuel : nat) (source : list Z) (dest : option (list Z)) (src_size : Z)
  (dest_size : Z) (descriptor : option SQZ_image_descriptor_t) : option decode_result :=
  if (if dest is None then true else false) && negb (dest_size =? 0)
  then Some (mk_decoded SQZ_INVALID_PARAMETER source dest dest_size descriptor)
  else
    let buffer := SQZ_bit_buffer_init source src_size in
    '(image, buffer, ok) ← SQZ_decode_header descriptor_zero buffer;
    let ctx := context_zero image buffer in
    if negb (truthy ok)
    then Some (mk_decoded SQZ_INVALID_PARAMETER (bb_data buffer) dest dest_size descriptor)
    else
      let '(image, result) := SQZ_validate_input (ctx_image ctx) true in
      match result with
      | SQZ_RESULT_OK =>
          let descriptor := if descriptor is Some _ then Some (ctx_image ctx) else None in
          let length :=
            usize (usize (width (ctx_image ctx) * height (ctx_image ctx))
                   * num_planes (ctx_image ctx)) in
          if dest_size <? length
          then Some (mk_decoded SQZ_BUFFER_TOO_SMALL (bb_data buffer) dest length descriptor)
          else
            let '(ctx, result) := SQZ_common_init_context ctx in
            '(ctx, result) ← SQZ_schedule_task fuel ctx SQZ_decode_init_subband
                               SQZ_decode_bitplane;
            match result with
            | SQZ_RESULT_OK =>
                let ctx := SQZ_decode_round_coefficients ctx in
                let ctx := SQZ_dwt_convert_from_sign_magnitude ctx in
                '(ctx, result) ← SQZ_idwt fuel ctx;
                let '(ctx, out) := SQZ_color_process ctx (default [] dest) false in
                Some (mk_decoded SQZ_RESULT_OK (bb_data (ctx_buffer ctx)) (Some out) dest_size
                                 descriptor)
            | _ => Some (mk_decoded result (bb_data (ctx_buffer ctx)) dest dest_size descriptor)
            end
      | _ => Some (mk_decoded result (bb_data buffer) dest dest_size descriptor)
      end.

(** * Properties

    ** Vocabulary of the statements *)

(** The position of the cursor of a bit buffer, in bits from its start. *)
Definition bb_pos (buffer : SQZ_bit_buffer_t) : Z := 8 * bb_ptr buffer + bb_index buffer.

(** Bit [p] of a byte array, the most significant bit of a byte first. *)
Definition bit_at (l : list Z) (p : Z) : bool := Z.testbit (load l (p / 8)) (7 - p mod 8).

(** A buffer in use: the cursor is inside the array or just at its end. *)
Definition bb_wf (buffer : SQZ_bit_buffer_t) : Prop :=
  0 <= bb_ptr buffer ∧ 0 <= bb_index buffer < 8
  ∧ (bb_ptr buffer < bb_eob buffer ∨ (bb_ptr buffer = bb_eob buffer ∧ bb_index buffer = 0))
  ∧ bb_eob buffer <= Z.of_nat (length (bb_data buffer)).

(** The buffer [buffer] with its cursor put back where that of [old] is. *)
Definition bb_rewind (old buffer : SQZ_bit_buffer_t) : SQZ_bit_buffer_t :=
  mk_bit_buffer (bb_data buffer) (bb_ptr old) (bb_eob old) (bb_index old).

(** Whole-sample symmetric reflection of [value] into [0, maximum]. *)
Definition reflect (value maximum : Z) : Z :=
  let r := value mod (2 * maximum) in
  if r <=? maximum then r else 2 * maximum - r.

(** The descriptor passes the range checks of [SQZ_validate_input]. *)
Definition descriptor_in_range (d : SQZ_image_descriptor_t) : Prop :=
  SQZ_MIN_DIMENSION <= width d <= SQZ_MAX_DIMENSION
  ∧ SQZ_MIN_DIMENSION <= height d <= SQZ_MAX_DIMENSION
  ∧ 0 <= color_mode d < SQZ_COLOR_MODE_COUNT
  ∧ 0 <= scan_order d < SQZ_SCAN_ORDER_COUNT
  ∧ 1 <= dwt_levels d <= SQZ_DWT_MAX_LEVEL.

(** The positions the snake order yields on a [width] by [height] rectangle:
    the one [SQZ_scan_init_snake_context] leaves in the context, then the one
    of every call of the scan function that returns 1, as
    [SQZ_common_init_subband] collects them. *)
Definition snake_scan_positions (fuel : nat) (width height : Z) : option SQZ_list_t :=
  ctx ← SQZ_scan_init_snake_context fuel
          (mk_scan WS_null Scan_null SQZ_SCAN_ORDER_SNAKE 0 0 0 0) width height
          SQZ_SCAN_SNAKE_DEFAULT_TILE_WIDTH SQZ_SCAN_SNAKE_DEFAULT_TILE_HEIGHT;
  '(_, lip, _) ← init_subband_loop fuel fuel (SQZ_node_cache_init (usize (width * height)))
                   SQZ_list_init ctx;
  Some lip.

Definition manhattan (p q : SQZ_list_node_t) : Z := Z.abs (p.1 - q.1) + Z.abs (p.2 - q.2).

(** The codec context as [SQZ_encode] and [SQZ_decode] set it up for an
    image descriptor. *)
Definition context_of (image : SQZ_image_descriptor_t) : SQZ_context_t :=
  (SQZ_common_init_context (context_zero image (SQZ_bit_buffer_init [] 0))).1.

(** The coefficient of a subband at column [x] of line [y]. *)
Definition coefficient (data : list Z) (band : SQZ_dwt_subband_t) (x y : Z) : Z :=
  load data (band_data band + y * band_stride band + x).

(** The value of the field [max_bitplane] for a largest coefficient
    [max_coef] in sign-magnitude form: the number of bits of its magnitude. *)
Definition bit_length (v : Z) : Z := if v =? 0 then 0 else Z.log2 v + 1.

(** ** Vocabulary of the proofs *)

(** Bit [q] of what [SQZ_bit_buffer_write_bits] puts into the buffer [b]
    for the field [bits] of [width] bits: the field, cut at the end of the
    buffer. *)
Definition written (b : SQZ_bit_buffer_t) (bits width : Z) (q : Z) : bool :=
  (bb_pos b <=? q) && (q <? Z.min (bb_pos b + width) (8 * bb_eob b))
  && Z.testbit bits (bb_pos b + width - 1 - q).

(** The turns the loop still needs from [v]. *)
Definition mirror_measure (v : Z) : Z := 2 * Z.abs v + (if v <? 0 then 1 else 0).

(** The largest number of levels [SQZ_validate_input] lets through. *)
Definition level_bound (d : SQZ_image_descriptor_t) : Z :=
  Z.log2 (Z.min (width d) (height d)) - 2.

(** An initialization that returns [SQZ_RESULT_OK] whenever it returns. *)
Definition init_ok (init : SQZ_init_subband_fn) : Prop :=
  ∀ fuel data band scan buffer band' scan' buffer' result,
    init fuel data band scan buffer = Some (band', scan', buffer', result) →
    result = SQZ_RESULT_OK.

(** A step of the scheduler that, if it returns, returns [SQZ_RESULT_OK]. *)
Definition step_ok (step : schedule_step) : Prop :=
  match step with
  | Step_return _ result => result = SQZ_RESULT_OK
  | _ => True
  end.

(** [SQZ_interleave_u16_to_u32] without the wrap-around, which never acts. *)
Definition interleave_exact (i : Z) : Z :=
  let i := Z.land i 0x0000FFFF in
  let i := Z.land (Z.lxor i (Z.shiftl i 8)) 0x00FF00FF in
  let i := Z.land (Z.lxor i (Z.shiftl i 4)) 0x0F0F0F0F in
  let i := Z.land (Z.lxor i (Z.shiftl i 2)) 0x33333333 in
  let i := Z.land (Z.lxor i (Z.shiftl i 1)) 0x55555555 in
  i.

(** The binary digits of the argument with a zero put before each. *)
Fixpoint spread_pos (p : positive) : positive :=
  match p with
  | xH => xH
  | xO q => xO (xO (spread_pos q))
  | xI q => xI (xO (spread_pos q))
  end.

(** The same on integers; [spread x] has the digits of [x] at the even
    places. *)
Definition spread (z : Z) : Z :=
  match z with
  | Zpos p => Zpos (spread_pos p)
  | _ => 0
  end.

(** [f] holds on the [n] integers from [z] on. *)
Fixpoint all_from (n : nat) (z : Z) (f : Z → bool) : bool :=
  match n with
  | O => true
  | S n' => f z && all_from n' (z + 1) f
  end.

(** Bit [q] of the code of the run [r] written at [p]: [cost] pairs, each a
    zero and a digit of [r], from the digit below the leading one down. *)
Definition wdr_bit (p cost r q : Z) : bool :=
  (p <=? q) && (q <? p + 2 * cost) && Z.odd (q - p) && Z.testbit r (cost - 1 - (q - p) / 2).

(** A task or an initialization that leaves the bytes of the bit buffer as
    they are. *)
Definition task_reads (task : SQZ_bitplane_task_fn) : Prop :=
  ∀ data band buffer, bb_data (task data band buffer).1.2 = bb_data buffer.

(** The same for an initialization. *)
Definition init_reads (init : SQZ_init_subband_fn) : Prop :=
  ∀ fuel data band scan buffer band' scan' buffer' result,
    init fuel data band scan buffer = Some (band', scan', buffer', result) →
    bb_data buffer' = bb_data buffer.

(** What a step of the scheduler leaves in the bit buffer of the context. *)
Definition step_buffer (step : schedule_step) : SQZ_bit_buffer_t :=
  match step with
  | Step_next st | Step_break st => ctx_buffer (sched_ctx st)
  | Step_return ctx _ => ctx_buffer ctx
  end.

(** The bits of [i] at the even places, packed: [n] of them. *)
Fixpoint squeeze (n : nat) (i : Z) : Z :=
  match n with
  | O => 0
  | S n' => Z.b2z (Z.testbit i 0) + 2 * squeeze n' (Z.shiftr i 2)
  end.

(** The [w] bits of [l] from bit [p] on spell [v], the most significant bit
    first. *)
Definition field_at (l : list Z) (p w v : Z) : Prop :=
  ∀ j, 0 <= j < w → bit_at l (p + w - 1 - j) = Z.testbit v j.

(** The 48 bits of [l] from bit [p] on are the header of the descriptor [d]:
    the magic byte, width and height less one on 16 bits each, the color mode
    on 2 bits, the levels less one on 3, the scan order on 2, and the
    subsampling flag. *)
Definition header_at (l : list Z) (p : Z) (d : SQZ_image_descriptor_t) : Prop :=
  field_at l p 8 SQZ_HEADER_MAGIC
  ∧ field_at l (p + 8) 16 (width d - 1)
  ∧ field_at l (p + 24) 16 (height d - 1)
  ∧ field_at l (p + 40) 2 (color_mode d)
  ∧ field_at l (p + 42) 3 (dwt_levels d - 1)
  ∧ field_at l (p + 45) 2 (scan_order d)
  ∧ bit_at l (p + 47) = truthy (subsampling d).

(** The descriptor [SQZ_decode_header] makes of the header of [d]. *)
Definition header_descriptor (d : SQZ_image_descriptor_t) : SQZ_image_descriptor_t :=
  mk_descriptor (color_mode d) (scan_order d) (width d) (height d) (dwt_levels d)
                (load SQZ_number_of_planes (color_mode d)) (of_bool (truthy (subsampling d))).

(** The sign-magnitude form of a coefficient: the magnitude in the bits
    above the lowest, which holds the sign. *)
Definition sign_magnitude (v : Z) : Z := 2 * Z.abs v + (if v <? 0 then 1 else 0).

(** What writing does to a bit buffer: [b'] is [b] after some writes.  The
    cursor has not moved back, the bits before the old cursor, the bytes
    before the byte of the old cursor and the bytes from the end of the
    buffer on are as they were. *)
Definition bb_extends (b b' : SQZ_bit_buffer_t) : Prop :=
  bb_wf b' ∧ bb_eob b' = bb_eob b ∧ length (bb_data b') = length (bb_data b)
  ∧ (bb_pos b <= bb_pos b' ∧ bb_ptr b <= bb_ptr b')
  ∧ (∀ q, 0 <= q < bb_pos b → bit_at (bb_data b') q = bit_at (bb_data b) q)
  ∧ (∀ i, 0 <= i < bb_ptr b ∨ bb_eob b <= i → load (bb_data b') i = load (bb_data b) i).

(** A task or an initialization that only writes in this way. *)
Definition task_extends (task : SQZ_bitplane_task_fn) : Prop :=
  ∀ data band buffer, bb_wf buffer → bb_extends buffer (task data band buffer).1.2.

Definition init_extends (init : SQZ_init_subband_fn) : Prop :=
  ∀ fuel data band scan buffer band' scan' buffer' result,
    bb_wf buffer →
    init fuel data band scan buffer = Some (band', scan', buffer', result) →
    bb_extends buffer buffer'.

(** The fields of a subband that say where its coefficients are and when
    it is scheduled: offset, width, height, stride and starting round. *)
Definition band_geometry (band : SQZ_dwt_subband_t) : Z * Z * Z * Z * Z :=
  (band_data band, band_width band, band_height band, band_stride band, band_round band).

(** Two bit buffers over the same bytes with the cursor at the same place:
    [b] has the smaller capacity and is not full yet. *)
Definition bb_live (b B : SQZ_bit_buffer_t) : Prop :=
  bb_wf b ∧ bb_wf B ∧ bb_data b = bb_data B ∧ bb_ptr b = bb_ptr B
  ∧ bb_index b = bb_index B ∧ bb_eob b <= bb_eob B ∧ bb_ptr b < bb_eob b.

(** The buffer [b] is full, the cursor of [B] is at or past the capacity of
    [b], and the two hold the same bytes up to that capacity. *)
Definition bb_stopped (b B : SQZ_bit_buffer_t) : Prop :=
  bb_wf b ∧ bb_wf B ∧ bb_ptr b = bb_eob b ∧ bb_eob b <= bb_ptr B
  ∧ ∀ i, 0 <= i < bb_eob b → load (bb_data b) i = load (bb_data B) i.

(** The state of the scheduler with another bit buffer in its context, and
    the same for the outcome of a turn. *)
Definition sched_set_buffer (st : schedule_state) (buffer : SQZ_bit_buffer_t)
  : schedule_state :=
  mk_schedule (ctx_set_buffer (sched_ctx st) buffer) (sched_scan st) (sched_state st)
              (sched_plane st) (sched_level st) (sched_orientation st) (sched_round st)
              (sched_done st).

Definition step_set_buffer (step : schedule_step) (buffer : SQZ_bit_buffer_t)
  : schedule_step :=
  match step with
  | Step_next st => Step_next (sched_set_buffer st buffer)
  | Step_break st => Step_break (sched_set_buffer st buffer)
  | Step_return ctx result => Step_return (ctx_set_buffer ctx buffer) result
  end.

(** The raster order of a [width] by [height] rectangle: row by row, each
    row from left to right. *)
Definition raster_positions (width height : Z) : SQZ_list_t :=
  map (λ p, (p mod width, p / width)) (seqZ 0 (width * height)).

(** The bits of a buffer from its cursor to its end are clear. *)
Definition zero_from (b : SQZ_bit_buffer_t) : Prop :=
  ∀ q, bb_pos b <= q < 8 * bb_eob b → bit_at (bb_data b) q = false.

(** The bit buffer over the bytes [l] with capacity [eob] and its cursor at
    bit [p]. *)
Definition bb_at (l : list Z) (eob p : Z) : SQZ_bit_buffer_t :=
  mk_bit_buffer l (p / 8) eob (p mod 8).

(** The test of the two passes of the encoder on the coefficient of a
    pixel: the bit of the current bitplane. *)
Definition significant (data : list Z) (band : SQZ_dwt_subband_t) (pixel : SQZ_list_node_t)
  : bool :=
  truthy (Z.land (load data (pixel_offset band pixel)) (bitplane_mask_of band)).

(** What the sorting pass of the decoder does to the coefficient [out] of a
    pixel that the encoder found significant in [data]: it sets the bit of
    the bitplane and the sign. *)
Definition mark_significant (data : list Z) (band : SQZ_dwt_subband_t) (out : list Z)
  (pixel : SQZ_list_node_t) : list Z :=
  store out (pixel_offset band pixel)
        (s16 (Z.lor (load out (pixel_offset band pixel))
                    (Z.lor (bitplane_mask_of band)
                           (Z.land (load data (pixel_offset band pixel)) 1)))).

(** What the refinement pass of the decoder does to the coefficient of a
    pixel: it sets the bit of the bitplane if the encoder found it set. *)
Definition mark_refined (data : list Z) (band : SQZ_dwt_subband_t) (out : list Z)
  (pixel : SQZ_list_node_t) : list Z :=
  if significant data band pixel
  then store out (pixel_offset band pixel)
             (s16 (Z.lor (load out (pixel_offset band pixel)) (bitplane_mask_of band)))
  else out.

(** The end of [SQZ_encode_sorting_pass]: the marker of the end of the
    pass, written after the loop over the list. *)
Definition sorting_close (st : sorting_state) : SQZ_bit_buffer_t :=
  let '(buffer, _) :=
    SQZ_bit_buffer_write_bits (sorting_buffer st) 3
                              (1 + of_bool (0 <? Z.of_nat (length (sorting_nsp st)))) in
  let '(buffer, _) :=
    SQZ_encode_write_wdr_run buffer (u32 (sorting_i st - sorting_last st)) in
  let '(buffer, _) := SQZ_bit_buffer_write_bit buffer 1 in
  buffer.

(** ** The scheduler of the decoder next to that of the encoder *)

(** What [SQZ_decode_bitplane] leaves in the coefficients [out] for a
    subband whose bitplane the encoder coded from [data]: the marks of the
    sorting pass on the pixels found significant, then those of the
    refinement pass. *)
Definition bitplane_marks (data : list Z) (band : SQZ_dwt_subband_t) (out : list Z) : list Z :=
  foldl (mark_refined data band)
        (foldl (mark_significant data band) out
               (if band_bitplane band <=? 0 then []
                else List.filter (significant data band) (LIP band)))
        (LSP band).

(** [plane[i].band] at the flat index [j]. *)
Definition band_at (planes : list SQZ_spectral_plane_t) (i j : nat) : SQZ_dwt_subband_t :=
  plane_band (planes !!! i) !!! j.

(** The state of the lists between two tasks of the scheduler: no pixel is
    waiting in a NSP, and the node cache, hence the LIP, stays below 2^30
    nodes. *)
Definition bands_ready (planes : list SQZ_spectral_plane_t) : Prop :=
  ∀ i j,
    NSP (band_at planes i j) = []
    ∧ Z.of_nat (length (LIP (band_at planes i j))) < 2 ^ 30
    ∧ usize (band_width (band_at planes i j) * band_height (band_at planes i j)) < 2 ^ 30.

Definition sched_set_ctx (st : schedule_state) (ctx : SQZ_context_t) : schedule_state :=
  mk_schedule ctx (sched_scan st) (sched_state st) (sched_plane st) (sched_level st)
              (sched_orientation st) (sched_round st) (sched_done st).

(** The context [cd] of a decoder that has read the stream [F], of [E]
    bytes, as far as the encoder with context [ce] and coefficients [D] has
    written: the same subbands, the cursor at the same bit.  [K] is what is
    known of each subband and the coefficients of the decoder. *)
Definition ctx_follows (K : SQZ_dwt_subband_t → list Z → Prop) (D F : list Z) (E : Z)
  (ce cd : SQZ_context_t) : Prop :=
  ctx_plane cd = ctx_plane ce ∧ ctx_image cd = ctx_image ce
  ∧ ctx_buffer cd = bb_at F E (bb_pos (ctx_buffer ce))
  ∧ ctx_data ce = D ∧ bb_wf (ctx_buffer ce) ∧ zero_from (ctx_buffer ce)
  ∧ bands_ready (ctx_plane ce)
  ∧ ∀ i j, K (band_at (ctx_plane ce) i j) (ctx_data cd).

(** The same for the local variables of [SQZ_schedule_task]; [S] is what is
    known of the scan context. *)
Definition sched_follows (K : SQZ_dwt_subband_t → list Z → Prop)
  (S : SQZ_scan_context_t → Prop) (D F : list Z) (E : Z) (se sd : schedule_state) : Prop :=
  ctx_follows K D F E (sched_ctx se) (sched_ctx sd) ∧ S (sched_scan se)
  ∧ sd = sched_set_ctx se (sched_ctx sd).

Definition step_follows (K : SQZ_dwt_subband_t → list Z → Prop)
  (S : SQZ_scan_context_t → Prop) (D F : list Z) (E : Z) (xe xd : schedule_step) : Prop :=
  match xe, xd with
  | Step_next se, Step_next sd | Step_break se, Step_break sd => sched_follows K S D F E se sd
  | _, _ => False
  end.

(** ** What the decoder knows of the coefficients *)

(** Every bit set in [a] is set in [d]. *)
Definition bits_within (a d : Z) : Prop :=
  ∀ n, 0 <= n → Z.testbit a n = true → Z.testbit d n = true.

(** The coefficients [dd] of the decoder hold nothing that those of the
    encoder, [D], do not: the arrays have the same length, and every
    coefficient of [dd] is nonnegative with its bits among those of the
    coefficient of [D] at the same place. *)
Definition coefficients_within (D dd : list Z) : Prop :=
  length dd = length D ∧ ∀ o, 0 <= load dd o ∧ bits_within (load dd o) (load D o).

(** The coefficients [dd'] have every bit that [dd] has. *)
Definition coefficients_grow (dd dd' : list Z) : Prop :=
  ∀ o, bits_within (load dd o) (load dd' o).

(** The extent of a subband fits the 16-bit coordinates of the list nodes. *)
Definition band_extent_ok (band : SQZ_dwt_subband_t) : Prop :=
  0 <= band_width band < 2 ^ 16 ∧ 0 <= band_height band < 2 ^ 16
  ∧ 0 <= band_stride band < 2 ^ 32.

(** What holds of a subband of the encoder and the coefficients [dd] of the
    decoder between two tasks of the scheduler.  For a pixel of the LSP the
    decoder has the sign and every bit above the current bitplane that the
    coefficient of the encoder has; the coefficient of a pixel of the LIP has
    no bit above the current bitplane. *)
Definition band_known (D : list Z) (band : SQZ_dwt_subband_t) (dd : list Z) : Prop :=
  coefficients_within D dd
  ∧ 0 <= band_bitplane band <= 14
  ∧ band_extent_ok band
  ∧ (∀ px n, px ∈ LSP band → n = 0 ∨ band_bitplane band < n →
             Z.testbit (load D (pixel_offset band px)) n = true →
             Z.testbit (load dd (pixel_offset band px)) n = true)
  ∧ (∀ px, px ∈ LIP band →
           load D (pixel_offset band px) < 2 ^ (band_bitplane band + 1)).

(** The subbands before the scheduler has touched them. *)
Definition bands_fresh (planes : list SQZ_spectral_plane_t) : Prop :=
  ∀ i j,
    LIP (band_at planes i j) = [] ∧ LSP (band_at planes i j) = []
    ∧ NSP (band_at planes i j) = []
    ∧ 0 <= band_bitplane (band_at planes i j) <= 14
    ∧ band_extent_ok (band_at planes i j)
    ∧ band_width (band_at planes i j) * band_height (band_at planes i j) < 2 ^ 30.

(** A position inside the extent of a subband. *)
Definition pixel_inside (band : SQZ_dwt_subband_t) (px : SQZ_list_node_t) : Prop :=
  0 <= px.1 < band_width band ∧ 0 <= px.2 < band_height band.

(** What the decoder has of a subband of the encoder, whose coefficients
    are [D], in its own coefficients [dd]: for a pixel of the LSP the sign
    bit and the bits above the current bitplane are those of the encoder,
    so the whole coefficient once the bitplane is 0; the coefficient of a
    pixel still in the LIP has no bit above the current bitplane. *)
Definition band_decoded (D dd : list Z) (band : SQZ_dwt_subband_t) : Prop :=
  (∀ px n, px ∈ LSP band → n = 0 ∨ band_bitplane band < n →
           Z.testbit (load dd (pixel_offset band px)) n
           = Z.testbit (load D (pixel_offset band px)) n)
  ∧ (∀ px, px ∈ LSP band → band_bitplane band = 0 →
           load dd (pixel_offset band px) = load D (pixel_offset band px))
  ∧ (∀ px, px ∈ LIP band →
           0 <= load D (pixel_offset band px) < 2 ^ (band_bitplane band + 1)).

(** ** The 5/3 lifting of a line *)

(** Coefficient [i] of the high band of the line [x] of [width] samples:
    the odd sample [2i + 1] less the mean of its two even neighbours; at
    the end of a line of even width the missing neighbour is the one on the
    other side. *)
Definition dwt_high (x : Z → Z) (width i : Z) : Z :=
  if (i <? width / 2 - 1) || Z.odd width
  then x (2 * i + 1) + Z.shiftr (- (x (2 * i) + x (2 * i + 2))) 1
  else x (2 * i + 1) - x (2 * i).

(** Coefficient [i] of the low band: the even sample [2i] plus a quarter of
    the two high coefficients around it, the only one there is at both ends
    of the line counting twice. *)
Definition dwt_low (x : Z → Z) (width i : Z) : Z :=
  if i =? 0 then x 0 + Z.shiftr (dwt_high x width 0 + 1) 1
  else if i <? width / 2
       then x (2 * i) + Z.shiftr (dwt_high x width (i - 1) + dwt_high x width i + 2) 2
       else x (2 * i) + Z.shiftr (dwt_high x width (i - 1) + 1) 1.

(** The line after the pass: the low band first, the high band after it. *)
Definition dwt_row (x : Z → Z) (width j : Z) : Z :=
  if j <? (width + 1) / 2 then dwt_low x width j
  else dwt_high x width (j - (width + 1) / 2).

(** The high coefficient [j] away from the end of the line, from the even
    samples [E] and the odd samples [O], and the low coefficient [j]. *)
Definition lift_high (E O : Z → Z) (j : Z) : Z :=
  O j + Z.shiftr (- (E j + E (j + 1))) 1.

Definition lift_low (E O : Z → Z) (j : Z) : Z :=
  if j =? 0 then E 0 + Z.shiftr (lift_high E O 0 + 1) 1
  else E j + Z.shiftr (lift_high E O (j - 1) + lift_high E O j + 2) 2.

(** The state of the loop of [SQZ_dwt_5_3i_horizontal_pass] at the turn
    [i]: the coefficients before [i] of both bands are in the line, at
    [row] and at [row + stride], the rest of [data0] is as it was, but for
    the two places of the coefficients [w], which the code after the loop
    writes. *)
Definition dwt_loop_inv (data0 : list Z) (row stride w : Z) (E O : Z → Z) (i : Z)
  (st : dwt_lift) : Prop :=
  length (lift_data st) = length data0
  ∧ (i < w → lift_cf1 st = lift_high E O (i - 1) ∧ lift_cf2 st = E i)
  ∧ ∀ p, 0 <= p → p ≠ row + stride + w → p ≠ row + w →
      load (lift_data st) p
      = if (row + stride <=? p) && (p <? row + stride + i)
        then lift_high E O (p - (row + stride))
        else if (row <=? p) && (p <? row + i) then lift_low E O (p - row)
             else load data0 p.

(** The state of the loop of [SQZ_idwt_5_3i_horizontal_pass] at the turn
    [i]: the even samples [E] before [i] and the odd samples [O] before
    [i - 1] are in the line buffer, the rest of [scratch0] is as it was;
    [H] is the high band. *)
Definition idwt_loop_inv (scratch0 : list Z) (stride : Z) (E O H : Z → Z) (i : Z)
  (st : idwt_lift) : Prop :=
  length (ilift_scratch st) = length scratch0
  ∧ ilift_cf0 st = E (i - 1) ∧ ilift_cf1 st = H (i - 1)
  ∧ ∀ p, 0 <= p →
      load (ilift_scratch st) p
      = if p <? i then E p
        else if (stride <=? p) && (p <? stride + (i - 1)) then O (p - stride)
             else load scratch0 p.

Lemma u8_small z : 0 <= z < 2 ^ 8 → u8 z = z.
Proof. intros; unfold u8; apply Z.mod_small; lia. Qed.
Lemma u32_small z : 0 <= z < 2 ^ 32 → u32 z = z.
Proof. intros; unfold u32; apply Z.mod_small; lia. Qed.
Lemma usize_small z : 0 <= z < 2 ^ 64 → usize z = z.
Proof. intros; unfold usize; apply Z.mod_small; lia. Qed.
Lemma s32_small z : - 2 ^ 31 <= z < 2 ^ 31 → s32 z = z.
Proof. intros; unfold s32; rewrite Z.mod_small; lia. Qed.
Lemma s16_small z : - 2 ^ 15 <= z < 2 ^ 15 → s16 z = z.
Proof. intros; unfold s16; rewrite Z.mod_small; lia. Qed.

Lemma load_store_eq l i v : 0 <= i < Z.of_nat (length l) → load (store l i v) i = v.
Proof.
  intros; unfold load, store. apply list_lookup_total_insert_eq. lia.
Qed.
Lemma load_store_ne l i j v : 0 <= i → 0 <= j → i ≠ j → load (store l i v) j = load l j.
Proof.
  intros; unfold load, store. apply list_lookup_total_insert_ne. lia.
Qed.
Lemma length_store l i v : length (store l i v) = length l.
Proof. apply length_insert. Qed.

Lemma bit_at_store l p v q :
  0 <= q → 0 <= p < Z.of_nat (length l) →
  bit_at (store l p v) q = if q / 8 =? p then Z.testbit v (7 - q mod 8) else bit_at l q.
Proof.
  intros Hq Hp. unfold bit_at.
  destruct (Z.eqb_spec (q / 8) p) as [->|Hne].
  - rewrite load_store_eq; auto.
  - rewrite load_store_ne; [auto | lia | apply Z.div_pos; lia | congruence].
Qed.

Lemma testbit_u8 z j : 0 <= j < 8 → Z.testbit (u8 z) j = Z.testbit z j.
Proof. intros; unfold u8. apply Z.mod_pow2_bits_low; lia. Qed.
Lemma testbit_u32 z j : 0 <= j < 32 → Z.testbit (u32 z) j = Z.testbit z j.
Proof. intros; unfold u32. apply Z.mod_pow2_bits_low; lia. Qed.

Lemma mask_ones w : 0 <= w < 32 → u32 (u32 (Z.shiftl 1 w) - 1) = Z.ones w.
Proof.
  intros. rewrite Z.shiftl_1_l, Z.ones_equiv.
  assert (0 < 2 ^ w < 2 ^ 32).
  { split; [lia|]. apply Z.pow_lt_mono_r; lia. }
  rewrite (u32_small (2 ^ w)) by lia. apply u32_small. lia.
Qed.

(** write_bit *)
Lemma pos_div b : bb_wf b → bb_pos b / 8 = bb_ptr b ∧ bb_pos b mod 8 = bb_index b.
Proof.
  intros (?&?&?&?). unfold bb_pos.
  split.
  - rewrite Z.mul_comm, Z.div_add_l by lia. rewrite Z.div_small; lia.
  - rewrite Z.add_comm, Z.mul_comm, Z.mod_add by lia. apply Z.mod_small; lia.
Qed.

Lemma pos_split q ptr : 0 <= q → q / 8 = ptr → q = 8 * ptr + q mod 8 ∧ 0 <= q mod 8 < 8.
Proof.
  intros. split; [| apply Z.mod_pos_bound; lia].
  subst. apply Z.div_mod. lia.
Qed.

Lemma write_bit_spec b bit :
  bb_wf b → bb_ptr b < bb_eob b → (bit = 0 ∨ bit = 1) →
  ∃ b', SQZ_bit_buffer_write_bit b bit = (b', 1)
    ∧ bb_wf b' ∧ bb_pos b' = bb_pos b + 1 ∧ bb_eob b' = bb_eob b
    ∧ length (bb_data b') = length (bb_data b)
    ∧ ∀ q, 0 <= q →
        bit_at (bb_data b') q
        = if q =? bb_pos b then bit_at (bb_data b) q || (bit =? 1) else bit_at (bb_data b) q.
Proof.
  intros Hwf Hlt Hbit. pose proof Hwf as (Hp & Hi & Hor & Hlen).
  unfold SQZ_bit_buffer_write_bit, SQZ_bit_buffer_eob.
  destruct (Z.leb_spec (bb_eob b) (bb_ptr b)); [lia|].
  assert (Hbits : ∀ q, 0 <= q →
     bit_at (bb_data (bb_or b (u32 (Z.shiftl bit (SQZ_BIT_BUFFER_MSB - bb_index b))))) q
     = if q =? bb_pos b then bit_at (bb_data b) q || (bit =? 1) else bit_at (bb_data b) q).
  { intros q Hq. unfold bb_or; simpl. rewrite bit_at_store by lia.
    destruct (Z.eqb_spec (q / 8) (bb_ptr b)) as [Heq|Hne].
    - destruct (pos_split q _ Hq Heq) as [Hqe Hm].
      rewrite testbit_u8 by lia. rewrite Z.lor_spec.
      rewrite testbit_u32 by lia. unfold SQZ_BIT_BUFFER_MSB.
      assert (Hb : bit_at (bb_data b) q = Z.testbit (load (bb_data b) (bb_ptr b)) (7 - q mod 8))
        by (unfold bit_at; rewrite Heq; reflexivity).
      rewrite Hb.
      assert (Hs : Z.testbit (Z.shiftl bit (7 - bb_index b)) (7 - q mod 8)
                   = (q =? bb_pos b) && (bit =? 1)).
      { unfold bb_pos.
        destruct (Z.eqb_spec q (8 * bb_ptr b + bb_index b)) as [E|E].
        - assert (q mod 8 = bb_index b) by lia.
          rewrite Z.shiftl_spec by lia. replace (7 - q mod 8 - (7 - bb_index b)) with 0 by lia.
          destruct Hbit; subst bit; reflexivity.
        - assert (q mod 8 ≠ bb_index b) by lia. simpl.
          destruct (Z.ltb_spec (7 - q mod 8) (7 - bb_index b)).
          + rewrite Z.shiftl_spec_low by lia. reflexivity.
          + rewrite Z.shiftl_spec by lia.
            destruct Hbit; subst bit; [apply Z.bits_0|].
            apply Z.bits_above_log2; simpl; lia. }
      rewrite Hs. destruct (q =? bb_pos b); simpl; rewrite ?orb_false_r; reflexivity.
    - destruct (Z.eqb_spec q (bb_pos b)) as [E|E]; auto.
      exfalso. apply Hne. rewrite E. apply pos_div; auto. }
  unfold SQZ_BIT_BUFFER_MSB in *.
  destruct (Z.ltb_spec (bb_index (bb_or b (u32 (Z.shiftl bit (7 - bb_index b))))) 7) as [Hl|Hl];
    simpl in Hl; eexists; (split; [reflexivity|]); unfold bb_wf, bb_pos; simpl;
    rewrite length_store; repeat split; auto; try lia.
Qed.

Lemma div8_eq q p : 8 * p <= q < 8 * p + 8 → q / 8 = p.
Proof. intros. symmetry. apply Z.div_unique with (q - 8 * p); lia. Qed.

Lemma bit_at_bb_or b x q :
  bb_wf b → bb_ptr b < bb_eob b → 0 <= q →
  bit_at (bb_data (bb_or b x)) q
  = if q / 8 =? bb_ptr b then bit_at (bb_data b) q || Z.testbit x (7 - q mod 8)
    else bit_at (bb_data b) q.
Proof.
  intros (?&?&?&?) ? Hq. unfold bb_or; simpl. rewrite bit_at_store by lia.
  destruct (Z.eqb_spec (q / 8) (bb_ptr b)) as [Heq|Hne]; auto.
  destruct (pos_split q _ Hq Heq) as [Hqe Hm].
  rewrite testbit_u8 by lia. rewrite Z.lor_spec. unfold bit_at. rewrite Heq. reflexivity.
Qed.

Lemma testbit_ones_land x w j : 0 <= w → 0 <= j →
  Z.testbit (Z.land x (Z.ones w)) j = Z.testbit x j && (j <? w).
Proof.
  intros. rewrite Z.land_spec. f_equal.
  destruct (Z.ltb_spec j w).
  - apply Z.ones_spec_low; lia.
  - apply Z.ones_spec_high; lia.
Qed.

Lemma write_bits_loop_spec n : ∀ b bits width,
  bb_wf b → 0 <= width < 2 ^ 32 → (Z.to_nat width < n)%nat →
  ∃ b' ok, write_bits_loop n b bits width = (b', ok)
   ∧ bb_wf b' ∧ bb_eob b' = bb_eob b ∧ length (bb_data b') = length (bb_data b)
   ∧ bb_pos b' = Z.min (bb_pos b + width) (8 * bb_eob b)
   ∧ (ok = 1 ∨ ok = 0)
   ∧ (ok = 1 ↔ bb_ptr b < bb_eob b ∧ bb_pos b + width <= 8 * bb_eob b)
   ∧ ∀ q, 0 <= q → bit_at (bb_data b') q = bit_at (bb_data b) q || written b bits width q.
Proof.
  induction n as [|n IH]; intros b bits width Hwf Hw Hn; [lia|].
  pose proof Hwf as (Hp & Hi & Hor & Hlen).
  cbn [write_bits_loop]. unfold SQZ_bit_buffer_eob.
  destruct (Z.leb_spec (bb_eob b) (bb_ptr b)) as [He|He].
  { exists b, 0. repeat split; auto; try lia.
    - unfold bb_pos; lia.
    - intros q Hq. unfold written, bb_pos.
      destruct (Z.leb_spec (8 * bb_ptr b + bb_index b) q); simpl; [|rewrite orb_false_r; auto].
      destruct (Z.ltb_spec q (Z.min (8 * bb_ptr b + bb_index b + width) (8 * bb_eob b)));
        simpl; [lia|rewrite orb_false_r; auto]. }
  unfold SQZ_BIT_BUFFER_MSB.
  rewrite (u32_small (7 + 1 - bb_index b)) by lia.
  destruct (Z.leb_spec width (7 + 1 - bb_index b)) as [Hfit|Hbig].
  - rewrite mask_ones by lia.
    set (x := u32 (Z.shiftl (Z.land bits (Z.ones width)) (7 + 1 - bb_index b - width))).
    assert (Hbits : ∀ q, 0 <= q →
      bit_at (bb_data (bb_or b x)) q = bit_at (bb_data b) q || written b bits width q).
    { intros q Hq. rewrite bit_at_bb_or by auto.
      unfold written, bb_pos.
      destruct (Z.eqb_spec (q / 8) (bb_ptr b)) as [Heq|Hne].
      - destruct (pos_split q _ Hq Heq) as [Hqe Hm]. f_equal.
        unfold x. rewrite testbit_u32 by lia.
        destruct (Z.ltb_spec (7 - q mod 8) (7 + 1 - bb_index b - width)) as [Hlow|Hhigh].
        + rewrite Z.shiftl_spec_low by lia.
          destruct (Z.leb_spec (8 * bb_ptr b + bb_index b) q); simpl; auto.
          destruct (Z.ltb_spec q (Z.min (8 * bb_ptr b + bb_index b + width) (8 * bb_eob b)));
            simpl; auto. lia.
        + rewrite Z.shiftl_spec by lia. rewrite testbit_ones_land by lia.
          replace (7 - q mod 8 - (7 + 1 - bb_index b - width))
            with (8 * bb_ptr b + bb_index b + width - 1 - q) by lia.
          rewrite andb_comm. f_equal.
          destruct (Z.ltb_spec (8 * bb_ptr b + bb_index b + width - 1 - q) width);
            destruct (Z.leb_spec (8 * bb_ptr b + bb_index b) q); simpl; try lia;
            destruct (Z.ltb_spec q (Z.min (8 * bb_ptr b + bb_index b + width) (8 * bb_eob b)));
            simpl; auto; lia.
      - rewrite <- (orb_false_r (bit_at (bb_data b) q)) at 1. f_equal. symmetry.
        destruct (Z.leb_spec (8 * bb_ptr b + bb_index b) q); simpl; auto.
        destruct (Z.ltb_spec q (Z.min (8 * bb_ptr b + bb_index b + width) (8 * bb_eob b)));
          simpl; auto.
        exfalso. apply Hne. apply div8_eq; lia. }
    destruct (Z.ltb_spec 7 (bb_index (bb_set_index (bb_or b x) (bb_index (bb_or b x) + width))))
      as [Hl|Hl]; simpl in Hl; do 2 eexists; (split; [reflexivity|]);
      unfold bb_wf, bb_pos; simpl; rewrite length_store; repeat split; auto; try lia.
  - set (x := Z.land (Z.shiftr bits (width - (7 + 1 - bb_index b)))
                     (u32 (u32 (Z.shiftl 1 (7 + 1 - bb_index b)) - 1))).
    rewrite (u32_small (width - (7 + 1 - bb_index b))) by lia.
    set (b1 := bb_next_byte (bb_or b x)).
    assert (Hwf1 : bb_wf b1).
    { unfold b1, bb_wf; simpl. rewrite length_store. repeat split; auto; lia. }
    destruct (IH b1 bits (width - (7 + 1 - bb_index b)) Hwf1) as (b' & ok & E & Hwf' & He' & Hl' & Hp' & Hok & Hiff & Hb');
      [lia | lia |].
    exists b', ok. split; [exact E|].
    assert (He1 : bb_eob b1 = bb_eob b) by reflexivity.
    assert (Hl1 : length (bb_data b1) = length (bb_data b))
      by (unfold b1; simpl; apply length_store).
    assert (Hp1 : bb_pos b1 = 8 * (bb_ptr b + 1)) by (unfold b1, bb_pos; simpl; lia).
    assert (Hptr1 : bb_ptr b1 = bb_ptr b + 1) by reflexivity.
    rewrite He1, Hp1, ?Hptr1 in *.
    split; [auto|]. split; [congruence|]. split; [congruence|].
    split; [unfold bb_pos in *; lia|]. split; [auto|].
    split; [unfold bb_pos in *; lia|].
    intros q Hq. rewrite Hb' by auto. unfold b1 at 1; simpl.
    change (store (bb_data b) (bb_ptr b) (u8 (Z.lor (load (bb_data b) (bb_ptr b)) x)))
      with (bb_data (bb_or b x)).
    rewrite bit_at_bb_or by auto. unfold written, b1, bb_pos; simpl.
    destruct (Z.eqb_spec (q / 8) (bb_ptr b)) as [Heq|Hne].
    + destruct (pos_split q _ Hq Heq) as [Hqe Hm].
      destruct (Z.leb_spec (8 * (bb_ptr b + 1) + 0) q); [lia|]. simpl. rewrite orb_false_r.
      f_equal. unfold x. rewrite mask_ones by lia. rewrite testbit_ones_land by lia.
      rewrite Z.shiftr_spec by lia.
      replace (7 - q mod 8 + (width - (7 + 1 - bb_index b)))
        with (8 * bb_ptr b + bb_index b + width - 1 - q) by lia.
      rewrite andb_comm. f_equal.
      destruct (Z.ltb_spec (7 - q mod 8) (7 + 1 - bb_index b));
        destruct (Z.leb_spec (8 * bb_ptr b + bb_index b) q); simpl; try lia;
        destruct (Z.ltb_spec q (Z.min (8 * bb_ptr b + bb_index b + width) (8 * bb_eob b)));
        simpl; auto; lia.
    + f_equal.
      replace (8 * (bb_ptr b + 1) + 0 + (width - (7 + 1 - bb_index b)))
        with (8 * bb_ptr b + bb_index b + width) by lia.
      f_equal. f_equal.
      destruct (Z.leb_spec (8 * (bb_ptr b + 1) + 0) q);
        destruct (Z.leb_spec (8 * bb_ptr b + bb_index b) q); simpl; try lia; auto.
      exfalso. apply Hne. apply div8_eq; lia.
Qed.

Lemma write_bits_spec b bits width :
  bb_wf b → 0 <= width < 2 ^ 32 →
  ∃ b' ok, SQZ_bit_buffer_write_bits b bits width = (b', ok)
   ∧ bb_wf b' ∧ bb_eob b' = bb_eob b ∧ length (bb_data b') = length (bb_data b)
   ∧ bb_pos b' = Z.min (bb_pos b + width) (8 * bb_eob b)
   ∧ (ok = 1 ∨ ok = 0)
   ∧ (ok = 1 ↔ bb_ptr b < bb_eob b ∧ bb_pos b + width <= 8 * bb_eob b)
   ∧ ∀ q, 0 <= q → bit_at (bb_data b') q = bit_at (bb_data b) q || written b bits width q.
Proof. intros. apply write_bits_loop_spec; auto; lia. Qed.

Lemma land_1 x : Z.land x 1 = Z.b2z (Z.testbit x 0).
Proof. rewrite Z.bit0_mod. change 1 with (Z.ones 1). rewrite Z.land_ones by lia. reflexivity. Qed.

Lemma of_bool_b2z b : of_bool b = Z.b2z b.
Proof. destruct b; reflexivity. Qed.

Lemma read_bit_eob b : bb_eob b <= bb_ptr b → SQZ_bit_buffer_read_bit b = (b, -1).
Proof.
  intros. unfold SQZ_bit_buffer_read_bit, SQZ_bit_buffer_eob.
  destruct (Z.leb_spec (bb_eob b) (bb_ptr b)); [reflexivity|lia].
Qed.

Lemma read_bit_spec b :
  bb_wf b → bb_ptr b < bb_eob b →
  ∃ b', SQZ_bit_buffer_read_bit b = (b', of_bool (bit_at (bb_data b) (bb_pos b)))
    ∧ bb_wf b' ∧ bb_pos b' = bb_pos b + 1 ∧ bb_eob b' = bb_eob b
    ∧ bb_data b' = bb_data b.
Proof.
  intros Hwf Hlt. pose proof Hwf as (Hp & Hi & Hor & Hlen).
  unfold SQZ_bit_buffer_read_bit, SQZ_bit_buffer_eob.
  destruct (Z.leb_spec (bb_eob b) (bb_ptr b)); [lia|].
  assert (Hv : Z.land (Z.shiftr (load (bb_data b) (bb_ptr b)) (SQZ_BIT_BUFFER_MSB - bb_index b)) 1
               = of_bool (bit_at (bb_data b) (bb_pos b))).
  { rewrite land_1.
    assert (Z.testbit (Z.shiftr (load (bb_data b) (bb_ptr b))
                                (SQZ_BIT_BUFFER_MSB - bb_index b)) 0
            = bit_at (bb_data b) (bb_pos b)) as ->; [|reflexivity].
    unfold bit_at.
    destruct (pos_div b Hwf) as [-> ->]. rewrite Z.shiftr_spec by lia.
    unfold SQZ_BIT_BUFFER_MSB. f_equal. }
  rewrite Hv. unfold SQZ_BIT_BUFFER_MSB.
  destruct (Z.ltb_spec (bb_index b) 7); eexists; (split; [reflexivity|]);
    unfold bb_wf, bb_pos; simpl; repeat split; auto; lia.
Qed.

Lemma read_bits_loop_eob n b acc width :
  bb_eob b <= bb_ptr b → read_bits_loop (S n) b acc width = (b, -1).
Proof.
  intros. cbn [read_bits_loop]. unfold SQZ_bit_buffer_eob.
  destruct (Z.leb_spec (bb_eob b) (bb_ptr b)); [reflexivity|lia].
Qed.

Lemma lor_shift_add acc w r : 0 <= w → 0 <= r < 2 ^ w → Z.lor (Z.shiftl acc w) r = acc * 2 ^ w + r.
Proof.
  intros Hw Hr.
  assert (Hland : Z.land (Z.shiftl acc w) r = 0).
  { apply Z.bits_inj'. intros j Hj. rewrite Z.land_spec, Z.bits_0.
    destruct (Z.ltb_spec j w).
    - rewrite Z.shiftl_spec_low by lia. reflexivity.
    - destruct (Z.eq_dec r 0) as [->|].
      + rewrite Z.bits_0. apply andb_false_r.
      + rewrite (Z.bits_above_log2 r j); [apply andb_false_r|lia|].
        apply Z.log2_lt_pow2; [lia|]. apply Z.lt_le_trans with (2 ^ w); [lia|].
        apply Z.pow_le_mono_r; lia. }
  rewrite <- Z.lxor_lor by auto. rewrite <- Z.add_nocarry_lxor by auto.
  rewrite Z.shiftl_mul_pow2 by lia. reflexivity.
Qed.

Lemma land_ones_range x w : 0 <= w → 0 <= Z.land x (Z.ones w) < 2 ^ w.
Proof. intros. rewrite Z.land_ones by lia. apply Z.mod_pos_bound. lia. Qed.

(** Result of reading [width] bits after [acc]. *)
Lemma read_bits_loop_spec n : ∀ b acc width,
  bb_wf b → 0 <= width → 0 <= acc → (acc + 1) * 2 ^ width <= 2 ^ 31 →
  bb_ptr b < bb_eob b → bb_pos b + width <= 8 * bb_eob b → (Z.to_nat width < n)%nat →
  ∃ b' r, read_bits_loop n b acc width = (b', acc * 2 ^ width + r)
   ∧ bb_wf b' ∧ bb_eob b' = bb_eob b ∧ bb_data b' = bb_data b
   ∧ bb_pos b' = bb_pos b + width
   ∧ 0 <= r < 2 ^ width
   ∧ ∀ j, 0 <= j < width → Z.testbit r j = bit_at (bb_data b) (bb_pos b + width - 1 - j).
Proof.
  induction n as [|n IH]; intros b acc width Hwf Hw Hacc Hov Hlt Hroom Hn; [lia|].
  pose proof Hwf as (Hp & Hi & Hor & Hlen).
  cbn [read_bits_loop]. unfold SQZ_bit_buffer_eob.
  destruct (Z.leb_spec (bb_eob b) (bb_ptr b)) as [He|He]; [lia|].
  unfold SQZ_BIT_BUFFER_MSB.
  rewrite (u32_small (7 + 1 - bb_index b)) by lia.
  assert (H2w : 0 < 2 ^ width) by (apply Z.pow_pos_nonneg; lia).
  destruct (Z.leb_spec width (7 + 1 - bb_index b)) as [Hfit|Hbig].
  - rewrite mask_ones by lia.
    set (r := Z.land (Z.shiftr (load (bb_data b) (bb_ptr b)) (7 + 1 - bb_index b - width))
                     (Z.ones width)).
    assert (Hr : 0 <= r < 2 ^ width) by (apply land_ones_range; lia).
    rewrite (s32_small (Z.shiftl acc width)) by (rewrite Z.shiftl_mul_pow2 by lia; nia).
    rewrite lor_shift_add by lia.
    rewrite s32_small by nia.
    assert (Hbits : ∀ j, 0 <= j < width →
              Z.testbit r j = bit_at (bb_data b) (bb_pos b + width - 1 - j)).
    { intros j Hj. unfold r. rewrite testbit_ones_land by lia.
      destruct (Z.ltb_spec j width); [|lia]. rewrite andb_true_r.
      rewrite Z.shiftr_spec by lia. unfold bit_at, bb_pos.
      rewrite (div8_eq _ (bb_ptr b)) by lia. f_equal.
      replace (8 * bb_ptr b + bb_index b + width - 1 - j)
        with ((bb_index b + width - 1 - j) + bb_ptr b * 8) by lia.
      rewrite Z.mod_add by lia. rewrite Z.mod_small by lia. lia. }
    destruct (Z.ltb_spec 7 (bb_index (bb_set_index b (bb_index b + width)))) as [Hl|Hl];
      simpl in Hl; eexists; exists r; (split; [reflexivity|]);
      unfold bb_wf, bb_pos; simpl; (split; [repeat split; auto; lia|]);
      (split; [reflexivity|]); (split; [reflexivity|]); (split; [lia|]); (split; [lia|]);
      exact Hbits.
  - rewrite mask_ones by lia.
    set (r0 := Z.land (load (bb_data b) (bb_ptr b)) (Z.ones (7 + 1 - bb_index b))).
    assert (Hr0 : 0 <= r0 < 2 ^ (7 + 1 - bb_index b)) by (apply land_ones_range; lia).
    set (bf := 7 + 1 - bb_index b) in *.
    assert (Hpow : 2 ^ width = 2 ^ bf * 2 ^ (width - bf)).
    { rewrite <- Z.pow_add_r by lia. f_equal. lia. }
    assert (H2bf : 0 < 2 ^ bf) by (apply Z.pow_pos_nonneg; lia).
    assert (H2r : 0 < 2 ^ (width - bf)) by (apply Z.pow_pos_nonneg; lia).
    assert (Hacc2 : (acc * 2 ^ bf + r0 + 1) * 2 ^ (width - bf) <= 2 ^ 31).
    { apply Z.le_trans with ((acc + 1) * 2 ^ bf * 2 ^ (width - bf)); [nia|].
      rewrite <- Z.mul_assoc, <- Hpow. lia. }
    assert (Hwlt : width < 2 ^ 31).
    { assert (width < 2 ^ width) by (apply Z.pow_gt_lin_r; lia). nia. }
    rewrite (s32_small (Z.shiftl acc bf)).
    2:{ rewrite Z.shiftl_mul_pow2 by lia. nia. }
    rewrite lor_shift_add by lia.
    rewrite s32_small by nia.
    rewrite (u32_small (width - bf)) by lia.
    set (b1 := bb_next_byte b).
    assert (Hwf1 : bb_wf b1) by (unfold b1, bb_wf; simpl; repeat split; auto; lia).
    assert (Hp1 : bb_pos b1 = bb_pos b + bf) by (unfold b1, bb_pos, bf; simpl; lia).
    assert (Hlt1 : bb_ptr b1 < bb_eob b1).
    { unfold b1; simpl. unfold bb_pos in Hroom. unfold bf in *. lia. }
    assert (Hroom1 : bb_pos b1 + (width - bf) <= 8 * bb_eob b1).
    { rewrite Hp1. unfold b1; simpl. lia. }
    destruct (IH b1 (acc * 2 ^ bf + r0) (width - bf) Hwf1)
      as (b' & r & E & Hwf' & He' & Hd' & Hp' & Hr & Hb'); [lia|lia|lia|auto|auto|lia|].
    exists b', (r0 * 2 ^ (width - bf) + r).
    split. { rewrite E. f_equal. rewrite Hpow. ring. }
    split; [auto|]. split; [auto|]. split; [auto|]. split; [lia|].
    split. { rewrite Hpow. nia. }
    intros j Hj. rewrite Hp1 in Hb'.
    destruct (Z.ltb_spec j (width - bf)).
    + replace (bb_pos b + width - 1 - j) with (bb_pos b + bf + (width - bf) - 1 - j) by lia.
      rewrite <- Hb' by lia.
      rewrite <- lor_shift_add by lia. rewrite Z.lor_spec, Z.shiftl_spec_low by lia. reflexivity.
    + rewrite <- lor_shift_add by lia. rewrite Z.lor_spec, Z.shiftl_spec by lia.
      rewrite (Z.bits_above_log2 r j), orb_false_r.
      * unfold r0. rewrite testbit_ones_land by lia.
        destruct (Z.ltb_spec (j - (width - bf)) bf); [|lia]. rewrite andb_true_r.
        unfold bit_at, bb_pos, bf. rewrite (div8_eq _ (bb_ptr b)) by (unfold bf in *; lia).
        f_equal.
        replace (8 * bb_ptr b + bb_index b + width - 1 - j)
          with ((bb_index b + width - 1 - j) + bb_ptr b * 8) by lia.
        rewrite Z.mod_add by lia. rewrite Z.mod_small by (unfold bf in *; lia).
        unfold bf in *; lia.
      * lia.
      * destruct (Z.eq_dec r 0) as [->|]; [simpl; lia|].
        apply Z.log2_lt_pow2; [lia|]. apply Z.lt_le_trans with (2 ^ (width - bf)); [lia|].
        apply Z.pow_le_mono_r; lia.
Qed.

Lemma write_bit_eob b bit : bb_eob b <= bb_ptr b → SQZ_bit_buffer_write_bit b bit = (b, 0).
Proof.
  intros. unfold SQZ_bit_buffer_write_bit, SQZ_bit_buffer_eob.
  destruct (Z.leb_spec (bb_eob b) (bb_ptr b)); [reflexivity|lia].
Qed.

(** Where the cursor is after a write, whether it fits or not. *)
Lemma write_bits_pos b bits width :
  bb_wf b → 0 <= width < 2 ^ 32 →
  bb_wf (SQZ_bit_buffer_write_bits b bits width).1
  ∧ bb_eob (SQZ_bit_buffer_write_bits b bits width).1 = bb_eob b
  ∧ bb_pos (SQZ_bit_buffer_write_bits b bits width).1 = Z.min (bb_pos b + width) (8 * bb_eob b).
Proof.
  intros Hwf Hw.
  destruct (write_bits_spec b bits width Hwf Hw) as (b' & ok & -> & ? & ? & ? & ? & _).
  simpl. auto.
Qed.

Lemma write_bit_pos b bit :
  bb_wf b → (bit = 0 ∨ bit = 1) →
  bb_wf (SQZ_bit_buffer_write_bit b bit).1
  ∧ bb_eob (SQZ_bit_buffer_write_bit b bit).1 = bb_eob b
  ∧ bb_pos (SQZ_bit_buffer_write_bit b bit).1 = Z.min (bb_pos b + 1) (8 * bb_eob b).
Proof.
  intros Hwf Hbit. pose proof Hwf as (Hp & Hi & Hor & Hlen).
  destruct (Z.lt_ge_cases (bb_ptr b) (bb_eob b)) as [Hlt|Hge].
  - destruct (write_bit_spec b bit Hwf Hlt Hbit) as (b' & -> & ? & ? & ? & _).
    simpl. split; [auto|]. split; [auto|]. unfold bb_pos in *. lia.
  - rewrite write_bit_eob by lia. simpl. split; [auto|]. split; [auto|]. unfold bb_pos. lia.
Qed.

Lemma eob_iff_pos b : bb_wf b → SQZ_bit_buffer_eob b = true ↔ bb_pos b = 8 * bb_eob b.
Proof.
  intros (Hp & Hi & Hor & Hlen). unfold SQZ_bit_buffer_eob, bb_pos.
  destruct (Z.leb_spec (bb_eob b) (bb_ptr b)); split; intros; try lia; auto; discriminate.
Qed.

Lemma of_bool_01 b : of_bool b = 0 ∨ of_bool b = 1.
Proof. destruct b; auto. Qed.

Lemma encode_header_pos d b :
  bb_wf b →
  bb_wf (SQZ_encode_header d b).1
  ∧ bb_eob (SQZ_encode_header d b).1 = bb_eob b
  ∧ bb_pos (SQZ_encode_header d b).1 = Z.min (bb_pos b + 48) (8 * bb_eob b)
  ∧ (SQZ_encode_header d b).2 = of_bool (negb (SQZ_bit_buffer_eob (SQZ_encode_header d b).1)).
Proof.
  intros Hwf. unfold SQZ_encode_header.
  repeat match goal with
  | |- context [let '(_, _) := SQZ_bit_buffer_write_bits ?b ?x ?w in _] =>
      let H := fresh "H" in
      let Hw := fresh "Hwf" in
      let He := fresh "He" in
      let Hp := fresh "Hp" in
      let Hr := fresh "Hr" in
      assert (H : bb_wf b) by auto;
      assert (Hr : 0 <= w < 2 ^ 32) by lia;
      destruct (write_bits_pos b x w H Hr) as (Hw & He & Hp);
      destruct (SQZ_bit_buffer_write_bits b x w) as [? ?]; simpl in Hw, He, Hp
  end.
  match goal with
  | |- context [let '(_, _) := SQZ_bit_buffer_write_bit ?b ?x in _] =>
      assert (Hlast : bb_wf b) by auto;
      destruct (write_bit_pos b x Hlast (of_bool_01 _)) as (Hwl & Hel & Hpl);
      destruct (SQZ_bit_buffer_write_bit b x) as [? ?]; simpl in Hwl, Hel, Hpl
  end.
  simpl. split; [auto|]. split; [congruence|]. split; [lia|]. reflexivity.
Qed.

Lemma validate_in_range d :
  descriptor_in_range d →
  ∃ d', SQZ_validate_input d false = (d', SQZ_RESULT_OK).
Proof.
  intros (Hw & Hh & Hm & Hs & Hl). unfold SQZ_validate_input.
  unfold SQZ_MIN_DIMENSION, SQZ_MAX_DIMENSION, SQZ_COLOR_MODE_COUNT, SQZ_SCAN_ORDER_COUNT,
    SQZ_COLOR_MODE_GRAYSCALE, SQZ_SCAN_ORDER_RASTER, SQZ_DWT_MAX_LEVEL in *.
  repeat match goal with
  | |- context [?a <? ?b] => destruct (Z.ltb_spec a b); try lia
  | |- context [?a <=? ?b] => destruct (Z.leb_spec a b); try lia
  | |- context [?a =? ?b] => destruct (Z.eqb_spec a b); try lia
  end; simpl; eauto.
Qed.

(** C9: with a budget of at most [SQZ_HEADER_SIZE] bytes, the six of the
    header that fits exactly included, [SQZ_encode] returns
    [SQZ_BUFFER_TOO_SMALL] for every descriptor that passes the range
    checks: after the header the cursor is at the end of the buffer, and
    [SQZ_encode_header] returns the negation of the end-of-buffer test. *)
Theorem encode_header_only_budget fuel source dest d budget :
  descriptor_in_range d → 0 <= budget <= SQZ_HEADER_SIZE → budget <= Z.of_nat (length dest) →
  ∃ e, SQZ_encode fuel source dest d budget = Some e
       ∧ encoded_status e = SQZ_BUFFER_TOO_SMALL.
Proof.
  intros Hd Hb Hlen. unfold SQZ_HEADER_SIZE in Hb.
  destruct (validate_in_range d Hd) as (d' & Hv).
  unfold SQZ_encode. rewrite Hv.
  assert (Hwf : bb_wf (SQZ_bit_buffer_init dest budget)).
  { unfold bb_wf, SQZ_bit_buffer_init; simpl. lia. }
  destruct (encode_header_pos d' _ Hwf) as (Hwf' & He & Hp & Hok).
  change (ctx_buffer (context_zero d' (SQZ_bit_buffer_init dest budget)))
    with (SQZ_bit_buffer_init dest budget).
  destruct (SQZ_encode_header d' (SQZ_bit_buffer_init dest budget)) as [buffer ok].
  simpl in *.
  assert (Heob : SQZ_bit_buffer_eob buffer = true).
  { apply eob_iff_pos; auto. rewrite Hp, He. unfold bb_pos; simpl. lia. }
  rewrite Heob in Hok. simpl in Hok. subst ok. simpl.
  eexists; split; reflexivity.
Qed.

Lemma encode_header_only_budget_witness :
  ∃ e, SQZ_encode 0 (replicate 64 128) (replicate 6 0)
                  (mk_descriptor SQZ_COLOR_MODE_GRAYSCALE SQZ_SCAN_ORDER_RASTER 8 8 1 1 0) 6
       = Some e
       ∧ encoded_status e = SQZ_BUFFER_TOO_SMALL.
Proof.
  apply (encode_header_only_budget 0 (replicate 64 128) (replicate 6 0)
           (mk_descriptor SQZ_COLOR_MODE_GRAYSCALE SQZ_SCAN_ORDER_RASTER 8 8 1 1 0) 6).
  - unfold descriptor_in_range. vm_compute. intuition discriminate.
  - vm_compute. intuition discriminate.
  - vm_compute. discriminate.
Defined.

(** ** [SQZ_mirror] *)

Section mirror.
Variable maximum : Z.
Hypothesis Hmax : 0 < maximum < 2 ^ 16.

Lemma reflect_range v : 0 <= reflect v maximum <= maximum.
Proof.
  unfold reflect. pose proof (Z.mod_pos_bound v (2 * maximum)).
  destruct (Z.leb_spec (v mod (2 * maximum)) maximum); lia.
Qed.

Lemma reflect_congruent v :
  ∃ k, reflect v maximum = v + 2 * maximum * k ∨ reflect v maximum = - v + 2 * maximum * k.
Proof.
  unfold reflect. pose proof (Z.div_mod v (2 * maximum)).
  destruct (Z.leb_spec (v mod (2 * maximum)) maximum).
  - exists (- (v / (2 * maximum))). left. lia.
  - exists (v / (2 * maximum) + 1). right. lia.
Qed.

(** Two points of [0, maximum] congruent to [v] or [- v] are equal. *)
Lemma reflect_unique v u u' :
  0 <= u <= maximum → 0 <= u' <= maximum →
  (∃ k, u = v + 2 * maximum * k ∨ u = - v + 2 * maximum * k) →
  (∃ k, u' = v + 2 * maximum * k ∨ u' = - v + 2 * maximum * k) →
  u = u'.
Proof.
  intros Hu Hu' [k Hk] [k' Hk'].
  destruct Hk as [Hk|Hk], Hk' as [Hk'|Hk'].
  - assert (u - u' = 2 * maximum * (k - k')) by lia.
    assert (k - k' = 0) by nia. lia.
  - assert (u + u' = 2 * maximum * (k + k')) by lia.
    assert (k + k' = 0 ∨ k + k' = 1) by nia. nia.
  - assert (u + u' = 2 * maximum * (k + k')) by lia.
    assert (k + k' = 0 ∨ k + k' = 1) by nia. nia.
  - assert (u - u' = 2 * maximum * (k - k')) by lia.
    assert (k - k' = 0) by nia. lia.
Qed.

Lemma reflect_eq v u :
  0 <= u <= maximum →
  (∃ k, u = v + 2 * maximum * k ∨ u = - v + 2 * maximum * k) →
  u = reflect v maximum.
Proof.
  intros. apply (reflect_unique v); auto using reflect_range, reflect_congruent.
Qed.

Lemma reflect_opp v : reflect (- v) maximum = reflect v maximum.
Proof.
  apply reflect_eq; [apply reflect_range|].
  destruct (reflect_congruent (- v)) as [k [Hk|Hk]]; exists k; lia.
Qed.

Lemma reflect_shift v : reflect (2 * maximum - v) maximum = reflect v maximum.
Proof.
  apply reflect_eq; [apply reflect_range|].
  destruct (reflect_congruent (2 * maximum - v)) as [k [Hk|Hk]].
  - exists (k + 1). right. lia.
  - exists (k - 1). left. lia.
Qed.

Lemma SQZ_mirror_loop_enough fuel : ∀ v,
  Z.abs v <= 2 ^ 30 → mirror_measure v < Z.of_nat fuel →
  SQZ_mirror_loop fuel v maximum = Some (reflect v maximum).
Proof.
  unfold mirror_measure.
  induction fuel as [|fuel IH]; intros v Hv Hm.
  { destruct (Z.ltb_spec v 0); lia. }
  cbn [SQZ_mirror_loop].
  rewrite (u32_small maximum) by lia.
  destruct (Z.ltb_spec v 0) as [Hneg|Hpos].
  - assert (Hu : u32 v = v + 2 ^ 32).
    { unfold u32. symmetry. apply Z.mod_unique with (-1); lia. }
    rewrite Hu. destruct (Z.ltb_spec maximum (v + 2 ^ 32)); [|lia].
    rewrite (s32_small (- v)) by lia.
    destruct (Z.ltb_spec (- v) 0); [lia|].
    rewrite IH; [f_equal; apply reflect_opp | lia |].
    destruct (Z.ltb_spec (- v) 0); lia.
  - rewrite (u32_small v) by lia.
    destruct (Z.ltb_spec maximum v) as [Hout|Hin].
    + rewrite (s32_small (- v)) by lia.
      destruct (Z.ltb_spec (- v) 0); [|lia].
      rewrite (s32_small (2 * maximum)) by lia.
      rewrite (s32_small (- v + 2 * maximum)) by lia.
      rewrite IH.
      * f_equal. replace (- v + 2 * maximum) with (2 * maximum - v) by lia.
        apply reflect_shift.
      * lia.
      * destruct (Z.ltb_spec (- v + 2 * maximum) 0); lia.
    + f_equal. apply reflect_eq; [lia|]. exists 0. left. lia.
Qed.
End mirror.

(** C8: for [maximum] in [0, 2^16) and [|value| <= 2^30] the loop of
    [SQZ_mirror] ends and returns the whole-sample reflection of [value]
    into [0, maximum]: 0 when [maximum] is 0, otherwise the one [u] of
    [0, maximum] congruent to [value] or to [- value] modulo [2 * maximum];
    [-1] goes to 1. *)
Theorem SQZ_mirror_reflects (value maximum : Z) :
  0 <= maximum < 2 ^ 16 → Z.abs value <= 2 ^ 30 →
  ∃ fuel u,
    SQZ_mirror fuel value maximum = Some u
    ∧ (maximum = 0 → u = 0)
    ∧ (0 < maximum →
       0 <= u <= maximum
       ∧ ((u - value) mod (2 * maximum) = 0 ∨ (u + value) mod (2 * maximum) = 0)
       ∧ ∀ u', 0 <= u' <= maximum →
               (u' - value) mod (2 * maximum) = 0 ∨ (u' + value) mod (2 * maximum) = 0 →
               u' = u)
    ∧ (1 <= maximum → value = -1 → u = 1).
Proof.
  intros Hmax Hv.
  destruct (Z.eq_dec maximum 0) as [->|Hne].
  { exists O, 0. unfold SQZ_mirror; simpl. repeat split; intros; lia. }
  assert (Hm : 0 < maximum < 2 ^ 16) by lia.
  exists (Z.to_nat (mirror_measure value + 1)), (reflect value maximum).
  assert (Hcong : ∀ u, (∃ k, u = value + 2 * maximum * k ∨ u = - value + 2 * maximum * k)
                       ↔ ((u - value) mod (2 * maximum) = 0 ∨ (u + value) mod (2 * maximum) = 0)).
  { intros u. split.
    - intros [k [Hk|Hk]]; [left|right].
      + replace (u - value) with (k * (2 * maximum)) by lia. apply Z.mod_mul. lia.
      + replace (u + value) with (k * (2 * maximum)) by lia. apply Z.mod_mul. lia.
    - intros [H|H]; apply Z.mod_divide in H; try lia; destruct H as [k Hk]; exists k;
        [left|right]; lia. }
  split.
  { unfold SQZ_mirror. destruct (Z.eqb_spec maximum 0); [lia|].
    apply SQZ_mirror_loop_enough; auto.
    unfold mirror_measure. destruct (Z.ltb_spec value 0); lia. }
  split; [lia|]. split.
  { intros _. split; [apply reflect_range; auto|]. split.
    - apply Hcong. apply reflect_congruent; auto.
    - intros u' Hu' Hc. apply reflect_eq; auto. apply Hcong; auto. }
  intros Hone ->. symmetry. apply reflect_eq; [lia|lia|]. exists 0. right. lia.
Qed.

Lemma SQZ_mirror_reflects_witness :
  ∃ fuel u,
    SQZ_mirror fuel (-1) 7 = Some u
    ∧ (7 = 0 → u = 0)
    ∧ (0 < 7 →
       0 <= u <= 7
       ∧ ((u - -1) mod (2 * 7) = 0 ∨ (u + -1) mod (2 * 7) = 0)
       ∧ ∀ u', 0 <= u' <= 7 →
               (u' - -1) mod (2 * 7) = 0 ∨ (u' + -1) mod (2 * 7) = 0 →
               u' = u)
    ∧ (1 <= 7 → -1 = -1 → u = 1).
Proof. apply (SQZ_mirror_reflects (-1) 7); simpl; lia. Defined.

(** ** Validation of the number of levels *)

Lemma SQZ_ilog2_log2 x : 0 < x < 2 ^ 32 → SQZ_ilog2 x = Z.log2 x + 1.
Proof.
  intros Hx. unfold SQZ_ilog2, builtin_clz.
  destruct (Z.eqb_spec x 0); [lia|]. simpl.
  assert (0 <= Z.log2 x < 32).
  { split; [apply Z.log2_nonneg|]. apply Z.log2_lt_pow2; lia. }
  rewrite u32_small; lia.
Qed.

Lemma SQZ_ilog2_0 : SQZ_ilog2 0 = 0.
Proof. reflexivity. Qed.

(** C5, as the specification states it, fails on the smallest image. *)
Lemma level_bound_as_stated_fails :
  let d := mk_descriptor 0 0 8 8 1 1 0 in
  descriptor_in_range d
  ∧ Z.log2 (Z.min (width d) (height d)) - 3 < dwt_levels d
  ∧ dwt_levels (SQZ_validate_input d false).1 ≠ Z.log2 (Z.min (width d) (height d)) - 3
  ∧ (SQZ_validate_input d true).2 ≠ SQZ_DATA_CORRUPTED.
Proof.
  cbv zeta. split.
  { unfold descriptor_in_range; simpl.
    unfold SQZ_MIN_DIMENSION, SQZ_MAX_DIMENSION, SQZ_COLOR_MODE_COUNT, SQZ_SCAN_ORDER_COUNT,
      SQZ_DWT_MAX_LEVEL. lia. }
  vm_compute. repeat split; congruence.
Qed.

Lemma validate_max_level d :
  descriptor_in_range d → level_bound d < dwt_levels d →
  SQZ_validate_input d false
  = (mk_descriptor (color_mode d) (scan_order d) (width d) (height d) (level_bound d)
       (load SQZ_number_of_planes (color_mode d)) (subsampling d), SQZ_RESULT_OK)
  ∧ SQZ_validate_input d true = (d, SQZ_DATA_CORRUPTED).
Proof.
  intros (Hw & Hh & Hm & Hs & Hl) Hb. unfold level_bound in *.
  unfold SQZ_validate_input.
  unfold SQZ_MIN_DIMENSION, SQZ_MAX_DIMENSION, SQZ_COLOR_MODE_COUNT, SQZ_SCAN_ORDER_COUNT,
    SQZ_COLOR_MODE_GRAYSCALE, SQZ_SCAN_ORDER_RASTER, SQZ_DWT_MAX_LEVEL in *.
  set (m := if height d <? width d then height d else width d).
  assert (Hmin : m = Z.min (width d) (height d)).
  { unfold m. destruct (Z.ltb_spec (height d) (width d)); lia. }
  assert (Hmr : 8 <= m < 2 ^ 16) by lia.
  assert (Hlog : 3 <= Z.log2 m < 16).
  { split.
    - change 3 with (Z.log2 8). apply Z.log2_le_mono. lia.
    - apply Z.log2_lt_pow2; lia. }
  rewrite (u32_small m) by lia.
  rewrite SQZ_ilog2_log2 by lia.
  rewrite (u32_small (Z.log2 m + 1 - 3)) by lia.
  rewrite <- Hmin in *.
  destruct (Z.ltb_spec (width d) 8); [lia|].
  destruct (Z.ltb_spec (2 ^ 16 - 1) (width d)); [lia|].
  destruct (Z.ltb_spec (height d) 8); [lia|].
  destruct (Z.ltb_spec (2 ^ 16 - 1) (height d)); [lia|].
  destruct (Z.ltb_spec (color_mode d) 0); [lia|].
  destruct (Z.leb_spec 4 (color_mode d)); [lia|].
  destruct (Z.ltb_spec (scan_order d) 0); [lia|].
  destruct (Z.leb_spec 4 (scan_order d)); [lia|].
  destruct (Z.eqb_spec (dwt_levels d) 0); [lia|].
  destruct (Z.ltb_spec 8 (dwt_levels d)); [lia|].
  simpl.
  destruct (Z.ltb_spec 8 (Z.log2 m + 1 - 3)); [lia|].
  destruct (Z.ltb_spec (Z.log2 m + 1 - 3) (dwt_levels d)); [|lia].
  split; [|reflexivity]. do 2 f_equal. lia.
Qed.

(** Every return of [SQZ_encode] leaves the validated descriptor. *)
Lemma encode_descriptor fuel source dest d budget e :
  SQZ_encode fuel source dest d budget = Some e →
  encoded_descriptor e = (SQZ_validate_input d false).1.
Proof.
  unfold SQZ_encode. destruct (SQZ_validate_input d false) as [d' result].
  intros H. simpl.
  destruct result; try (injection H as <-; reflexivity).
  destruct (SQZ_encode_header d' _) as [buffer ok].
  destruct (negb (truthy ok)); [injection H as <-; reflexivity|].
  destruct (SQZ_common_init_context _) as [ctx r0].
  destruct (SQZ_color_process ctx source true) as [ctx1 source1].
  destruct (SQZ_dwt fuel ctx1) as [[ctx2 r2]|]; simpl in H; [|discriminate].
  destruct (SQZ_schedule_task _ _ _ _) as [[ctx3 r3]|]; simpl in H; [|discriminate].
  destruct r3; injection H as <-; reflexivity.
Qed.

(** ** The scheduler returns what the initialization returns *)

Lemma encode_init_ok : init_ok SQZ_encode_init_subband.
Proof.
  intros fuel data band scan buffer band' scan' buffer' result.
  unfold SQZ_encode_init_subband.
  destruct (SQZ_common_init_subband fuel band scan) as [[[b s] r]|]; simpl; [|discriminate].
  destruct (SQZ_bit_buffer_write_bits _ _ _). intros H; injection H; auto.
Qed.

Lemma decode_init_ok : init_ok SQZ_decode_init_subband.
Proof.
  intros fuel data band scan buffer band' scan' buffer' result.
  unfold SQZ_decode_init_subband.
  destruct (SQZ_common_init_subband fuel band scan) as [[[b s] r]|]; simpl; [|discriminate].
  destruct (SQZ_bit_buffer_read_bits _ _). intros H; injection H; auto.
Qed.

Lemma schedule_advance_ok st : step_ok (schedule_advance st).
Proof.
  destruct st. unfold schedule_advance.
  repeat match goal with
  | |- context [if ?c then _ else _] => destruct c
  end; exact I.
Qed.

#[local] Opaque schedule_advance.

Lemma schedule_visit_ok fuel init task st step :
  init_ok init → schedule_visit fuel init task st = Some step → step_ok step.
Proof.
  intros Hinit. destruct st as [ctx scan state plane level orientation round done].
  unfold schedule_visit.
  destruct (_ || _).
  { intros H; injection H as <-. apply schedule_advance_ok. }
  destruct (band_round _ =? round).
  - destruct (SQZ_scan_init fuel scan _) as [[scan1 r1]|]; simpl; [|discriminate].
    destruct (init fuel _ _ scan1 _) as [[[[band2 scan2] buffer2] result2]|] eqn:E; simpl;
      [|discriminate].
    apply Hinit in E. subst result2.
    destruct (task _ _ _) as [[[data3 band3] buffer3] ok3].
    destruct (negb (truthy ok3)); intros H; injection H as <-; simpl; auto.
    apply schedule_advance_ok.
  - simpl.
    destruct (task _ _ _) as [[[data3 band3] buffer3] ok3].
    destruct (negb (truthy ok3)); intros H; injection H as <-; simpl; auto.
    apply schedule_advance_ok.
Qed.

#[local] Transparent schedule_advance.

Lemma schedule_round_ok fuel init task n : ∀ st step,
  init_ok init → schedule_round fuel n init task st = Some step → step_ok step.
Proof.
  induction n as [|n IH]; intros st step Hinit; [discriminate|].
  cbn [schedule_round].
  destruct (schedule_visit fuel init task st) as [s|] eqn:E; simpl; [|discriminate].
  pose proof (schedule_visit_ok _ _ _ _ _ Hinit E) as Hs.
  destruct s; [apply IH; auto| |]; intros H; injection H as <-; auto.
Qed.

Lemma schedule_rounds_ok fuel init task n : ∀ st r,
  init_ok init → schedule_rounds fuel n init task st = Some r → r.2 = SQZ_RESULT_OK.
Proof.
  induction n as [|n IH]; intros st r Hinit; [discriminate|].
  cbn [schedule_rounds].
  destruct (_ && _); [|intros H; injection H as <-; reflexivity].
  destruct st as [ctx scan state plane level orientation round done].
  destruct (schedule_round _ _ _ _ _) as [s|] eqn:E; simpl; [|discriminate].
  pose proof (schedule_round_ok _ _ _ _ _ _ Hinit E) as Hs.
  destruct s as [st'|st'|ctx' result']; simpl in Hs.
  - destruct st'. apply IH; auto.
  - destruct st'. apply IH; auto.
  - intros H; injection H as <-. auto.
Qed.

Lemma schedule_task_ok fuel ctx init task r :
  init_ok init → SQZ_schedule_task fuel ctx init task = Some r → r.2 = SQZ_RESULT_OK.
Proof. intros Hinit. unfold SQZ_schedule_task. apply schedule_rounds_ok; auto. Qed.

(** The values [SQZ_encode] returns once the descriptor is valid. *)
Lemma encode_status fuel source dest d budget e :
  (SQZ_validate_input d false).2 = SQZ_RESULT_OK →
  SQZ_encode fuel source dest d budget = Some e →
  encoded_status e = SQZ_RESULT_OK ∨ encoded_status e = SQZ_BUFFER_TOO_SMALL.
Proof.
  unfold SQZ_encode. destruct (SQZ_validate_input d false) as [d' result].
  intros Hr H. cbn [snd] in Hr. subst result.
  destruct (SQZ_encode_header d' _) as [buffer ok].
  destruct (negb (truthy ok)); [injection H as <-; auto|].
  destruct (SQZ_common_init_context _) as [ctx r0].
  destruct (SQZ_color_process ctx source true) as [ctx1 source1].
  destruct (SQZ_dwt fuel ctx1) as [[ctx2 r2]|]; simpl in H; [|discriminate].
  destruct (SQZ_schedule_task _ _ _ _) as [[ctx3 r3]|] eqn:E; simpl in H; [|discriminate].
  apply schedule_task_ok in E; [|apply encode_init_ok]. simpl in E. subst r3.
  injection H as <-; auto.
Qed.

(** With the bound in [dwt_levels] from the start the validation changes
    nothing more, and [SQZ_encode] goes the same way. *)
Lemma encode_clamped d :
  descriptor_in_range d → level_bound d < dwt_levels d →
  ∀ fuel source dest budget,
    SQZ_encode fuel source dest d budget
    = SQZ_encode fuel source dest
        (mk_descriptor (color_mode d) (scan_order d) (width d) (height d) (level_bound d)
                       (num_planes d) (subsampling d)) budget.
Proof.
  intros Hd Hb fuel source dest budget.
  destruct (validate_max_level d Hd Hb) as [Hw _].
  unfold SQZ_encode. rewrite Hw.
  set (d1 := mk_descriptor (color_mode d) (scan_order d) (width d) (height d) (level_bound d)
                           (num_planes d) (subsampling d)).
  assert (Hv : SQZ_validate_input d1 false
               = (mk_descriptor (color_mode d) (scan_order d) (width d) (height d)
                    (level_bound d) (load SQZ_number_of_planes (color_mode d))
                    (subsampling d), SQZ_RESULT_OK)).
  { destruct Hd as (Hwd & Hh & Hm & Hs & Hl). unfold level_bound in *.
    unfold SQZ_validate_input, d1.
    cbn [width height color_mode scan_order dwt_levels subsampling num_planes].
    unfold SQZ_MIN_DIMENSION, SQZ_MAX_DIMENSION, SQZ_COLOR_MODE_COUNT, SQZ_SCAN_ORDER_COUNT,
      SQZ_COLOR_MODE_GRAYSCALE, SQZ_SCAN_ORDER_RASTER, SQZ_DWT_MAX_LEVEL in *.
    set (m := if height d <? width d then height d else width d).
    assert (Hmin : m = Z.min (width d) (height d)).
    { unfold m. destruct (Z.ltb_spec (height d) (width d)); lia. }
    assert (Hmr : 8 <= m < 2 ^ 16) by lia.
    assert (Hlog : 3 <= Z.log2 m < 16).
    { split.
      - change 3 with (Z.log2 8). apply Z.log2_le_mono. lia.
      - apply Z.log2_lt_pow2; lia. }
    rewrite (u32_small m) by lia.
    rewrite SQZ_ilog2_log2 by lia.
    rewrite (u32_small (Z.log2 m + 1 - 3)) by lia.
    rewrite <- Hmin in *.
    destruct (Z.ltb_spec (width d) 8); [lia|].
    destruct (Z.ltb_spec (2 ^ 16 - 1) (width d)); [lia|].
    destruct (Z.ltb_spec (height d) 8); [lia|].
    destruct (Z.ltb_spec (2 ^ 16 - 1) (height d)); [lia|].
    destruct (Z.ltb_spec (color_mode d) 0); [lia|].
    destruct (Z.leb_spec 4 (color_mode d)); [lia|].
    destruct (Z.ltb_spec (scan_order d) 0); [lia|].
    destruct (Z.leb_spec 4 (scan_order d)); [lia|].
    destruct (Z.eqb_spec (Z.log2 m - 2) 0); [lia|].
    destruct (Z.ltb_spec 8 (Z.log2 m - 2)); [lia|].
    simpl.
    destruct (Z.ltb_spec 8 (Z.log2 m + 1 - 3)); [lia|].
    destruct (Z.ltb_spec (Z.log2 m + 1 - 3) (Z.log2 m - 2)); [lia|].
    reflexivity. }
  rewrite Hv. reflexivity.
Qed.

(** C5, amended: the bound is [⌊log₂(min(W,H))⌋ − 2].  For a descriptor in
    range whose [dwt_levels] is above the bound, [SQZ_validate_input] in
    write mode returns [SQZ_RESULT_OK] with [dwt_levels] lowered to exactly
    the bound; [SQZ_encode] then does what it does for the descriptor that
    carries the bound from the start, and whatever it returns, the
    descriptor it hands back has the bound and the status is not the
    [SQZ_INVALID_PARAMETER] of a rejected descriptor.  [SQZ_decode] returns
    [SQZ_DATA_CORRUPTED] for every header that decodes to such a
    descriptor. *)
Theorem validate_input_level_bound d :
  descriptor_in_range d → level_bound d < dwt_levels d →
  (SQZ_validate_input d false).2 = SQZ_RESULT_OK
  ∧ dwt_levels (SQZ_validate_input d false).1 = level_bound d
  ∧ (∀ fuel source dest budget,
       SQZ_encode fuel source dest d budget
       = SQZ_encode fuel source dest
           (mk_descriptor (color_mode d) (scan_order d) (width d) (height d) (level_bound d)
                          (num_planes d) (subsampling d)) budget)
  ∧ (∀ fuel source dest budget e,
       SQZ_encode fuel source dest d budget = Some e →
       dwt_levels (encoded_descriptor e) = level_bound d
       ∧ encoded_status e ≠ SQZ_INVALID_PARAMETER)
  ∧ (∀ fuel source dest src_size dest_size descriptor buffer,
       ¬ (dest = None ∧ dest_size ≠ 0) →
       SQZ_decode_header descriptor_zero (SQZ_bit_buffer_init source src_size)
       = Some (d, buffer, 1) →
       ∃ r, SQZ_decode fuel source dest src_size dest_size descriptor = Some r
            ∧ decoded_status r = SQZ_DATA_CORRUPTED).
Proof.
  intros Hd Hb. destruct (validate_max_level d Hd Hb) as [Hw Hr].
  split; [rewrite Hw; reflexivity|]. split; [rewrite Hw; reflexivity|].
  split; [apply encode_clamped; auto|]. split.
  - intros fuel source dest budget e He. split.
    + rewrite (encode_descriptor _ _ _ _ _ _ He), Hw. reflexivity.
    + destruct (encode_status _ _ _ _ _ _ ltac:(rewrite Hw; reflexivity) He) as [-> | ->];
        discriminate.
  - intros fuel source dest src_size dest_size descriptor buffer Hnull Hh.
    unfold SQZ_decode.
    assert ((if dest is None then true else false) && negb (dest_size =? 0) = false) as ->.
    { destruct dest; simpl; auto. destruct (Z.eqb_spec dest_size 0); simpl; auto.
      exfalso. apply Hnull. auto. }
    rewrite Hh. simpl. rewrite Hr. eexists; split; reflexivity.
Qed.

Lemma validate_input_level_bound_witness :
  let d := mk_descriptor SQZ_COLOR_MODE_GRAYSCALE SQZ_SCAN_ORDER_RASTER 8 8 2 1 0 in
  let d1 := mk_descriptor SQZ_COLOR_MODE_GRAYSCALE SQZ_SCAN_ORDER_RASTER 8 8 1 1 0 in
  let pixels := replicate 64 200 in
  (SQZ_validate_input d false).2 = SQZ_RESULT_OK
  ∧ dwt_levels (SQZ_validate_input d false).1 = 1
  ∧ SQZ_encode 200 pixels (replicate 64 0) d 64 = SQZ_encode 200 pixels (replicate 64 0) d1 64
  ∧ (∃ e, SQZ_encode 200 pixels (replicate 64 0) d 64 = Some e
          ∧ dwt_levels (encoded_descriptor e) = 1
          ∧ encoded_status e ≠ SQZ_INVALID_PARAMETER)
  ∧ (∃ r, SQZ_decode 0 [165; 0; 7; 0; 7; 8; 0] None 7 0 None = Some r
          ∧ decoded_status r = SQZ_DATA_CORRUPTED).
Proof.
  cbv zeta.
  destruct (validate_input_level_bound
              (mk_descriptor SQZ_COLOR_MODE_GRAYSCALE SQZ_SCAN_ORDER_RASTER 8 8 2 1 0))
    as (H1 & H2 & H3 & H4 & H5).
  - unfold descriptor_in_range. vm_compute. intuition discriminate.
  - vm_compute. reflexivity.
  - split; [exact H1|]. split; [exact H2|].
    split; [exact (H3 200%nat (replicate 64 200) (replicate 64 0) 64)|]. split.
    + eassert (He : SQZ_encode 200 (replicate 64 200) (replicate 64 0)
                      (mk_descriptor SQZ_COLOR_MODE_GRAYSCALE SQZ_SCAN_ORDER_RASTER 8 8 2 1 0) 64
                    = Some _) by (vm_compute; reflexivity).
      eexists. split; [exact He|]. exact (H4 _ _ _ _ _ He).
    + eapply (H5 0%nat [165; 0; 7; 0; 7; 8; 0] None 7 0 None).
      * intros [_ Hne]. apply Hne. reflexivity.
      * vm_compute. reflexivity.
Defined.

(** ** The starting round of the chroma subbands *)

(** What [SQZ_common_init_context] stores in [band->round]. *)
Lemma init_band_round image plane_data plane level orientation w h band :
  band_round (init_band image plane_data plane level orientation w h band)
  = s32 (schedule_entry (color_mode image) plane level orientation
         + Z.land (subsampling image) (of_bool (0 <? plane))).
Proof. reflexivity. Qed.

(** C6: a descriptor whose [subsampling] is 2 has the flag set, and the
    header says so, yet the encoder starts the chroma subbands at the round
    of the table; the decoder, which reads the flag back as 1, starts them
    one round later. *)
Theorem chroma_round_even_subsampling :
  let d := mk_descriptor SQZ_COLOR_MODE_YCOCG_R SQZ_SCAN_ORDER_RASTER 8 8 1 3 2 in
  let header := (SQZ_encode_header d (SQZ_bit_buffer_init (replicate 8 0) 8)).1 in
  ∃ d' buffer ok,
    SQZ_decode_header descriptor_zero (bb_rewind (SQZ_bit_buffer_init [] 8) header)
    = Some (d', buffer, ok)
    ∧ truthy (subsampling d) = true
    ∧ band_round (get_band (context_of d) 1 0 0) = schedule_entry SQZ_COLOR_MODE_YCOCG_R 1 0 0
    ∧ subsampling d' = 1
    ∧ band_round (get_band (context_of d') 1 0 0)
      = schedule_entry SQZ_COLOR_MODE_YCOCG_R 1 0 0 + 1.
Proof.
  cbv zeta. eexists _, _, _. split; [vm_compute; reflexivity|].
  vm_compute. repeat split.
Qed.

(** ** Snake order *)

(** C7: on a 12 by 4 rectangle the seventeenth position is seven columns
    away from the sixteenth. *)
Theorem snake_12x4_jump :
  ∃ l p q, snake_scan_positions 100 12 4 = Some l
           ∧ l !! 15%nat = Some p ∧ l !! 16%nat = Some q
           ∧ p = (0, 3) ∧ q = (7, 3) ∧ manhattan p q = 7.
Proof.
  eexists _, _, _. split; [vm_compute; reflexivity|].
  repeat split.
Qed.

(** ** Round trip *)

(** C1: with [subsampling] equal to 2 a solid 8 by 8 YCoCg-R image, encoded
    with twice the budget the claim asks for at least, does not decode to
    itself. *)
Theorem roundtrip_even_subsampling :
  let d := mk_descriptor SQZ_COLOR_MODE_YCOCG_R SQZ_SCAN_ORDER_RASTER 8 8 1 3 2 in
  let pixels := replicate 192 200 in
  ∃ e r,
    SQZ_encode 200 pixels (replicate 384 0) d 384 = Some e
    ∧ encoded_status e = SQZ_RESULT_OK
    ∧ SQZ_decode 200 (take (Z.to_nat (encoded_budget e)) (encoded_dest e))
                 (Some (replicate 192 0)) (encoded_budget e) 192 (Some descriptor_zero)
      = Some r
    ∧ decoded_status r = SQZ_RESULT_OK
    ∧ decoded_dest r ≠ Some pixels.
Proof.
  cbv zeta. eexists _, _.
  split; [vm_compute; reflexivity|].
  split; [reflexivity|].
  split; [vm_compute; reflexivity|].
  split; [reflexivity|].
  vm_compute. discriminate.
Qed.

(** ** Counted loops *)

Lemma for_loop_ind {T : Type} (P : Z → T → Prop) (body : Z → T → T) n : ∀ i s,
  P i s →
  (∀ j s, i <= j < i + Z.of_nat n → P j s → P (j + 1) (body j s)) →
  P (i + Z.of_nat n) (for_loop n i body s).
Proof.
  induction n as [|n IH]; intros i s H0 Hstep.
  - simpl. replace (i + Z.of_nat 0) with i by lia. exact H0.
  - cbn [for_loop]. replace (i + Z.of_nat (S n)) with (i + 1 + Z.of_nat n) by lia.
    apply IH.
    + apply Hstep; [lia|exact H0].
    + intros j s' Hj. apply Hstep. lia.
Qed.

Lemma for_range_ind {T : Type} (P : Z → T → Prop) (body : Z → T → T) lo hi s :
  lo <= hi →
  P lo s →
  (∀ j s, lo <= j < hi → P j s → P (j + 1) (body j s)) →
  P hi (for_range lo hi body s).
Proof.
  intros Hle H0 Hstep. unfold for_range.
  replace hi with (lo + Z.of_nat (Z.to_nat (hi - lo))) at 1 by lia.
  apply for_loop_ind; auto.
  intros j s' Hj. apply Hstep. lia.
Qed.

(** ** The largest coefficient of a subband *)

Section get_max.
Variables (data : list Z) (band : SQZ_dwt_subband_t).
Hypothesis Hw : 1 <= band_width band.
Hypothesis Hh : 1 <= band_height band.

(** [m] bounds the coefficients of the lines before [y] and of the
    columns before [x] of line [y], and is one of them or the first. *)
Let seen (x y : Z) (m : Z) : Prop :=
  (∀ x' y', 0 <= x' < band_width band →
            (0 <= y' < y ∨ (y' = y ∧ x' < x)) → coefficient data band x' y' <= m)
  ∧ ∃ x' y', 0 <= x' < band_width band ∧ 0 <= y' < band_height band
             ∧ coefficient data band x' y' = m.

Lemma SQZ_dwt_get_max_spec :
  (∀ x y, 0 <= x < band_width band → 0 <= y < band_height band →
          coefficient data band x y <= SQZ_dwt_get_max data band)
  ∧ ∃ x y, 0 <= x < band_width band ∧ 0 <= y < band_height band
           ∧ coefficient data band x y = SQZ_dwt_get_max data band.
Proof.
  unfold SQZ_dwt_get_max.
  assert (H : seen 0 (band_height band)
                (for_range 0 (band_height band)
                   (λ y max,
                      for_range 0 (band_width band)
                        (λ x max,
                           if max <? load data (band_data band + y * band_stride band + x)
                           then load data (band_data band + y * band_stride band + x)
                           else max) max)
                   (load data (band_data band)))).
  { apply (for_range_ind (λ y m, seen 0 y m)); [lia| |].
    - split; [intros; lia|]. exists 0, 0. unfold coefficient.
      repeat split; try lia. f_equal. lia.
    - intros y m Hy Hseen.
      assert (Hrow : seen (band_width band) y
                (for_range 0 (band_width band)
                   (λ x max,
                      if max <? load data (band_data band + y * band_stride band + x)
                      then load data (band_data band + y * band_stride band + x)
                      else max) m)).
      { apply (for_range_ind (λ x m, seen x y m)); [lia|exact Hseen|].
        intros x m' Hx [Hle Hex]. fold (coefficient data band x y).
        destruct (Z.ltb_spec m' (coefficient data band x y)).
        - split.
          + intros x' y' Hx' Hc.
            destruct (Z.eq_dec x' x) as [->|]; [destruct Hc as [?|[-> ?]]; try lia|].
            * specialize (Hle x y' Hx'). lia.
            * specialize (Hle x' y' Hx'). lia.
          + exists x, y. repeat split; lia.
        - split; [|exact Hex].
          intros x' y' Hx' Hc.
          destruct (Z.eq_dec x' x) as [->|]; [destruct Hc as [?|[-> ?]]; try lia|].
          + apply Hle; auto.
          + apply Hle; auto. lia. }
      destruct Hrow as [Hle Hex]. split; [|exact Hex].
      intros x' y' Hx' Hc. apply Hle; auto. lia. }
  destruct H as [Hle Hex]. split; [|exact Hex].
  intros x y Hx Hy. apply Hle; auto.
Qed.
End get_max.

(** ** Reading back what was written *)

Lemma bb_rewind_wf b b' :
  bb_wf b → length (bb_data b') = length (bb_data b) → bb_wf (bb_rewind b b').
Proof. intros (?&?&?&?) Hl. unfold bb_wf, bb_rewind; simpl. rewrite Hl. auto. Qed.

(** A field written over zero bits reads back as it was written. *)
Lemma read_after_write b v w :
  bb_wf b → 1 <= w <= 31 → 0 <= v < 2 ^ w →
  bb_pos b + w <= 8 * bb_eob b →
  (∀ q, bb_pos b <= q < bb_pos b + w → bit_at (bb_data b) q = false) →
  (SQZ_bit_buffer_write_bits b v w).2 = 1
  ∧ bb_pos (SQZ_bit_buffer_write_bits b v w).1 = bb_pos b + w
  ∧ (SQZ_bit_buffer_read_bits (bb_rewind b (SQZ_bit_buffer_write_bits b v w).1) w).2 = v.
Proof.
  intros Hwf Hw Hv Hroom Hzero. pose proof Hwf as (Hp & Hi & Hor & Hlen).
  assert (Hlt : bb_ptr b < bb_eob b) by (unfold bb_pos in *; lia).
  destruct (write_bits_spec b v w Hwf) as (b' & ok & E & Hwf' & He' & Hl' & Hp' & Hok & Hiff & Hb').
  { split; [lia|]. apply Z.lt_trans with 32; lia. }
  rewrite E. simpl.
  split; [apply Hiff; auto|]. split; [lia|].
  assert (Hwfr : bb_wf (bb_rewind b b')) by (apply bb_rewind_wf; auto).
  assert (H31 : (0 + 1) * 2 ^ w <= 2 ^ 31).
  { assert (2 ^ w <= 2 ^ 31) by (apply Z.pow_le_mono_r; lia). lia. }
  destruct (read_bits_loop_spec (S (Z.to_nat w)) (bb_rewind b b') 0 w Hwfr)
    as (b'' & r & Er & _ & _ & _ & _ & Hr & Hbits);
    [lia | lia | exact H31 | exact Hlt | exact Hroom | lia |].
  unfold SQZ_bit_buffer_read_bits. rewrite Er. simpl.
  apply Z.bits_inj'. intros j Hj.
  destruct (Z.ltb_spec j w) as [Hjw|Hjw].
  - rewrite Hbits by lia. simpl.
    change (bb_pos (bb_rewind b b')) with (bb_pos b).
    rewrite Hb' by (unfold bb_pos; lia).
    rewrite Hzero by lia. simpl. unfold written.
    destruct (Z.leb_spec (bb_pos b) (bb_pos b + w - 1 - j)); [|lia].
    destruct (Z.ltb_spec (bb_pos b + w - 1 - j) (Z.min (bb_pos b + w) (8 * bb_eob b))); [|lia].
    simpl. f_equal. lia.
  - assert (Hhigh : ∀ z, 0 <= z < 2 ^ w → Z.testbit z j = false).
    { intros z Hz. destruct (Z.eq_dec z 0) as [->|]; [apply Z.bits_0|].
      apply Z.bits_above_log2; [lia|].
      apply Z.lt_le_trans with w; [|lia]. apply Z.log2_lt_pow2; lia. }
    rewrite !Hhigh; auto.
Qed.

(** ** [max_bitplane] at initialization *)

Lemma bit_length_range v : 0 <= v < 2 ^ 14 → 0 <= bit_length v <= 14.
Proof.
  intros Hv. unfold bit_length. destruct (Z.eqb_spec v 0); [lia|].
  assert (0 <= Z.log2 v < 14); [|lia].
  split; [apply Z.log2_nonneg|]. apply Z.log2_lt_pow2; lia.
Qed.

Lemma SQZ_ilog2_bit_length v : 0 <= v < 2 ^ 32 → SQZ_ilog2 v = bit_length v.
Proof.
  intros Hv. unfold bit_length. destruct (Z.eqb_spec v 0) as [->|]; [reflexivity|].
  apply SQZ_ilog2_log2. lia.
Qed.




(** ** Bit interleaving *)

Lemma land_lt_pow2 a m n : 0 <= n → 0 <= m < 2 ^ n → 0 <= Z.land a m < 2 ^ n.
Proof.
  intros Hn Hm.
  rewrite <- (Z.mod_small m (2 ^ n)) by lia.
  rewrite <- (Z.land_ones m n), Z.land_assoc, Z.land_ones by lia.
  apply Z.mod_pos_bound. lia.
Qed.

Lemma u32_shiftl_small i k s :
  0 <= k → 0 <= s → k + s <= 32 → 0 <= i < 2 ^ k → u32 (Z.shiftl i s) = Z.shiftl i s.
Proof.
  intros Hk Hs Hks Hi. apply u32_small. rewrite Z.shiftl_mul_pow2 by lia.
  assert (0 < 2 ^ s) by (apply Z.pow_pos_nonneg; lia).
  assert (2 ^ k * 2 ^ s <= 2 ^ 32).
  { rewrite <- Z.pow_add_r by lia. apply Z.pow_le_mono_r; lia. }
  nia.
Qed.

Lemma interleave_exact_eq x : SQZ_interleave_u16_to_u32 x = interleave_exact x.
Proof.
  unfold SQZ_interleave_u16_to_u32, interleave_exact. cbv zeta.
  set (i0 := Z.land x 0x0000FFFF).
  assert (H0 : 0 <= i0 < 2 ^ 16) by (apply land_lt_pow2; lia).
  rewrite (u32_shiftl_small i0 16 8) by lia.
  set (i1 := Z.land (Z.lxor i0 (Z.shiftl i0 8)) 0x00FF00FF).
  assert (H1 : 0 <= i1 < 2 ^ 24) by (apply land_lt_pow2; lia).
  rewrite (u32_shiftl_small i1 24 4) by lia.
  set (i2 := Z.land (Z.lxor i1 (Z.shiftl i1 4)) 0x0F0F0F0F).
  assert (H2 : 0 <= i2 < 2 ^ 28) by (apply land_lt_pow2; lia).
  rewrite (u32_shiftl_small i2 28 2) by lia.
  set (i3 := Z.land (Z.lxor i2 (Z.shiftl i2 2)) 0x33333333).
  assert (H3 : 0 <= i3 < 2 ^ 30) by (apply land_lt_pow2; lia).
  rewrite (u32_shiftl_small i3 30 1) by lia.
  reflexivity.
Qed.

Lemma spread_spec z k :
  0 <= z → 0 <= k →
  Z.testbit (spread z) (2 * k) = Z.testbit z k ∧ Z.testbit (spread z) (2 * k + 1) = false.
Proof.
  intros Hz. destruct z as [|p|p]; [|clear Hz|lia].
  { intros _. simpl. rewrite !Z.bits_0. auto. }
  revert k. induction p as [q IH|q IH|]; intros k Hk; cbn [spread spread_pos].
  - change (Zpos (xI (xO (spread_pos q)))) with (2 * (2 * Zpos (spread_pos q)) + 1).
    change (Zpos (xI q)) with (2 * Zpos q + 1).
    destruct (Z.eq_dec k 0) as [->|Hne].
    + change (2 * 0) with 0. change (0 + 1) with (Z.succ 0).
      rewrite !Z.testbit_odd_0, Z.testbit_odd_succ, Z.testbit_even_0 by lia. auto.
    + assert (Hk' : 0 <= k - 1) by lia. replace k with (Z.succ (k - 1)) by lia.
      generalize dependent (k - 1). clear k Hk Hne. intros k Hk.
      replace (2 * Z.succ k) with (Z.succ (Z.succ (2 * k))) by lia.
      replace (Z.succ (Z.succ (2 * k)) + 1) with (Z.succ (Z.succ (2 * k + 1))) by lia.
      rewrite !Z.testbit_odd_succ, !Z.testbit_even_succ by lia.
      apply (IH k). lia.
  - change (Zpos (xO (xO (spread_pos q)))) with (2 * (2 * Zpos (spread_pos q))).
    change (Zpos (xO q)) with (2 * Zpos q).
    destruct (Z.eq_dec k 0) as [->|Hne].
    + change (2 * 0) with 0. change (0 + 1) with (Z.succ 0).
      rewrite !Z.testbit_even_0, Z.testbit_even_succ, Z.testbit_even_0 by lia. auto.
    + assert (Hk' : 0 <= k - 1) by lia. replace k with (Z.succ (k - 1)) by lia.
      generalize dependent (k - 1). clear k Hk Hne. intros k Hk.
      replace (2 * Z.succ k) with (Z.succ (Z.succ (2 * k))) by lia.
      replace (Z.succ (Z.succ (2 * k)) + 1) with (Z.succ (Z.succ (2 * k + 1))) by lia.
      rewrite !Z.testbit_even_succ by lia.
      apply (IH k). lia.
  - destruct (Z.eq_dec k 0) as [->|Hne]; [auto|].
    assert (Hhigh : ∀ j, 1 <= j → Z.testbit 1 j = false).
    { intros j Hj. apply Z.bits_above_log2; simpl; lia. }
    rewrite !Hhigh by lia. auto.
Qed.

Lemma all_from_spec n f : ∀ z,
  all_from n z f = true → ∀ x, z <= x < z + Z.of_nat n → f x = true.
Proof.
  induction n as [|n IH]; intros z H x Hx; [lia|].
  cbn [all_from] in H. apply andb_true_iff in H as [H1 H2].
  destruct (Z.eq_dec x z) as [->|]; auto. apply (IH (z + 1)); auto. lia.
Qed.

Lemma interleave_spread_16 :
  all_from (Z.to_nat (2 ^ 16)) 0 (λ x, interleave_exact x =? spread x) = true.
Proof. vm_compute. reflexivity. Qed.

Lemma interleave_low x : SQZ_interleave_u16_to_u32 x = SQZ_interleave_u16_to_u32 (x mod 2 ^ 16).
Proof.
  unfold SQZ_interleave_u16_to_u32.
  change 0x0000FFFF with (Z.ones 16). rewrite !Z.land_ones by lia.
  rewrite Z.mod_mod by lia. reflexivity.
Qed.

(** Bit [k] of the argument is bit [2 k] of the result, for the sixteen low
    bits; the odd bits of the result are clear. *)
Lemma SQZ_interleave_spec x k :
  0 <= k < 16 →
  Z.testbit (SQZ_interleave_u16_to_u32 x) (2 * k) = Z.testbit x k
  ∧ Z.testbit (SQZ_interleave_u16_to_u32 x) (2 * k + 1) = false.
Proof.
  intros Hk. rewrite interleave_low, interleave_exact_eq.
  assert (Hx : 0 <= x mod 2 ^ 16 < 0 + Z.of_nat (Z.to_nat (2 ^ 16))).
  { rewrite Z2Nat.id by lia. apply Z.mod_pos_bound. lia. }
  pose proof (all_from_spec _ _ _ interleave_spread_16 _ Hx) as H.
  apply Z.eqb_eq in H. rewrite H.
  destruct (spread_spec (x mod 2 ^ 16) k) as [H1 H2]; [lia|lia|].
  rewrite H1, H2. split; [|reflexivity].
  apply Z.mod_pow2_bits_low. lia.
Qed.

Lemma testbit_interleave x i :
  0 <= i < 32 → Z.testbit (SQZ_interleave_u16_to_u32 x) i = Z.even i && Z.testbit x (i / 2).
Proof.
  intros Hi. pose proof (Z.div_mod i 2 ltac:(lia)) as Hd.
  pose proof (Z.mod_pos_bound i 2 ltac:(lia)) as Hm.
  destruct (SQZ_interleave_spec x (i / 2)) as [He Ho].
  { split; [apply Z.div_pos; lia|]. apply Z.div_lt_upper_bound; lia. }
  destruct (Z.eq_dec (i mod 2) 0) as [E|E].
  - replace i with (2 * (i / 2)) at 1 2 by lia.
    rewrite He, Z.even_mul. reflexivity.
  - replace i with (2 * (i / 2) + 1) at 1 2 by lia.
    rewrite Ho, Z.even_add, Z.even_mul. reflexivity.
Qed.

(** ** Run lengths *)

Lemma wdr_index p cost q :
  p <= q < p + 2 * cost →
  Z.even (p + 2 * cost - 1 - q) = Z.odd (q - p)
  ∧ (Z.odd (q - p) = true → (p + 2 * cost - 1 - q) / 2 = cost - 1 - (q - p) / 2).
Proof.
  intros Hq.
  replace (p + 2 * cost - 1 - q) with (2 * cost + (- (q - p) - 1)) by lia.
  split.
  - rewrite Z.even_add, Z.even_mul; simpl.
    rewrite Z.even_sub, Z.even_opp, <- Z.negb_odd. simpl.
    destruct (Z.odd (q - p)); reflexivity.
  - intros Hodd. rewrite Z.odd_spec in Hodd. destruct Hodd as [j Hj].
    rewrite Hj.
    replace (2 * cost + (- (2 * j + 1) - 1)) with ((cost - 1 - j) * 2) by lia.
    rewrite Z.div_mul by lia.
    replace (2 * j + 1) with (1 + j * 2) by lia. rewrite Z.div_add by lia.
    change (1 / 2) with 0. lia.
Qed.

Lemma write_wdr_run_spec b r :
  bb_wf b → 1 <= r < 2 ^ 31 →
  bb_ptr b < bb_eob b → bb_pos b + 2 * Z.log2 r <= 8 * bb_eob b →
  ∃ b', SQZ_encode_write_wdr_run b r = (b', 1)
    ∧ bb_wf b' ∧ bb_eob b' = bb_eob b ∧ length (bb_data b') = length (bb_data b)
    ∧ bb_pos b' = bb_pos b + 2 * Z.log2 r
    ∧ ∀ q, 0 <= q →
        bit_at (bb_data b') q = bit_at (bb_data b) q || wdr_bit (bb_pos b) (Z.log2 r) r q.
Proof.
  intros Hwf Hr Hlt Hroom.
  assert (Hlog : 0 <= Z.log2 r < 31).
  { split; [apply Z.log2_nonneg|]. apply Z.log2_lt_pow2; lia. }
  set (cost := Z.log2 r) in *. set (p := bb_pos b) in *.
  unfold SQZ_encode_write_wdr_run.
  rewrite SQZ_ilog2_log2 by lia. fold cost.
  replace (cost + 1 - 1) with cost by lia. rewrite (u32_small cost) by lia.
  destruct (Z.leb_spec cost 16) as [Hc|Hc].
  - rewrite (u32_small (cost * 2)) by lia.
    destruct (write_bits_spec b (SQZ_interleave_u16_to_u32 r) (cost * 2) Hwf)
      as (b' & ok & E & Hwf' & He' & Hl' & Hp' & Hok & Hiff & Hb'); [lia|].
    assert (ok = 1) as -> by (apply Hiff; fold p; lia).
    exists b'. split; [exact E|]. split; [auto|]. split; [auto|]. split; [auto|].
    split; [fold p in Hp'; lia|].
    intros q Hq. rewrite Hb' by auto. f_equal. unfold written, wdr_bit. fold p.
    destruct (Z.leb_spec p q); simpl; [|reflexivity].
    replace (Z.min (p + cost * 2) (8 * bb_eob b)) with (p + 2 * cost) by lia.
    destruct (Z.ltb_spec q (p + 2 * cost)); simpl; [|reflexivity].
    destruct (wdr_index p cost q ltac:(lia)) as [Hev Hdiv].
    rewrite testbit_interleave by lia.
    replace (p + cost * 2 - 1 - q) with (p + 2 * cost - 1 - q) by lia.
    rewrite Hev. destruct (Z.odd (q - p)); simpl; [|reflexivity].
    rewrite Hdiv by reflexivity. reflexivity.
  - rewrite (u32_small (cost - 16)) by lia. rewrite (u32_small ((cost - 16) * 2)) by lia.
    destruct (write_bits_spec b (SQZ_interleave_u16_to_u32 (Z.shiftr r 16)) ((cost - 16) * 2) Hwf)
      as (b1 & ok1 & E1 & Hwf1 & He1 & Hl1 & Hp1 & Hok1 & Hiff1 & Hb1); [lia|].
    assert (ok1 = 1) as -> by (apply Hiff1; fold p; lia).
    rewrite E1. simpl.
    fold p in Hp1. assert (Hp1' : bb_pos b1 = p + 2 * (cost - 16)) by lia.
    destruct (write_bits_spec b1 (SQZ_interleave_u16_to_u32 r) 32 Hwf1)
      as (b2 & ok2 & E2 & Hwf2 & He2 & Hl2 & Hp2 & Hok2 & Hiff2 & Hb2); [lia|].
    assert (Hlt1 : bb_ptr b1 < bb_eob b1).
    { destruct Hwf1 as (? & ? & ? & ?). unfold bb_pos in Hp1'. fold p in Hroom.
      rewrite He1. unfold bb_pos in *. lia. }
    assert (ok2 = 1) as -> by (apply Hiff2; lia).
    exists b2. split; [exact E2|]. split; [auto|]. split; [congruence|].
    split; [congruence|]. split; [lia|].
    intros q Hq. rewrite Hb2, Hb1 by auto. rewrite <- orb_assoc. f_equal.
    unfold written, wdr_bit. fold p. rewrite Hp1', He1.
    replace (Z.min (p + (cost - 16) * 2) (8 * bb_eob b)) with (p + 2 * (cost - 16)) by lia.
    replace (Z.min (p + 2 * (cost - 16) + 32) (8 * bb_eob b)) with (p + 2 * cost) by lia.
    destruct (Z.leb_spec p q); simpl.
    2:{ destruct (Z.leb_spec (p + 2 * (cost - 16)) q); [lia|]. reflexivity. }
    destruct (Z.ltb_spec q (p + 2 * cost)); simpl.
    2:{ destruct (Z.ltb_spec q (p + 2 * (cost - 16))); [lia|]. simpl.
        rewrite andb_false_r. reflexivity. }
    destruct (wdr_index p cost q ltac:(lia)) as [Hev Hdiv].
    destruct (Z.ltb_spec q (p + 2 * (cost - 16))); simpl.
    + destruct (Z.leb_spec (p + 2 * (cost - 16)) q); [lia|]. simpl. rewrite orb_false_r.
      destruct (wdr_index p (cost - 16) q ltac:(lia)) as [Hev1 Hdiv1].
      rewrite testbit_interleave by lia.
      replace (p + (cost - 16) * 2 - 1 - q) with (p + 2 * (cost - 16) - 1 - q) by lia.
      rewrite Hev1. destruct (Z.odd (q - p)); simpl; [|reflexivity].
      rewrite Hdiv1 by reflexivity.
      assert (0 <= (q - p) / 2) by (apply Z.div_pos; lia).
      assert ((q - p) / 2 < cost - 16) by (apply Z.div_lt_upper_bound; lia).
      rewrite Z.shiftr_spec by lia. f_equal. lia.
    + destruct (Z.leb_spec (p + 2 * (cost - 16)) q); [|lia]. simpl.
      rewrite testbit_interleave by lia.
      replace (p + 2 * (cost - 16) + 32 - 1 - q) with (p + 2 * cost - 1 - q) by lia.
      rewrite Hev. destruct (Z.odd (q - p)); simpl; [|reflexivity].
      rewrite Hdiv by reflexivity. reflexivity.
Qed.

Lemma shiftr_step r k :
  0 <= k → Z.shiftr r k = 2 * Z.shiftr r (k + 1) + Z.b2z (Z.testbit r k).
Proof.
  intros Hk. rewrite Z.testbit_spec' by lia.
  rewrite !Z.shiftr_div_pow2 by lia.
  rewrite Z.pow_add_r by lia. change (2 ^ 1) with 2.
  rewrite <- Z.div_div by (try apply Z.pow_pos_nonneg; lia).
  apply Z.div_mod. lia.
Qed.

(** The reader on [k] pairs and the closing 1. *)
Lemma read_wdr_loop_spec r : 0 <= r < 2 ^ 31 → ∀ k n c,
  bb_wf c → (k < n)%nat →
  bb_pos c + 2 * Z.of_nat k + 1 <= 8 * bb_eob c →
  (∀ j, 0 <= j < Z.of_nat k →
        bit_at (bb_data c) (bb_pos c + 2 * j) = false
        ∧ bit_at (bb_data c) (bb_pos c + 2 * j + 1) = Z.testbit r (Z.of_nat k - 1 - j)) →
  bit_at (bb_data c) (bb_pos c + 2 * Z.of_nat k) = true →
  ∃ c', read_wdr_loop n c (Z.shiftr r (Z.of_nat k)) = (c', r, 1)
    ∧ bb_wf c' ∧ bb_pos c' = bb_pos c + 2 * Z.of_nat k + 1
    ∧ bb_data c' = bb_data c ∧ bb_eob c' = bb_eob c.
Proof.
  intros Hr. induction k as [|k IH]; intros n c Hwf Hn Hroom Hpairs Hstop;
    (destruct n as [|n]; [lia|]); cbn [read_wdr_loop].
  - assert (Hlt : bb_ptr c < bb_eob c).
    { destruct Hwf as (? & ? & ? & ?). unfold bb_pos in Hroom. lia. }
    destruct (read_bit_spec c Hwf Hlt) as (c1 & E1 & Hwf1 & Hp1 & He1 & Hd1).
    rewrite E1. replace (bb_pos c + 2 * Z.of_nat 0) with (bb_pos c) in Hstop by lia.
    rewrite Hstop. simpl. rewrite Z.shiftr_0_r.
    exists c1. repeat split; auto; try apply Hwf1. lia.
  - assert (Hlt : bb_ptr c < bb_eob c).
    { destruct Hwf as (? & ? & ? & ?). unfold bb_pos in Hroom. lia. }
    destruct (read_bit_spec c Hwf Hlt) as (c1 & E1 & Hwf1 & Hp1 & He1 & Hd1).
    rewrite E1.
    destruct (Hpairs 0 ltac:(lia)) as [Hz Hb].
    replace (bb_pos c + 2 * 0) with (bb_pos c) in Hz, Hb by lia.
    rewrite Hz. simpl of_bool. change (0 =? 0) with true. cbv iota.
    assert (Hlt1 : bb_ptr c1 < bb_eob c1).
    { destruct Hwf1 as (? & ? & ? & ?). unfold bb_pos in *. lia. }
    destruct (read_bit_spec c1 Hwf1 Hlt1) as (c2 & E2 & Hwf2 & Hp2 & He2 & Hd2).
    rewrite E2. rewrite Hd1, Hp1, Hb.
    replace (Z.of_nat (S k) - 1 - 0) with (Z.of_nat k) by lia.
    set (bit := Z.testbit r (Z.of_nat k)).
    assert (Hbit : of_bool bit = Z.b2z bit) by (destruct bit; reflexivity).
    assert (Hbr : 0 <= of_bool bit <= 1) by (destruct bit; simpl; lia).
    destruct (Z.ltb_spec (of_bool bit) 0); [lia|].
    assert (Hs : 0 <= Z.shiftr r (Z.of_nat (S k)) ∧ 2 * Z.shiftr r (Z.of_nat (S k)) < 2 ^ 31).
    { pose proof (shiftr_step r (Z.of_nat k) ltac:(lia)) as Hst. fold bit in Hst.
      replace (Z.of_nat k + 1) with (Z.of_nat (S k)) in Hst by lia.
      assert (0 <= Z.shiftr r (Z.of_nat (S k))) by (apply Z.shiftr_nonneg; lia).
      assert (Z.shiftr r (Z.of_nat k) <= r).
      { rewrite Z.shiftr_div_pow2 by lia.
        assert (0 < 2 ^ Z.of_nat k) by (apply Z.pow_pos_nonneg; lia).
        apply Z.div_le_upper_bound; [lia|]. nia. }
      rewrite <- Hbit in Hst. lia. }
    rewrite (u32_small (Z.shiftr r (Z.of_nat (S k)) + of_bool bit)) by lia.
    rewrite u32_small by lia.
    assert (Hrun : Z.shiftr r (Z.of_nat (S k)) + (Z.shiftr r (Z.of_nat (S k)) + of_bool bit)
                   = Z.shiftr r (Z.of_nat k)).
    { rewrite (shiftr_step r (Z.of_nat k)) by lia. fold bit. rewrite Hbit.
      replace (Z.of_nat k + 1) with (Z.of_nat (S k)) by lia. lia. }
    rewrite Hrun.
    destruct (IH n c2 Hwf2) as (c' & E' & Hwf' & Hp' & Hd' & He'); [lia| | | |].
    + rewrite Hp2, Hp1, He2, He1. lia.
    + intros j Hj. rewrite Hd2, Hd1, Hp2, Hp1.
      destruct (Hpairs (j + 1) ltac:(lia)) as [H1 H2].
      replace (bb_pos c + 1 + 1 + 2 * j) with (bb_pos c + 2 * (j + 1)) by lia.
      replace (bb_pos c + 2 * (j + 1) + 1) with (bb_pos c + 2 * (j + 1) + 1) by lia.
      split; [exact H1|]. rewrite H2. f_equal. lia.
    + rewrite Hd2, Hd1, Hp2, Hp1.
      replace (bb_pos c + 1 + 1 + 2 * Z.of_nat k) with (bb_pos c + 2 * Z.of_nat (S k)) by lia.
      exact Hstop.
    + exists c'. split; [exact E'|]. split; [auto|]. split; [lia|]. split; congruence.
Qed.

(** C3, as the specification states it, fails: the writer leaves the closing
    bit to its caller, and the reader runs on over the zero bits that follow
    the pairs. *)
Lemma wdr_run_as_stated_fails :
  let b := SQZ_bit_buffer_init [0; 0; 0; 0] 4 in
  let b' := (SQZ_encode_write_wdr_run b 5).1 in
  (SQZ_encode_write_wdr_run b 5).2 = 1
  ∧ (SQZ_decode_read_wdr_run (bb_rewind b b')).1.2 = 81920
  ∧ (SQZ_decode_read_wdr_run (bb_rewind b b')).1.2 ≠ 5.
Proof. vm_compute. repeat split. discriminate. Qed.

(** C3, amended: the run written by [SQZ_encode_write_wdr_run] and closed by
    a 1 bit, as the sorting pass closes it, is read back. *)
Theorem wdr_run_roundtrip b r :
  bb_wf b → 1 <= r <= 2 ^ 30 →
  bb_pos b + 2 * Z.log2 r + 1 <= 8 * bb_eob b →
  (∀ q, bb_pos b <= q <= bb_pos b + 2 * Z.log2 r → bit_at (bb_data b) q = false) →
  ∃ b1 b2 b3,
    SQZ_encode_write_wdr_run b r = (b1, 1)
    ∧ SQZ_bit_buffer_write_bit b1 1 = (b2, 1)
    ∧ bb_pos b2 = bb_pos b + 2 * Z.log2 r + 1
    ∧ SQZ_decode_read_wdr_run (bb_rewind b b2) = (b3, r, 1)
    ∧ bb_pos b3 = bb_pos b2 ∧ bb_data b3 = bb_data b2.
Proof.
  intros Hwf Hr Hroom Hzero.
  assert (Hlog : 0 <= Z.log2 r < 31).
  { split; [apply Z.log2_nonneg|]. apply Z.log2_lt_pow2; lia. }
  assert (Hlt : bb_ptr b < bb_eob b).
  { destruct Hwf as (? & ? & ? & ?). unfold bb_pos in Hroom. lia. }
  destruct (write_wdr_run_spec b r Hwf) as (b1 & E1 & Hwf1 & He1 & Hl1 & Hp1 & Hb1);
    [lia | auto | lia |].
  assert (Hlt1 : bb_ptr b1 < bb_eob b1).
  { destruct Hwf1 as (? & ? & ? & ?). unfold bb_pos in *. lia. }
  destruct (write_bit_spec b1 1 Hwf1 Hlt1) as (b2 & E2 & Hwf2 & Hp2 & He2 & Hl2 & Hb2); [auto|].
  set (cost := Z.log2 r) in *. set (p := bb_pos b) in *.
  assert (Hp0 : 0 <= p) by (destruct Hwf as (? & ? & ? & ?); unfold p, bb_pos; lia).
  assert (Hwfr : bb_wf (bb_rewind b b2)) by (apply bb_rewind_wf; auto; congruence).
  assert (Hbits : ∀ q, p <= q <= p + 2 * cost →
            bit_at (bb_data b2) q = wdr_bit p cost r q || (q =? p + 2 * cost)).
  { intros q Hq. rewrite Hb2, Hb1 by lia. rewrite Hzero by lia. simpl.
    rewrite Hp1. destruct (Z.eqb_spec q (p + 2 * cost)); [|rewrite orb_false_r; reflexivity].
    destruct (wdr_bit p cost r q); reflexivity. }
  destruct (read_wdr_loop_spec r ltac:(lia) (Z.to_nat cost)
              (S (Z.to_nat (8 * (bb_eob b - bb_ptr b)))) (bb_rewind b b2) Hwfr)
    as (b3 & E3 & Hwf3 & Hp3 & Hd3 & He3).
  - destruct Hwf as (? & ? & ? & ?). unfold p, bb_pos in Hroom. lia.
  - change (bb_pos (bb_rewind b b2)) with p. simpl. rewrite Z2Nat.id by lia. lia.
  - intros j Hj. rewrite Z2Nat.id in * by lia.
    change (bb_pos (bb_rewind b b2)) with p. change (bb_data (bb_rewind b b2)) with (bb_data b2).
    rewrite !Hbits by lia. unfold wdr_bit.
    destruct (Z.eqb_spec (p + 2 * j) (p + 2 * cost)); [lia|].
    destruct (Z.eqb_spec (p + 2 * j + 1) (p + 2 * cost)); [lia|].
    rewrite !orb_false_r.
    replace (p + 2 * j - p) with (2 * j) by lia.
    replace (p + 2 * j + 1 - p) with (2 * j + 1) by lia.
    rewrite Z.odd_mul, Z.odd_add, Z.odd_mul. simpl.
    split; [rewrite andb_false_r; reflexivity|].
    destruct (Z.leb_spec p (p + 2 * j + 1)); [|lia].
    destruct (Z.ltb_spec (p + 2 * j + 1) (p + 2 * cost)); [|lia]. simpl.
    f_equal. replace (2 * j + 1) with (1 + j * 2) by lia.
    rewrite Z.div_add by lia. change (1 / 2) with 0. lia.
  - rewrite Z2Nat.id by lia.
    change (bb_pos (bb_rewind b b2)) with p. change (bb_data (bb_rewind b b2)) with (bb_data b2).
    rewrite Hbits by lia. rewrite Z.eqb_refl. apply orb_true_r.
  - rewrite Z2Nat.id in * by lia.
    assert (Hone : Z.shiftr r cost = 1).
    { rewrite Z.shiftr_div_pow2 by lia.
      destruct (Z.log2_spec r ltac:(lia)) as [Hlo Hhi]. fold cost in Hlo, Hhi.
      rewrite Z.pow_succ_r in Hhi by lia.
      assert (0 < 2 ^ cost) by (apply Z.pow_pos_nonneg; lia).
      symmetry. apply Z.div_unique with (r - 2 ^ cost); lia. }
    rewrite Hone in E3.
    exists b1, b2, b3. split; [exact E1|]. split; [exact E2|]. split; [lia|].
    split; [exact E3|].
    change (bb_pos (bb_rewind b b2)) with p in Hp3. split; [lia|exact Hd3].
Qed.

Lemma wdr_run_roundtrip_witness :
  let b := SQZ_bit_buffer_init [0; 0; 0; 0] 4 in
  ∃ b1 b2 b3,
    SQZ_encode_write_wdr_run b 5 = (b1, 1)
    ∧ SQZ_bit_buffer_write_bit b1 1 = (b2, 1)
    ∧ bb_pos b2 = bb_pos b + 2 * Z.log2 5 + 1
    ∧ SQZ_decode_read_wdr_run (bb_rewind b b2) = (b3, 5, 1)
    ∧ bb_pos b3 = bb_pos b2 ∧ bb_data b3 = bb_data b2.
Proof.
  apply (wdr_run_roundtrip (SQZ_bit_buffer_init [0; 0; 0; 0] 4) 5).
  - unfold bb_wf. vm_compute. repeat split; try discriminate. left. reflexivity.
  - lia.
  - vm_compute. discriminate.
  - intros q Hq. change (0 <= q <= 4) in Hq.
    assert (q = 0 ∨ q = 1 ∨ q = 2 ∨ q = 3 ∨ q = 4) as [->|[->|[->|[->| ->]]]] by lia;
      reflexivity.
Defined.

(** ** The input buffers are only read *)

Lemma for_loop_inv {T : Type} (P : T → Prop) (body : Z → T → T) n : ∀ i s,
  P s → (∀ j s, P s → P (body j s)) → P (for_loop n i body s).
Proof.
  induction n as [|n IH]; intros i s H0 Hstep; simpl; auto.
Qed.

Lemma for_range_inv {T : Type} (P : T → Prop) (body : Z → T → T) lo hi s :
  P s → (∀ j s, P s → P (body j s)) → P (for_range lo hi body s).
Proof. apply for_loop_inv. Qed.

Lemma for_down_inv {T : Type} (P : T → Prop) (body : Z → T → T) n : ∀ s,
  P s → (∀ j s, P s → P (body j s)) → P (for_down n body s).
Proof.
  induction n as [|n IH]; intros s H0 Hstep; simpl; auto.
Qed.

(** In the read direction a color transform hands the pixel buffer back as
    it got it. *)
Lemma color_process_read ctx buffer : (SQZ_color_process ctx buffer true).2 = buffer.
Proof.
  unfold SQZ_color_process.
  repeat match goal with |- context [if ?c then _ else _] => destruct c end; reflexivity.
Qed.

Lemma read_bit_data b : bb_data (SQZ_bit_buffer_read_bit b).1 = bb_data b.
Proof.
  unfold SQZ_bit_buffer_read_bit.
  repeat match goal with |- context [if ?c then _ else _] => destruct c end; reflexivity.
Qed.

Lemma read_bits_loop_data n : ∀ b acc width,
  bb_data (read_bits_loop n b acc width).1 = bb_data b.
Proof.
  induction n as [|n IH]; intros b acc width; cbn [read_bits_loop]; [reflexivity|].
  repeat match goal with |- context [if ?c then _ else _] => destruct c end;
    try reflexivity.
  rewrite IH. reflexivity.
Qed.

Lemma read_bits_data b width : bb_data (SQZ_bit_buffer_read_bits b width).1 = bb_data b.
Proof. apply read_bits_loop_data. Qed.

Lemma read_wdr_loop_data n : ∀ b run, bb_data (read_wdr_loop n b run).1.1 = bb_data b.
Proof.
  induction n as [|n IH]; intros b run; cbn [read_wdr_loop]; [reflexivity|].
  pose proof (read_bit_data b) as H1.
  destruct (SQZ_bit_buffer_read_bit b) as [b1 stop]. simpl in H1.
  destruct (stop =? 0); [|exact H1].
  pose proof (read_bit_data b1) as H2.
  destruct (SQZ_bit_buffer_read_bit b1) as [b2 bit]. simpl in H2.
  destruct (bit <? 0); [simpl; congruence|].
  rewrite IH. congruence.
Qed.

Lemma read_wdr_run_data b : bb_data (SQZ_decode_read_wdr_run b).1.1 = bb_data b.
Proof. apply read_wdr_loop_data. Qed.

Lemma decode_sorting_loop_data n band mask : ∀ st,
  bb_data (dsort_buffer (decode_sorting_loop n band mask st)) = bb_data (dsort_buffer st).
Proof.
  induction n as [|n IH]; intros st; cbn [decode_sorting_loop]; [reflexivity|].
  destruct st as [data visited rest nsp buffer]. cbn [dsort_buffer].
  pose proof (read_bit_data buffer) as H1.
  destruct (SQZ_bit_buffer_read_bit buffer) as [b1 sign]. simpl in H1.
  destruct (sign <? 0); [exact H1|].
  pose proof (read_wdr_run_data b1) as H2.
  destruct (SQZ_decode_read_wdr_run b1) as [[b2 run] ok]. simpl in H2.
  destruct (negb (truthy ok)); [simpl; congruence|].
  destruct (skip_nodes _ visited rest) as [visited' rest'].
  destruct rest' as [|pixel rest']; [simpl; congruence|].
  destruct (SQZ_list_exchange _ _ _ _) as [[x nsp'] next].
  rewrite IH. simpl. congruence.
Qed.

Lemma decode_sorting_pass_data data band b :
  bb_data (SQZ_decode_sorting_pass data band b).1.2 = bb_data b.
Proof.
  unfold SQZ_decode_sorting_pass. destruct (_ || _); [reflexivity|].
  cbn [fst snd].
  apply (decode_sorting_loop_data (S (length (LIP band))) band (bitplane_mask_of band)
           (mk_decode_sorting data [] (LIP band) (NSP band) b)).
Qed.

Lemma decode_refinement_loop_data band mask rest : ∀ data b,
  bb_data (decode_refinement_loop band mask rest data b).2 = bb_data b.
Proof.
  induction rest as [|pixel rest IH]; intros data b; cbn [decode_refinement_loop];
    [reflexivity|].
  pose proof (read_bit_data b) as H1.
  destruct (SQZ_bit_buffer_read_bit b) as [b1 v]. simpl in H1.
  destruct (0 <? v); [rewrite IH; exact H1|].
  destruct (v <? 0); [exact H1|]. rewrite IH; exact H1.
Qed.

Lemma decode_refinement_pass_data data band b :
  bb_data (SQZ_decode_refinement_pass data band b).1.2 = bb_data b.
Proof.
  unfold SQZ_decode_refinement_pass.
  pose proof (decode_refinement_loop_data band (bitplane_mask_of band) (LSP band) data b) as H.
  destruct (decode_refinement_loop _ _ _ _ _) as [d b']. exact H.
Qed.

Lemma decode_bitplane_reads : task_reads SQZ_decode_bitplane.
Proof.
  intros data band b. unfold SQZ_decode_bitplane.
  pose proof (decode_sorting_pass_data data band b) as H1.
  destruct (SQZ_decode_sorting_pass data band b) as [[[d1 band1] b1] ok1]. simpl in H1.
  destruct (negb (truthy ok1)); [exact H1|].
  pose proof (decode_refinement_pass_data d1 band1 b1) as H2.
  destruct (SQZ_decode_refinement_pass d1 band1 b1) as [[d2 b2] ok2]. simpl in H2.
  destruct (negb (truthy ok2)); simpl; congruence.
Qed.

Lemma decode_init_reads : init_reads SQZ_decode_init_subband.
Proof.
  intros fuel data band scan b band' scan' b' result. unfold SQZ_decode_init_subband.
  destruct (SQZ_common_init_subband fuel band scan) as [[[b0 s0] r0]|]; simpl; [|discriminate].
  pose proof (read_bits_data b 4) as H1.
  destruct (SQZ_bit_buffer_read_bits b 4) as [b1 m]. simpl in H1.
  intros H; injection H as <- <- <- <-. exact H1.
Qed.

Lemma schedule_advance_buffer st :
  step_buffer (schedule_advance st) = ctx_buffer (sched_ctx st).
Proof.
  destruct st. unfold schedule_advance.
  repeat match goal with |- context [if ?c then _ else _] => destruct c end; reflexivity.
Qed.

#[local] Opaque schedule_advance.

Lemma schedule_visit_data fuel init task st step :
  init_reads init → task_reads task →
  schedule_visit fuel init task st = Some step →
  bb_data (step_buffer step) = bb_data (ctx_buffer (sched_ctx st)).
Proof.
  intros Hinit Htask. destruct st as [ctx scan state plane level orientation round done].
  unfold schedule_visit. cbn [sched_ctx].
  destruct (_ || _).
  { intros H; injection H as <-. rewrite schedule_advance_buffer. reflexivity. }
  destruct (band_round _ =? round).
  - destruct (SQZ_scan_init fuel scan _) as [[scan1 r1]|]; simpl; [|discriminate].
    destruct (init fuel _ _ scan1 _) as [[[[band2 scan2] buffer2] result2]|] eqn:E; simpl;
      [|discriminate].
    apply Hinit in E.
    destruct result2; try (intros H; injection H as <-; exact E).
    match goal with |- context [task ?d ?bd ?bf] =>
      pose proof (Htask d bd bf) as Ht; destruct (task d bd bf) as [[[data3 band3] buffer3] ok3]
    end. simpl in Ht.
    destruct (negb (truthy ok3)); intros H; injection H as <-.
    + simpl. congruence.
    + rewrite schedule_advance_buffer. simpl. congruence.
  - simpl.
    match goal with |- context [task ?d ?bd ?bf] =>
      pose proof (Htask d bd bf) as Ht; destruct (task d bd bf) as [[[data3 band3] buffer3] ok3]
    end. simpl in Ht.
    destruct (negb (truthy ok3)); intros H; injection H as <-.
    + simpl. congruence.
    + rewrite schedule_advance_buffer. simpl. congruence.
Qed.

#[local] Transparent schedule_advance.

Lemma schedule_round_data fuel init task n : ∀ st step,
  init_reads init → task_reads task →
  schedule_round fuel n init task st = Some step →
  bb_data (step_buffer step) = bb_data (ctx_buffer (sched_ctx st)).
Proof.
  induction n as [|n IH]; intros st step Hinit Htask; [discriminate|].
  cbn [schedule_round].
  destruct (schedule_visit fuel init task st) as [s|] eqn:E; simpl; [|discriminate].
  pose proof (schedule_visit_data _ _ _ _ _ Hinit Htask E) as Hs.
  destruct s as [st'|st'|ctx' result'].
  - intros H. rewrite (IH _ _ Hinit Htask H). exact Hs.
  - intros H; injection H as <-. exact Hs.
  - intros H; injection H as <-. exact Hs.
Qed.

Lemma schedule_rounds_data fuel init task n : ∀ st r,
  init_reads init → task_reads task →
  schedule_rounds fuel n init task st = Some r →
  bb_data (ctx_buffer r.1) = bb_data (ctx_buffer (sched_ctx st)).
Proof.
  induction n as [|n IH]; intros st r Hinit Htask; [discriminate|].
  cbn [schedule_rounds].
  destruct (_ && _); [|intros H; injection H as <-; reflexivity].
  destruct st as [ctx scan state plane level orientation round done].
  destruct (schedule_round _ _ _ _ _) as [s|] eqn:E; simpl; [|discriminate].
  pose proof (schedule_round_data _ _ _ _ _ _ Hinit Htask E) as Hs. simpl in Hs.
  destruct s as [st'|st'|ctx' result']; simpl in Hs.
  - destruct st'. intros H. rewrite (IH _ _ Hinit Htask H). exact Hs.
  - destruct st'. intros H. rewrite (IH _ _ Hinit Htask H). exact Hs.
  - intros H; injection H as <-. exact Hs.
Qed.

Lemma schedule_task_data fuel ctx init task r :
  init_reads init → task_reads task →
  SQZ_schedule_task fuel ctx init task = Some r →
  bb_data (ctx_buffer r.1) = bb_data (ctx_buffer ctx).
Proof.
  intros Hinit Htask H. unfold SQZ_schedule_task in H.
  apply (schedule_rounds_data _ _ _ _ _ _ Hinit Htask) in H. exact H.
Qed.

Lemma decode_header_data d b d' b' ok :
  SQZ_decode_header d b = Some (d', b', ok) → bb_data b' = bb_data b.
Proof.
  unfold SQZ_decode_header.
  repeat match goal with
  | |- context [SQZ_bit_buffer_read_bits ?b ?w] =>
      let H := fresh "H" in
      pose proof (read_bits_data b w) as H;
      destruct (SQZ_bit_buffer_read_bits b w); simpl in H
  | |- context [SQZ_bit_buffer_read_bit ?b] =>
      let H := fresh "H" in
      pose proof (read_bit_data b) as H;
      destruct (SQZ_bit_buffer_read_bit b); simpl in H
  | |- context [table_read ?t ?i] => destruct (table_read t i); simpl; [|discriminate]
  | |- context [if ?c then _ else _] => destruct c
  end; intros E; injection E as <- <- <-; congruence.
Qed.

Lemma set_band_buffer ctx plane level orientation band :
  ctx_buffer (set_band ctx plane level orientation band) = ctx_buffer ctx.
Proof. reflexivity. Qed.

Lemma common_init_context_buffer ctx :
  ctx_buffer (SQZ_common_init_context ctx).1 = ctx_buffer ctx.
Proof.
  unfold SQZ_common_init_context. cbn [fst].
  apply (for_range_inv (λ c, ctx_buffer c = ctx_buffer ctx)); [reflexivity|].
  intros plane c Hc.
  apply (for_down_inv (λ st, ctx_buffer (extent_ctx st) = ctx_buffer ctx)); [exact Hc|].
  intros level [c' w h] Hc'. cbn [extent_ctx] in *.
  apply (for_range_inv (λ c, ctx_buffer c = ctx_buffer ctx)); [exact Hc'|].
  intros orientation c'' Hc''. exact Hc''.
Qed.

Lemma round_coefficients_buffer ctx :
  ctx_buffer (SQZ_decode_round_coefficients ctx) = ctx_buffer ctx.
Proof.
  unfold SQZ_decode_round_coefficients.
  apply (for_range_inv (λ c, ctx_buffer c = ctx_buffer ctx)); [reflexivity|].
  intros plane c Hc.
  apply (for_range_inv (λ c, ctx_buffer c = ctx_buffer ctx)); [exact Hc|].
  intros level c' Hc'.
  apply (for_range_inv (λ c, ctx_buffer c = ctx_buffer ctx)); [exact Hc'|].
  intros orientation c'' Hc''.
  destruct (_ || _); [exact Hc''|exact Hc''].
Qed.

Lemma idwt_buffer fuel ctx r : SQZ_idwt fuel ctx = Some r → ctx_buffer r.1 = ctx_buffer ctx.
Proof.
  unfold SQZ_idwt. destruct (for_range _ _ _ _) as [x|]; simpl; [|discriminate].
  intros H; injection H as <-. reflexivity.
Qed.

Lemma color_process_write_ctx ctx buffer : (SQZ_color_process ctx buffer false).1 = ctx.
Proof.
  unfold SQZ_color_process.
  repeat match goal with |- context [if ?c then _ else _] => destruct c end; reflexivity.
Qed.

(** C10, for a destination apart from the source: whatever [SQZ_encode]
    returns, the source pixel buffer is as it was, and whatever [SQZ_decode]
    returns, the compressed source buffer is as it was. *)
Theorem inputs_unchanged :
  (∀ fuel source dest d budget e,
     SQZ_encode fuel source dest d budget = Some e → encoded_source e = source)
  ∧ (∀ fuel source dest src_size dest_size d r,
       SQZ_decode fuel source dest src_size dest_size d = Some r → decoded_source r = source).
Proof.
  split.
  - intros fuel source dest d budget e. unfold SQZ_encode.
    destruct (SQZ_validate_input d false) as [d' result].
    destruct result; try (intros H; injection H as <-; reflexivity).
    destruct (SQZ_encode_header d' _) as [buffer ok].
    destruct (negb (truthy ok)); [intros H; injection H as <-; reflexivity|].
    destruct (SQZ_common_init_context _) as [ctx r0].
    pose proof (color_process_read ctx source) as Hc.
    destruct (SQZ_color_process ctx source true) as [ctx1 source1]. simpl in Hc. subst source1.
    destruct (SQZ_dwt fuel ctx1) as [[ctx2 r2]|]; simpl; [|discriminate].
    destruct (SQZ_schedule_task _ _ _ _) as [[ctx3 r3]|]; simpl; [|discriminate].
    destruct r3; intros H; injection H as <-; reflexivity.
  - intros fuel source dest src_size dest_size d r. unfold SQZ_decode.
    destruct (_ && _); [intros H; injection H as <-; reflexivity|].
    destruct (SQZ_decode_header _ _) as [[[image buffer] ok]|] eqn:Eh;
      cbn [mbind option_bind]; [|discriminate].
    pose proof (decode_header_data _ _ _ _ _ Eh) as Hh. simpl in Hh.
    destruct (negb (truthy ok)); [intros H; injection H as <-; exact Hh|].
    cbn [ctx_image context_zero].
    destruct (SQZ_validate_input image true) as [image' result].
    destruct result; try (intros H; injection H as <-; exact Hh).
    destruct (_ <? _); [intros H; injection H as <-; exact Hh|].
    pose proof (common_init_context_buffer (context_zero image buffer)) as Hi.
    destruct (SQZ_common_init_context _) as [ctx r0]. simpl in Hi.
    destruct (SQZ_schedule_task _ _ _ _) as [[ctx1 r1]|] eqn:E; simpl; [|discriminate].
    apply (schedule_task_data _ _ _ _ _ decode_init_reads decode_bitplane_reads) in E.
    simpl in E.
    destruct r1; try (intros H; injection H as <-; simpl; congruence).
    destruct (SQZ_idwt fuel _) as [[ctx2 r2]|] eqn:E2; simpl; [|discriminate].
    apply idwt_buffer in E2. simpl in E2.
    rewrite round_coefficients_buffer in E2.
    pose proof (color_process_write_ctx ctx2 (default [] dest)) as Hw.
    destruct (SQZ_color_process ctx2 _ false) as [ctx3 out]. simpl in Hw. subst ctx3.
    intros H; injection H as <-. simpl. congruence.
Qed.

Lemma inputs_unchanged_witness :
  let d := mk_descriptor SQZ_COLOR_MODE_GRAYSCALE SQZ_SCAN_ORDER_RASTER 8 8 1 1 0 in
  let pixels := replicate 64 200 in
  ∃ e r,
    SQZ_encode 100 pixels (replicate 128 0) d 128 = Some e
    ∧ encoded_source e = pixels
    ∧ SQZ_decode 100 (encoded_dest e) (Some (replicate 64 0)) 9 64 (Some descriptor_zero) = Some r
    ∧ decoded_status r = SQZ_RESULT_OK
    ∧ decoded_source r = encoded_dest e.
Proof.
  cbv zeta.
  eassert (He : SQZ_encode 100 (replicate 64 200) (replicate 128 0)
                  (mk_descriptor SQZ_COLOR_MODE_GRAYSCALE SQZ_SCAN_ORDER_RASTER 8 8 1 1 0) 128
                = Some _) by (vm_compute; reflexivity).
  match type of He with _ = Some ?e =>
    eassert (Hr : SQZ_decode 100 (encoded_dest e) (Some (replicate 64 0)) 9 64
                    (Some descriptor_zero) = Some _) by (vm_compute; reflexivity)
  end.
  eexists _, _.
  split; [exact He|].
  split; [exact (proj1 inputs_unchanged _ _ _ _ _ _ He)|].
  split; [exact Hr|].
  split; [reflexivity|].
  exact (proj2 inputs_unchanged _ _ _ _ _ _ _ Hr).
Defined.

(** C10, as stated for every call, fails when the call is given one array
    as the pixels and as the destination: the bits of the stream are set
    in the bytes of the pixels (the first pixel, 200, becomes 200 | 0xA5). *)
Lemma encode_in_place_overwrites :
  let d := mk_descriptor SQZ_COLOR_MODE_GRAYSCALE SQZ_SCAN_ORDER_RASTER 8 8 1 1 0 in
  let pixels := replicate 64 200 in
  ∃ e, SQZ_encode_in_place 100 pixels d 64 = Some e
       ∧ encoded_status e = SQZ_RESULT_OK
       ∧ load pixels 0 = 200 ∧ load (encoded_source e) 0 = 237
       ∧ encoded_source e ≠ pixels.
Proof.
  cbv zeta. eexists. split; [vm_compute; reflexivity|].
  split; [reflexivity|]. split; [reflexivity|]. split; [reflexivity|]. discriminate.
Qed.

(** * Further properties

    ** Integer helpers *)

(** [SQZ_ilog2] is the number of binary digits: 0 for 0, and otherwise the
    [n] with [2^(n-1) <= x < 2^n]. *)
Theorem SQZ_ilog2_digits :
  SQZ_ilog2 0 = 0
  ∧ ∀ x, 0 < x < 2 ^ 32 →
         1 <= SQZ_ilog2 x <= 32 ∧ 2 ^ (SQZ_ilog2 x - 1) <= x < 2 ^ SQZ_ilog2 x.
Proof.
  split; [reflexivity|]. intros x Hx.
  rewrite SQZ_ilog2_log2 by lia.
  assert (0 <= Z.log2 x < 32).
  { split; [apply Z.log2_nonneg|]. apply Z.log2_lt_pow2; lia. }
  split; [lia|].
  replace (Z.log2 x + 1 - 1) with (Z.log2 x) by lia.
  replace (Z.log2 x + 1) with (Z.succ (Z.log2 x)) by lia.
  apply Z.log2_spec. lia.
Qed.

Lemma SQZ_ilog2_digits_witness :
  1 <= SQZ_ilog2 8 <= 32 ∧ 2 ^ (SQZ_ilog2 8 - 1) <= 8 < 2 ^ SQZ_ilog2 8.
Proof. apply (proj2 SQZ_ilog2_digits 8). lia. Defined.

Lemma interleave_bits_holds x i :
  0 <= i →
  Z.testbit (SQZ_interleave_u16_to_u32 x) i
  = (i <? 32) && Z.even i && Z.testbit x (i / 2).
Proof.
  intros Hi. destruct (Z.ltb_spec i 32) as [Hlt|Hge].
  - simpl. apply testbit_interleave. lia.
  - simpl. unfold SQZ_interleave_u16_to_u32. cbv zeta.
    rewrite Z.land_spec.
    assert (Z.testbit 0x55555555 i = false) as ->; [|apply andb_false_r].
    apply Z.bits_above_log2; [lia|]. simpl. lia.
Qed.

(** [SQZ_interleave_u16_to_u32] moves bit [k] of its argument to bit [2 k],
    for the sixteen low bits, and leaves the odd bits clear: the result is a
    32-bit value that depends on the low sixteen bits only. *)
Theorem interleave_bits x i :
  0 <= i →
  Z.testbit (SQZ_interleave_u16_to_u32 x) i
  = (i <? 32) && Z.even i && Z.testbit x (i / 2).
Proof. apply interleave_bits_holds. Qed.

Lemma interleave_bits_witness :
  Z.testbit (SQZ_interleave_u16_to_u32 5) 4 = (4 <? 32) && Z.even 4 && Z.testbit 5 (4 / 2).
Proof. apply (interleave_bits 5 4). lia. Defined.

Lemma squeeze_bits n : ∀ i j,
  0 <= j → Z.testbit (squeeze n i) j = (j <? Z.of_nat n) && Z.testbit i (2 * j).
Proof.
  induction n as [|n IH]; intros i j Hj.
  - cbn [squeeze]. rewrite Z.bits_0. destruct (Z.ltb_spec j (Z.of_nat 0)); [lia|reflexivity].
  - cbn [squeeze]. destruct (Z.eq_dec j 0) as [->|Hne].
    + rewrite Z.add_b2z_double_bit0. simpl. reflexivity.
    + replace j with (Z.succ (j - 1)) at 1 by lia.
      rewrite (Z.add_comm (Z.b2z _)), Z.testbit_succ_r by lia.
      rewrite IH by lia. rewrite Z.shiftr_spec by lia.
      replace (2 * (j - 1) + 2) with (2 * j) by lia.
      destruct (Z.ltb_spec (j - 1) (Z.of_nat n)), (Z.ltb_spec j (Z.of_nat (S n)));
        try lia; reflexivity.
Qed.

Lemma squeeze_range n : ∀ i, 0 <= squeeze n i < 2 ^ Z.of_nat n.
Proof.
  induction n as [|n IH]; intros i; [simpl; lia|].
  cbn [squeeze]. specialize (IH (Z.shiftr i 2)).
  replace (Z.of_nat (S n)) with (Z.succ (Z.of_nat n)) by lia.
  rewrite Z.pow_succ_r by lia.
  destruct (Z.testbit i 0); simpl Z.b2z; lia.
Qed.

Lemma deinterleave_interleave_16 :
  all_from (Z.to_nat (2 ^ 16)) 0
    (λ x, SQZ_deinterleave_u32_to_u16 (interleave_exact x) =? x) = true.
Proof. vm_compute. reflexivity. Qed.

Lemma deinterleave_interleave x :
  0 <= x < 2 ^ 16 → SQZ_deinterleave_u32_to_u16 (SQZ_interleave_u16_to_u32 x) = x.
Proof.
  intros Hx. rewrite interleave_exact_eq.
  assert (Hr : 0 <= x < 0 + Z.of_nat (Z.to_nat (2 ^ 16))) by (rewrite Z2Nat.id; lia).
  pose proof (all_from_spec _ _ _ deinterleave_interleave_16 _ Hr) as H.
  apply Z.eqb_eq in H. exact H.
Qed.

Lemma deinterleave_even_bits i :
  SQZ_deinterleave_u32_to_u16 i = SQZ_deinterleave_u32_to_u16 (Z.land i 0x55555555).
Proof.
  unfold SQZ_deinterleave_u32_to_u16.
  rewrite <- (Z.land_assoc i), Z.land_diag. reflexivity.
Qed.

Lemma interleave_squeeze i :
  SQZ_interleave_u16_to_u32 (squeeze 16 i) = Z.land i 0x55555555.
Proof.
  apply Z.bits_inj'. intros k Hk.
  rewrite interleave_bits_holds, Z.land_spec by lia.
  destruct (Z.ltb_spec k 32) as [Hlt|Hge].
  - pose proof (Z.div_mod k 2 ltac:(lia)) as Hd.
    pose proof (Z.mod_pos_bound k 2 ltac:(lia)) as Hm.
    assert (Hq : 0 <= k / 2 < 16).
    { split; [apply Z.div_pos; lia|]. apply Z.div_lt_upper_bound; lia. }
    rewrite squeeze_bits by lia.
    destruct (Z.ltb_spec (k / 2) (Z.of_nat 16)); [|lia].
    assert (Hmask : Z.testbit 0x55555555 k = Z.even k).
    { assert (k = 0 ∨ k = 1 ∨ k = 2 ∨ k = 3 ∨ k = 4 ∨ k = 5 ∨ k = 6 ∨ k = 7 ∨ k = 8 ∨ k = 9
              ∨ k = 10 ∨ k = 11 ∨ k = 12 ∨ k = 13 ∨ k = 14 ∨ k = 15 ∨ k = 16 ∨ k = 17
              ∨ k = 18 ∨ k = 19 ∨ k = 20 ∨ k = 21 ∨ k = 22 ∨ k = 23 ∨ k = 24 ∨ k = 25
              ∨ k = 26 ∨ k = 27 ∨ k = 28 ∨ k = 29 ∨ k = 30 ∨ k = 31) as Hcases by lia.
      repeat (destruct Hcases as [->|Hcases]; [reflexivity|]). subst k. reflexivity. }
    rewrite Hmask. simpl.
    destruct (Z.even k) eqn:Ev; simpl; [|rewrite andb_false_r; reflexivity].
    apply Z.even_spec in Ev. destruct Ev as [m ->].
    rewrite (Z.mul_comm 2 m), Z.div_mul by lia. rewrite (Z.mul_comm m 2).
    rewrite andb_true_r. reflexivity.
  - simpl. assert (Z.testbit 0x55555555 k = false) as ->; [|rewrite andb_false_r; reflexivity].
    apply Z.bits_above_log2; [lia|]. simpl. lia.
Qed.

(** [SQZ_deinterleave_u32_to_u16] packs the even bits of its argument: bit
    [2 j] goes to bit [j], for [j] below 16, and the odd bits are dropped.
    So it undoes [SQZ_interleave_u16_to_u32] on 16-bit values. *)
Theorem deinterleave_bits :
  (∀ i j, 0 <= j →
          Z.testbit (SQZ_deinterleave_u32_to_u16 i) j = (j <? 16) && Z.testbit i (2 * j))
  ∧ (∀ x, 0 <= x < 2 ^ 16 →
          SQZ_deinterleave_u32_to_u16 (SQZ_interleave_u16_to_u32 x) = x).
Proof.
  split; [|exact deinterleave_interleave].
  intros i j Hj.
  rewrite deinterleave_even_bits, <- interleave_squeeze.
  rewrite deinterleave_interleave by apply (squeeze_range 16).
  apply (squeeze_bits 16). exact Hj.
Qed.

Lemma deinterleave_bits_witness :
  Z.testbit (SQZ_deinterleave_u32_to_u16 17) 2 = (2 <? 16) && Z.testbit 17 (2 * 2)
  ∧ SQZ_deinterleave_u32_to_u16 (SQZ_interleave_u16_to_u32 300) = 300.
Proof.
  split.
  - apply (proj1 deinterleave_bits 17 2). lia.
  - apply (proj2 deinterleave_bits 300). lia.
Defined.

(** ** Bit buffer *)

(** [SQZ_bit_buffer_write_bits] ORs the [width] low bits of [bits], the most
    significant first, into the buffer from the cursor on and changes no
    other bit.  The cursor moves by [width], or to the end of the buffer when
    fewer bits are free: then the leading bits that fit are written all the
    same.  The value returned is 1 exactly when the buffer was not full and
    all the bits went in. *)
Theorem write_bits_appends b bits width :
  bb_wf b → 0 <= width <= 32 →
  ∃ b' ok, SQZ_bit_buffer_write_bits b bits width = (b', ok)
   ∧ bb_wf b' ∧ bb_eob b' = bb_eob b ∧ length (bb_data b') = length (bb_data b)
   ∧ bb_pos b' = Z.min (bb_pos b + width) (8 * bb_eob b)
   ∧ (ok = 1 ∨ ok = 0)
   ∧ (ok = 1 ↔ bb_ptr b < bb_eob b ∧ bb_pos b + width <= 8 * bb_eob b)
   ∧ ∀ q, 0 <= q →
       bit_at (bb_data b') q
       = bit_at (bb_data b) q
         || ((bb_pos b <=? q) && (q <? Z.min (bb_pos b + width) (8 * bb_eob b))
             && Z.testbit bits (bb_pos b + width - 1 - q)).
Proof. intros Hwf Hw. apply write_bits_spec; auto. lia. Qed.

Lemma write_bits_appends_witness :
  let b := SQZ_bit_buffer_init [0; 0] 2 in
  ∃ b' ok, SQZ_bit_buffer_write_bits b 5 11 = (b', ok)
   ∧ bb_wf b' ∧ bb_eob b' = bb_eob b ∧ length (bb_data b') = length (bb_data b)
   ∧ bb_pos b' = Z.min (bb_pos b + 11) (8 * bb_eob b)
   ∧ (ok = 1 ∨ ok = 0)
   ∧ (ok = 1 ↔ bb_ptr b < bb_eob b ∧ bb_pos b + 11 <= 8 * bb_eob b)
   ∧ ∀ q, 0 <= q →
       bit_at (bb_data b') q
       = bit_at (bb_data b) q
         || ((bb_pos b <=? q) && (q <? Z.min (bb_pos b + 11) (8 * bb_eob b))
             && Z.testbit 5 (bb_pos b + 11 - 1 - q)).
Proof.
  apply (write_bits_appends (SQZ_bit_buffer_init [0; 0] 2) 5 11).
  - unfold bb_wf. vm_compute. repeat split; try discriminate. left. reflexivity.
  - lia.
Defined.

(** Reading past the end: the cursor goes to the end and the value is -1. *)
Lemma read_bits_loop_short n : ∀ b acc width,
  bb_wf b → 0 <= width < 2 ^ 32 → 8 * bb_eob b < bb_pos b + width →
  (Z.to_nat width < n)%nat →
  ∃ b', read_bits_loop n b acc width = (b', -1)
    ∧ bb_wf b' ∧ bb_eob b' = bb_eob b ∧ bb_data b' = bb_data b
    ∧ bb_pos b' = 8 * bb_eob b.
Proof.
  induction n as [|n IH]; intros b acc width Hwf Hw Hshort Hn; [lia|].
  pose proof Hwf as (Hp & Hi & Hor & Hlen).
  cbn [read_bits_loop]. unfold SQZ_bit_buffer_eob.
  destruct (Z.leb_spec (bb_eob b) (bb_ptr b)) as [He|He].
  { exists b. split; [reflexivity|]. split; [auto|]. split; [auto|]. split; [auto|].
    unfold bb_pos. lia. }
  unfold SQZ_BIT_BUFFER_MSB.
  rewrite (u32_small (7 + 1 - bb_index b)) by lia.
  unfold bb_pos in Hshort.
  destruct (Z.leb_spec width (7 + 1 - bb_index b)) as [Hfit|Hbig]; [lia|].
  rewrite (u32_small (width - (7 + 1 - bb_index b))) by lia.
  destruct (IH (bb_next_byte b)
              (s32 (Z.lor (s32 (Z.shiftl acc (7 + 1 - bb_index b)))
                          (Z.land (load (bb_data b) (bb_ptr b))
                                  (u32 (u32 (Z.shiftl 1 (7 + 1 - bb_index b)) - 1)))))
              (width - (7 + 1 - bb_index b)))
    as (b' & E & Hwf' & He' & Hd' & Hp').
  - unfold bb_wf, bb_next_byte; simpl. lia.
  - lia.
  - unfold bb_pos, bb_next_byte; simpl. lia.
  - lia.
  - exists b'. split; [exact E|]. split; [auto|]. split; [exact He'|]. split; [exact Hd'|].
    exact Hp'.
Qed.

Lemma read_bits_value_holds b width :
  bb_wf b → 1 <= width <= 31 →
  ∃ b' v, SQZ_bit_buffer_read_bits b width = (b', v)
    ∧ bb_wf b' ∧ bb_eob b' = bb_eob b ∧ bb_data b' = bb_data b
    ∧ (bb_pos b + width <= 8 * bb_eob b →
       bb_pos b' = bb_pos b + width ∧ 0 <= v < 2 ^ width
       ∧ ∀ j, 0 <= j < width →
              Z.testbit v j = bit_at (bb_data b) (bb_pos b + width - 1 - j))
    ∧ (8 * bb_eob b < bb_pos b + width → bb_pos b' = 8 * bb_eob b ∧ v = -1).
Proof.
  intros Hwf Hw. pose proof Hwf as (Hp & Hi & Hor & Hlen).
  unfold SQZ_bit_buffer_read_bits.
  destruct (Z.le_gt_cases (bb_pos b + width) (8 * bb_eob b)) as [Hroom|Hshort].
  - assert (H31 : (0 + 1) * 2 ^ width <= 2 ^ 31).
    { assert (2 ^ width <= 2 ^ 31) by (apply Z.pow_le_mono_r; lia). lia. }
    destruct (read_bits_loop_spec (S (Z.to_nat width)) b 0 width Hwf)
      as (b' & r & E & Hwf' & He' & Hd' & Hp' & Hr & Hbits);
      [lia | lia | exact H31 | unfold bb_pos in Hroom; lia | exact Hroom | lia |].
    exists b', r. split; [rewrite E; f_equal; lia|].
    split; [auto|]. split; [auto|]. split; [auto|]. split; [auto|]. lia.
  - destruct (read_bits_loop_short (S (Z.to_nat width)) b 0 width Hwf)
      as (b' & E & Hwf' & He' & Hd' & Hp'); [lia | lia | lia |].
    exists b', (-1). split; [exact E|].
    split; [auto|]. split; [auto|]. split; [auto|]. split; [lia|auto].
Qed.

(** [SQZ_bit_buffer_read_bits] returns the next [width] bits as a number,
    the first bit read the most significant, and moves the cursor past
    them; when fewer than [width] bits are left it returns -1 and leaves the
    cursor at the end of the buffer.  The bytes are not changed. *)
Theorem read_bits_value b width :
  bb_wf b → 1 <= width <= 31 →
  ∃ b' v, SQZ_bit_buffer_read_bits b width = (b', v)
    ∧ bb_wf b' ∧ bb_eob b' = bb_eob b ∧ bb_data b' = bb_data b
    ∧ (bb_pos b + width <= 8 * bb_eob b →
       bb_pos b' = bb_pos b + width ∧ 0 <= v < 2 ^ width
       ∧ ∀ j, 0 <= j < width →
              Z.testbit v j = bit_at (bb_data b) (bb_pos b + width - 1 - j))
    ∧ (8 * bb_eob b < bb_pos b + width → bb_pos b' = 8 * bb_eob b ∧ v = -1).
Proof. apply read_bits_value_holds. Qed.

Lemma read_bits_value_witness :
  let b := SQZ_bit_buffer_init [165; 3] 2 in
  ∃ b' v, SQZ_bit_buffer_read_bits b 8 = (b', v)
    ∧ bb_wf b' ∧ bb_eob b' = bb_eob b ∧ bb_data b' = bb_data b
    ∧ (bb_pos b + 8 <= 8 * bb_eob b →
       bb_pos b' = bb_pos b + 8 ∧ 0 <= v < 2 ^ 8
       ∧ ∀ j, 0 <= j < 8 →
              Z.testbit v j = bit_at (bb_data b) (bb_pos b + 8 - 1 - j))
    ∧ (8 * bb_eob b < bb_pos b + 8 → bb_pos b' = 8 * bb_eob b ∧ v = -1).
Proof.
  apply (read_bits_value (SQZ_bit_buffer_init [165; 3] 2) 8).
  - unfold bb_wf. vm_compute. repeat split; try discriminate. left. reflexivity.
  - lia.
Defined.

(** A value of [w] bits written over zero bits is read back from the same
    place, and the read ends where the write ended. *)
Theorem write_then_read_bits b v w :
  bb_wf b → 1 <= w <= 31 → 0 <= v < 2 ^ w →
  bb_pos b + w <= 8 * bb_eob b →
  (∀ q, bb_pos b <= q < bb_pos b + w → bit_at (bb_data b) q = false) →
  ∃ b1 b2,
    SQZ_bit_buffer_write_bits b v w = (b1, 1)
    ∧ SQZ_bit_buffer_read_bits (bb_rewind b b1) w = (b2, v)
    ∧ bb_pos b2 = bb_pos b1 ∧ bb_pos b1 = bb_pos b + w.
Proof.
  intros Hwf Hw Hv Hroom Hzero.
  destruct (read_after_write b v w Hwf Hw Hv Hroom Hzero) as (Hok & Hpos & Hread).
  destruct (SQZ_bit_buffer_write_bits b v w) as [b1 ok] eqn:E1. simpl in *. subst ok.
  assert (Hl : length (bb_data b1) = length (bb_data b)).
  { destruct (write_bits_spec b v w Hwf) as (b' & ok & E & _ & _ & Hl & _); [lia|].
    rewrite E1 in E. injection E as <- _. exact Hl. }
  destruct (read_bits_value_holds (bb_rewind b b1) w (bb_rewind_wf b b1 Hwf Hl) Hw)
    as (b2 & v2 & E2 & _ & _ & _ & Hin & _).
  rewrite E2 in Hread. simpl in Hread. subst v2.
  exists b1, b2. split; [reflexivity|]. split; [exact E2|].
  destruct Hin as (Hp2 & _); [exact Hroom|].
  change (bb_pos (bb_rewind b b1)) with (bb_pos b) in Hp2. lia.
Qed.

Lemma write_then_read_bits_witness :
  let b := SQZ_bit_buffer_init [0; 0] 2 in
  ∃ b1 b2,
    SQZ_bit_buffer_write_bits b 300 11 = (b1, 1)
    ∧ SQZ_bit_buffer_read_bits (bb_rewind b b1) 11 = (b2, 300)
    ∧ bb_pos b2 = bb_pos b1 ∧ bb_pos b1 = bb_pos b + 11.
Proof.
  apply (write_then_read_bits (SQZ_bit_buffer_init [0; 0] 2) 300 11).
  - unfold bb_wf. vm_compute. repeat split; try discriminate. left. reflexivity.
  - lia.
  - lia.
  - vm_compute. discriminate.
  - intros q Hq. change (0 <= q < 11) in Hq.
    assert (q = 0 ∨ q = 1 ∨ q = 2 ∨ q = 3 ∨ q = 4 ∨ q = 5 ∨ q = 6 ∨ q = 7 ∨ q = 8 ∨ q = 9
            ∨ q = 10) as Hc by lia.
    repeat (destruct Hc as [->|Hc]; [reflexivity|]). subst q. reflexivity.
Defined.

(** ** Header *)

(** A field written where the buffer holds zeros: what the bits are then. *)
Lemma write_field b v w :
  bb_wf b → 1 <= w <= 31 → 0 <= v < 2 ^ w → bb_pos b + w <= 8 * bb_eob b →
  (∀ q, bb_pos b <= q < bb_pos b + w → bit_at (bb_data b) q = false) →
  ∃ b', SQZ_bit_buffer_write_bits b v w = (b', 1)
    ∧ bb_wf b' ∧ bb_eob b' = bb_eob b ∧ length (bb_data b') = length (bb_data b)
    ∧ bb_pos b' = bb_pos b + w
    ∧ (∀ q, 0 <= q → ¬ (bb_pos b <= q < bb_pos b + w) →
            bit_at (bb_data b') q = bit_at (bb_data b) q)
    ∧ field_at (bb_data b') (bb_pos b) w v.
Proof.
  intros Hwf Hw Hv Hroom Hzero. pose proof Hwf as (Hp & Hi & Hor & Hlen).
  destruct (write_bits_spec b v w Hwf) as (b' & ok & E & Hwf' & He' & Hl' & Hp' & _ & Hiff & Hb');
    [lia|].
  assert (ok = 1) as -> by (apply Hiff; unfold bb_pos in *; lia).
  exists b'. split; [exact E|]. split; [auto|]. split; [auto|]. split; [auto|].
  split; [lia|]. split.
  - intros q Hq Hout. rewrite Hb' by lia. unfold written.
    destruct (Z.leb_spec (bb_pos b) q); simpl; [|apply orb_false_r].
    destruct (Z.ltb_spec q (Z.min (bb_pos b + w) (8 * bb_eob b))); simpl; [lia|].
    apply orb_false_r.
  - intros j Hj. rewrite Hb' by (unfold bb_pos; lia). rewrite Hzero by lia. simpl.
    unfold written.
    destruct (Z.leb_spec (bb_pos b) (bb_pos b + w - 1 - j)); [|lia].
    destruct (Z.ltb_spec (bb_pos b + w - 1 - j) (Z.min (bb_pos b + w) (8 * bb_eob b))); [|lia].
    simpl. f_equal. lia.
Qed.

Lemma write_bit_field b v :
  bb_wf b → (v = 0 ∨ v = 1) → bb_pos b + 1 <= 8 * bb_eob b →
  bit_at (bb_data b) (bb_pos b) = false →
  ∃ b', SQZ_bit_buffer_write_bit b v = (b', 1)
    ∧ bb_wf b' ∧ bb_eob b' = bb_eob b ∧ length (bb_data b') = length (bb_data b)
    ∧ bb_pos b' = bb_pos b + 1
    ∧ (∀ q, 0 <= q → q ≠ bb_pos b → bit_at (bb_data b') q = bit_at (bb_data b) q)
    ∧ bit_at (bb_data b') (bb_pos b) = Z.testbit v 0.
Proof.
  intros Hwf Hv Hroom Hzero. pose proof Hwf as (Hp & Hi & Hor & Hlen).
  assert (Hlt : bb_ptr b < bb_eob b) by (unfold bb_pos in *; lia).
  destruct (write_bit_spec b v Hwf Hlt Hv) as (b' & E & Hwf' & Hp' & He' & Hl' & Hb').
  exists b'. split; [exact E|]. split; [auto|]. split; [auto|]. split; [auto|].
  split; [auto|]. split.
  - intros q Hq Hne. rewrite Hb' by lia.
    destruct (Z.eqb_spec q (bb_pos b)); [lia|]. reflexivity.
  - rewrite Hb' by (unfold bb_pos; lia). rewrite Hzero, Z.eqb_refl. simpl.
    destruct Hv as [-> | ->]; reflexivity.
Qed.

(** A field read where the bits of [v] stand. *)
Lemma read_field c w v :
  bb_wf c → 1 <= w <= 31 → 0 <= v < 2 ^ w → bb_pos c + w <= 8 * bb_eob c →
  field_at (bb_data c) (bb_pos c) w v →
  ∃ c', SQZ_bit_buffer_read_bits c w = (c', v)
    ∧ bb_wf c' ∧ bb_eob c' = bb_eob c ∧ bb_data c' = bb_data c
    ∧ bb_pos c' = bb_pos c + w.
Proof.
  intros Hwf Hw Hv Hroom Hf.
  destruct (read_bits_value_holds c w Hwf Hw) as (c' & r & E & Hwf' & He' & Hd' & Hin & _).
  destruct (Hin Hroom) as (Hp' & Hr & Hbits).
  assert (r = v) as ->.
  { apply Z.bits_inj'. intros j Hj.
    destruct (Z.ltb_spec j w) as [Hjw|Hjw].
    - rewrite Hbits by lia. apply Hf. lia.
    - assert (Hhigh : ∀ z, 0 <= z < 2 ^ w → Z.testbit z j = false).
      { intros z Hz. destruct (Z.eq_dec z 0) as [->|]; [apply Z.bits_0|].
        apply Z.bits_above_log2; [lia|].
        apply Z.lt_le_trans with w; [|lia]. apply Z.log2_lt_pow2; lia. }
      rewrite !Hhigh; auto. }
  exists c'. auto.
Qed.

Lemma field_at_frame l l' p w v :
  field_at l p w v → (∀ q, p <= q < p + w → bit_at l' q = bit_at l q) → field_at l' p w v.
Proof. intros Hf Hq j Hj. rewrite Hq by lia. apply Hf. exact Hj. Qed.

(** The descriptor a header carries: the planes follow from the color mode
    and the subsampling is a flag. *)
Lemma encode_header_fields d b :
  descriptor_in_range d → bb_wf b → bb_pos b + 48 <= 8 * bb_eob b →
  (∀ q, bb_pos b <= q < bb_pos b + 48 → bit_at (bb_data b) q = false) →
  ∃ b', SQZ_encode_header d b = (b', of_bool (negb (SQZ_bit_buffer_eob b')))
    ∧ bb_wf b' ∧ bb_eob b' = bb_eob b ∧ length (bb_data b') = length (bb_data b)
    ∧ bb_pos b' = bb_pos b + 48
    ∧ (∀ q, 0 <= q → ¬ (bb_pos b <= q < bb_pos b + 48) →
            bit_at (bb_data b') q = bit_at (bb_data b) q)
    ∧ header_at (bb_data b') (bb_pos b) d.
Proof.
  intros (Hdw & Hdh & Hdm & Hds & Hdl) Hwf Hroom Hzero.
  unfold SQZ_MIN_DIMENSION, SQZ_MAX_DIMENSION, SQZ_COLOR_MODE_COUNT, SQZ_SCAN_ORDER_COUNT,
    SQZ_DWT_MAX_LEVEL in *.
  pose proof Hwf as (Hp0 & _).
  assert (Hpos0 : 0 <= bb_pos b) by (destruct Hwf as (? & ? & _); unfold bb_pos; lia).
  unfold SQZ_encode_header, SQZ_HEADER_MAGIC.
  rewrite (usize_small (width d - 1)), (u32_small (width d - 1)) by lia.
  rewrite (usize_small (height d - 1)), (u32_small (height d - 1)) by lia.
  rewrite (u32_small (color_mode d)) by lia.
  rewrite (usize_small (dwt_levels d - 1)), (u32_small (dwt_levels d - 1)) by lia.
  rewrite (u32_small (scan_order d)) by lia.
  destruct (write_field b 165 8 Hwf) as (b1 & E1 & Hwf1 & He1 & Hl1 & Hp1 & Hf1 & Hv1);
    [lia | lia | lia | intros; apply Hzero; lia |].
  rewrite E1.
  destruct (write_field b1 (width d - 1) 16 Hwf1) as (b2 & E2 & Hwf2 & He2 & Hl2 & Hp2 & Hf2 & Hv2);
    [lia | lia | lia | intros; rewrite Hf1 by lia; apply Hzero; lia |].
  rewrite E2.
  destruct (write_field b2 (height d - 1) 16 Hwf2) as (b3 & E3 & Hwf3 & He3 & Hl3 & Hp3 & Hf3 & Hv3);
    [lia | lia | lia | intros; rewrite Hf2, Hf1 by lia; apply Hzero; lia |].
  rewrite E3.
  destruct (write_field b3 (color_mode d) 2 Hwf3) as (b4 & E4 & Hwf4 & He4 & Hl4 & Hp4 & Hf4 & Hv4);
    [lia | lia | lia | intros; rewrite Hf3, Hf2, Hf1 by lia; apply Hzero; lia |].
  rewrite E4.
  destruct (write_field b4 (dwt_levels d - 1) 3 Hwf4)
    as (b5 & E5 & Hwf5 & He5 & Hl5 & Hp5 & Hf5 & Hv5);
    [lia | lia | lia | intros; rewrite Hf4, Hf3, Hf2, Hf1 by lia; apply Hzero; lia |].
  rewrite E5.
  destruct (write_field b5 (scan_order d) 2 Hwf5) as (b6 & E6 & Hwf6 & He6 & Hl6 & Hp6 & Hf6 & Hv6);
    [lia | lia | lia | intros; rewrite Hf5, Hf4, Hf3, Hf2, Hf1 by lia; apply Hzero; lia |].
  rewrite E6.
  destruct (write_bit_field b6 (of_bool (truthy (subsampling d))) Hwf6)
    as (b7 & E7 & Hwf7 & He7 & Hl7 & Hp7 & Hf7 & Hv7);
    [destruct (truthy _); auto | lia
     | rewrite Hf6, Hf5, Hf4, Hf3, Hf2, Hf1 by lia; apply Hzero; lia |].
  rewrite E7.
  exists b7. split; [reflexivity|]. split; [auto|]. split; [congruence|].
  split; [congruence|]. split; [lia|]. split.
  { intros q Hq Hout. rewrite Hf7, Hf6, Hf5, Hf4, Hf3, Hf2, Hf1 by lia. reflexivity. }
  unfold header_at.
  split.
  { eapply field_at_frame; [exact Hv1|]. intros q Hq.
    rewrite Hf7, Hf6, Hf5, Hf4, Hf3, Hf2 by lia. reflexivity. }
  split.
  { replace (bb_pos b + 8) with (bb_pos b1) by lia.
    eapply field_at_frame; [exact Hv2|]. intros q Hq.
    rewrite Hf7, Hf6, Hf5, Hf4, Hf3 by lia. reflexivity. }
  split.
  { replace (bb_pos b + 24) with (bb_pos b2) by lia.
    eapply field_at_frame; [exact Hv3|]. intros q Hq.
    rewrite Hf7, Hf6, Hf5, Hf4 by lia. reflexivity. }
  split.
  { replace (bb_pos b + 40) with (bb_pos b3) by lia.
    eapply field_at_frame; [exact Hv4|]. intros q Hq.
    rewrite Hf7, Hf6, Hf5 by lia. reflexivity. }
  split.
  { replace (bb_pos b + 42) with (bb_pos b4) by lia.
    eapply field_at_frame; [exact Hv5|]. intros q Hq.
    rewrite Hf7, Hf6 by lia. reflexivity. }
  split.
  { replace (bb_pos b + 45) with (bb_pos b5) by lia.
    eapply field_at_frame; [exact Hv6|]. intros q Hq.
    rewrite Hf7 by lia. reflexivity. }
  replace (bb_pos b + 47) with (bb_pos b6) by lia. rewrite Hv7.
  destruct (truthy (subsampling d)); reflexivity.
Qed.

(** A color mode of the enumeration is inside the table of the planes. *)
Lemma planes_read mode :
  0 <= mode < SQZ_COLOR_MODE_COUNT →
  table_read SQZ_number_of_planes mode = Some (load SQZ_number_of_planes mode).
Proof.
  intros Hm. unfold table_read, SQZ_COLOR_MODE_COUNT in *.
  change (Z.of_nat (length SQZ_number_of_planes)) with 4.
  destruct (Z.leb_spec 0 mode); [|lia]. destruct (Z.ltb_spec mode 4); [reflexivity|lia].
Qed.

(** Reading a header that stands in the buffer. *)
Lemma decode_header_fields d d0 c :
  descriptor_in_range d → bb_wf c → bb_pos c + 48 <= 8 * bb_eob c →
  header_at (bb_data c) (bb_pos c) d →
  ∃ c', SQZ_decode_header d0 c
        = Some (header_descriptor d, c', of_bool (negb (SQZ_bit_buffer_eob c')))
    ∧ bb_wf c' ∧ bb_eob c' = bb_eob c ∧ bb_data c' = bb_data c
    ∧ bb_pos c' = bb_pos c + 48.
Proof.
  intros (Hdw & Hdh & Hdm & Hds & Hdl) Hwf Hroom (H1 & H2 & H3 & H4 & H5 & H6 & H7).
  unfold SQZ_MIN_DIMENSION, SQZ_MAX_DIMENSION, SQZ_COLOR_MODE_COUNT, SQZ_SCAN_ORDER_COUNT,
    SQZ_DWT_MAX_LEVEL in *.
  unfold SQZ_decode_header, SQZ_HEADER_MAGIC.
  destruct (read_field c 8 165 Hwf) as (c1 & E1 & Hwf1 & He1 & Hd1 & Hp1);
    [lia | lia | lia | exact H1 |].
  rewrite E1. change (negb (165 =? 165)) with false. cbv iota.
  destruct (read_field c1 16 (width d - 1) Hwf1) as (c2 & E2 & Hwf2 & He2 & Hd2 & Hp2);
    [lia | lia | lia | rewrite Hd1, Hp1; exact H2 |].
  rewrite E2.
  destruct (read_field c2 16 (height d - 1) Hwf2) as (c3 & E3 & Hwf3 & He3 & Hd3 & Hp3);
    [lia | lia | lia
     | rewrite Hd2, Hd1, Hp2, Hp1; replace (bb_pos c + 8 + 16) with (bb_pos c + 24) by lia;
       exact H3 |].
  rewrite E3.
  destruct (read_field c3 2 (color_mode d) Hwf3) as (c4 & E4 & Hwf4 & He4 & Hd4 & Hp4);
    [lia | lia | lia
     | rewrite Hd3, Hd2, Hd1, Hp3, Hp2, Hp1;
       replace (bb_pos c + 8 + 16 + 16) with (bb_pos c + 40) by lia; exact H4 |].
  rewrite E4.
  destruct (read_field c4 3 (dwt_levels d - 1) Hwf4) as (c5 & E5 & Hwf5 & He5 & Hd5 & Hp5);
    [lia | lia | lia
     | rewrite Hd4, Hd3, Hd2, Hd1, Hp4, Hp3, Hp2, Hp1;
       replace (bb_pos c + 8 + 16 + 16 + 2) with (bb_pos c + 42) by lia; exact H5 |].
  rewrite E5.
  destruct (read_field c5 2 (scan_order d) Hwf5) as (c6 & E6 & Hwf6 & He6 & Hd6 & Hp6);
    [lia | lia | lia
     | rewrite Hd5, Hd4, Hd3, Hd2, Hd1, Hp5, Hp4, Hp3, Hp2, Hp1;
       replace (bb_pos c + 8 + 16 + 16 + 2 + 3) with (bb_pos c + 45) by lia; exact H6 |].
  rewrite E6, planes_read by (unfold SQZ_COLOR_MODE_COUNT; lia). cbn [mbind option_bind].
  assert (Hlt6 : bb_ptr c6 < bb_eob c6).
  { destruct Hwf6 as (? & ? & ? & ?). unfold bb_pos in *. lia. }
  destruct (read_bit_spec c6 Hwf6 Hlt6) as (c7 & E7 & Hwf7 & Hp7 & He7 & Hd7).
  rewrite E7.
  assert (Hbit : bit_at (bb_data c6) (bb_pos c6) = truthy (subsampling d)).
  { rewrite Hd6, Hd5, Hd4, Hd3, Hd2, Hd1, Hp6, Hp5, Hp4, Hp3, Hp2, Hp1.
    replace (bb_pos c + 8 + 16 + 16 + 2 + 3 + 2) with (bb_pos c + 47) by lia. exact H7. }
  rewrite Hbit.
  exists c7. split.
  { unfold header_descriptor. f_equal. f_equal. f_equal. f_equal.
    - rewrite u32_small by lia. lia.
    - rewrite u32_small by lia. lia.
    - rewrite u32_small by lia. lia.
    - destruct (truthy (subsampling d)); reflexivity. }
  split; [auto|]. split; [congruence|]. split; [congruence|]. lia.
Qed.

(** A header written over zero bits by [SQZ_encode_header] and read back by
    [SQZ_decode_header] gives the descriptor again, with the number of planes
    of its color mode and its subsampling as a flag; both take 48 bits, and
    either returns 1 exactly when a bit is left in the buffer after them. *)
Theorem header_roundtrip d d0 b :
  descriptor_in_range d → bb_wf b → bb_pos b + 48 <= 8 * bb_eob b →
  (∀ q, bb_pos b <= q < bb_pos b + 48 → bit_at (bb_data b) q = false) →
  ∃ b1 b2 ok,
    SQZ_encode_header d b = (b1, ok)
    ∧ SQZ_decode_header d0 (bb_rewind b b1) = Some (header_descriptor d, b2, ok)
    ∧ bb_pos b1 = bb_pos b + 48 ∧ bb_pos b2 = bb_pos b + 48
    ∧ (ok = 1 ↔ bb_pos b + 48 < 8 * bb_eob b)
    ∧ (ok = 0 ↔ bb_pos b + 48 = 8 * bb_eob b).
Proof.
  intros Hd Hwf Hroom Hzero.
  destruct (encode_header_fields d b Hd Hwf Hroom Hzero)
    as (b1 & E1 & Hwf1 & He1 & Hl1 & Hp1 & _ & Hh).
  assert (Hwfr : bb_wf (bb_rewind b b1)) by (apply bb_rewind_wf; auto).
  destruct (decode_header_fields d d0 (bb_rewind b b1) Hd Hwfr Hroom Hh)
    as (b2 & E2 & Hwf2 & He2 & Hd2 & Hp2).
  change (bb_pos (bb_rewind b b1)) with (bb_pos b) in Hp2.
  change (bb_eob (bb_rewind b b1)) with (bb_eob b) in He2.
  assert (Heob : SQZ_bit_buffer_eob b2 = SQZ_bit_buffer_eob b1).
  { unfold SQZ_bit_buffer_eob. rewrite He1, He2.
    destruct Hwf1 as (? & ? & ? & ?), Hwf2 as (? & ? & ? & ?). unfold bb_pos in *.
    destruct (Z.leb_spec (bb_eob b) (bb_ptr b2)), (Z.leb_spec (bb_eob b) (bb_ptr b1));
      try reflexivity; lia. }
  exists b1, b2, (of_bool (negb (SQZ_bit_buffer_eob b1))).
  split; [exact E1|]. split; [rewrite E2, Heob; reflexivity|].
  split; [exact Hp1|]. split; [exact Hp2|].
  unfold SQZ_bit_buffer_eob. rewrite He1.
  destruct Hwf1 as (? & ? & ? & ?). unfold bb_pos in *.
  destruct (Z.leb_spec (bb_eob b) (bb_ptr b1)); simpl; split; split; intros; lia.
Qed.

Lemma header_roundtrip_witness :
  let d := mk_descriptor SQZ_COLOR_MODE_YCOCG_R SQZ_SCAN_ORDER_SNAKE 640 480 5 0 2 in
  let b := SQZ_bit_buffer_init (replicate 7 0) 7 in
  ∃ b1 b2 ok,
    SQZ_encode_header d b = (b1, ok)
    ∧ SQZ_decode_header descriptor_zero (bb_rewind b b1)
      = Some (header_descriptor d, b2, ok)
    ∧ bb_pos b1 = bb_pos b + 48 ∧ bb_pos b2 = bb_pos b + 48
    ∧ (ok = 1 ↔ bb_pos b + 48 < 8 * bb_eob b)
    ∧ (ok = 0 ↔ bb_pos b + 48 = 8 * bb_eob b).
Proof.
  apply (header_roundtrip
           (mk_descriptor SQZ_COLOR_MODE_YCOCG_R SQZ_SCAN_ORDER_SNAKE 640 480 5 0 2)
           descriptor_zero (SQZ_bit_buffer_init (replicate 7 0) 7)).
  - unfold descriptor_in_range. vm_compute. intuition discriminate.
  - unfold bb_wf. vm_compute. repeat split; try discriminate. left. reflexivity.
  - vm_compute. discriminate.
  - intros q Hq. change (0 <= q < 48) in Hq. unfold bit_at, load.
    change (bb_data (SQZ_bit_buffer_init (replicate 7 0) 7)) with (replicate 7 0).
    assert (0 <= q / 8 < 7).
    { split; [apply Z.div_pos; lia|]. apply Z.div_lt_upper_bound; lia. }
    rewrite lookup_total_replicate_2 by lia. apply Z.bits_0.
Defined.

(** ** Validation *)

Lemma descriptor_in_range_dec d : descriptor_in_range d ∨ ¬ descriptor_in_range d.
Proof.
  unfold descriptor_in_range, SQZ_MIN_DIMENSION, SQZ_MAX_DIMENSION, SQZ_COLOR_MODE_COUNT,
    SQZ_SCAN_ORDER_COUNT, SQZ_DWT_MAX_LEVEL. lia.
Qed.

Lemma validate_out_of_range d read_only :
  0 <= dwt_levels d → ¬ descriptor_in_range d →
  SQZ_validate_input d read_only
  = (d, if read_only then SQZ_DATA_CORRUPTED else SQZ_INVALID_PARAMETER).
Proof.
  intros Hl Hd. unfold SQZ_validate_input.
  unfold descriptor_in_range, SQZ_MIN_DIMENSION, SQZ_MAX_DIMENSION, SQZ_COLOR_MODE_COUNT,
    SQZ_SCAN_ORDER_COUNT, SQZ_COLOR_MODE_GRAYSCALE, SQZ_SCAN_ORDER_RASTER,
    SQZ_DWT_MAX_LEVEL in *.
  destruct (Z.ltb_spec (width d) 8); [reflexivity|].
  destruct (Z.ltb_spec (2 ^ 16 - 1) (width d)); [reflexivity|].
  destruct (Z.ltb_spec (height d) 8); [reflexivity|].
  destruct (Z.ltb_spec (2 ^ 16 - 1) (height d)); [reflexivity|].
  destruct (Z.ltb_spec (color_mode d) 0); [reflexivity|].
  destruct (Z.leb_spec 4 (color_mode d)); [reflexivity|].
  destruct (Z.ltb_spec (scan_order d) 0); [reflexivity|].
  destruct (Z.leb_spec 4 (scan_order d)); [reflexivity|].
  destruct (Z.eqb_spec (dwt_levels d) 0); [reflexivity|].
  destruct (Z.ltb_spec 8 (dwt_levels d)); [reflexivity|].
  exfalso. apply Hd. lia.
Qed.

Lemma level_bound_range d :
  descriptor_in_range d → 1 <= level_bound d <= 13.
Proof.
  intros (Hw & Hh & _). unfold level_bound, SQZ_MIN_DIMENSION, SQZ_MAX_DIMENSION in *.
  assert (3 <= Z.log2 (Z.min (width d) (height d)) < 16); [|lia].
  split.
  - change 3 with (Z.log2 8). apply Z.log2_le_mono. lia.
  - apply Z.log2_lt_pow2; lia.
Qed.

Lemma validate_in_range_levels d :
  descriptor_in_range d → dwt_levels d <= level_bound d →
  SQZ_validate_input d false
  = (mk_descriptor (color_mode d) (scan_order d) (width d) (height d) (dwt_levels d)
       (load SQZ_number_of_planes (color_mode d)) (subsampling d), SQZ_RESULT_OK)
  ∧ SQZ_validate_input d true = (d, SQZ_RESULT_OK).
Proof.
  intros Hd Hb. pose proof (level_bound_range d Hd) as Hlb.
  destruct Hd as (Hw & Hh & Hm & Hs & Hl). unfold level_bound in *.
  unfold SQZ_validate_input.
  unfold SQZ_MIN_DIMENSION, SQZ_MAX_DIMENSION, SQZ_COLOR_MODE_COUNT, SQZ_SCAN_ORDER_COUNT,
    SQZ_COLOR_MODE_GRAYSCALE, SQZ_SCAN_ORDER_RASTER, SQZ_DWT_MAX_LEVEL in *.
  set (m := if height d <? width d then height d else width d).
  assert (Hmin : m = Z.min (width d) (height d)).
  { unfold m. destruct (Z.ltb_spec (height d) (width d)); lia. }
  rewrite (u32_small m) by lia.
  rewrite SQZ_ilog2_log2 by lia.
  rewrite <- Hmin in *.
  rewrite (u32_small (Z.log2 m + 1 - 3)) by lia.
  destruct (Z.ltb_spec (width d) 8); [lia|].
  destruct (Z.ltb_spec (2 ^ 16 - 1) (width d)); [lia|].
  destruct (Z.ltb_spec (height d) 8); [lia|].
  destruct (Z.ltb_spec (2 ^ 16 - 1) (height d)); [lia|].
  destruct (Z.ltb_spec (color_mode d) 0); [lia|].
  destruct (Z.leb_spec 4 (color_mode d)); [lia|].
  destruct (Z.ltb_spec (scan_order d) 0); [lia|].
  destruct (Z.leb_spec 4 (scan_order d)); [lia|].
  destruct (Z.eqb_spec (dwt_levels d) 0); [lia|].
  destruct (Z.ltb_spec 8 (dwt_levels d)); [lia|].
  simpl.
  destruct (Z.ltb_spec 8 (Z.log2 m + 1 - 3));
    match goal with |- context [?a <? dwt_levels d] => destruct (Z.ltb_spec a (dwt_levels d)) end;
    try lia; split; reflexivity.
Qed.

(** [SQZ_validate_input] accepts exactly the descriptors whose fields are in
    range.  For the encoder it fills in the number of planes and brings the
    levels down to the largest number the smaller dimension allows; for the
    decoder it changes nothing and rejects what the encoder would bring
    down.  Width, height, color mode, scan order and subsampling stay.
    ([dwt_levels] is a [size_t], so it is not negative.) *)
Theorem validate_input_cases d :
  0 <= dwt_levels d →
  (¬ descriptor_in_range d →
   SQZ_validate_input d false = (d, SQZ_INVALID_PARAMETER)
   ∧ SQZ_validate_input d true = (d, SQZ_DATA_CORRUPTED))
  ∧ (descriptor_in_range d →
     SQZ_validate_input d false
     = (mk_descriptor (color_mode d) (scan_order d) (width d) (height d)
          (Z.min (dwt_levels d) (level_bound d))
          (load SQZ_number_of_planes (color_mode d)) (subsampling d), SQZ_RESULT_OK)
     ∧ SQZ_validate_input d true
       = (d, if dwt_levels d <=? level_bound d then SQZ_RESULT_OK else SQZ_DATA_CORRUPTED)).
Proof.
  intros Hl. split.
  - intros Hd. split; apply validate_out_of_range; auto.
  - intros Hd. destruct (Z.leb_spec (dwt_levels d) (level_bound d)) as [Hle|Hgt].
    + destruct (validate_in_range_levels d Hd Hle) as [H1 H2].
      rewrite H1, H2. rewrite Z.min_l by lia. auto.
    + destruct (validate_max_level d Hd Hgt) as [H1 H2].
      rewrite H1, H2. rewrite Z.min_r by lia. auto.
Qed.

Lemma validate_input_cases_witness :
  let d := mk_descriptor SQZ_COLOR_MODE_OKLAB SQZ_SCAN_ORDER_HILBERT 100 40 7 0 1 in
  SQZ_validate_input d false
  = (mk_descriptor (color_mode d) (scan_order d) (width d) (height d)
       (Z.min (dwt_levels d) (level_bound d))
       (load SQZ_number_of_planes (color_mode d)) (subsampling d), SQZ_RESULT_OK)
  ∧ SQZ_validate_input d true
    = (d, if dwt_levels d <=? level_bound d then SQZ_RESULT_OK else SQZ_DATA_CORRUPTED).
Proof.
  apply (validate_input_cases
           (mk_descriptor SQZ_COLOR_MODE_OKLAB SQZ_SCAN_ORDER_HILBERT 100 40 7 0 1)).
  - simpl. lia.
  - unfold descriptor_in_range. vm_compute. intuition discriminate.
Defined.

(** ** What [SQZ_decode] rejects *)

Lemma read_bits_pos b width :
  bb_wf b → 1 <= width <= 31 →
  bb_wf (SQZ_bit_buffer_read_bits b width).1
  ∧ bb_eob (SQZ_bit_buffer_read_bits b width).1 = bb_eob b
  ∧ bb_data (SQZ_bit_buffer_read_bits b width).1 = bb_data b
  ∧ bb_pos (SQZ_bit_buffer_read_bits b width).1 = Z.min (bb_pos b + width) (8 * bb_eob b).
Proof.
  intros Hwf Hw.
  destruct (read_bits_value_holds b width Hwf Hw) as (b' & v & -> & Hwf' & He & Hd & Hin & Hout).
  simpl. split; [auto|]. split; [auto|]. split; [auto|].
  destruct (Z.le_gt_cases (bb_pos b + width) (8 * bb_eob b)) as [H|H].
  - destruct (Hin H) as [-> _]. lia.
  - destruct (Hout H) as [-> _]. lia.
Qed.

Lemma read_bit_pos b :
  bb_wf b →
  bb_wf (SQZ_bit_buffer_read_bit b).1
  ∧ bb_eob (SQZ_bit_buffer_read_bit b).1 = bb_eob b
  ∧ bb_data (SQZ_bit_buffer_read_bit b).1 = bb_data b
  ∧ bb_pos (SQZ_bit_buffer_read_bit b).1 = Z.min (bb_pos b + 1) (8 * bb_eob b).
Proof.
  intros Hwf. pose proof Hwf as (Hp & Hi & Hor & Hlen).
  destruct (Z.lt_ge_cases (bb_ptr b) (bb_eob b)) as [Hlt|Hge].
  - destruct (read_bit_spec b Hwf Hlt) as (b' & -> & ? & ? & ? & ?).
    simpl. split; [auto|]. split; [auto|]. split; [auto|]. unfold bb_pos in *. lia.
  - rewrite read_bit_eob by lia. simpl. split; [auto|]. split; [auto|]. split; [auto|].
    unfold bb_pos. lia.
Qed.

(** The byte under the cursor of a buffer at a byte boundary. *)
Lemma read_byte c :
  bb_wf c → bb_index c = 0 → bb_ptr c < bb_eob c →
  0 <= load (bb_data c) (bb_ptr c) < 2 ^ 8 →
  (SQZ_bit_buffer_read_bits c 8).2 = load (bb_data c) (bb_ptr c).
Proof.
  intros Hwf Hi Hlt Hbyte. pose proof Hwf as (Hp & _).
  destruct (read_bits_value_holds c 8 Hwf ltac:(lia)) as (c' & v & E & _ & _ & _ & Hin & _).
  rewrite E. simpl.
  destruct Hin as (_ & Hv & Hbits); [unfold bb_pos; lia|].
  apply Z.bits_inj'. intros j Hj.
  destruct (Z.ltb_spec j 8) as [Hj8|Hj8].
  - rewrite Hbits by lia. unfold bit_at, bb_pos. rewrite Hi.
    replace (8 * bb_ptr c + 0 + 8 - 1 - j) with (7 - j + bb_ptr c * 8) by lia.
    rewrite Z.div_add, Z_mod_plus_full by lia.
    rewrite Z.div_small, Z.mod_small by lia.
    replace (0 + bb_ptr c) with (bb_ptr c) by lia. f_equal. lia.
  - assert (Hhigh : ∀ z, 0 <= z < 2 ^ 8 → Z.testbit z j = false).
    { intros z Hz. destruct (Z.eq_dec z 0) as [->|]; [apply Z.bits_0|].
      apply Z.bits_above_log2; [lia|].
      apply Z.lt_le_trans with 8; [|lia]. apply Z.log2_lt_pow2; lia. }
    rewrite !Hhigh; auto.
Qed.

(** [SQZ_decode_header] has a result unless the magic number is there and
    the buffer ends before the color mode does, which then indexes the table
    of the planes with -1.  When it has one: where the cursor is, and what 1
    means. *)
Lemma decode_header_pos d0 c :
  bb_wf c →
  match SQZ_decode_header d0 c with
  | None => (SQZ_bit_buffer_read_bits c 8).2 = SQZ_HEADER_MAGIC
            ∧ 8 * bb_eob c < bb_pos c + 42
  | Some (d', c', ok) =>
      bb_wf c' ∧ bb_eob c' = bb_eob c
      ∧ (ok = 0 ∨ ok = 1)
      ∧ (ok = 1 →
         bb_pos c' = bb_pos c + 48
         ∧ bb_pos c + 48 < 8 * bb_eob c
         ∧ (SQZ_bit_buffer_read_bits c 8).2 = SQZ_HEADER_MAGIC)
      ∧ ((SQZ_bit_buffer_read_bits c 8).2 = SQZ_HEADER_MAGIC → bb_pos c + 42 <= 8 * bb_eob c)
  end.
Proof.
  intros Hwf. unfold SQZ_decode_header.
  destruct (read_bits_pos c 8 Hwf ltac:(lia)) as (Hwf1 & He1 & _ & Hp1).
  destruct (SQZ_bit_buffer_read_bits c 8) as [c1 magic]. cbn [fst snd] in *.
  destruct (Z.eqb_spec magic SQZ_HEADER_MAGIC) as [Hm|Hm]; cbn [negb].
  2:{ split; [auto|]. split; [auto|]. split; [auto|]. split; [discriminate|]. intros; lia. }
  destruct (read_bits_pos c1 16 Hwf1 ltac:(lia)) as (Hwf2 & He2 & _ & Hp2).
  destruct (SQZ_bit_buffer_read_bits c1 16) as [c2 w]. cbn [fst snd] in *.
  destruct (read_bits_pos c2 16 Hwf2 ltac:(lia)) as (Hwf3 & He3 & _ & Hp3).
  destruct (SQZ_bit_buffer_read_bits c2 16) as [c3 h]. cbn [fst snd] in *.
  destruct (read_bits_value_holds c3 2 Hwf3 ltac:(lia))
    as (c4 & mode & E4 & Hwf4 & He4 & _ & Hin4 & Hout4).
  assert (Hp4 : bb_pos c4 = Z.min (bb_pos c3 + 2) (8 * bb_eob c3)).
  { pose proof (read_bits_pos c3 2 Hwf3 ltac:(lia)) as (_ & _ & _ & H). rewrite E4 in H.
    exact H. }
  rewrite E4.
  destruct (read_bits_pos c4 3 Hwf4 ltac:(lia)) as (Hwf5 & He5 & _ & Hp5).
  destruct (SQZ_bit_buffer_read_bits c4 3) as [c5 levels]. cbn [fst snd] in *.
  destruct (read_bits_pos c5 2 Hwf5 ltac:(lia)) as (Hwf6 & He6 & _ & Hp6).
  destruct (SQZ_bit_buffer_read_bits c5 2) as [c6 order]. cbn [fst snd] in *.
  destruct (Z.le_gt_cases (bb_pos c3 + 2) (8 * bb_eob c3)) as [Hroom|Hshort].
  - destruct (Hin4 Hroom) as (_ & Hmode & _).
    rewrite planes_read by (unfold SQZ_COLOR_MODE_COUNT; lia). cbn [mbind option_bind].
    destruct (read_bit_pos c6 Hwf6) as (Hwf7 & He7 & _ & Hp7).
    destruct (SQZ_bit_buffer_read_bit c6) as [c7 sub]. cbn [fst snd] in *.
    split; [auto|]. split; [congruence|].
    split; [destruct (SQZ_bit_buffer_eob c7); auto|].
    split; [|intros; lia].
    unfold SQZ_bit_buffer_eob.
    destruct (Z.leb_spec (bb_eob c7) (bb_ptr c7)) as [Hge|Hlt]; simpl; [discriminate|].
    intros _.
    assert (bb_pos c7 < 8 * bb_eob c).
    { destruct Hwf7 as (? & ? & ? & ?). unfold bb_pos in *. lia. }
    split; [lia|]. split; [lia|exact Hm].
  - destruct (Hout4 Hshort) as (_ & ->).
    change (table_read SQZ_number_of_planes (-1)) with (@None Z). cbn [mbind option_bind].
    split; [exact Hm|lia].
Qed.

(** [SQZ_decode] returns [SQZ_INVALID_PARAMETER], and leaves the
    destination, its size and the descriptor as they are, when the
    destination is null with a size that is not 0, when the source is empty
    or has just the six bytes of a header, or when its first byte is not the
    magic number. *)
Theorem decode_rejects fuel source dest src_size dest_size descriptor :
  0 <= src_size <= Z.of_nat (length source) →
  (dest = None ∧ dest_size ≠ 0)
  ∨ src_size = 0 ∨ src_size = SQZ_HEADER_SIZE
  ∨ (0 <= load source 0 < 2 ^ 8 ∧ load source 0 ≠ SQZ_HEADER_MAGIC) →
  ∃ r, SQZ_decode fuel source dest src_size dest_size descriptor = Some r
       ∧ decoded_status r = SQZ_INVALID_PARAMETER
       ∧ decoded_dest r = dest ∧ decoded_dest_size r = dest_size
       ∧ decoded_descriptor r = descriptor.
Proof.
  intros Hsize Hcase. unfold SQZ_decode, SQZ_HEADER_SIZE in *.
  destruct ((if dest is None then true else false) && negb (dest_size =? 0)) eqn:Hnull.
  { eexists. split; [reflexivity|]. simpl. auto. }
  assert (Hwf : bb_wf (SQZ_bit_buffer_init source src_size)).
  { unfold bb_wf, SQZ_bit_buffer_init; simpl. lia. }
  assert (Hcase' : src_size = 0 ∨ src_size = 6
                   ∨ (0 < src_size ∧ 0 <= load source 0 < 2 ^ 8
                      ∧ load source 0 ≠ SQZ_HEADER_MAGIC)).
  { destruct Hcase as [[-> Hne]|[H0|[H6|[Hbyte Hbad]]]]; auto.
    - simpl in Hnull. destruct (Z.eqb_spec dest_size 0); [lia|discriminate].
    - destruct (Z.eq_dec src_size 0); [auto|]. right. right. split; [lia|auto]. }
  assert (Hmagic : (SQZ_bit_buffer_read_bits (SQZ_bit_buffer_init source src_size) 8).2
                   = SQZ_HEADER_MAGIC → src_size = 6).
  { intros Hm. destruct Hcase' as [H0|[H6|(Hpos & Hbyte & Hbad)]]; [|exact H6|].
    - exfalso.
      destruct (read_bits_value_holds _ 8 Hwf ltac:(lia)) as (c' & v & E & _ & _ & _ & _ & Hout).
      rewrite E in Hm. cbn [snd] in Hm.
      destruct Hout as [_ ->]; [|discriminate].
      unfold bb_pos; simpl. lia.
    - exfalso. rewrite read_byte in Hm; auto; simpl; auto; lia. }
  pose proof (decode_header_pos descriptor_zero _ Hwf) as Hpos.
  change (bb_pos (SQZ_bit_buffer_init source src_size)) with 0 in Hpos.
  change (bb_eob (SQZ_bit_buffer_init source src_size)) with src_size in Hpos.
  destruct (SQZ_decode_header descriptor_zero (SQZ_bit_buffer_init source src_size))
    as [[[image buffer] ok]|].
  2:{ destruct Hpos as [Hm Hshort]. specialize (Hmagic Hm). lia. }
  destruct Hpos as (_ & _ & Hok & Hone & _).
  assert (ok = 0) as ->.
  { destruct Hok as [Hok|Hok]; [exact Hok|]. exfalso.
    destruct (Hone Hok) as (_ & Hroom & Hm). specialize (Hmagic Hm). lia. }
  cbn [mbind option_bind]. simpl. eexists. split; [reflexivity|]. simpl. auto.
Qed.

Lemma decode_rejects_witness :
  ∃ r, SQZ_decode 0 [165; 0; 7; 0; 7; 0] (Some [0]) 6 1 None = Some r
       ∧ decoded_status r = SQZ_INVALID_PARAMETER
       ∧ decoded_dest r = Some [0] ∧ decoded_dest_size r = 1
       ∧ decoded_descriptor r = None.
Proof.
  apply (decode_rejects 0 [165; 0; 7; 0; 7; 0] (Some [0]) 6 1 None).
  - simpl. lia.
  - right. right. left. reflexivity.
Defined.

(** A source of one to five bytes that starts with the magic number ends
    before the color mode: [SQZ_decode_header] reads [SQZ_number_of_planes]
    at index -1, and neither it nor [SQZ_decode] has a defined result. *)
Lemma decode_header_short_holds fuel source dest src_size dest_size descriptor :
  1 <= src_size <= 5 → src_size <= Z.of_nat (length source) →
  load source 0 = SQZ_HEADER_MAGIC →
  ¬ (dest = None ∧ dest_size ≠ 0) →
  SQZ_decode_header descriptor_zero (SQZ_bit_buffer_init source src_size) = None
  ∧ SQZ_decode fuel source dest src_size dest_size descriptor = None.
Proof.
  intros Hsize Hlen Hbyte Hnull.
  assert (Hwf : bb_wf (SQZ_bit_buffer_init source src_size)).
  { unfold bb_wf, SQZ_bit_buffer_init; simpl. lia. }
  assert (Hm : (SQZ_bit_buffer_read_bits (SQZ_bit_buffer_init source src_size) 8).2
               = SQZ_HEADER_MAGIC).
  { rewrite read_byte; auto; simpl; try lia. rewrite Hbyte. unfold SQZ_HEADER_MAGIC. lia. }
  pose proof (decode_header_pos descriptor_zero _ Hwf) as Hpos.
  change (bb_pos (SQZ_bit_buffer_init source src_size)) with 0 in Hpos.
  change (bb_eob (SQZ_bit_buffer_init source src_size)) with src_size in Hpos.
  assert (Hh : SQZ_decode_header descriptor_zero (SQZ_bit_buffer_init source src_size) = None).
  { destruct (SQZ_decode_header _ _) as [[[image buffer] ok]|]; [|reflexivity].
    destruct Hpos as (_ & _ & _ & _ & Hroom). specialize (Hroom Hm). lia. }
  split; [exact Hh|].
  unfold SQZ_decode.
  assert ((if dest is None then true else false) && negb (dest_size =? 0) = false) as ->.
  { destruct dest; simpl; auto. destruct (Z.eqb_spec dest_size 0); simpl; auto.
    exfalso. apply Hnull. auto. }
  rewrite Hh. reflexivity.
Qed.

(** The header read of [SQZ_decode] leaves the table of the planes on a
    short source: for one to five bytes of which the first is the magic
    number, whatever the fuel, the model has no result for
    [SQZ_decode_header] and none for [SQZ_decode]. *)
Theorem decode_header_short fuel source dest src_size dest_size descriptor :
  1 <= src_size <= 5 → src_size <= Z.of_nat (length source) →
  load source 0 = SQZ_HEADER_MAGIC →
  ¬ (dest = None ∧ dest_size ≠ 0) →
  SQZ_decode_header descriptor_zero (SQZ_bit_buffer_init source src_size) = None
  ∧ SQZ_decode fuel source dest src_size dest_size descriptor = None.
Proof. apply decode_header_short_holds. Qed.

Lemma decode_header_short_witness :
  SQZ_decode_header descriptor_zero (SQZ_bit_buffer_init [165; 0; 7; 0; 7] 5) = None
  ∧ SQZ_decode 0 [165; 0; 7; 0; 7] None 5 0 None = None.
Proof.
  apply (decode_header_short 0 [165; 0; 7; 0; 7] None 5 0 None).
  - lia.
  - simpl. lia.
  - reflexivity.
  - intros [_ H]. apply H. reflexivity.
Defined.

(** ** Asking [SQZ_decode] for the size of the picture *)

Lemma decode_size_query_holds fuel source dest src_size dest_size descriptor d :
  descriptor_in_range d → dwt_levels d <= level_bound d →
  SQZ_HEADER_SIZE < src_size <= Z.of_nat (length source) →
  header_at source 0 d →
  ¬ (dest = None ∧ dest_size ≠ 0) →
  dest_size < width d * height d * load SQZ_number_of_planes (color_mode d) →
  ∃ r, SQZ_decode fuel source dest src_size dest_size descriptor = Some r
       ∧ decoded_status r = SQZ_BUFFER_TOO_SMALL
       ∧ decoded_dest r = dest
       ∧ decoded_dest_size r = width d * height d * load SQZ_number_of_planes (color_mode d)
       ∧ decoded_descriptor r = (if descriptor is Some _ then Some (header_descriptor d) else None)
       ∧ decoded_source r = source.
Proof.
  intros Hd Hlv Hsize Hh Hnull Hsmall. unfold SQZ_decode, SQZ_HEADER_SIZE in *.
  assert ((if dest is None then true else false) && negb (dest_size =? 0) = false) as ->.
  { destruct dest; simpl; auto. destruct (Z.eqb_spec dest_size 0); simpl; auto.
    exfalso. apply Hnull. auto. }
  assert (Hwf : bb_wf (SQZ_bit_buffer_init source src_size)).
  { unfold bb_wf, SQZ_bit_buffer_init; simpl. lia. }
  destruct (decode_header_fields d descriptor_zero _ Hd Hwf) as (c & E & Hwfc & Hec & Hdc & Hpc).
  { unfold bb_pos; simpl. lia. }
  { exact Hh. }
  rewrite E. cbn [mbind option_bind].
  assert (Heob : SQZ_bit_buffer_eob c = false).
  { unfold SQZ_bit_buffer_eob. unfold bb_pos in Hpc. simpl in Hec, Hpc. rewrite Hec.
    destruct Hwfc as (? & ? & ? & ?). unfold bb_pos in *.
    destruct (Z.leb_spec src_size (bb_ptr c)); [lia|reflexivity]. }
  rewrite Heob. cbn [negb of_bool truthy Z.eqb]. cbv iota.
  cbn [ctx_image context_zero].
  assert (Hdh : descriptor_in_range (header_descriptor d)) by exact Hd.
  destruct (validate_in_range_levels (header_descriptor d) Hdh Hlv) as [_ Hv].
  rewrite Hv.
  destruct Hd as (Hw & Hhh & Hm & _).
  unfold SQZ_MIN_DIMENSION, SQZ_MAX_DIMENSION, SQZ_COLOR_MODE_COUNT in *.
  assert (Hpl : 1 <= load SQZ_number_of_planes (color_mode d) <= 3).
  { assert (color_mode d = 0 ∨ color_mode d = 1 ∨ color_mode d = 2 ∨ color_mode d = 3)
      as [->|[->|[->| ->]]] by lia; vm_compute; split; discriminate. }
  cbn [width height num_planes header_descriptor].
  assert (Hwh : 0 <= width d * height d < 2 ^ 32) by nia.
  rewrite (usize_small (width d * height d)) by lia.
  rewrite usize_small by nia.
  destruct (Z.ltb_spec dest_size (width d * height d * load SQZ_number_of_planes (color_mode d)));
    [|lia].
  eexists. split; [reflexivity|]. simpl.
  split; [reflexivity|]. split; [reflexivity|]. split; [reflexivity|].
  split; [destruct descriptor; reflexivity|]. exact Hdc.
Qed.

(** With a destination size below the size of the picture, and so with a
    null destination and size 0, [SQZ_decode] of a source that starts with
    the header of a valid descriptor and has a byte more returns
    [SQZ_BUFFER_TOO_SMALL], sets the size to width times height times planes
    and fills in the descriptor; the destination is not touched and the
    fuel is not used. *)
Theorem decode_size_query fuel source dest src_size dest_size descriptor d :
  descriptor_in_range d → dwt_levels d <= level_bound d →
  SQZ_HEADER_SIZE < src_size <= Z.of_nat (length source) →
  header_at source 0 d →
  ¬ (dest = None ∧ dest_size ≠ 0) →
  dest_size < width d * height d * load SQZ_number_of_planes (color_mode d) →
  ∃ r, SQZ_decode fuel source dest src_size dest_size descriptor = Some r
       ∧ decoded_status r = SQZ_BUFFER_TOO_SMALL
       ∧ decoded_dest r = dest
       ∧ decoded_dest_size r = width d * height d * load SQZ_number_of_planes (color_mode d)
       ∧ decoded_descriptor r = (if descriptor is Some _ then Some (header_descriptor d) else None)
       ∧ decoded_source r = source.
Proof. apply decode_size_query_holds. Qed.

Lemma field_at_check l p w v :
  all_from (Z.to_nat w) 0 (λ j, Bool.eqb (bit_at l (p + w - 1 - j)) (Z.testbit v j)) = true →
  field_at l p w v.
Proof.
  intros H j Hj. apply Bool.eqb_prop.
  apply (all_from_spec _ _ _ H j). lia.
Qed.

Lemma decode_size_query_witness :
  let d := mk_descriptor SQZ_COLOR_MODE_YCOCG_R SQZ_SCAN_ORDER_SNAKE 16 8 1 3 0 in
  ∃ r, SQZ_decode 0 [165; 0; 15; 0; 7; 64 + 2; 0] None 7 0 (Some descriptor_zero) = Some r
       ∧ decoded_status r = SQZ_BUFFER_TOO_SMALL
       ∧ decoded_dest r = None
       ∧ decoded_dest_size r = width d * height d * load SQZ_number_of_planes (color_mode d)
       ∧ decoded_descriptor r = Some (header_descriptor d)
       ∧ decoded_source r = [165; 0; 15; 0; 7; 64 + 2; 0].
Proof.
  apply (decode_size_query 0 [165; 0; 15; 0; 7; 64 + 2; 0] None 7 0 (Some descriptor_zero)
           (mk_descriptor SQZ_COLOR_MODE_YCOCG_R SQZ_SCAN_ORDER_SNAKE 16 8 1 3 0)).
  - unfold descriptor_in_range. vm_compute. intuition discriminate.
  - vm_compute. discriminate.
  - vm_compute. intuition discriminate.
  - unfold header_at. repeat split; try (apply field_at_check; vm_compute; reflexivity).
  - intros [_ H]. apply H. reflexivity.
  - vm_compute. reflexivity.
Defined.

(** ** Coefficients *)

(** [SQZ_dwt_get_max] returns the largest coefficient of the subband: a
    bound of all of them that one of them attains. *)
Theorem dwt_get_max_is_largest data band :
  1 <= band_width band → 1 <= band_height band →
  (∀ x y, 0 <= x < band_width band → 0 <= y < band_height band →
          coefficient data band x y <= SQZ_dwt_get_max data band)
  ∧ ∃ x y, 0 <= x < band_width band ∧ 0 <= y < band_height band
           ∧ coefficient data band x y = SQZ_dwt_get_max data band.
Proof. intros Hw Hh. apply SQZ_dwt_get_max_spec; assumption. Qed.

Lemma dwt_get_max_is_largest_witness :
  let band := mk_band (mk_cache 0 0) [] [] [] 1 2 2 3 0 0 0 in
  let data := [9; 1; 5; 9; 2; 7; 9; 9] in
  (∀ x y, 0 <= x < band_width band → 0 <= y < band_height band →
          coefficient data band x y <= SQZ_dwt_get_max data band)
  ∧ ∃ x y, 0 <= x < band_width band ∧ 0 <= y < band_height band
           ∧ coefficient data band x y = SQZ_dwt_get_max data band.
Proof.
  apply (dwt_get_max_is_largest [9; 1; 5; 9; 2; 7; 9; 9]
           (mk_band (mk_cache 0 0) [] [] [] 1 2 2 3 0 0 0)); simpl; lia.
Defined.

(** Lists that agree at every index are equal. *)
Lemma list_load_ext (l k : list Z) :
  length l = length k → (∀ j, 0 <= j < Z.of_nat (length l) → load l j = load k j) → l = k.
Proof.
  intros Hlen H. apply (list_eq_same_length l k (length l)); auto.
  intros i x y Hi Hx Hy.
  specialize (H (Z.of_nat i) ltac:(lia)). unfold load in H. rewrite Nat2Z.id in H.
  rewrite (list_lookup_total_correct _ _ _ Hx), (list_lookup_total_correct _ _ _ Hy) in H.
  exact H.
Qed.

(** A loop that replaces element [i] by a function of [i] and of the
    element. *)
Lemma for_range_pointwise (g : Z → Z → Z) n data :
  0 <= n <= Z.of_nat (length data) →
  length (for_range 0 n (λ i d, store d i (g i (load d i))) data) = length data
  ∧ ∀ j, 0 <= j →
         load (for_range 0 n (λ i d, store d i (g i (load d i))) data) j
         = if j <? n then g j (load data j) else load data j.
Proof.
  intros Hn.
  apply (for_range_ind
           (λ i d, length d = length data
                   ∧ ∀ j, 0 <= j → load d j = if j <? i then g j (load data j) else load data j)).
  - lia.
  - split; [reflexivity|]. intros j Hj. destruct (Z.ltb_spec j 0); [lia|reflexivity].
  - intros i d Hi [Hlen Hd]. split; [rewrite length_store; exact Hlen|].
    intros j Hj. destruct (Z.eq_dec j i) as [->|Hne].
    + rewrite load_store_eq by lia. rewrite Hd by lia.
      destruct (Z.ltb_spec i i); [lia|]. destruct (Z.ltb_spec i (i + 1)); [reflexivity|lia].
    + rewrite load_store_ne by lia. rewrite Hd by lia.
      destruct (Z.ltb_spec j i), (Z.ltb_spec j (i + 1)); try lia; reflexivity.
Qed.

Lemma lor_double_1 a : Z.lor (2 * a) 1 = 2 * a + 1.
Proof.
  pose proof (lor_shift_add a 1 1 ltac:(lia) ltac:(lia)) as H.
  rewrite Z.shiftl_mul_pow2 in H by lia. change (2 ^ 1) with 2 in H.
  rewrite (Z.mul_comm 2 a). exact H.
Qed.

(** The sign-magnitude form of a coefficient, and the way back. *)
Lemma sign_magnitude_value v :
  - 2 ^ 14 < v < 2 ^ 14 →
  s16 (if v <? 0 then Z.lor (-2 * v) 1 else 2 * v) = sign_magnitude v
  ∧ 0 <= sign_magnitude v < 2 ^ 15
  ∧ s16 (if truthy (Z.land (sign_magnitude v) 1)
         then - Z.shiftr (sign_magnitude v) 1 else Z.shiftr (sign_magnitude v) 1) = v.
Proof.
  intros Hv. unfold sign_magnitude.
  replace (-2 * v) with (2 * (- v)) by lia. rewrite lor_double_1.
  destruct (Z.ltb_spec v 0) as [Hneg|Hpos].
  - rewrite s16_small by lia. split; [lia|]. split; [lia|].
    rewrite land_1, Z.shiftr_div_pow2 by lia. change (2 ^ 1) with 2.
    replace (2 * Z.abs v + 1) with (1 + Z.abs v * 2) by lia.
    rewrite Z.div_add by lia. change (1 / 2) with 0.
    replace (1 + Z.abs v * 2) with (2 * Z.abs v + 1) by lia.
    rewrite Z.testbit_odd_0. simpl. rewrite s16_small by lia. lia.
  - rewrite s16_small by lia. split; [lia|]. split; [lia|].
    rewrite land_1, Z.shiftr_div_pow2 by lia. change (2 ^ 1) with 2.
    replace (2 * Z.abs v + 0) with (Z.abs v * 2) by lia.
    rewrite Z.div_mul by lia.
    replace (Z.abs v * 2) with (2 * Z.abs v) by lia.
    rewrite Z.testbit_even_0. simpl. rewrite s16_small by lia. lia.
Qed.

(** [SQZ_dwt_convert_to_sign_magnitude] turns every coefficient [v] of
    magnitude below [2^14] into [2 |v|], plus 1 when [v] is negative, and
    [SQZ_dwt_convert_from_sign_magnitude] gives the coefficients back. *)
Theorem sign_magnitude_roundtrip ctx :
  let n := usize (usize (width (ctx_image ctx) * height (ctx_image ctx))
                  * num_planes (ctx_image ctx)) in
  n <= Z.of_nat (length (ctx_data ctx)) →
  (∀ j, 0 <= j < n → - 2 ^ 14 < load (ctx_data ctx) j < 2 ^ 14) →
  (∀ j, 0 <= j < n →
        load (ctx_data (SQZ_dwt_convert_to_sign_magnitude ctx)) j
        = sign_magnitude (load (ctx_data ctx) j))
  ∧ SQZ_dwt_convert_from_sign_magnitude (SQZ_dwt_convert_to_sign_magnitude ctx) = ctx.
Proof.
  intros n Hn Hrange.
  assert (Hn0 : 0 <= n) by (unfold n, usize; apply Z.mod_pos_bound; lia).
  unfold SQZ_dwt_convert_to_sign_magnitude, SQZ_dwt_convert_from_sign_magnitude.
  cbn [ctx_image ctx_set_data ctx_data]. fold n.
  destruct (for_range_pointwise
              (λ _ v, s16 (if v <? 0 then Z.lor (-2 * v) 1 else 2 * v)) n (ctx_data ctx))
    as [Hlen1 Hto]; [lia|].
  set (data1 := for_range 0 n _ (ctx_data ctx)) in *.
  destruct (for_range_pointwise
              (λ _ v, s16 (if truthy (Z.land v 1) then - Z.shiftr v 1 else Z.shiftr v 1))
              n data1)
    as [Hlen2 Hfrom]; [lia|].
  set (data2 := for_range 0 n _ data1) in *.
  assert (Hsm : ∀ j, 0 <= j < n → load data1 j = sign_magnitude (load (ctx_data ctx) j)).
  { intros j Hj. rewrite Hto by lia. destruct (Z.ltb_spec j n); [|lia].
    apply sign_magnitude_value. apply Hrange. lia. }
  split; [exact Hsm|].
  assert (data2 = ctx_data ctx) as ->; [|destruct ctx; reflexivity].
  apply list_load_ext; [lia|]. intros j Hj. rewrite Hfrom by lia.
  destruct (Z.ltb_spec j n) as [Hlt|Hge].
  - rewrite Hsm by lia. apply sign_magnitude_value. apply Hrange. lia.
  - rewrite Hto by lia. destruct (Z.ltb_spec j n); [lia|reflexivity].
Qed.

Lemma sign_magnitude_roundtrip_witness :
  let ctx := mk_context [] [3; -7; 0; -1] (SQZ_bit_buffer_init [] 0)
                        (mk_descriptor 0 0 2 2 1 1 0) in
  (∀ j, 0 <= j < 4 →
        load (ctx_data (SQZ_dwt_convert_to_sign_magnitude ctx)) j
        = sign_magnitude (load (ctx_data ctx) j))
  ∧ SQZ_dwt_convert_from_sign_magnitude (SQZ_dwt_convert_to_sign_magnitude ctx) = ctx.
Proof.
  apply (sign_magnitude_roundtrip
           (mk_context [] [3; -7; 0; -1] (SQZ_bit_buffer_init [] 0)
                       (mk_descriptor 0 0 2 2 1 1 0))).
  - vm_compute. discriminate.
  - intros j Hj. change (0 <= j < 4) in Hj.
    assert (j = 0 ∨ j = 1 ∨ j = 2 ∨ j = 3) as [->|[->|[->| ->]]] by lia; vm_compute;
      split; reflexivity.
Defined.

(** ** Color transforms *)

Lemma s16_byte v : 0 <= v <= 255 → s16 v = v.
Proof. intros. apply s16_small. lia. Qed.

Lemma clip_byte v : 0 <= v <= 255 → SQZ_COLOR_CLIP v = v.
Proof.
  intros Hv. unfold SQZ_COLOR_CLIP.
  destruct (Z.ltb_spec v 0); [lia|]. destruct (Z.ltb_spec 255 v); [lia|].
  apply u8_small. lia.
Qed.

Lemma shiftr_1 x : Z.shiftr x 1 = x / 2.
Proof. rewrite Z.shiftr_div_pow2 by lia. reflexivity. Qed.

(** The grayscale transform subtracts 128 on the way in and adds it on the
    way out: a picture of bytes comes back as it was, and what lies after it
    in the destination is left alone. *)
Theorem grayscale_roundtrip ctx pixels out :
  color_mode (ctx_image ctx) = SQZ_COLOR_MODE_GRAYSCALE →
  let n := usize (width (ctx_image ctx) * height (ctx_image ctx)) in
  n <= Z.of_nat (length (ctx_data ctx)) → n <= Z.of_nat (length out) →
  (∀ j, 0 <= j < n → 0 <= load pixels j <= 255) →
  let ctx1 := (SQZ_color_process ctx pixels true).1 in
  let out1 := (SQZ_color_process ctx1 out false).2 in
  (SQZ_color_process ctx pixels true).2 = pixels
  ∧ length out1 = length out
  ∧ (∀ j, 0 <= j < n → load (ctx_data ctx1) j = load pixels j - 128 ∧ load out1 j = load pixels j)
  ∧ (∀ j, n <= j → load out1 j = load out j).
Proof.
  intros Hmode n Hdata Hout Hbytes. cbv zeta.
  assert (Hn0 : 0 <= n) by (unfold n, usize; apply Z.mod_pos_bound; lia).
  pose proof (for_range_pointwise
                (λ i _, s16 (s16 (load pixels i) - SQZ_COLOR_8BPC_LEVEL_OFFSET)) n (ctx_data ctx)
                ltac:(lia)) as [Hlen1 Hin].
  cbv beta in Hlen1, Hin.
  set (data1 := for_range 0 n _ (ctx_data ctx)) in Hlen1, Hin.
  assert (Hread : SQZ_color_process ctx pixels true = (ctx_set_data ctx data1, pixels)).
  { unfold SQZ_color_process. rewrite Hmode. reflexivity. }
  rewrite Hread. cbn [fst snd].
  pose proof (for_range_pointwise
                (λ i _, if s16 (load data1 i + SQZ_COLOR_8BPC_LEVEL_OFFSET) <? 0 then 0
                        else if 255 <? s16 (load data1 i + SQZ_COLOR_8BPC_LEVEL_OFFSET) then 255
                             else u8 (s16 (load data1 i + SQZ_COLOR_8BPC_LEVEL_OFFSET))) n out
                ltac:(lia)) as [Hlen2 Hback].
  cbv beta in Hlen2, Hback.
  set (out1 := for_range 0 n _ out) in Hlen2, Hback.
  assert (Hwrite : SQZ_color_process (ctx_set_data ctx data1) out false
                   = (ctx_set_data ctx data1, out1)).
  { unfold SQZ_color_process. cbn [ctx_image ctx_set_data]. rewrite Hmode. reflexivity. }
  rewrite Hwrite. cbn [fst snd ctx_data ctx_set_data].
  assert (Hd1 : ∀ j, 0 <= j < n → load data1 j = load pixels j - 128).
  { intros j Hj. rewrite Hin by lia. destruct (Z.ltb_spec j n); [|lia].
    pose proof (Hbytes j Hj). unfold SQZ_COLOR_8BPC_LEVEL_OFFSET.
    rewrite (s16_byte (load pixels j)) by lia. apply s16_small. lia. }
  split; [reflexivity|]. split; [exact Hlen2|]. split.
  - intros j Hj. split; [apply Hd1; exact Hj|].
    rewrite Hback by lia. destruct (Z.ltb_spec j n); [|lia].
    pose proof (Hbytes j Hj). rewrite Hd1 by lia. unfold SQZ_COLOR_8BPC_LEVEL_OFFSET.
    replace (load pixels j - 128 + 128) with (load pixels j) by lia.
    rewrite s16_byte by lia. apply (clip_byte (load pixels j)). lia.
  - intros j Hj. rewrite Hback by lia. destruct (Z.ltb_spec j n); [lia|reflexivity].
Qed.

Lemma grayscale_roundtrip_witness :
  let ctx := mk_context [] [0; 0; 0; 0] (SQZ_bit_buffer_init [] 0)
                        (mk_descriptor SQZ_COLOR_MODE_GRAYSCALE 0 2 2 1 1 0) in
  let pixels := [0; 255; 17; 128] in
  let out := [1; 1; 1; 1; 1] in
  let ctx1 := (SQZ_color_process ctx pixels true).1 in
  let out1 := (SQZ_color_process ctx1 out false).2 in
  (SQZ_color_process ctx pixels true).2 = pixels
  ∧ length out1 = length out
  ∧ (∀ j, 0 <= j < 4 → load (ctx_data ctx1) j = load pixels j - 128 ∧ load out1 j = load pixels j)
  ∧ (∀ j, 4 <= j → load out1 j = load out j).
Proof.
  apply (grayscale_roundtrip
           (mk_context [] [0; 0; 0; 0] (SQZ_bit_buffer_init [] 0)
                       (mk_descriptor SQZ_COLOR_MODE_GRAYSCALE 0 2 2 1 1 0))
           [0; 255; 17; 128] [1; 1; 1; 1; 1]).
  - reflexivity.
  - vm_compute. discriminate.
  - vm_compute. discriminate.
  - intros j Hj. change (0 <= j < 4) in Hj.
    assert (j = 0 ∨ j = 1 ∨ j = 2 ∨ j = 3) as [->|[->|[->| ->]]] by lia; vm_compute;
      split; discriminate.
Defined.

(** One pixel through YCoCg-R and back. *)
Lemma ycocg_r_pixel R G B :
  0 <= R <= 255 → 0 <= G <= 255 → 0 <= B <= 255 →
  let t := s16 (Z.shiftr (R + B) 1) in
  let Y := s16 (Z.shiftr (t + G) 1 - SQZ_COLOR_8BPC_LEVEL_OFFSET) in
  let Co := s16 (R - B) in
  let Cg := s16 (G - t) in
  let Y_ := s16 (Y + SQZ_COLOR_8BPC_LEVEL_OFFSET) in
  let B' := s16 (Y_ + Z.shiftr (1 - Cg) 1 - Z.shiftr Co 1) in
  let G' := s16 (Y_ - Z.shiftr (- Cg) 1) in
  let R' := s16 (Co + B') in
  (-128 <= Y <= 127 ∧ -255 <= Co <= 255 ∧ -255 <= Cg <= 255)
  ∧ SQZ_COLOR_CLIP R' = R ∧ SQZ_COLOR_CLIP G' = G ∧ SQZ_COLOR_CLIP B' = B.
Proof.
  intros HR HG HB. cbv zeta. unfold SQZ_COLOR_8BPC_LEVEL_OFFSET.
  rewrite !shiftr_1.
  assert (Ht : 0 <= (R + B) / 2 <= 255) by (Z.div_mod_to_equations; lia).
  rewrite (s16_small ((R + B) / 2)) by lia.
  set (t := (R + B) / 2) in *.
  assert (Hy : 0 <= (t + G) / 2 <= 255) by (Z.div_mod_to_equations; lia).
  rewrite (s16_small ((t + G) / 2 - 128)) by lia.
  rewrite (s16_small (R - B)) by lia.
  rewrite (s16_small (G - t)) by lia.
  replace ((t + G) / 2 - 128 + 128) with ((t + G) / 2) by lia.
  rewrite (s16_small ((t + G) / 2)) by lia.
  assert (HB' : (t + G) / 2 + (1 - (G - t)) / 2 - (R - B) / 2 = B).
  { unfold t. Z.div_mod_to_equations. lia. }
  assert (HG' : (t + G) / 2 - - (G - t) / 2 = G).
  { Z.div_mod_to_equations. lia. }
  rewrite HB', HG'. rewrite (s16_small B), (s16_small G) by lia.
  replace (R - B + B) with R by lia. rewrite (s16_small R) by lia.
  rewrite !clip_byte by lia. repeat split; lia.
Qed.

(** The YCoCg-R transform of [SQZ_color_process] is lossless: the three
    planes it makes of a picture of RGB bytes give the same bytes back, and
    what lies after them in the destination is left alone.  The planes are
    three parts of the coefficient array that do not overlap, as
    [SQZ_common_init_context] lays them out. *)
Theorem ycocg_r_roundtrip ctx pixels out :
  color_mode (ctx_image ctx) = SQZ_COLOR_MODE_YCOCG_R →
  let n := usize (width (ctx_image ctx) * height (ctx_image ctx)) in
  0 <= get_plane_data ctx 0 →
  get_plane_data ctx 0 + n <= get_plane_data ctx 1 →
  get_plane_data ctx 1 + n <= get_plane_data ctx 2 →
  get_plane_data ctx 2 + n <= Z.of_nat (length (ctx_data ctx)) →
  3 * n <= Z.of_nat (length out) →
  (∀ j, 0 <= j < 3 * n → 0 <= load pixels j <= 255) →
  let ctx1 := (SQZ_color_process ctx pixels true).1 in
  let out1 := (SQZ_color_process ctx1 out false).2 in
  (SQZ_color_process ctx pixels true).2 = pixels
  ∧ length out1 = length out
  ∧ (∀ j, 0 <= j < 3 * n → load out1 j = load pixels j)
  ∧ (∀ j, 3 * n <= j → load out1 j = load out j).
Proof.
  intros Hmode n HY HCo HCg Hdata Hout Hbytes. cbv zeta.
  assert (Hn0 : 0 <= n) by (unfold n, usize; apply Z.mod_pos_bound; lia).
  set (Y := get_plane_data ctx 0) in *.
  set (Co := get_plane_data ctx 1) in *.
  set (Cg := get_plane_data ctx 2) in *.
  set (body := λ (i : Z) (data : list Z),
         let R := s16 (load pixels (3 * i)) in
         let G := s16 (load pixels (3 * i + 1)) in
         let B := s16 (load pixels (3 * i + 2)) in
         let t := s16 (Z.shiftr (R + B) 1) in
         let data := store data (Y + i)
                       (s16 (Z.shiftr (t + G) 1 - SQZ_COLOR_8BPC_LEVEL_OFFSET)) in
         let data := store data (Co + i) (s16 (R - B)) in
         store data (Cg + i) (s16 (G - t))).
  set (data1 := for_range 0 n body (ctx_data ctx)).
  assert (Hread : SQZ_color_process ctx pixels true = (ctx_set_data ctx data1, pixels)).
  { unfold SQZ_color_process. rewrite Hmode. reflexivity. }
  rewrite Hread. cbn [fst snd].
  set (back := λ (i : Z) (ptr : list Z),
         let Y_ := s16 (load data1 (Y + i) + SQZ_COLOR_8BPC_LEVEL_OFFSET) in
         let Co_ := load data1 (Co + i) in
         let Cg_ := load data1 (Cg + i) in
         let B := s16 (Y_ + Z.shiftr (1 - Cg_) 1 - Z.shiftr Co_ 1) in
         let G := s16 (Y_ - Z.shiftr (- Cg_) 1) in
         let R := s16 (Co_ + B) in
         let ptr := store ptr (3 * i) (SQZ_COLOR_CLIP R) in
         let ptr := store ptr (3 * i + 1) (SQZ_COLOR_CLIP G) in
         store ptr (3 * i + 2) (SQZ_COLOR_CLIP B)).
  assert (Hwrite : SQZ_color_process (ctx_set_data ctx data1) out false
                   = (ctx_set_data ctx data1, for_range 0 n back out)).
  { unfold SQZ_color_process. cbn [ctx_image ctx_set_data]. rewrite Hmode. reflexivity. }
  rewrite Hwrite. cbn [fst snd].
  set (pR := λ k, load pixels (3 * k)).
  set (pG := λ k, load pixels (3 * k + 1)).
  set (pB := λ k, load pixels (3 * k + 2)).
  assert (Hin : length data1 = length (ctx_data ctx)
                ∧ ∀ k, 0 <= k < n →
                   load data1 (Y + k)
                   = s16 (Z.shiftr (s16 (Z.shiftr (pR k + pB k) 1) + pG k) 1
                          - SQZ_COLOR_8BPC_LEVEL_OFFSET)
                   ∧ load data1 (Co + k) = s16 (pR k - pB k)
                   ∧ load data1 (Cg + k) = s16 (pG k - s16 (Z.shiftr (pR k + pB k) 1))).
  { unfold data1.
    apply (for_range_ind
             (λ i d, length d = length (ctx_data ctx)
                     ∧ ∀ k, 0 <= k < i →
                        load d (Y + k)
                        = s16 (Z.shiftr (s16 (Z.shiftr (pR k + pB k) 1) + pG k) 1
                               - SQZ_COLOR_8BPC_LEVEL_OFFSET)
                        ∧ load d (Co + k) = s16 (pR k - pB k)
                        ∧ load d (Cg + k) = s16 (pG k - s16 (Z.shiftr (pR k + pB k) 1)))).
    - lia.
    - split; [reflexivity|]. intros k Hk. lia.
    - intros i d Hi [Hlen Hd]. unfold body. cbv zeta.
      split; [rewrite !length_store; exact Hlen|].
      intros k Hk.
      rewrite (s16_byte (load pixels (3 * i))) by (apply Hbytes; lia).
      rewrite (s16_byte (load pixels (3 * i + 1))) by (apply Hbytes; lia).
      rewrite (s16_byte (load pixels (3 * i + 2))) by (apply Hbytes; lia).
      destruct (Z.eq_dec k i) as [->|Hne].
      + rewrite (load_store_ne _ (Cg + i) (Y + i)) by lia.
        rewrite (load_store_ne _ (Co + i) (Y + i)) by lia.
        rewrite (load_store_eq _ (Y + i)) by lia.
        rewrite (load_store_ne _ (Cg + i) (Co + i)) by lia.
        rewrite (load_store_eq _ (Co + i)) by (rewrite length_store; lia).
        rewrite (load_store_eq _ (Cg + i)) by (rewrite !length_store; lia).
        unfold pR, pG, pB. auto.
      + destruct (Hd k ltac:(lia)) as (H1 & H2 & H3).
        rewrite !(load_store_ne _ (Cg + i)) by lia.
        rewrite !(load_store_ne _ (Co + i)) by lia.
        rewrite !(load_store_ne _ (Y + i)) by lia.
        auto. }
  destruct Hin as [Hlen1 Hin].
  assert (Hback : length (for_range 0 n back out) = length out
                  ∧ ∀ j, 0 <= j →
                     load (for_range 0 n back out) j
                     = if j <? 3 * n then load pixels j else load out j).
  { apply (for_range_ind
             (λ i o, length o = length out
                     ∧ ∀ j, 0 <= j →
                        load o j = if j <? 3 * i then load pixels j else load out j)).
    - lia.
    - split; [reflexivity|]. intros j Hj. destruct (Z.ltb_spec j (3 * 0)); [lia|reflexivity].
    - intros i o Hi [Hlen Ho]. unfold back. cbv zeta.
      destruct (Hin i Hi) as (HYi & HCoi & HCgi).
      rewrite HYi, HCoi, HCgi.
      destruct (ycocg_r_pixel (pR i) (pG i) (pB i)) as (_ & HR' & HG' & HB');
        [apply Hbytes; lia | apply Hbytes; lia | apply Hbytes; lia |].
      cbv zeta in HR', HG', HB'. rewrite HR', HG', HB'.
      split; [rewrite !length_store; exact Hlen|].
      intros j Hj. unfold pR, pG, pB.
      destruct (Z.eq_dec j (3 * i)) as [->|H0].
      { rewrite !load_store_ne by lia. rewrite load_store_eq by lia.
        destruct (Z.ltb_spec (3 * i) (3 * (i + 1))); [reflexivity|lia]. }
      destruct (Z.eq_dec j (3 * i + 1)) as [->|H1].
      { rewrite load_store_ne by lia. rewrite load_store_eq by (rewrite length_store; lia).
        destruct (Z.ltb_spec (3 * i + 1) (3 * (i + 1))); [reflexivity|lia]. }
      destruct (Z.eq_dec j (3 * i + 2)) as [->|H2].
      { rewrite load_store_eq by (rewrite !length_store; lia).
        destruct (Z.ltb_spec (3 * i + 2) (3 * (i + 1))); [reflexivity|lia]. }
      rewrite !load_store_ne by lia. rewrite Ho by lia.
      destruct (Z.ltb_spec j (3 * i)), (Z.ltb_spec j (3 * (i + 1))); try lia; reflexivity. }
  destruct Hback as [Hlen2 Hback].
  split; [reflexivity|]. split; [exact Hlen2|]. split.
  - intros j Hj. rewrite Hback by lia. destruct (Z.ltb_spec j (3 * n)); [reflexivity|lia].
  - intros j Hj. rewrite Hback by lia. destruct (Z.ltb_spec j (3 * n)); [lia|reflexivity].
Qed.

Lemma ycocg_r_roundtrip_witness :
  let planes := [mk_plane [] 0; mk_plane [] 2; mk_plane [] 4] in
  let ctx := mk_context planes (replicate 6 0) (SQZ_bit_buffer_init [] 0)
                        (mk_descriptor SQZ_COLOR_MODE_YCOCG_R 0 2 1 1 3 0) in
  let pixels := [255; 0; 17; 9; 200; 31] in
  let out := replicate 7 1 in
  let ctx1 := (SQZ_color_process ctx pixels true).1 in
  let out1 := (SQZ_color_process ctx1 out false).2 in
  (SQZ_color_process ctx pixels true).2 = pixels
  ∧ length out1 = length out
  ∧ (∀ j, 0 <= j < 3 * 2 → load out1 j = load pixels j)
  ∧ (∀ j, 3 * 2 <= j → load out1 j = load out j).
Proof.
  apply (ycocg_r_roundtrip
           (mk_context [mk_plane [] 0; mk_plane [] 2; mk_plane [] 4] (replicate 6 0)
                       (SQZ_bit_buffer_init [] 0)
                       (mk_descriptor SQZ_COLOR_MODE_YCOCG_R 0 2 1 1 3 0))
           [255; 0; 17; 9; 200; 31] (replicate 7 1)).
  - reflexivity.
  - vm_compute. discriminate.
  - vm_compute. discriminate.
  - vm_compute. discriminate.
  - vm_compute. discriminate.
  - vm_compute. discriminate.
  - intros j Hj. change (0 <= j < 6) in Hj.
    assert (j = 0 ∨ j = 1 ∨ j = 2 ∨ j = 3 ∨ j = 4 ∨ j = 5) as [->|[->|[->|[->|[->| ->]]]]]
      by lia; vm_compute; split; discriminate.
Defined.

(** ** Gamma tables *)

Lemma gamma_tables_check :
  all_from 256 0
    (λ i, let back := SQZ_linear_i32_to_sRGB_u8 (load SQZ_sRGB_to_linear i) in
          (i - 1 <=? back) && (back <=? i)) = true.
Proof. vm_compute. reflexivity. Qed.

(** The table from sRGB to linear light and the interpolated way back undo
    each other up to one level: every byte comes back as itself or as the
    byte below. *)
Theorem gamma_tables_invert i :
  0 <= i <= 255 →
  i - 1 <= SQZ_linear_i32_to_sRGB_u8 (load SQZ_sRGB_to_linear i) <= i.
Proof.
  intros Hi.
  pose proof (all_from_spec _ _ _ gamma_tables_check i ltac:(lia)) as H.
  cbv zeta in H. apply andb_true_iff in H as [H1 H2].
  apply Z.leb_le in H1, H2. lia.
Qed.

Lemma gamma_tables_invert_witness :
  200 - 1 <= SQZ_linear_i32_to_sRGB_u8 (load SQZ_sRGB_to_linear 200) <= 200.
Proof. apply (gamma_tables_invert 200). lia. Defined.

(** ** The encoder stays inside its budget *)

Lemma extends_refl b : bb_wf b → bb_extends b b.
Proof. intros Hwf. unfold bb_extends. repeat split; auto; try apply Hwf; lia. Qed.

Lemma extends_trans a b c : bb_extends a b → bb_extends b c → bb_extends a c.
Proof.
  intros (Hwb & Heb & Hlb & Hpb & Hqb & Hib) (Hwc & Hec & Hlc & Hpc & Hqc & Hic).
  unfold bb_extends. split; [auto|]. split; [congruence|]. split; [congruence|].
  split; [lia|]. split.
  - intros q Hq. rewrite Hqc by lia. apply Hqb. lia.
  - intros i Hi. rewrite Hic by lia. apply Hib. lia.
Qed.

Lemma extends_wf a b : bb_extends a b → bb_wf b.
Proof. intros (H & _). exact H. Qed.

(** The bytes before the cursor and from the end of the buffer on are out
    of the reach of [SQZ_bit_buffer_write_bits]. *)
Lemma write_bits_loop_bytes n : ∀ b bits width i,
  0 <= bb_ptr b → 0 <= i < bb_ptr b ∨ bb_eob b <= i →
  load (bb_data (write_bits_loop n b bits width).1) i = load (bb_data b) i.
Proof.
  induction n as [|n IH]; intros b bits width i Hp Hi; [reflexivity|].
  cbn [write_bits_loop]. unfold SQZ_bit_buffer_eob.
  destruct (Z.leb_spec (bb_eob b) (bb_ptr b)) as [He|He]; [reflexivity|].
  destruct (_ <=? _).
  - match goal with |- context [bb_or b ?x] => set (v := x) end.
    assert (Hor : load (bb_data (bb_or b v)) i = load (bb_data b) i).
    { unfold bb_or; simpl. apply load_store_ne; lia. }
    destruct (_ <? _); simpl; exact Hor.
  - rewrite IH.
    + unfold bb_next_byte, bb_or; simpl. apply load_store_ne; lia.
    + unfold bb_next_byte, bb_or; simpl. lia.
    + unfold bb_next_byte, bb_or; simpl. lia.
Qed.

Lemma write_bits_extends b bits width :
  bb_wf b → 0 <= width < 2 ^ 32 → bb_extends b (SQZ_bit_buffer_write_bits b bits width).1.
Proof.
  intros Hwf Hw. pose proof Hwf as (Hp & Hi & Hor & Hlen).
  pose proof (write_bits_loop_bytes (S (Z.to_nat width)) b bits width) as Hbytes.
  fold (SQZ_bit_buffer_write_bits b bits width) in Hbytes.
  destruct (write_bits_spec b bits width Hwf Hw)
    as (b' & ok & E & Hwf' & He' & Hl' & Hp' & _ & _ & Hb').
  rewrite E in *. cbn [fst] in *.
  unfold bb_extends. split; [auto|]. split; [auto|]. split; [auto|].
  split; [pose proof Hwf' as (? & ? & ? & ?); unfold bb_pos in *; lia|]. split.
  - intros q Hq. rewrite Hb' by lia. unfold written.
    destruct (Z.leb_spec (bb_pos b) q); [lia|]. simpl. apply orb_false_r.
  - intros i Hi'. apply Hbytes; lia.
Qed.

Lemma write_bit_extends b bit :
  bb_wf b → (bit = 0 ∨ bit = 1) → bb_extends b (SQZ_bit_buffer_write_bit b bit).1.
Proof.
  intros Hwf Hbit. pose proof Hwf as (Hp & Hi & Hor & Hlen).
  destruct (Z.lt_ge_cases (bb_ptr b) (bb_eob b)) as [Hlt|Hge].
  - assert (Hbytes : ∀ i, 0 <= i < bb_ptr b ∨ bb_eob b <= i →
              load (bb_data (SQZ_bit_buffer_write_bit b bit).1) i = load (bb_data b) i).
    { intros i Hi'. unfold SQZ_bit_buffer_write_bit, SQZ_bit_buffer_eob.
      destruct (Z.leb_spec (bb_eob b) (bb_ptr b)); [reflexivity|].
      destruct (_ <? _); simpl; apply load_store_ne; lia. }
    destruct (write_bit_spec b bit Hwf Hlt Hbit) as (b' & E & Hwf' & Hp' & He' & Hl' & Hb').
    rewrite E in *. cbn [fst] in *.
    unfold bb_extends. split; [auto|]. split; [auto|]. split; [auto|].
    split; [pose proof Hwf' as (? & ? & ? & ?); unfold bb_pos in *; lia|].
    split; [|exact Hbytes].
    intros q Hq. rewrite Hb' by lia. destruct (Z.eqb_spec q (bb_pos b)); [lia|reflexivity].
  - rewrite write_bit_eob by lia. apply extends_refl. exact Hwf.
Qed.

Lemma write_wdr_run_extends b run :
  bb_wf b → bb_extends b (SQZ_encode_write_wdr_run b run).1.
Proof.
  intros Hwf. unfold SQZ_encode_write_wdr_run.
  assert (Hu : ∀ z, 0 <= u32 z < 2 ^ 32) by (intros; unfold u32; apply Z.mod_pos_bound; lia).
  destruct (_ <=? 16).
  - apply write_bits_extends; auto.
  - pose proof (write_bits_extends b (SQZ_interleave_u16_to_u32 (Z.shiftr run 16))
                  (u32 (u32 (u32 (SQZ_ilog2 run - 1) - 16) * 2)) Hwf (Hu _)) as H1.
    destruct (SQZ_bit_buffer_write_bits b _ _) as [b1 ok]. cbn [fst] in H1.
    destruct (truthy ok); [|exact H1].
    eapply extends_trans; [exact H1|].
    apply write_bits_extends; [apply (extends_wf _ _ H1)|lia].
Qed.

Lemma encode_sorting_loop_extends data band mask rest : ∀ visited nsp b i last,
  bb_wf b →
  bb_extends b (sorting_buffer (encode_sorting_loop data band mask visited rest nsp b i last)).
Proof.
  induction rest as [|pixel rest IH]; intros visited nsp b i last Hwf;
    cbn [encode_sorting_loop]; [apply extends_refl; exact Hwf|].
  destruct (truthy (Z.land _ mask)); [|apply IH; exact Hwf].
  assert (Hw : 0 <= 1 + of_bool (truthy last) < 2 ^ 32) by (destruct (truthy last); simpl; lia).
  pose proof (write_bits_extends b (Z.lor 2 (Z.land (load data (pixel_offset band pixel)) 1))
                (1 + of_bool (truthy last)) Hwf Hw) as H1.
  destruct (SQZ_bit_buffer_write_bits b _ _) as [b1 ok1]. cbn [fst] in H1.
  destruct (negb (truthy ok1)); [exact H1|].
  pose proof (write_wdr_run_extends b1 (u32 (i - last)) (extends_wf _ _ H1)) as H2.
  destruct (SQZ_encode_write_wdr_run b1 _) as [b2 ok2]. cbn [fst] in H2.
  destruct (negb (truthy ok2)); [exact (extends_trans _ _ _ H1 H2)|].
  unfold SQZ_list_exchange.
  eapply extends_trans; [exact (extends_trans _ _ _ H1 H2)|].
  apply IH. exact (extends_wf _ _ H2).
Qed.

Lemma encode_sorting_pass_extends data band b :
  bb_wf b → bb_extends b (SQZ_encode_sorting_pass data band b).1.2.
Proof.
  intros Hwf. unfold SQZ_encode_sorting_pass.
  destruct (_ || _); [apply extends_refl; exact Hwf|].
  pose proof (encode_sorting_loop_extends data band (bitplane_mask_of band) (LIP band) []
                (NSP band) b 1 0 Hwf) as H0.
  set (st := encode_sorting_loop _ _ _ _ _ _ _ _ _) in *.
  assert (Hw : 0 <= 1 + of_bool (0 <? Z.of_nat (length (sorting_nsp st))) < 2 ^ 32)
    by (destruct (0 <? _); simpl; lia).
  pose proof (write_bits_extends (sorting_buffer st) 3 _ (extends_wf _ _ H0) Hw) as H1.
  destruct (SQZ_bit_buffer_write_bits (sorting_buffer st) 3 _) as [b1 ok1]. cbn [fst] in H1.
  pose proof (write_wdr_run_extends b1 (u32 (sorting_i st - sorting_last st))
                (extends_wf _ _ H1)) as H2.
  destruct (SQZ_encode_write_wdr_run b1 _) as [b2 ok2]. cbn [fst] in H2.
  pose proof (write_bit_extends b2 1 (extends_wf _ _ H2) ltac:(auto)) as H3.
  destruct (SQZ_bit_buffer_write_bit b2 1) as [b3 ok3]. cbn [fst snd] in *.
  exact (extends_trans _ _ _ (extends_trans _ _ _ (extends_trans _ _ _ H0 H1) H2) H3).
Qed.

Lemma encode_refinement_loop_extends data band mask rest : ∀ b,
  bb_wf b → bb_extends b (encode_refinement_loop data band mask rest b).
Proof.
  induction rest as [|pixel rest IH]; intros b Hwf; cbn [encode_refinement_loop];
    [apply extends_refl; exact Hwf|].
  pose proof (write_bit_extends b (of_bool (truthy (Z.land (load data (pixel_offset band pixel))
                                                            mask)))
                Hwf ltac:(destruct (truthy _); auto)) as H1.
  destruct (SQZ_bit_buffer_write_bit b _) as [b1 ok1]. cbn [fst] in H1.
  destruct (negb (truthy ok1)); [exact H1|].
  eapply extends_trans; [exact H1|]. apply IH. exact (extends_wf _ _ H1).
Qed.

Lemma encode_bitplane_extends : task_extends SQZ_encode_bitplane.
Proof.
  intros data band b Hwf. unfold SQZ_encode_bitplane.
  pose proof (encode_sorting_pass_extends data band b Hwf) as H1.
  destruct (SQZ_encode_sorting_pass data band b) as [[band1 b1] ok1]. cbn [fst snd] in H1.
  destruct (negb (truthy ok1)); [exact H1|].
  unfold SQZ_encode_refinement_pass.
  pose proof (encode_refinement_loop_extends data band1 (bitplane_mask_of band1) (LSP band1) b1
                (extends_wf _ _ H1)) as H2.
  destruct (negb (truthy _)); cbn [fst snd]; exact (extends_trans _ _ _ H1 H2).
Qed.

Lemma encode_init_extends : init_extends SQZ_encode_init_subband.
Proof.
  intros fuel data band scan b band' scan' b' result Hwf. unfold SQZ_encode_init_subband.
  destruct (SQZ_common_init_subband fuel band scan) as [[[b0 s0] r0]|]; simpl; [|discriminate].
  match goal with |- context [SQZ_bit_buffer_write_bits b ?x 4] =>
    pose proof (write_bits_extends b x 4 Hwf ltac:(lia)) as H1;
    destruct (SQZ_bit_buffer_write_bits b x 4) as [b1 ok1]
  end.
  intros H; injection H as <- <- <- <-. exact H1.
Qed.

#[local] Opaque schedule_advance.

Lemma schedule_visit_extends fuel init task st step :
  init_extends init → task_extends task → bb_wf (ctx_buffer (sched_ctx st)) →
  schedule_visit fuel init task st = Some step →
  bb_extends (ctx_buffer (sched_ctx st)) (step_buffer step).
Proof.
  intros Hinit Htask Hwf. destruct st as [ctx scan state plane level orientation round done].
  unfold schedule_visit. cbn [sched_ctx] in *.
  destruct (_ || _).
  { intros H; injection H as <-. rewrite schedule_advance_buffer. apply extends_refl. exact Hwf. }
  destruct (band_round _ =? round).
  - destruct (SQZ_scan_init fuel scan _) as [[scan1 r1]|]; simpl; [|discriminate].
    destruct (init fuel _ _ scan1 _) as [[[[band2 scan2] buffer2] result2]|] eqn:E; simpl;
      [|discriminate].
    apply Hinit in E; [|exact Hwf].
    destruct result2; try (intros H; injection H as <-; exact E).
    match goal with |- context [task ?d ?bd ?bf] =>
      pose proof (Htask d bd bf (extends_wf _ _ E)) as Ht;
      destruct (task d bd bf) as [[[data3 band3] buffer3] ok3]
    end. simpl in Ht.
    destruct (negb (truthy ok3)); intros H; injection H as <-.
    + simpl. exact (extends_trans _ _ _ E Ht).
    + rewrite schedule_advance_buffer. simpl. exact (extends_trans _ _ _ E Ht).
  - simpl.
    match goal with |- context [task ?d ?bd ?bf] =>
      pose proof (Htask d bd bf Hwf) as Ht;
      destruct (task d bd bf) as [[[data3 band3] buffer3] ok3]
    end. simpl in Ht.
    destruct (negb (truthy ok3)); intros H; injection H as <-.
    + simpl. exact Ht.
    + rewrite schedule_advance_buffer. simpl. exact Ht.
Qed.

#[local] Transparent schedule_advance.

Lemma schedule_round_extends fuel init task n : ∀ st step,
  init_extends init → task_extends task → bb_wf (ctx_buffer (sched_ctx st)) →
  schedule_round fuel n init task st = Some step →
  bb_extends (ctx_buffer (sched_ctx st)) (step_buffer step).
Proof.
  induction n as [|n IH]; intros st step Hinit Htask Hwf; [discriminate|].
  cbn [schedule_round].
  destruct (schedule_visit fuel init task st) as [s|] eqn:E; simpl; [|discriminate].
  pose proof (schedule_visit_extends _ _ _ _ _ Hinit Htask Hwf E) as Hs.
  destruct s as [st'|st'|ctx' result'].
  - intros H. eapply extends_trans; [exact Hs|].
    apply (IH _ _ Hinit Htask (extends_wf _ _ Hs) H).
  - intros H; injection H as <-. exact Hs.
  - intros H; injection H as <-. exact Hs.
Qed.

Lemma schedule_rounds_extends fuel init task n : ∀ st r,
  init_extends init → task_extends task → bb_wf (ctx_buffer (sched_ctx st)) →
  schedule_rounds fuel n init task st = Some r →
  bb_extends (ctx_buffer (sched_ctx st)) (ctx_buffer r.1).
Proof.
  induction n as [|n IH]; intros st r Hinit Htask Hwf; [discriminate|].
  cbn [schedule_rounds].
  destruct (_ && _); [|intros H; injection H as <-; apply extends_refl; exact Hwf].
  destruct st as [ctx scan state plane level orientation round done]. cbn [sched_ctx] in *.
  destruct (schedule_round _ _ _ _ _) as [s|] eqn:E; simpl; [|discriminate].
  pose proof (schedule_round_extends fuel init task fuel
                (mk_schedule ctx scan state plane level orientation round 1) s
                Hinit Htask Hwf E) as Hs. simpl in Hs.
  destruct s as [st'|st'|ctx' result']; simpl in Hs.
  - destruct st' as [c1 s1 a1 p1 l1 o1 r1 d1]. simpl in Hs. intros H.
    eapply extends_trans; [exact Hs|].
    apply (IH (mk_schedule c1 s1 a1 p1 l1 o1 (s32 (r1 + 1)) d1) r Hinit Htask
              (extends_wf _ _ Hs) H).
  - destruct st' as [c1 s1 a1 p1 l1 o1 r1 d1]. simpl in Hs. intros H.
    eapply extends_trans; [exact Hs|].
    apply (IH (mk_schedule c1 s1 a1 p1 l1 o1 (s32 (r1 + 1)) d1) r Hinit Htask
              (extends_wf _ _ Hs) H).
  - intros H; injection H as <-. exact Hs.
Qed.

Lemma schedule_task_extends fuel ctx init task r :
  init_extends init → task_extends task → bb_wf (ctx_buffer ctx) →
  SQZ_schedule_task fuel ctx init task = Some r →
  bb_extends (ctx_buffer ctx) (ctx_buffer r.1).
Proof.
  intros Hinit Htask Hwf H. unfold SQZ_schedule_task in H.
  match type of H with schedule_rounds _ _ _ _ ?st = _ =>
    exact (schedule_rounds_extends fuel init task fuel st r Hinit Htask Hwf H)
  end.
Qed.

Lemma encode_header_extends d b : bb_wf b → bb_extends b (SQZ_encode_header d b).1.
Proof.
  intros Hwf. unfold SQZ_encode_header.
  repeat match goal with
  | |- context [let '(_, _) := SQZ_bit_buffer_write_bits ?b ?x ?w in _] =>
      let H := fresh "Hx" in
      assert (H : bb_extends b (SQZ_bit_buffer_write_bits b x w).1)
        by (apply write_bits_extends; [eauto using extends_wf | lia]);
      destruct (SQZ_bit_buffer_write_bits b x w) as [? ?]; cbn [fst] in H
  end.
  match goal with
  | |- context [let '(_, _) := SQZ_bit_buffer_write_bit ?b ?x in _] =>
      assert (Hlast : bb_extends b (SQZ_bit_buffer_write_bit b x).1)
        by (apply write_bit_extends; [eauto using extends_wf | apply of_bool_01]);
      destruct (SQZ_bit_buffer_write_bit b x) as [? ?]; cbn [fst] in Hlast
  end.
  cbn [fst]. eauto 10 using extends_trans.
Qed.

Lemma color_process_buffer ctx buffer read :
  ctx_buffer (SQZ_color_process ctx buffer read).1 = ctx_buffer ctx.
Proof.
  unfold SQZ_color_process, SQZ_color_process_grayscale, SQZ_color_process_ycocg_r,
    SQZ_color_process_oklab, SQZ_color_process_logl1.
  repeat match goal with |- context [if ?c then _ else _] => destruct c end; reflexivity.
Qed.

Lemma dwt_buffer fuel ctx r : SQZ_dwt fuel ctx = Some r → ctx_buffer r.1 = ctx_buffer ctx.
Proof.
  unfold SQZ_dwt. destruct (for_range _ _ _ _) as [x|]; simpl; [|discriminate].
  intros H; injection H as <-. reflexivity.
Qed.

(** What [SQZ_encode] leaves in the destination and in the budget. *)
Lemma encode_extends fuel source dest d budget e :
  0 <= budget <= Z.of_nat (length dest) → budget < 2 ^ 60 →
  SQZ_encode fuel source dest d budget = Some e →
  ∃ b, bb_extends (SQZ_bit_buffer_init dest budget) b
       ∧ encoded_dest e = bb_data b
       ∧ (encoded_status e = SQZ_RESULT_OK →
          encoded_budget e = (bb_pos b + 7) / 8
          ∧ bb_extends (SQZ_encode_header (SQZ_validate_input d false).1
                                          (SQZ_bit_buffer_init dest budget)).1 b
          ∧ (SQZ_validate_input d false).2 = SQZ_RESULT_OK
          ∧ (SQZ_encode_header (SQZ_validate_input d false).1
                               (SQZ_bit_buffer_init dest budget)).2 = 1)
       ∧ (encoded_status e ≠ SQZ_RESULT_OK → encoded_budget e = budget).
Proof.
  intros Hb Hb60. unfold SQZ_encode.
  assert (Hwf : bb_wf (SQZ_bit_buffer_init dest budget)).
  { unfold bb_wf, SQZ_bit_buffer_init; simpl. lia. }
  destruct (SQZ_validate_input d false) as [d' result]. cbn [fst snd].
  destruct result;
    try (intros H; injection H as <-; exists (SQZ_bit_buffer_init dest budget);
         split; [apply extends_refl; exact Hwf|]; split; [reflexivity|];
         split; [discriminate|reflexivity]).
  change (ctx_buffer (context_zero d' (SQZ_bit_buffer_init dest budget)))
    with (SQZ_bit_buffer_init dest budget).
  pose proof (encode_header_extends d' _ Hwf) as Hh.
  pose proof (encode_header_pos d' _ Hwf) as (_ & _ & _ & Hok).
  destruct (SQZ_encode_header d' (SQZ_bit_buffer_init dest budget)) as [b1 ok]. cbn [fst snd] in *.
  destruct (truthy ok) eqn:Hok1; cbn [negb].
  2:{ intros H; injection H as <-. exists b1. split; [exact Hh|]. split; [reflexivity|].
      split; [discriminate|reflexivity]. }
  assert (ok = 1) as ->.
  { rewrite Hok in *. destruct (SQZ_bit_buffer_eob b1); [discriminate|reflexivity]. }
  pose proof (common_init_context_buffer (ctx_set_buffer (context_zero d' (SQZ_bit_buffer_init dest budget)) b1)) as Hi.
  destruct (SQZ_common_init_context _) as [ctx r0]. cbn [fst] in Hi.
  pose proof (color_process_buffer ctx source true) as Hc.
  destruct (SQZ_color_process ctx source true) as [ctx1 source1]. cbn [fst] in Hc.
  destruct (SQZ_dwt fuel ctx1) as [[ctx2 r2]|] eqn:E2; simpl; [|discriminate].
  apply dwt_buffer in E2. cbn [fst] in E2.
  destruct (SQZ_schedule_task _ _ _ _) as [[ctx3 r3]|] eqn:E3; simpl; [|discriminate].
  assert (Hb2 : ctx_buffer (SQZ_dwt_convert_to_sign_magnitude ctx2) = b1).
  { unfold SQZ_dwt_convert_to_sign_magnitude. cbn [ctx_buffer ctx_set_data].
    rewrite E2, Hc, Hi. reflexivity. }
  apply (schedule_task_extends _ _ _ _ _ encode_init_extends encode_bitplane_extends) in E3;
    [|rewrite Hb2; exact (extends_wf _ _ Hh)].
  rewrite Hb2 in E3. cbn [fst] in E3.
  pose proof (extends_trans _ _ _ Hh E3) as Hall.
  destruct r3; intros H; injection H as <-; exists (ctx_buffer ctx3);
    (split; [exact Hall|]); (split; [reflexivity|]); cbn [encoded_status encoded_budget];
    try (split; [discriminate|reflexivity]).
  split; [|intros Hne; exfalso; apply Hne; reflexivity].
  intros _. split; [|auto].
  unfold SQZ_bit_buffer_bits_used, CHAR_BIT.
  destruct (extends_wf _ _ E3) as (Hp3 & Hi3 & Hor3 & Hlen3).
  destruct Hall as (_ & He & _). simpl in He.
  rewrite usize_small by lia.
  unfold bb_pos. f_equal. lia.
Qed.

(** [SQZ_encode] writes inside the budget only: the destination keeps its
    length and its bytes from the budget on, whatever is returned.  On
    success the budget handed back is a number of bytes between the six of
    the header and the budget given, which was seven at least; otherwise
    the budget is as it was. *)
Theorem encode_within_budget fuel source dest d budget e :
  0 <= budget <= Z.of_nat (length dest) → budget < 2 ^ 60 →
  SQZ_encode fuel source dest d budget = Some e →
  length (encoded_dest e) = length dest
  ∧ (∀ i, budget <= i → load (encoded_dest e) i = load dest i)
  ∧ (encoded_status e = SQZ_RESULT_OK →
     SQZ_HEADER_SIZE < budget ∧ SQZ_HEADER_SIZE <= encoded_budget e <= budget)
  ∧ (encoded_status e ≠ SQZ_RESULT_OK → encoded_budget e = budget).
Proof.
  intros Hb Hb60 He.
  destruct (encode_extends _ _ _ _ _ _ Hb Hb60 He) as (b & Hext & Hdest & Hok & Herr).
  pose proof Hext as (Hwf & Heob & Hlen & Hpos & _ & Hbytes).
  rewrite Hdest. split; [exact Hlen|].
  split; [intros i Hi; apply Hbytes; right; exact Hi|]. split; [|exact Herr].
  intros Hs. destruct (Hok Hs) as (Hbud & Hhx & _ & Hone).
  assert (Hwf0 : bb_wf (SQZ_bit_buffer_init dest budget)).
  { unfold bb_wf, SQZ_bit_buffer_init; simpl. lia. }
  destruct (encode_header_pos (SQZ_validate_input d false).1 _ Hwf0) as (Hwfh & Heh & Hph & Hokh).
  rewrite Hone in Hokh.
  assert (Hnot : SQZ_bit_buffer_eob (SQZ_encode_header (SQZ_validate_input d false).1
                                       (SQZ_bit_buffer_init dest budget)).1 = false).
  { destruct (SQZ_bit_buffer_eob _); [discriminate|reflexivity]. }
  unfold SQZ_bit_buffer_eob in Hnot. apply Z.leb_gt in Hnot.
  destruct Hhx as (_ & Heb & _ & Hpb & _).
  destruct Hwfh as (? & ? & ? & ?), Hwf as (? & ? & ? & ?).
  change (bb_pos (SQZ_bit_buffer_init dest budget)) with 0 in Hph.
  change (bb_eob (SQZ_bit_buffer_init dest budget)) with budget in *.
  unfold SQZ_HEADER_SIZE, bb_pos in *. rewrite Hbud.
  assert (8 * bb_ptr b + bb_index b <= 8 * budget) by lia.
  split; [lia|]. split.
  - apply Z.div_le_lower_bound; lia.
  - assert ((8 * bb_ptr b + bb_index b + 7) / 8 < budget + 1)
      by (apply Z.div_lt_upper_bound; lia).
    lia.
Qed.

Lemma encode_within_budget_witness :
  let d := mk_descriptor SQZ_COLOR_MODE_GRAYSCALE SQZ_SCAN_ORDER_RASTER 8 8 1 1 0 in
  ∃ e, SQZ_encode 100 (replicate 64 200) (replicate 40 0) d 32 = Some e
       ∧ length (encoded_dest e) = length (replicate 40 0)
       ∧ (∀ i, 32 <= i → load (encoded_dest e) i = load (replicate 40 0) i).
Proof.
  cbv zeta.
  assert (Hb : 0 <= 32 <= Z.of_nat (length (replicate 40 0))) by (vm_compute; split; discriminate).
  assert (Hb60 : 32 < 2 ^ 60) by lia.
  eassert (He : SQZ_encode 100 (replicate 64 200) (replicate 40 0)
                  (mk_descriptor SQZ_COLOR_MODE_GRAYSCALE SQZ_SCAN_ORDER_RASTER 8 8 1 1 0) 32
                = Some _) by (vm_compute; reflexivity).
  destruct (encode_within_budget _ _ _ _ _ _ Hb Hb60 He) as (H1 & H2 & _).
  eexists. split; [exact He|]. split; [exact H1|exact H2].
Defined.

Lemma validate_ok_in_range d :
  0 <= dwt_levels d → (SQZ_validate_input d false).2 = SQZ_RESULT_OK →
  descriptor_in_range d
  ∧ descriptor_in_range (SQZ_validate_input d false).1
  ∧ dwt_levels (SQZ_validate_input d false).1 <= level_bound (SQZ_validate_input d false).1
  ∧ width (SQZ_validate_input d false).1 = width d
  ∧ height (SQZ_validate_input d false).1 = height d
  ∧ color_mode (SQZ_validate_input d false).1 = color_mode d.
Proof.
  intros Hl Hok. destruct (descriptor_in_range_dec d) as [Hd|Hd].
  2:{ rewrite (validate_out_of_range d false Hl Hd) in Hok. discriminate. }
  split; [exact Hd|].
  pose proof (level_bound_range d Hd) as Hlb.
  assert (Hv : SQZ_validate_input d false
               = (mk_descriptor (color_mode d) (scan_order d) (width d) (height d)
                    (Z.min (dwt_levels d) (level_bound d))
                    (load SQZ_number_of_planes (color_mode d)) (subsampling d), SQZ_RESULT_OK)).
  { destruct (Z.leb_spec (dwt_levels d) (level_bound d)) as [Hle|Hgt].
    - destruct (validate_in_range_levels d Hd Hle) as [H1 _]. rewrite H1, Z.min_l by lia.
      reflexivity.
    - destruct (validate_max_level d Hd Hgt) as [H1 _]. rewrite H1, Z.min_r by lia.
      reflexivity. }
  rewrite Hv. cbn [fst]. unfold level_bound in *. cbn [width height dwt_levels color_mode].
  destruct Hd as (Hw & Hh & Hm & Hs & Hlv).
  unfold descriptor_in_range. cbn [width height dwt_levels color_mode scan_order].
  unfold SQZ_DWT_MAX_LEVEL in *.
  repeat split; try lia.
Qed.

(** A stream that [SQZ_encode] has written with success into a destination
    whose first six bytes were zero starts with the header of the validated
    descriptor.  So [SQZ_decode] of seven or more of its bytes, asked for
    the size with a null destination, returns [SQZ_BUFFER_TOO_SMALL] with
    that size and the descriptor of the encoder (its subsampling as a
    flag). *)
Theorem encoded_stream_header fuel source dest d budget e :
  0 <= dwt_levels d →
  0 <= budget <= Z.of_nat (length dest) → budget < 2 ^ 60 →
  (∀ q, 0 <= q < 48 → bit_at dest q = false) →
  SQZ_encode fuel source dest d budget = Some e →
  encoded_status e = SQZ_RESULT_OK →
  header_at (encoded_dest e) 0 (encoded_descriptor e)
  ∧ ∀ fuel' k descriptor,
      SQZ_HEADER_SIZE < k <= Z.of_nat (length dest) →
      ∃ r, SQZ_decode fuel' (encoded_dest e) None k 0 (Some descriptor) = Some r
           ∧ decoded_status r = SQZ_BUFFER_TOO_SMALL
           ∧ decoded_dest_size r
             = width d * height d * load SQZ_number_of_planes (color_mode d)
           ∧ decoded_descriptor r = Some (header_descriptor (encoded_descriptor e)).
Proof.
  intros Hl Hb Hb60 Hzero He Hs.
  destruct (encode_extends _ _ _ _ _ _ Hb Hb60 He) as (b & Hext & Hdest & Hok & _).
  destruct (Hok Hs) as (_ & Hhx & Hv & Hone).
  destruct (validate_ok_in_range d Hl Hv) as (_ & Hd' & Hlv' & Hw' & Hh' & Hm').
  rewrite <- (encode_descriptor _ _ _ _ _ _ He) in *.
  set (d' := encoded_descriptor e) in *.
  assert (Hwf0 : bb_wf (SQZ_bit_buffer_init dest budget)).
  { unfold bb_wf, SQZ_bit_buffer_init; simpl. lia. }
  destruct (encode_header_pos d' _ Hwf0) as (_ & Heh & Hph & Hokh).
  rewrite Hone in Hokh.
  assert (Hroom : bb_pos (SQZ_bit_buffer_init dest budget) + 48
                  <= 8 * bb_eob (SQZ_bit_buffer_init dest budget)).
  { assert (Hnot : SQZ_bit_buffer_eob (SQZ_encode_header d' (SQZ_bit_buffer_init dest budget)).1
                   = false) by (destruct (SQZ_bit_buffer_eob _); [discriminate|reflexivity]).
    unfold SQZ_bit_buffer_eob in Hnot. apply Z.leb_gt in Hnot.
    destruct (encode_header_extends d' _ Hwf0) as ((? & ? & ? & ?) & _).
    unfold bb_pos in *. lia. }
  destruct (encode_header_fields d' _ Hd' Hwf0 Hroom) as (b1 & E1 & _ & _ & _ & Hp1 & _ & Hh1).
  { intros q Hq. apply Hzero. exact Hq. }
  rewrite E1 in Hhx. cbn [fst] in Hhx.
  assert (Hhead : header_at (encoded_dest e) 0 d').
  { rewrite Hdest. destruct Hhx as (_ & _ & _ & _ & Hbits & _).
    change (bb_pos (SQZ_bit_buffer_init dest budget)) with 0 in Hp1, Hh1.
    destruct Hh1 as (F1 & F2 & F3 & F4 & F5 & F6 & F7).
    unfold header_at.
    repeat split;
      try (eapply field_at_frame; [eassumption|]; intros q Hq; apply Hbits; lia).
    rewrite Hbits by lia. exact F7. }
  split; [exact Hhead|].
  intros fuel' k descriptor Hk.
  assert (Hlen : length (encoded_dest e) = length dest).
  { rewrite Hdest. destruct Hext as (_ & _ & Hlen & _). exact Hlen. }
  destruct (decode_size_query_holds fuel' (encoded_dest e) None k 0 (Some descriptor) d' Hd' Hlv')
    as (r & Er & Hst & _ & Hsz & Hdesc & _).
  - rewrite Hlen. exact Hk.
  - exact Hhead.
  - intros [_ H]. apply H. reflexivity.
  - destruct Hd' as (Hw & Hh & Hm & _).
    unfold SQZ_MIN_DIMENSION, SQZ_COLOR_MODE_COUNT in *.
    assert (1 <= load SQZ_number_of_planes (color_mode d')).
    { assert (color_mode d' = 0 ∨ color_mode d' = 1 ∨ color_mode d' = 2 ∨ color_mode d' = 3)
        as [->|[->|[->| ->]]] by lia; vm_compute; discriminate. }
    nia.
  - exists r. split; [exact Er|]. split; [exact Hst|]. split; [|exact Hdesc].
    rewrite Hsz, Hw', Hh', Hm'. reflexivity.
Qed.

Lemma encoded_stream_header_witness :
  let d := mk_descriptor SQZ_COLOR_MODE_GRAYSCALE SQZ_SCAN_ORDER_RASTER 8 8 1 1 0 in
  ∃ e r, SQZ_encode 100 (replicate 64 200) (replicate 64 0) d 64 = Some e
         ∧ SQZ_decode 0 (encoded_dest e) None 7 0 (Some descriptor_zero) = Some r
         ∧ decoded_status r = SQZ_BUFFER_TOO_SMALL
         ∧ decoded_dest_size r = 64.
Proof.
  cbv zeta.
  assert (Hl : 0 <= dwt_levels (mk_descriptor SQZ_COLOR_MODE_GRAYSCALE SQZ_SCAN_ORDER_RASTER
                                              8 8 1 1 0)) by (simpl; lia).
  assert (Hb : 0 <= 64 <= Z.of_nat (length (replicate 64 0))) by (vm_compute; split; discriminate).
  assert (Hb60 : 64 < 2 ^ 60) by lia.
  assert (Hzero : ∀ q, 0 <= q < 48 → bit_at (replicate 64 0) q = false).
  { intros q Hq. unfold bit_at, load.
    assert (0 <= q / 8 < 6).
    { split; [apply Z.div_pos; lia|]. apply Z.div_lt_upper_bound; lia. }
    rewrite lookup_total_replicate_2 by lia. apply Z.bits_0. }
  assert (Hk : SQZ_HEADER_SIZE < 7 <= Z.of_nat (length (replicate 64 0)))
    by (vm_compute; split; [reflexivity|discriminate]).
  eassert (He : SQZ_encode 100 (replicate 64 200) (replicate 64 0)
                  (mk_descriptor SQZ_COLOR_MODE_GRAYSCALE SQZ_SCAN_ORDER_RASTER 8 8 1 1 0) 64
                = Some _) by (vm_compute; reflexivity).
  destruct (encoded_stream_header _ _ _ _ _ _ Hl Hb Hb60 Hzero He eq_refl) as [_ H].
  destruct (H O 7 descriptor_zero Hk) as (r & Er & Hst & Hsz & _).
  eexists _, r. split; [exact He|]. split; [exact Er|]. split; [exact Hst|exact Hsz].
Defined.

(** ** The three lists of a subband *)

Lemma move_perm (visited rest nsp : SQZ_list_t) pixel :
  visited ++ rest ++ (nsp ++ [pixel]) ≡ₚ visited ++ (pixel :: rest) ++ nsp.
Proof.
  apply Permutation_app_head.
  rewrite (app_assoc rest nsp [pixel]).
  rewrite <- (Permutation_cons_append (rest ++ nsp) pixel). reflexivity.
Qed.

Lemma skip_perm (visited rest nsp : SQZ_list_t) pixel :
  (visited ++ [pixel]) ++ rest ++ nsp ≡ₚ visited ++ (pixel :: rest) ++ nsp.
Proof. rewrite <- app_assoc. reflexivity. Qed.

Lemma perm_three (A B C X Y : SQZ_list_t) :
  A ++ C ≡ₚ X ++ Y → A ++ B ++ C ≡ₚ X ++ B ++ Y.
Proof.
  intros H. rewrite (Permutation_app_swap_app A B C), H.
  apply Permutation_app_swap_app.
Qed.

Lemma encode_sorting_loop_perm data band mask rest : ∀ visited nsp b i last,
  let st := encode_sorting_loop data band mask visited rest nsp b i last in
  sorting_visited st ++ sorting_rest st ++ sorting_nsp st ≡ₚ visited ++ rest ++ nsp.
Proof.
  induction rest as [|pixel rest IH]; intros visited nsp b i last; cbv zeta;
    cbn [encode_sorting_loop]; [reflexivity|].
  destruct (truthy (Z.land _ mask)).
  - destruct (SQZ_bit_buffer_write_bits b _ _) as [b1 ok1].
    destruct (negb (truthy ok1)); [reflexivity|].
    destruct (SQZ_encode_write_wdr_run b1 _) as [b2 ok2].
    destruct (negb (truthy ok2)); [reflexivity|].
    unfold SQZ_list_exchange. rewrite IH. apply move_perm.
  - rewrite IH. apply skip_perm.
Qed.

Lemma skip_nodes_app rest : ∀ k visited,
  (skip_nodes k visited rest).1 ++ (skip_nodes k visited rest).2 = visited ++ rest.
Proof.
  induction rest as [|pixel rest IH]; intros k visited; cbn [skip_nodes]; [reflexivity|].
  destruct (0 <? k); [|reflexivity].
  rewrite IH, <- app_assoc. reflexivity.
Qed.

Lemma decode_sorting_loop_perm n band mask : ∀ st,
  let st' := decode_sorting_loop n band mask st in
  dsort_visited st' ++ dsort_rest st' ++ dsort_nsp st'
  ≡ₚ dsort_visited st ++ dsort_rest st ++ dsort_nsp st.
Proof.
  induction n as [|n IH]; intros st; cbv zeta; cbn [decode_sorting_loop]; [reflexivity|].
  destruct st as [data visited rest nsp b]. cbn [dsort_visited dsort_rest dsort_nsp].
  destruct (SQZ_bit_buffer_read_bit b) as [b1 sign].
  destruct (sign <? 0); [reflexivity|].
  destruct (SQZ_decode_read_wdr_run b1) as [[b2 run] ok].
  destruct (negb (truthy ok)); [reflexivity|].
  pose proof (skip_nodes_app rest (u32 (run - 1)) visited) as Hs.
  destruct (skip_nodes _ visited rest) as [visited' rest']. cbn [fst snd] in Hs.
  destruct rest' as [|pixel rest'].
  - cbn [dsort_visited dsort_rest dsort_nsp]. rewrite app_assoc, Hs, <- app_assoc. reflexivity.
  - unfold SQZ_list_exchange. rewrite IH. cbn [dsort_visited dsort_rest dsort_nsp].
    rewrite move_perm. rewrite app_assoc, Hs, <- app_assoc. reflexivity.
Qed.

Lemma bitplane_done_perm band :
  LIP (bitplane_done band) ++ LSP (bitplane_done band) ++ NSP (bitplane_done band)
  ≡ₚ LIP band ++ LSP band ++ NSP band.
Proof.
  unfold bitplane_done, SQZ_list_merge.
  destruct (NSP band) as [|x l]; cbn [LIP LSP NSP band_set_lists band_set_bitplanes].
  - reflexivity.
  - rewrite app_nil_r. reflexivity.
Qed.

Lemma bitplane_done_geometry band : band_geometry (bitplane_done band) = band_geometry band.
Proof. unfold bitplane_done. destruct (SQZ_list_merge _ _). reflexivity. Qed.

Lemma encode_sorting_pass_lists data band b :
  let band' := (SQZ_encode_sorting_pass data band b).1.1 in
  LIP band' ++ LSP band' ++ NSP band' ≡ₚ LIP band ++ LSP band ++ NSP band
  ∧ band_geometry band' = band_geometry band
  ∧ band_bitplane band' = band_bitplane band.
Proof.
  cbv zeta. unfold SQZ_encode_sorting_pass.
  destruct (_ || _); [auto|].
  pose proof (encode_sorting_loop_perm data band (bitplane_mask_of band) (LIP band) []
                (NSP band) b 1 0) as Hp. cbv zeta in Hp.
  set (st := encode_sorting_loop _ _ _ _ _ _ _ _ _) in *.
  destruct (SQZ_bit_buffer_write_bits (sorting_buffer st) 3 _) as [b1 ok1].
  destruct (SQZ_encode_write_wdr_run b1 _) as [b2 ok2].
  destruct (SQZ_bit_buffer_write_bit b2 1) as [b3 ok3].
  cbn [fst snd LIP LSP NSP band_set_lists]. split; [|auto].
  cbn [app] in Hp. apply perm_three. rewrite <- app_assoc. exact Hp.
Qed.

Lemma decode_sorting_pass_lists data band b :
  let band' := (SQZ_decode_sorting_pass data band b).1.1.2 in
  LIP band' ++ LSP band' ++ NSP band' ≡ₚ LIP band ++ LSP band ++ NSP band
  ∧ band_geometry band' = band_geometry band
  ∧ band_bitplane band' = band_bitplane band.
Proof.
  cbv zeta. unfold SQZ_decode_sorting_pass.
  destruct (_ || _); [auto|].
  pose proof (decode_sorting_loop_perm (S (length (LIP band))) band (bitplane_mask_of band)
                (mk_decode_sorting data [] (LIP band) (NSP band) b)) as Hp.
  cbv zeta in Hp. cbn [dsort_visited dsort_rest dsort_nsp app] in Hp.
  set (st := decode_sorting_loop _ _ _ _) in *.
  cbn [fst snd LIP LSP NSP band_set_lists]. split; [|auto].
  apply perm_three. rewrite <- app_assoc. exact Hp.
Qed.

(** A bitplane pass of the encoder or of the decoder moves coordinates from
    one list of the subband to another and does nothing else to them: the
    three lists together hold the same coordinates as before, as often, also
    when the pass stops at the end of the buffer.  The geometry of the
    subband and its starting round are not changed. *)
Theorem bitplane_pass_keeps_coordinates data band b :
  let enc := (SQZ_encode_bitplane data band b).1.1.2 in
  let dec := (SQZ_decode_bitplane data band b).1.1.2 in
  (LIP enc ++ LSP enc ++ NSP enc ≡ₚ LIP band ++ LSP band ++ NSP band
   ∧ band_geometry enc = band_geometry band)
  ∧ (LIP dec ++ LSP dec ++ NSP dec ≡ₚ LIP band ++ LSP band ++ NSP band
     ∧ band_geometry dec = band_geometry band).
Proof.
  cbv zeta. split.
  - unfold SQZ_encode_bitplane.
    pose proof (encode_sorting_pass_lists data band b) as (Hp & Hg & Hb). cbv zeta in Hp, Hg, Hb.
    destruct (SQZ_encode_sorting_pass data band b) as [[band1 b1] ok1]. cbn [fst snd] in *.
    destruct (negb (truthy ok1)); cbn [fst snd]; [auto|].
    destruct (SQZ_encode_refinement_pass data band1 b1) as [b2 ok2].
    destruct (negb (truthy ok2)); cbn [fst snd]; [auto|].
    split; [rewrite bitplane_done_perm; exact Hp|].
    rewrite bitplane_done_geometry; exact Hg.
  - unfold SQZ_decode_bitplane.
    pose proof (decode_sorting_pass_lists data band b) as (Hp & Hg & Hb). cbv zeta in Hp, Hg, Hb.
    destruct (SQZ_decode_sorting_pass data band b) as [[[data1 band1] b1] ok1].
    cbn [fst snd] in *.
    destruct (negb (truthy ok1)); cbn [fst snd]; [auto|].
    destruct (SQZ_decode_refinement_pass data1 band1 b1) as [[data2 b2] ok2].
    destruct (negb (truthy ok2)); cbn [fst snd]; [auto|].
    split; [rewrite bitplane_done_perm; exact Hp|].
    rewrite bitplane_done_geometry; exact Hg.
Qed.

(** ** A smaller budget gives the first bytes of the same stream *)

Lemma stopped_extends b B b' B' :
  bb_stopped b B → bb_extends b b' → bb_extends B B' → bb_stopped b' B'.
Proof.
  intros (Hwf & HwfB & Hfull & Hge & Hbytes)
         (Hwf' & He' & _ & (Hpos' & Hptr') & _ & Hb')
         (HwfB' & HeB' & _ & (HposB' & HptrB') & _ & HB').
  pose proof Hwf as (? & ? & ? & ?). pose proof Hwf' as (? & ? & ? & ?).
  unfold bb_stopped. split; [auto|]. split; [auto|].
  split; [lia|]. split; [lia|].
  intros i Hi. rewrite Hb' by lia. rewrite HB' by lia. apply Hbytes. lia.
Qed.

Lemma stopped_wf_l b B : bb_stopped b B → bb_wf b.
Proof. intros (H & _). exact H. Qed.

Lemma stopped_wf_r b B : bb_stopped b B → bb_wf B.
Proof. intros (_ & H & _). exact H. Qed.

Lemma live_wf_l b B : bb_live b B → bb_wf b.
Proof. intros (H & _). exact H. Qed.

Lemma live_wf_r b B : bb_live b B → bb_wf B.
Proof. intros (_ & H & _). exact H. Qed.

(** Two buffers that agree and of which the smaller one is full. *)
Lemma agree_stopped b B :
  bb_wf b → bb_wf B → bb_data b = bb_data B → bb_ptr b = bb_ptr B →
  bb_eob b <= bb_eob B → bb_eob b <= bb_ptr b → bb_stopped b B.
Proof.
  intros Hwf HwfB Hd Hp He Hfull. pose proof Hwf as (? & ? & ? & ?).
  unfold bb_stopped. split; [auto|]. split; [auto|]. split; [lia|]. split; [lia|].
  intros i _. rewrite Hd. reflexivity.
Qed.

Lemma write_bits_loop_extends n b bits width :
  bb_wf b → 0 <= width < 2 ^ 32 → (Z.to_nat width < n)%nat →
  bb_extends b (write_bits_loop n b bits width).1.
Proof.
  intros Hwf Hw Hn. pose proof Hwf as (Hp & Hi & Hor & Hlen).
  pose proof (write_bits_loop_bytes n b bits width) as Hbytes.
  destruct (write_bits_loop_spec n b bits width Hwf Hw Hn)
    as (b' & ok & E & Hwf' & He' & Hl' & Hp' & _ & _ & Hb').
  rewrite E in *. cbn [fst] in *.
  unfold bb_extends. split; [auto|]. split; [auto|]. split; [auto|].
  split; [pose proof Hwf' as (? & ? & ? & ?); unfold bb_pos in *; lia|]. split.
  - intros q Hq. rewrite Hb' by lia. unfold written.
    destruct (Z.leb_spec (bb_pos b) q); [lia|]. simpl. apply orb_false_r.
  - intros i Hi'. apply Hbytes; lia.
Qed.

Lemma write_bits_loop_rel n : ∀ b B bits width,
  0 <= width < 2 ^ 32 → (Z.to_nat width < n)%nat → bb_live b B →
  (bb_live (write_bits_loop n b bits width).1 (write_bits_loop n B bits width).1
   ∧ (write_bits_loop n b bits width).2 = (write_bits_loop n B bits width).2)
  ∨ bb_stopped (write_bits_loop n b bits width).1 (write_bits_loop n B bits width).1.
Proof.
  induction n as [|n IH]; intros b B bits width Hw Hn Hlive; [lia|].
  pose proof Hlive as (Hwf & HwfB & Hd & Hp & Hi & He & Hlt).
  pose proof Hwf as (Hp0 & Hi0 & Hor & Hlen). pose proof HwfB as (_ & _ & HorB & HlenB).
  pose proof HlenB as HlenB'. rewrite <- Hd in HlenB'.
  cbn [write_bits_loop]. unfold SQZ_bit_buffer_eob.
  destruct (Z.leb_spec (bb_eob b) (bb_ptr b)); [lia|].
  destruct (Z.leb_spec (bb_eob B) (bb_ptr B)); [lia|].
  unfold SQZ_BIT_BUFFER_MSB. rewrite <- Hi.
  rewrite (u32_small (7 + 1 - bb_index b)) by lia.
  destruct (Z.leb_spec width (7 + 1 - bb_index b)) as [Hfit|Hbig].
  - match goal with |- context [bb_or b ?v] => set (x := v) end.
    unfold bb_set_index, bb_or, bb_next_byte. cbn [bb_data bb_ptr bb_eob bb_index].
    rewrite <- Hd, <- Hp, <- Hi.
    destruct (Z.ltb_spec 7 (bb_index b + width)) as [Hnext|Hstay]; cbn [fst snd].
    + destruct (Z.lt_ge_cases (bb_ptr b + 1) (bb_eob b)) as [Hroom|Hfull].
      * left. split; [|reflexivity]. unfold bb_live, bb_wf. simpl.
        rewrite !length_store. repeat split; auto; lia.
      * right. apply agree_stopped; simpl; auto; try lia;
          unfold bb_wf; simpl; rewrite !length_store; repeat split; auto; lia.
    + left. split; [|reflexivity]. unfold bb_live, bb_wf. simpl.
      rewrite !length_store. repeat split; auto; lia.
  - match goal with |- context [bb_or b ?v] => set (x := v) end.
    rewrite (u32_small (width - (7 + 1 - bb_index b))) by lia.
    set (b1 := bb_next_byte (bb_or b x)). set (B1 := bb_next_byte (bb_or B x)).
    assert (Hwf1 : bb_wf b1).
    { unfold b1, bb_wf; simpl. rewrite length_store. repeat split; auto; lia. }
    assert (HwfB1 : bb_wf B1).
    { unfold B1, bb_wf; simpl. rewrite length_store. repeat split; auto; lia. }
    assert (Hd1 : bb_data b1 = bb_data B1).
    { unfold b1, B1; simpl. rewrite Hd, Hp. reflexivity. }
    destruct (Z.lt_ge_cases (bb_ptr b + 1) (bb_eob b)) as [Hroom|Hfull].
    + apply IH; [lia|lia|]. unfold bb_live. repeat split; try apply Hwf1; try apply HwfB1; auto;
        unfold b1, B1; simpl; lia.
    + right. apply (stopped_extends b1 B1).
      * apply agree_stopped; auto; unfold b1, B1; simpl; lia.
      * assert (E : write_bits_loop n b1 bits (width - (7 + 1 - bb_index b)) = (b1, 0)).
        { destruct n; [reflexivity|]. cbn [write_bits_loop]. unfold SQZ_bit_buffer_eob.
          destruct (Z.leb_spec (bb_eob b1) (bb_ptr b1)); [reflexivity|].
          unfold b1 in *; simpl in *; lia. }
        rewrite E. apply extends_refl. exact Hwf1.
      * apply write_bits_loop_extends; auto; lia.
Qed.

Lemma write_bits_rel b B bits width :
  0 <= width < 2 ^ 32 → bb_live b B →
  (bb_live (SQZ_bit_buffer_write_bits b bits width).1 (SQZ_bit_buffer_write_bits B bits width).1
   ∧ (SQZ_bit_buffer_write_bits b bits width).2 = (SQZ_bit_buffer_write_bits B bits width).2)
  ∨ bb_stopped (SQZ_bit_buffer_write_bits b bits width).1
               (SQZ_bit_buffer_write_bits B bits width).1.
Proof. intros. apply write_bits_loop_rel; auto; lia. Qed.

Lemma write_bit_rel b B bit :
  bb_live b B →
  (bb_live (SQZ_bit_buffer_write_bit b bit).1 (SQZ_bit_buffer_write_bit B bit).1
   ∧ (SQZ_bit_buffer_write_bit b bit).2 = (SQZ_bit_buffer_write_bit B bit).2)
  ∨ bb_stopped (SQZ_bit_buffer_write_bit b bit).1 (SQZ_bit_buffer_write_bit B bit).1.
Proof.
  intros Hlive. pose proof Hlive as (Hwf & HwfB & Hd & Hp & Hi & He & Hlt).
  pose proof Hwf as (Hp0 & Hi0 & Hor & Hlen). pose proof HwfB as (_ & _ & HorB & HlenB).
  pose proof HlenB as HlenB'. rewrite <- Hd in HlenB'.
  unfold SQZ_bit_buffer_write_bit, SQZ_bit_buffer_eob.
  destruct (Z.leb_spec (bb_eob b) (bb_ptr b)); [lia|].
  destruct (Z.leb_spec (bb_eob B) (bb_ptr B)); [lia|].
  unfold SQZ_BIT_BUFFER_MSB, bb_set_index, bb_or, bb_next_byte.
  cbn [bb_data bb_ptr bb_eob bb_index]. rewrite <- Hd, <- Hp, <- Hi.
  destruct (Z.ltb_spec (bb_index b) 7) as [Hstay|Hnext]; cbn [fst snd].
  - left. split; [|reflexivity]. unfold bb_live, bb_wf. simpl.
    rewrite !length_store. repeat split; auto; lia.
  - destruct (Z.lt_ge_cases (bb_ptr b + 1) (bb_eob b)) as [Hroom|Hfull].
    + left. split; [|reflexivity]. unfold bb_live, bb_wf. simpl.
      rewrite !length_store. repeat split; auto; lia.
    + right. apply agree_stopped; simpl; auto; try lia;
        unfold bb_wf; simpl; rewrite !length_store; repeat split; auto; lia.
Qed.

Lemma u32_range z : 0 <= u32 z < 2 ^ 32.
Proof. unfold u32. apply Z.mod_pos_bound. lia. Qed.

Lemma encode_refinement_pass_extends data band b :
  bb_wf b → bb_extends b (SQZ_encode_refinement_pass data band b).1.
Proof. intros Hwf. apply encode_refinement_loop_extends. exact Hwf. Qed.

(** The writes that are left on one side once the smaller buffer is full. *)
Ltac wf_tac := eauto using extends_wf, stopped_wf_l, stopped_wf_r, live_wf_l, live_wf_r.

Ltac width_tac :=
  first [ lia | apply u32_range
        | repeat match goal with |- context [if ?c then _ else _] => destruct c end;
          unfold of_bool; lia
        | unfold of_bool;
          repeat match goal with |- context [if ?c then _ else _] => destruct c end; lia ].

Ltac bit_tac := first [ apply of_bool_01 | auto ].

Ltac ext_call :=
  match goal with
  | |- context [SQZ_bit_buffer_write_bits ?b ?x ?w] =>
      let H := fresh "Hx" in
      assert (H : bb_extends b (SQZ_bit_buffer_write_bits b x w).1)
        by (apply write_bits_extends; [wf_tac | width_tac]);
      destruct (SQZ_bit_buffer_write_bits b x w) as [? ?]; cbn [fst snd] in H
  | |- context [SQZ_bit_buffer_write_bit ?b ?x] =>
      let H := fresh "Hx" in
      assert (H : bb_extends b (SQZ_bit_buffer_write_bit b x).1)
        by (apply write_bit_extends; [wf_tac | bit_tac]);
      destruct (SQZ_bit_buffer_write_bit b x) as [? ?]; cbn [fst snd] in H
  | |- context [SQZ_encode_write_wdr_run ?b ?x] =>
      let H := fresh "Hx" in
      assert (H : bb_extends b (SQZ_encode_write_wdr_run b x).1)
        by (apply write_wdr_run_extends; wf_tac);
      destruct (SQZ_encode_write_wdr_run b x) as [? ?]; cbn [fst snd] in H
  | |- context [encode_sorting_loop ?d ?bd ?m ?v ?r ?n ?b ?i ?l] =>
      let H := fresh "Hx" in
      assert (H : bb_extends b (sorting_buffer (encode_sorting_loop d bd m v r n b i l)))
        by (apply encode_sorting_loop_extends; wf_tac);
      destruct (encode_sorting_loop d bd m v r n b i l) as [? ? ? ? ? ?];
      cbn [sorting_buffer] in H
  | |- context [encode_refinement_loop ?d ?bd ?m ?r ?b] =>
      let H := fresh "Hx" in
      assert (H : bb_extends b (encode_refinement_loop d bd m r b))
        by (apply encode_refinement_loop_extends; wf_tac);
      generalize dependent (encode_refinement_loop d bd m r b); intros
  | |- context [SQZ_encode_sorting_pass ?d ?bd ?b] =>
      let H := fresh "Hx" in
      assert (H : bb_extends b (SQZ_encode_sorting_pass d bd b).1.2)
        by (apply encode_sorting_pass_extends; wf_tac);
      destruct (SQZ_encode_sorting_pass d bd b) as [[? ?] ?]; cbn [fst snd] in H
  | |- context [SQZ_encode_refinement_pass ?d ?bd ?b] =>
      let H := fresh "Hx" in
      assert (H : bb_extends b (SQZ_encode_refinement_pass d bd b).1)
        by (apply encode_refinement_pass_extends; wf_tac);
      destruct (SQZ_encode_refinement_pass d bd b) as [? ?]; cbn [fst snd] in H
  end.

Ltac ext_solve :=
  try unfold SQZ_list_exchange;
  repeat (cbn [fst snd sorting_buffer sorting_visited sorting_rest sorting_nsp sorting_i
               sorting_last];
          first [ ext_call
                | match goal with |- context [if ?c then _ else _] => destruct c end ]);
  cbn [fst snd sorting_buffer];
  eauto 8 using extends_refl, extends_trans, extends_wf, stopped_wf_l, stopped_wf_r.

Ltac stop_here Hs := right; apply (stopped_extends _ _ _ _ Hs); ext_solve.

Lemma write_wdr_run_rel b B run :
  bb_live b B →
  (bb_live (SQZ_encode_write_wdr_run b run).1 (SQZ_encode_write_wdr_run B run).1
   ∧ (SQZ_encode_write_wdr_run b run).2 = (SQZ_encode_write_wdr_run B run).2)
  ∨ bb_stopped (SQZ_encode_write_wdr_run b run).1 (SQZ_encode_write_wdr_run B run).1.
Proof.
  intros Hlive. unfold SQZ_encode_write_wdr_run.
  destruct (_ <=? 16).
  - apply write_bits_rel; [apply u32_range|exact Hlive].
  - match goal with |- context [SQZ_bit_buffer_write_bits b ?x ?w] =>
      destruct (write_bits_rel b B x w (u32_range _) Hlive) as [[Hl Hok]|Hs];
      destruct (SQZ_bit_buffer_write_bits b x w) as [b1 ok],
               (SQZ_bit_buffer_write_bits B x w) as [B1 OK]
    end; cbn [fst snd] in *.
    + subst OK. destruct (truthy ok).
      * apply write_bits_rel; [lia|exact Hl].
      * left. split; [exact Hl|reflexivity].
    + stop_here Hs.
Qed.

Lemma encode_sorting_loop_rel data band mask rest : ∀ visited nsp b B i last,
  bb_live b B →
  (bb_live (sorting_buffer (encode_sorting_loop data band mask visited rest nsp b i last))
           (sorting_buffer (encode_sorting_loop data band mask visited rest nsp B i last))
   ∧ sorting_visited (encode_sorting_loop data band mask visited rest nsp b i last)
     = sorting_visited (encode_sorting_loop data band mask visited rest nsp B i last)
   ∧ sorting_rest (encode_sorting_loop data band mask visited rest nsp b i last)
     = sorting_rest (encode_sorting_loop data band mask visited rest nsp B i last)
   ∧ sorting_nsp (encode_sorting_loop data band mask visited rest nsp b i last)
     = sorting_nsp (encode_sorting_loop data band mask visited rest nsp B i last)
   ∧ sorting_i (encode_sorting_loop data band mask visited rest nsp b i last)
     = sorting_i (encode_sorting_loop data band mask visited rest nsp B i last)
   ∧ sorting_last (encode_sorting_loop data band mask visited rest nsp b i last)
     = sorting_last (encode_sorting_loop data band mask visited rest nsp B i last))
  ∨ bb_stopped (sorting_buffer (encode_sorting_loop data band mask visited rest nsp b i last))
               (sorting_buffer (encode_sorting_loop data band mask visited rest nsp B i last)).
Proof.
  induction rest as [|pixel rest IH]; intros visited nsp b B i last Hlive;
    cbn [encode_sorting_loop].
  { left. cbn. auto 10. }
  destruct (truthy (Z.land _ mask)); [|apply IH; exact Hlive].
  assert (Hw : 0 <= 1 + of_bool (truthy last) < 2 ^ 32) by (destruct (truthy last); simpl; lia).
  match goal with |- context [SQZ_bit_buffer_write_bits b ?x ?w] =>
    destruct (write_bits_rel b B x w Hw Hlive) as [[Hl Hok]|Hs];
    destruct (SQZ_bit_buffer_write_bits b x w) as [b1 ok1],
             (SQZ_bit_buffer_write_bits B x w) as [B1 OK1]
  end; cbn [fst snd] in *; [|stop_here Hs].
  subst OK1. destruct (negb (truthy ok1)); [left; cbn; auto 10|].
  match goal with |- context [SQZ_encode_write_wdr_run b1 ?x] =>
    destruct (write_wdr_run_rel b1 B1 x Hl) as [[Hl2 Hok2]|Hs];
    destruct (SQZ_encode_write_wdr_run b1 x) as [b2 ok2],
             (SQZ_encode_write_wdr_run B1 x) as [B2 OK2]
  end; cbn [fst snd] in *; [|stop_here Hs].
  subst OK2. destruct (negb (truthy ok2)); [left; cbn; auto 10|].
  unfold SQZ_list_exchange. apply IH. exact Hl2.
Qed.

Lemma encode_sorting_pass_rel data band b B :
  bb_live b B →
  (bb_live (SQZ_encode_sorting_pass data band b).1.2 (SQZ_encode_sorting_pass data band B).1.2
   ∧ (SQZ_encode_sorting_pass data band b).1.1 = (SQZ_encode_sorting_pass data band B).1.1
   ∧ (SQZ_encode_sorting_pass data band b).2 = (SQZ_encode_sorting_pass data band B).2)
  ∨ bb_stopped (SQZ_encode_sorting_pass data band b).1.2
               (SQZ_encode_sorting_pass data band B).1.2.
Proof.
  intros Hlive. unfold SQZ_encode_sorting_pass.
  destruct (_ || _); [left; cbn; auto|].
  destruct (encode_sorting_loop_rel data band (bitplane_mask_of band) (LIP band) [] (NSP band)
              b B 1 0 Hlive) as [(Hl & Hv & Hr & Hn & Hi & Hla)|Hs].
  2:{ destruct (encode_sorting_loop _ _ _ _ _ _ b _ _) as [v1 r1 n1 b1 i1 l1],
               (encode_sorting_loop _ _ _ _ _ _ B _ _) as [V1 R1 N1 B1 I1 L1].
      cbn [sorting_buffer sorting_visited sorting_rest sorting_nsp sorting_i sorting_last] in *.
      stop_here Hs. }
  destruct (encode_sorting_loop _ _ _ _ _ _ b _ _) as [v1 r1 n1 b1 i1 l1],
           (encode_sorting_loop _ _ _ _ _ _ B _ _) as [V1 R1 N1 B1 I1 L1].
  cbn [sorting_buffer sorting_visited sorting_rest sorting_nsp sorting_i sorting_last] in *.
  subst V1 R1 N1 I1 L1.
  assert (Hw : 0 <= 1 + of_bool (0 <? Z.of_nat (length n1)) < 2 ^ 32)
    by (destruct (0 <? _); simpl; lia).
  match goal with |- context [SQZ_bit_buffer_write_bits b1 ?x ?w] =>
    destruct (write_bits_rel b1 B1 x w Hw Hl) as [[Hl2 Hok2]|Hs];
    destruct (SQZ_bit_buffer_write_bits b1 x w) as [b2 ok2],
             (SQZ_bit_buffer_write_bits B1 x w) as [B2 OK2]
  end; cbn [fst snd] in *; [|stop_here Hs].
  match goal with |- context [SQZ_encode_write_wdr_run b2 ?x] =>
    destruct (write_wdr_run_rel b2 B2 x Hl2) as [[Hl3 Hok3]|Hs];
    destruct (SQZ_encode_write_wdr_run b2 x) as [b3 ok3],
             (SQZ_encode_write_wdr_run B2 x) as [B3 OK3]
  end; cbn [fst snd] in *; [|stop_here Hs].
  destruct (write_bit_rel b3 B3 1 Hl3) as [[Hl4 Hok4]|Hs];
    destruct (SQZ_bit_buffer_write_bit b3 1) as [b4 ok4],
             (SQZ_bit_buffer_write_bit B3 1) as [B4 OK4]; cbn [fst snd] in *;
    [|right; exact Hs].
  left. split; [exact Hl4|]. split; [reflexivity|].
  destruct Hl4 as (_ & _ & _ & Hp & _ & He & Hlt). unfold SQZ_bit_buffer_eob.
  destruct (Z.leb_spec (bb_eob b4) (bb_ptr b4)), (Z.leb_spec (bb_eob B4) (bb_ptr B4));
    try lia; reflexivity.
Qed.

Lemma encode_refinement_loop_rel data band mask rest : ∀ b B,
  bb_live b B →
  bb_live (encode_refinement_loop data band mask rest b)
          (encode_refinement_loop data band mask rest B)
  ∨ bb_stopped (encode_refinement_loop data band mask rest b)
               (encode_refinement_loop data band mask rest B).
Proof.
  induction rest as [|pixel rest IH]; intros b B Hlive; cbn [encode_refinement_loop];
    [left; exact Hlive|].
  match goal with |- context [SQZ_bit_buffer_write_bit b ?x] =>
    destruct (write_bit_rel b B x Hlive) as [[Hl Hok]|Hs];
    destruct (SQZ_bit_buffer_write_bit b x) as [b1 ok1],
             (SQZ_bit_buffer_write_bit B x) as [B1 OK1]
  end; cbn [fst snd] in *; [|stop_here Hs].
  subst OK1. destruct (negb (truthy ok1)); [left; exact Hl|].
  apply IH. exact Hl.
Qed.

Lemma live_eob b B : bb_live b B → SQZ_bit_buffer_eob b = false ∧ SQZ_bit_buffer_eob B = false.
Proof.
  intros (_ & _ & _ & Hp & _ & He & Hlt). unfold SQZ_bit_buffer_eob.
  destruct (Z.leb_spec (bb_eob b) (bb_ptr b)), (Z.leb_spec (bb_eob B) (bb_ptr B));
    try lia; auto.
Qed.

Lemma encode_bitplane_rel data band b B :
  bb_live b B →
  (bb_live (SQZ_encode_bitplane data band b).1.2 (SQZ_encode_bitplane data band B).1.2
   ∧ (SQZ_encode_bitplane data band b).1.1 = (SQZ_encode_bitplane data band B).1.1
   ∧ (SQZ_encode_bitplane data band b).2 = (SQZ_encode_bitplane data band B).2)
  ∨ bb_stopped (SQZ_encode_bitplane data band b).1.2 (SQZ_encode_bitplane data band B).1.2.
Proof.
  intros Hlive. unfold SQZ_encode_bitplane.
  destruct (encode_sorting_pass_rel data band b B Hlive) as [(Hl & Hb & Hok)|Hs];
    destruct (SQZ_encode_sorting_pass data band b) as [[band1 b1] ok1],
             (SQZ_encode_sorting_pass data band B) as [[BAND1 B1] OK1];
    cbn [fst snd] in *; [|stop_here Hs].
  subst BAND1 OK1. destruct (negb (truthy ok1)); [left; cbn; auto|].
  unfold SQZ_encode_refinement_pass.
  destruct (encode_refinement_loop_rel data band1 (bitplane_mask_of band1) (LSP band1) b1 B1 Hl)
    as [Hl2|Hs].
  - destruct (live_eob _ _ Hl2) as [-> ->]. cbn. left. auto.
  - right. generalize dependent (encode_refinement_loop data band1 (bitplane_mask_of band1)
                                   (LSP band1) b1).
    generalize dependent (encode_refinement_loop data band1 (bitplane_mask_of band1)
                                   (LSP band1) B1).
    intros B2 b2 Hs. cbn [fst snd].
    destruct (negb (truthy (of_bool (negb (SQZ_bit_buffer_eob b2))))),
             (negb (truthy (of_bool (negb (SQZ_bit_buffer_eob B2))))); exact Hs.
Qed.

Lemma encode_init_rel fuel data band scan b B r R :
  bb_live b B →
  SQZ_encode_init_subband fuel data band scan b = Some r →
  SQZ_encode_init_subband fuel data band scan B = Some R →
  (bb_live r.1.2 R.1.2 ∧ r.1.1 = R.1.1 ∧ r.2 = R.2) ∨ bb_stopped r.1.2 R.1.2.
Proof.
  intros Hlive. unfold SQZ_encode_init_subband.
  destruct (SQZ_common_init_subband fuel band scan) as [[[b0 s0] r0]|]; simpl; [|discriminate].
  match goal with |- context [SQZ_bit_buffer_write_bits b ?x 4] =>
    destruct (write_bits_rel b B x 4 ltac:(lia) Hlive) as [[Hl Hok]|Hs];
    destruct (SQZ_bit_buffer_write_bits b x 4) as [b1 ok1],
             (SQZ_bit_buffer_write_bits B x 4) as [B1 OK1]
  end; cbn [fst snd] in *; intros H1 H2; injection H1 as <-; injection H2 as <-; cbn.
  - left. auto.
  - right. exact Hs.
Qed.

Lemma schedule_advance_set_buffer st b :
  schedule_advance (sched_set_buffer st b) = step_set_buffer (schedule_advance st) b.
Proof.
  destruct st as [ctx scan state plane level orientation round done].
  unfold schedule_advance, sched_set_buffer.
  cbn [sched_ctx sched_scan sched_state sched_plane sched_level sched_orientation sched_round
       sched_done ctx_image ctx_set_buffer].
  repeat match goal with |- context [if ?c then _ else _] => destruct c end; reflexivity.
Qed.

#[local] Opaque schedule_advance.

(** The second half of a turn of the scheduler: the task on the subband and
    the move to the next one. *)
Lemma visit_task_extends ctx scan state plane level orientation round done band x s :
  bb_wf x →
  (let '(data, band', buffer, ok) := SQZ_encode_bitplane (ctx_data ctx) band x in
   let ctx' := ctx_set_buffer (ctx_set_data (set_band ctx plane level orientation band') data)
                              buffer in
   if negb (truthy ok) then Some (Step_return ctx' SQZ_RESULT_OK)
   else Some (schedule_advance
                (mk_schedule ctx' scan state plane level orientation round
                             (Z.land done (of_bool (band_bitplane band' =? 0)))))) = Some s →
  bb_extends x (step_buffer s).
Proof.
  intros Hwf. pose proof (encode_bitplane_extends (ctx_data ctx) band x Hwf) as Ht.
  destruct (SQZ_encode_bitplane (ctx_data ctx) band x) as [[[data3 band3] buffer3] ok3].
  cbn [fst snd] in Ht.
  destruct (negb (truthy ok3)); intros H; injection H as <-.
  - exact Ht.
  - rewrite schedule_advance_buffer. exact Ht.
Qed.

Lemma visit_task_rel ctx scan state plane level orientation round done band b B s S :
  bb_live b B →
  (let '(data, band', buffer, ok) := SQZ_encode_bitplane (ctx_data ctx) band b in
   let ctx' := ctx_set_buffer (ctx_set_data (set_band ctx plane level orientation band') data)
                              buffer in
   if negb (truthy ok) then Some (Step_return ctx' SQZ_RESULT_OK)
   else Some (schedule_advance
                (mk_schedule ctx' scan state plane level orientation round
                             (Z.land done (of_bool (band_bitplane band' =? 0)))))) = Some s →
  (let '(data, band', buffer, ok) := SQZ_encode_bitplane (ctx_data ctx) band B in
   let ctx' := ctx_set_buffer (ctx_set_data (set_band ctx plane level orientation band') data)
                              buffer in
   if negb (truthy ok) then Some (Step_return ctx' SQZ_RESULT_OK)
   else Some (schedule_advance
                (mk_schedule ctx' scan state plane level orientation round
                             (Z.land done (of_bool (band_bitplane band' =? 0)))))) = Some S →
  (bb_live (step_buffer s) (step_buffer S) ∧ s = step_set_buffer S (step_buffer s))
  ∨ bb_stopped (step_buffer s) (step_buffer S).
Proof.
  intros Hlive H1 H2.
  destruct (encode_bitplane_rel (ctx_data ctx) band b B Hlive) as [(Hl & Hb & Hok)|Hs].
  - destruct (SQZ_encode_bitplane (ctx_data ctx) band b) as [[[data3 band3] b3] ok3],
             (SQZ_encode_bitplane (ctx_data ctx) band B) as [[[DATA3 BAND3] B3] OK3].
    cbn [fst snd] in *. injection Hb as -> ->. subst OK3.
    destruct (negb (truthy ok3)); injection H1 as <-; injection H2 as <-.
    + left. split; [exact Hl|reflexivity].
    + left. rewrite !schedule_advance_buffer. cbn [sched_ctx ctx_buffer ctx_set_buffer].
      split; [exact Hl|].
      match goal with |- _ = step_set_buffer (schedule_advance ?ST) _ =>
        exact (schedule_advance_set_buffer ST b3)
      end.
  - right.
    destruct (SQZ_encode_bitplane (ctx_data ctx) band b) as [[[data3 band3] b3] ok3],
             (SQZ_encode_bitplane (ctx_data ctx) band B) as [[[DATA3 BAND3] B3] OK3].
    cbn [fst snd] in *.
    destruct (negb (truthy ok3)), (negb (truthy OK3)); injection H1 as <-; injection H2 as <-;
      rewrite ?schedule_advance_buffer; exact Hs.
Qed.

Lemma schedule_visit_rel fuel st b B s S :
  bb_live b B →
  schedule_visit fuel SQZ_encode_init_subband SQZ_encode_bitplane (sched_set_buffer st b)
  = Some s →
  schedule_visit fuel SQZ_encode_init_subband SQZ_encode_bitplane (sched_set_buffer st B)
  = Some S →
  (bb_live (step_buffer s) (step_buffer S) ∧ s = step_set_buffer S (step_buffer s))
  ∨ bb_stopped (step_buffer s) (step_buffer S).
Proof.
  intros Hlive. destruct st as [ctx scan state plane level orientation round done].
  unfold sched_set_buffer, schedule_visit.
  cbn [sched_ctx sched_scan sched_state sched_plane sched_level sched_orientation sched_round
       sched_done].
  change (get_band (ctx_set_buffer ctx b) plane level orientation)
    with (get_band ctx plane level orientation).
  change (get_band (ctx_set_buffer ctx B) plane level orientation)
    with (get_band ctx plane level orientation).
  set (band := get_band ctx plane level orientation).
  destruct (_ || _).
  { intros H1 H2; injection H1 as <-; injection H2 as <-.
    left. rewrite !schedule_advance_buffer. cbn [sched_ctx ctx_buffer ctx_set_buffer].
    split; [exact Hlive|].
    match goal with |- _ = step_set_buffer (schedule_advance ?ST) _ =>
      exact (schedule_advance_set_buffer ST b)
    end. }
  destruct (band_round band =? round).
  - destruct (SQZ_scan_init fuel scan band) as [[scan1 r1]|]; cbn [mbind option_bind];
      [|discriminate].
    change (ctx_data (ctx_set_buffer ctx b)) with (ctx_data ctx).
    change (ctx_data (ctx_set_buffer ctx B)) with (ctx_data ctx).
    change (ctx_buffer (ctx_set_buffer ctx b)) with b.
    change (ctx_buffer (ctx_set_buffer ctx B)) with B.
    destruct (SQZ_encode_init_subband fuel (ctx_data ctx) band scan1 b)
      as [[[[band2 scan2] b2] result2]|] eqn:E1; cbn [mbind option_bind]; [|discriminate].
    destruct (SQZ_encode_init_subband fuel (ctx_data ctx) band scan1 B)
      as [[[[BAND2 SCAN2] B2] RESULT2]|] eqn:E2; cbn [mbind option_bind]; [|discriminate].
    pose proof (encode_init_ok _ _ _ _ _ _ _ _ _ E1) as ->.
    pose proof (encode_init_ok _ _ _ _ _ _ _ _ _ E2) as ->.
    destruct (encode_init_rel _ _ _ _ _ _ _ _ Hlive E1 E2) as [(Hl & Hbs & _)|Hs];
      cbn [fst snd] in *.
    + injection Hbs as -> ->. intros H1 H2.
      exact (visit_task_rel (ctx_set_buffer (set_band (ctx_set_buffer ctx b) plane level
                                                       orientation BAND2) b2)
               SCAN2 state plane level orientation round done BAND2 b2 B2 s S Hl H1 H2).
    + intros H1 H2. right. apply (stopped_extends _ _ _ _ Hs).
      * exact (visit_task_extends (ctx_set_buffer (set_band (ctx_set_buffer ctx b) plane level
                                                       orientation band2) b2)
                 scan2 state plane level orientation round done band2 b2 s
                 (stopped_wf_l _ _ Hs) H1).
      * exact (visit_task_extends (ctx_set_buffer (set_band (ctx_set_buffer ctx B) plane level
                                                       orientation BAND2) B2)
                 SCAN2 state plane level orientation round done BAND2 B2 S
                 (stopped_wf_r _ _ Hs) H2).
  - cbn [mbind option_bind]. intros H1 H2.
    exact (visit_task_rel (ctx_set_buffer (set_band (ctx_set_buffer ctx b) plane level
                                                     orientation band) b)
             scan state plane level orientation round done band b B s S Hlive H1 H2).
Qed.

Lemma step_set_buffer_same s S :
  s = step_set_buffer S (step_buffer s) →
  match s, S with
  | Step_next st, Step_next ST => st = sched_set_buffer ST (ctx_buffer (sched_ctx st))
  | Step_break st, Step_break ST => st = sched_set_buffer ST (ctx_buffer (sched_ctx st))
  | Step_return ctx r, Step_return CTX R => ctx = ctx_set_buffer CTX (ctx_buffer ctx) ∧ r = R
  | _, _ => False
  end.
Proof.
  destruct s, S; cbn; intros H; try discriminate; injection H; auto.
Qed.

Lemma sched_set_buffer_twice st b b' :
  sched_set_buffer (sched_set_buffer st b) b' = sched_set_buffer st b'.
Proof. reflexivity. Qed.

Lemma schedule_round_rel fuel n : ∀ st b B s S,
  bb_live b B →
  schedule_round fuel n SQZ_encode_init_subband SQZ_encode_bitplane (sched_set_buffer st b)
  = Some s →
  schedule_round fuel n SQZ_encode_init_subband SQZ_encode_bitplane (sched_set_buffer st B)
  = Some S →
  (bb_live (step_buffer s) (step_buffer S) ∧ s = step_set_buffer S (step_buffer s))
  ∨ bb_stopped (step_buffer s) (step_buffer S).
Proof.
  induction n as [|n IH]; intros st b B s S Hlive; [discriminate|].
  cbn [schedule_round].
  destruct (schedule_visit fuel _ _ (sched_set_buffer st b)) as [s1|] eqn:E1;
    cbn [mbind option_bind]; [|discriminate].
  destruct (schedule_visit fuel _ _ (sched_set_buffer st B)) as [S1|] eqn:E2;
    cbn [mbind option_bind]; [|discriminate].
  destruct (schedule_visit_rel _ _ _ _ _ _ Hlive E1 E2) as [[Hl Hsame]|Hs].
  - apply step_set_buffer_same in Hsame.
    destruct s1 as [st1|st1|c1 r1], S1 as [ST1|ST1|C1 R1]; try contradiction;
      cbn [step_buffer] in *.
    + rewrite Hsame. intros H1 H2.
      apply (IH ST1 (ctx_buffer (sched_ctx st1)) (ctx_buffer (sched_ctx ST1))); auto.
      replace (sched_set_buffer ST1 (ctx_buffer (sched_ctx ST1))) with ST1; [exact H2|].
      destruct ST1 as [[? ? ? ?] ? ? ? ? ? ? ?]; reflexivity.
    + intros H1 H2; injection H1 as <-; injection H2 as <-. left. cbn [step_buffer step_set_buffer].
      split; [exact Hl|]. f_equal. exact Hsame.
    + intros H1 H2; injection H1 as <-; injection H2 as <-. left. cbn [step_buffer step_set_buffer].
      destruct Hsame as [Hc ->]. split; [exact Hl|]. f_equal. exact Hc.
  - intros H1 H2. right. apply (stopped_extends _ _ _ _ Hs).
    + destruct s1 as [st1|st1|c1 r1]; try (injection H1 as <-; apply extends_refl;
                                             exact (stopped_wf_l _ _ Hs)).
      exact (schedule_round_extends _ _ _ _ _ _ encode_init_extends encode_bitplane_extends
               (stopped_wf_l _ _ Hs) H1).
    + destruct S1 as [ST1|ST1|C1 R1]; try (injection H2 as <-; apply extends_refl;
                                             exact (stopped_wf_r _ _ Hs)).
      exact (schedule_round_extends _ _ _ _ _ _ encode_init_extends encode_bitplane_extends
               (stopped_wf_r _ _ Hs) H2).
Qed.

Lemma schedule_rounds_rel fuel n : ∀ st b B r R,
  bb_live b B →
  schedule_rounds fuel n SQZ_encode_init_subband SQZ_encode_bitplane (sched_set_buffer st b)
  = Some r →
  schedule_rounds fuel n SQZ_encode_init_subband SQZ_encode_bitplane (sched_set_buffer st B)
  = Some R →
  (bb_live (ctx_buffer r.1) (ctx_buffer R.1) ∧ r.1 = ctx_set_buffer R.1 (ctx_buffer r.1)
   ∧ r.2 = R.2)
  ∨ bb_stopped (ctx_buffer r.1) (ctx_buffer R.1).
Proof.
  induction n as [|n IH]; intros st b B r R Hlive; [discriminate|].
  destruct st as [ctx scan state plane level orientation round done].
  cbn [schedule_rounds sched_set_buffer sched_done sched_ctx sched_scan sched_state sched_plane
       sched_level sched_orientation sched_round].
  change (ctx_buffer (ctx_set_buffer ctx b)) with b.
  change (ctx_buffer (ctx_set_buffer ctx B)) with B.
  destruct (live_eob _ _ Hlive) as [-> ->].
  destruct (negb (truthy done)); cbn [negb andb].
  2:{ intros H1 H2; injection H1 as <-; injection H2 as <-. left. cbn. auto. }
  destruct (schedule_round fuel fuel _ _
              (mk_schedule (ctx_set_buffer ctx b) scan state plane level orientation round 1))
    as [s|] eqn:E1; cbn [mbind option_bind]; [|discriminate].
  destruct (schedule_round fuel fuel _ _
              (mk_schedule (ctx_set_buffer ctx B) scan state plane level orientation round 1))
    as [S|] eqn:E2; cbn [mbind option_bind]; [|discriminate].
  destruct (schedule_round_rel fuel fuel
              (mk_schedule ctx scan state plane level orientation round 1) b B s S Hlive E1 E2)
    as [[Hl Hsame]|Hs].
  - apply step_set_buffer_same in Hsame.
    destruct s as [st1|st1|c1 r1], S as [ST1|ST1|C1 R1]; try contradiction;
      cbn [step_buffer] in *.
    + destruct st1 as [c1 s1 a1 p1 l1 o1 r1 d1], ST1 as [C1 S1 A1 P1 L1 O1 R1 D1].
      cbn [sched_ctx] in *. injection Hsame as Hc -> -> -> -> -> -> ->.
      intros H1 H2.
      apply (IH (mk_schedule C1 S1 A1 P1 L1 O1 (s32 (R1 + 1)) D1) (ctx_buffer c1)
                (ctx_buffer C1)); auto.
      * unfold sched_set_buffer; cbn. rewrite <- Hc. exact H1.
      * replace (sched_set_buffer (mk_schedule C1 S1 A1 P1 L1 O1 (s32 (R1 + 1)) D1)
                                  (ctx_buffer C1))
          with (mk_schedule C1 S1 A1 P1 L1 O1 (s32 (R1 + 1)) D1); [exact H2|].
        destruct C1; reflexivity.
    + destruct st1 as [c1 s1 a1 p1 l1 o1 r1 d1], ST1 as [C1 S1 A1 P1 L1 O1 R1 D1].
      cbn [sched_ctx] in *. injection Hsame as Hc -> -> -> -> -> -> ->.
      intros H1 H2.
      apply (IH (mk_schedule C1 S1 A1 P1 L1 O1 (s32 (R1 + 1)) D1) (ctx_buffer c1)
                (ctx_buffer C1)); auto.
      * unfold sched_set_buffer; cbn. rewrite <- Hc. exact H1.
      * replace (sched_set_buffer (mk_schedule C1 S1 A1 P1 L1 O1 (s32 (R1 + 1)) D1)
                                  (ctx_buffer C1))
          with (mk_schedule C1 S1 A1 P1 L1 O1 (s32 (R1 + 1)) D1); [exact H2|].
        destruct C1; reflexivity.
    + destruct Hsame as [Hc ->].
      intros H1 H2; injection H1 as <-; injection H2 as <-. left. cbn. auto.
  - intros H1 H2. right. apply (stopped_extends _ _ _ _ Hs).
    + destruct s as [st1|st1|c1 r1]; cbn [step_buffer] in *.
      * destruct st1 as [c1 s1 a1 p1 l1 o1 r1 d1].
        exact (schedule_rounds_extends fuel _ _ n
                 (mk_schedule c1 s1 a1 p1 l1 o1 (s32 (r1 + 1)) d1) r
                 encode_init_extends encode_bitplane_extends (stopped_wf_l _ _ Hs) H1).
      * destruct st1 as [c1 s1 a1 p1 l1 o1 r1 d1].
        exact (schedule_rounds_extends fuel _ _ n
                 (mk_schedule c1 s1 a1 p1 l1 o1 (s32 (r1 + 1)) d1) r
                 encode_init_extends encode_bitplane_extends (stopped_wf_l _ _ Hs) H1).
      * injection H1 as <-. apply extends_refl. exact (stopped_wf_l _ _ Hs).
    + destruct S as [st1|st1|c1 r1]; cbn [step_buffer] in *.
      * destruct st1 as [c1 s1 a1 p1 l1 o1 r1 d1].
        exact (schedule_rounds_extends fuel _ _ n
                 (mk_schedule c1 s1 a1 p1 l1 o1 (s32 (r1 + 1)) d1) R
                 encode_init_extends encode_bitplane_extends (stopped_wf_r _ _ Hs) H2).
      * destruct st1 as [c1 s1 a1 p1 l1 o1 r1 d1].
        exact (schedule_rounds_extends fuel _ _ n
                 (mk_schedule c1 s1 a1 p1 l1 o1 (s32 (r1 + 1)) d1) R
                 encode_init_extends encode_bitplane_extends (stopped_wf_r _ _ Hs) H2).
      * injection H2 as <-. apply extends_refl. exact (stopped_wf_r _ _ Hs).
Qed.

Lemma schedule_task_rel fuel ctx b B r R :
  bb_live b B →
  SQZ_schedule_task fuel (ctx_set_buffer ctx b) SQZ_encode_init_subband SQZ_encode_bitplane
  = Some r →
  SQZ_schedule_task fuel (ctx_set_buffer ctx B) SQZ_encode_init_subband SQZ_encode_bitplane
  = Some R →
  (bb_live (ctx_buffer r.1) (ctx_buffer R.1) ∧ r.1 = ctx_set_buffer R.1 (ctx_buffer r.1)
   ∧ r.2 = R.2)
  ∨ bb_stopped (ctx_buffer r.1) (ctx_buffer R.1).
Proof.
  intros Hlive H1 H2. unfold SQZ_schedule_task in H1, H2.
  cbn [ctx_image ctx_set_buffer] in H1, H2.
  exact (schedule_rounds_rel fuel fuel
           (mk_schedule ctx (mk_scan WS_null Scan_null (scan_order (ctx_image ctx)) 0 0 0 0)
                        0 0 0 0 0 0) b B r R Hlive H1 H2).
Qed.

#[local] Transparent schedule_advance.

Lemma write_bits_either b B bits width :
  0 <= width < 2 ^ 32 → bb_live b B ∨ bb_stopped b B →
  bb_live (SQZ_bit_buffer_write_bits b bits width).1 (SQZ_bit_buffer_write_bits B bits width).1
  ∨ bb_stopped (SQZ_bit_buffer_write_bits b bits width).1
               (SQZ_bit_buffer_write_bits B bits width).1.
Proof.
  intros Hw [Hl|Hs].
  - destruct (write_bits_rel b B bits width Hw Hl) as [[H _]|H]; auto.
  - right. apply (stopped_extends _ _ _ _ Hs); apply write_bits_extends; auto;
      [exact (stopped_wf_l _ _ Hs)|exact (stopped_wf_r _ _ Hs)].
Qed.

Lemma write_bit_either b B bit :
  bit = 0 ∨ bit = 1 → bb_live b B ∨ bb_stopped b B →
  bb_live (SQZ_bit_buffer_write_bit b bit).1 (SQZ_bit_buffer_write_bit B bit).1
  ∨ bb_stopped (SQZ_bit_buffer_write_bit b bit).1 (SQZ_bit_buffer_write_bit B bit).1.
Proof.
  intros Hb [Hl|Hs].
  - destruct (write_bit_rel b B bit Hl) as [[H _]|H]; auto.
  - right. apply (stopped_extends _ _ _ _ Hs); apply write_bit_extends; auto;
      [exact (stopped_wf_l _ _ Hs)|exact (stopped_wf_r _ _ Hs)].
Qed.

Lemma encode_header_either d b B :
  bb_live b B ∨ bb_stopped b B →
  bb_live (SQZ_encode_header d b).1 (SQZ_encode_header d B).1
  ∨ bb_stopped (SQZ_encode_header d b).1 (SQZ_encode_header d B).1.
Proof.
  intros H. unfold SQZ_encode_header.
  repeat match goal with
  | |- context [let '(_, _) := SQZ_bit_buffer_write_bits b ?x ?w in _] =>
      apply (write_bits_either b B x w ltac:(lia)) in H;
      destruct (SQZ_bit_buffer_write_bits b x w) as [? ?],
               (SQZ_bit_buffer_write_bits B x w) as [? ?]; cbn [fst] in H
  | H : bb_live ?b ?B ∨ _ |- context [let '(_, _) := SQZ_bit_buffer_write_bits ?b ?x ?w in _] =>
      apply (write_bits_either b B x w ltac:(lia)) in H;
      destruct (SQZ_bit_buffer_write_bits b x w) as [? ?],
               (SQZ_bit_buffer_write_bits B x w) as [? ?]; cbn [fst] in H
  end.
  match goal with
  | H : bb_live ?b ?B ∨ _ |- context [let '(_, _) := SQZ_bit_buffer_write_bit ?b ?x in _] =>
      apply (write_bit_either b B x (of_bool_01 _)) in H;
      destruct (SQZ_bit_buffer_write_bit b x) as [? ?],
               (SQZ_bit_buffer_write_bit B x) as [? ?]; cbn [fst] in H
  end.
  exact H.
Qed.

(** The bit buffer is only carried along by the steps of [SQZ_encode] that
    come before the scheduler. *)
Lemma for_loop_commute {T : Type} (g : T → T) (body : Z → T → T) n : ∀ i s s',
  s' = g s → (∀ j a, body j (g a) = g (body j a)) →
  for_loop n i body s' = g (for_loop n i body s).
Proof.
  induction n as [|n IH]; intros i s s' -> Hstep; cbn [for_loop]; [reflexivity|].
  apply IH; auto.
Qed.

Lemma for_down_commute {T : Type} (g : T → T) (body : Z → T → T) n : ∀ s s',
  s' = g s → (∀ j a, body j (g a) = g (body j a)) →
  for_down n body s' = g (for_down n body s).
Proof.
  induction n as [|n IH]; intros s s' -> Hstep; cbn [for_down]; [reflexivity|].
  apply IH; auto.
Qed.

Lemma common_init_context_set_buffer c x :
  (SQZ_common_init_context (ctx_set_buffer c x)).1
  = ctx_set_buffer (SQZ_common_init_context c).1 x.
Proof.
  unfold SQZ_common_init_context. cbn [fst]. unfold for_range.
  apply (for_loop_commute (λ a, ctx_set_buffer a x)); [reflexivity|].
  intros plane a.
  set (g := λ st, mk_extent (ctx_set_buffer (extent_ctx st) x) (extent_w st) (extent_h st)).
  match goal with |- extent_ctx ?L = ctx_set_buffer (extent_ctx ?R) x =>
    assert (Hg : L = g R); [|rewrite Hg; reflexivity]
  end.
  apply (for_down_commute g); [reflexivity|].
  intros level [a' w h]. unfold g. cbn [extent_ctx extent_w extent_h]. f_equal.
  apply (for_loop_commute (λ a, ctx_set_buffer a x)); [reflexivity|].
  intros orientation a''. reflexivity.
Qed.

Lemma color_process_set_buffer c x source :
  SQZ_color_process (ctx_set_buffer c x) source true
  = (ctx_set_buffer (SQZ_color_process c source true).1 x,
     (SQZ_color_process c source true).2).
Proof.
  unfold SQZ_color_process. cbn [ctx_image ctx_set_buffer].
  repeat match goal with |- context [if ?c then _ else _] => destruct c end; reflexivity.
Qed.

Lemma dwt_set_buffer fuel c x :
  SQZ_dwt fuel (ctx_set_buffer c x)
  = (λ r, (ctx_set_buffer r.1 x, r.2)) <$> SQZ_dwt fuel c.
Proof.
  unfold SQZ_dwt. cbn [ctx_image ctx_set_buffer ctx_data].
  change (get_plane_data (ctx_set_buffer c x)) with (get_plane_data c).
  destruct (for_range _ _ _ _) as [r|]; reflexivity.
Qed.

Lemma take_load_ext (l l' : list Z) k :
  0 <= k → k <= Z.of_nat (length l) → k <= Z.of_nat (length l') →
  (∀ i, 0 <= i < k → load l i = load l' i) →
  take (Z.to_nat k) l = take (Z.to_nat k) l'.
Proof.
  intros Hk Hl Hl' H. apply list_load_ext.
  - rewrite !length_take. lia.
  - intros j Hj. rewrite length_take in Hj. unfold load.
    rewrite !lookup_total_take.
    destruct (decide (Z.to_nat j < Z.to_nat k)%nat); [|lia]. apply H. lia.
Qed.

(** What [SQZ_encode] does after the header, for a context [c] that holds
    the bit buffer [x]. *)
Lemma encode_after_header fuel c x source d budget r :
  (let '(ctx, result) := SQZ_common_init_context (ctx_set_buffer c x) in
   let '(ctx, source) := SQZ_color_process ctx source true in
   '(ctx, result) ← SQZ_dwt fuel ctx;
   let ctx := SQZ_dwt_convert_to_sign_magnitude ctx in
   '(ctx, result) ← SQZ_schedule_task fuel ctx SQZ_encode_init_subband SQZ_encode_bitplane;
   match result with
   | SQZ_RESULT_OK =>
       let budget :=
         usize (SQZ_bit_buffer_bits_used (ctx_buffer ctx) + (CHAR_BIT - 1)) / CHAR_BIT in
       Some (mk_encoded SQZ_RESULT_OK source (bb_data (ctx_buffer ctx)) d budget)
   | _ => Some (mk_encoded result source (bb_data (ctx_buffer ctx)) d budget)
   end) = Some r →
  ∃ c2 r2 c4,
    SQZ_dwt fuel (SQZ_color_process (SQZ_common_init_context c).1 source true).1 = Some (c2, r2)
    ∧ SQZ_schedule_task fuel (ctx_set_buffer (SQZ_dwt_convert_to_sign_magnitude c2) x)
        SQZ_encode_init_subband SQZ_encode_bitplane = Some (c4, SQZ_RESULT_OK)
    ∧ r = mk_encoded SQZ_RESULT_OK (SQZ_color_process (SQZ_common_init_context c).1 source true).2
                     (bb_data (ctx_buffer c4)) d
                     (usize (SQZ_bit_buffer_bits_used (ctx_buffer c4) + (CHAR_BIT - 1))
                      / CHAR_BIT).
Proof.
  pose proof (common_init_context_set_buffer c x) as Hc.
  destruct (SQZ_common_init_context (ctx_set_buffer c x)) as [c1 r1]. cbn [fst] in Hc. subst c1.
  rewrite color_process_set_buffer. rewrite dwt_set_buffer.
  destruct (SQZ_dwt fuel _) as [[c2 r2]|]; cbn [fmap option_fmap option_map mbind option_bind fst snd];
    [|discriminate].
  change (SQZ_dwt_convert_to_sign_magnitude (ctx_set_buffer c2 x))
    with (ctx_set_buffer (SQZ_dwt_convert_to_sign_magnitude c2) x).
  destruct (SQZ_schedule_task fuel _ _ _) as [[c4 r4]|] eqn:E; cbn [mbind option_bind];
    [|discriminate].
  pose proof (schedule_task_ok _ _ _ _ _ encode_init_ok E) as Hr. cbn [snd] in Hr. subst r4.
  intros H; injection H as <-. exists c2, r2, c4. auto.
Qed.

Lemma encode_smaller_budget_holds fuel source dest d k K e E :
  0 <= k <= K → K <= Z.of_nat (length dest) → K < 2 ^ 60 →
  SQZ_encode fuel source dest d k = Some e →
  SQZ_encode fuel source dest d K = Some E →
  take (Z.to_nat k) (encoded_dest e) = take (Z.to_nat k) (encoded_dest E)
  ∧ (SQZ_HEADER_SIZE < k → encoded_status e = encoded_status E)
  ∧ (encoded_status e = SQZ_RESULT_OK →
     encoded_status E = SQZ_RESULT_OK ∧ encoded_budget e = Z.min k (encoded_budget E)).
Proof.
  intros Hk HK H60. unfold SQZ_encode.
  destruct (SQZ_validate_input d false) as [d' result].
  destruct result;
    try (intros H1 H2; injection H1 as <-; injection H2 as <-; cbn;
         split; [reflexivity|]; split; [reflexivity|discriminate]).
  change (ctx_buffer (context_zero d' (SQZ_bit_buffer_init dest k)))
    with (SQZ_bit_buffer_init dest k).
  change (ctx_buffer (context_zero d' (SQZ_bit_buffer_init dest K)))
    with (SQZ_bit_buffer_init dest K).
  set (c0 := context_zero d' (SQZ_bit_buffer_init dest k)).
  change (ctx_set_buffer (context_zero d' (SQZ_bit_buffer_init dest K)) ?x)
    with (ctx_set_buffer c0 x).
  set (b0 := SQZ_bit_buffer_init dest k). set (B0 := SQZ_bit_buffer_init dest K).
  assert (Hwf0 : bb_wf b0) by (unfold bb_wf, b0, SQZ_bit_buffer_init; simpl; lia).
  assert (HwfB0 : bb_wf B0) by (unfold bb_wf, B0, SQZ_bit_buffer_init; simpl; lia).
  assert (H0 : bb_live b0 B0 ∨ bb_stopped b0 B0).
  { destruct (Z.eq_dec k 0) as [->|Hne].
    - right. apply agree_stopped; auto; simpl; lia.
    - left. unfold bb_live. repeat split; try apply Hwf0; try apply HwfB0; simpl; lia. }
  pose proof (encode_header_either d' b0 B0 H0) as H1.
  pose proof (encode_header_extends d' b0 Hwf0) as Hx1.
  pose proof (encode_header_extends d' B0 HwfB0) as HX1.
  pose proof (encode_header_pos d' b0 Hwf0) as (_ & _ & Hp1 & Hok1).
  pose proof (encode_header_pos d' B0 HwfB0) as (_ & _ & HP1 & HOK1).
  destruct (SQZ_encode_header d' b0) as [b1 ok1], (SQZ_encode_header d' B0) as [B1 OK1].
  cbn [fst snd] in *. subst ok1 OK1.
  change (bb_pos b0) with 0 in Hp1. change (bb_eob b0) with k in Hp1.
  change (bb_pos B0) with 0 in HP1. change (bb_eob B0) with K in HP1.
  assert (Hfinish : ∀ b B,
            bb_extends b0 b → bb_extends B0 B → bb_live b B ∨ bb_stopped b B →
            take (Z.to_nat k) (bb_data b) = take (Z.to_nat k) (bb_data B)
            ∧ usize (SQZ_bit_buffer_bits_used b + (CHAR_BIT - 1)) / CHAR_BIT
              = Z.min k (usize (SQZ_bit_buffer_bits_used B + (CHAR_BIT - 1)) / CHAR_BIT)).
  { intros b B (Hwf & He & Hlen & _) (HwfB & HeB & HlenB & _) Hrel.
    change (bb_eob b0) with k in He. change (bb_eob B0) with K in HeB.
    change (bb_data b0) with dest in Hlen. change (bb_data B0) with dest in HlenB.
    pose proof Hwf as (? & ? & ? & ?). pose proof HwfB as (? & ? & ? & ?).
    unfold SQZ_bit_buffer_bits_used, CHAR_BIT.
    rewrite !usize_small by lia.
    destruct Hrel as [(_ & _ & Hd & Hp & Hi & _ & Hlt)|(_ & _ & Hfull & Hge & Hbytes)].
    - rewrite Hd, <- Hp, <- Hi. split; [reflexivity|].
      assert ((bb_ptr b * 8 + bb_index b + (8 - 1)) / 8 < k + 1)
        by (apply Z.div_lt_upper_bound; lia).
      lia.
    - split; [apply take_load_ext; try lia; intros i Hi; apply Hbytes; lia|].
      assert (bb_index b = 0) by lia.
      assert ((bb_ptr b * 8 + bb_index b + (8 - 1)) / 8 = k).
      { apply div8_eq. lia. }
      assert (k <= (bb_ptr B * 8 + bb_index B + (8 - 1)) / 8)
        by (apply Z.div_le_lower_bound; lia).
      lia. }
  destruct (SQZ_bit_buffer_eob b1) eqn:Ee1; cbn [negb of_bool truthy Z.eqb].
  - (* the header does not fit in the smaller budget *)
    assert (Hs : bb_stopped b1 B1).
    { destruct H1 as [Hl|Hs]; [|exact Hs].
      destruct (live_eob _ _ Hl) as [Hf _]. congruence. }
    assert (Hk6 : k <= SQZ_HEADER_SIZE).
    { apply eob_iff_pos in Ee1; [|exact (stopped_wf_l _ _ Hs)].
      destruct Hx1 as (_ & He & _). change (bb_eob b0) with k in He. rewrite He in Ee1.
      unfold SQZ_HEADER_SIZE. lia. }
    destruct (SQZ_bit_buffer_eob B1) eqn:EE1; cbn [negb of_bool truthy Z.eqb].
    + intros H2 H3; injection H2 as <-; injection H3 as <-. cbn.
      split; [|split; [reflexivity|discriminate]].
      apply (Hfinish b1 B1 Hx1 HX1 (or_intror Hs)).
    + intros H2 H3; injection H2 as <-.
      apply encode_after_header in H3 as (c2 & r2 & c4 & _ & E4 & ->).
      apply (schedule_task_extends _ _ _ _ _ encode_init_extends encode_bitplane_extends) in E4;
        [|exact (stopped_wf_r _ _ Hs)].
      cbn [fst ctx_buffer ctx_set_buffer encoded_dest encoded_status encoded_budget] in *.
      split; [|split; [lia|discriminate]].
      apply (Hfinish b1 (ctx_buffer c4) Hx1 (extends_trans _ _ _ HX1 E4)).
      right. apply (stopped_extends _ _ _ _ Hs); [apply extends_refl|exact E4].
      exact (stopped_wf_l _ _ Hs).
  - assert (Hl : bb_live b1 B1).
    { destruct H1 as [Hl|Hs]; [exact Hl|].
      destruct Hs as (Hwf & _ & Hfull & _). unfold SQZ_bit_buffer_eob in Ee1.
      apply Z.leb_gt in Ee1. lia. }
    destruct (live_eob _ _ Hl) as [_ ->]. cbn [negb of_bool truthy Z.eqb].
    intros H2 H3.
    apply encode_after_header in H2 as (c2 & r2 & c4 & Ed & E4 & ->).
    apply encode_after_header in H3 as (C2 & R2 & C4 & ED & EE4 & ->).
    rewrite Ed in ED. injection ED as <- <-.
    pose proof (schedule_task_extends fuel
                  (ctx_set_buffer (SQZ_dwt_convert_to_sign_magnitude c2) b1) _ _ _
                  encode_init_extends encode_bitplane_extends (live_wf_l _ _ Hl) E4) as Hx4.
    pose proof (schedule_task_extends fuel
                  (ctx_set_buffer (SQZ_dwt_convert_to_sign_magnitude c2) B1) _ _ _
                  encode_init_extends encode_bitplane_extends (live_wf_r _ _ Hl) EE4) as HX4.
    pose proof (schedule_task_rel _ _ _ _ _ _ Hl E4 EE4) as Hrel.
    cbn [fst snd ctx_buffer ctx_set_buffer encoded_dest encoded_status encoded_budget] in *.
    assert (Hrel' : bb_live (ctx_buffer c4) (ctx_buffer C4)
                    ∨ bb_stopped (ctx_buffer c4) (ctx_buffer C4)).
    { destruct Hrel as [(H & _)|H]; auto. }
    destruct (Hfinish _ _ (extends_trans _ _ _ Hx1 Hx4) (extends_trans _ _ _ HX1 HX4) Hrel')
      as [Ht Hb].
    split; [exact Ht|]. split; [reflexivity|]. intros _. split; [reflexivity|exact Hb].
Qed.

(** The stream is embedded: for the same image and options, [SQZ_encode]
    with the budget [k] leaves in the first [k] bytes of a destination what
    it leaves there with any larger budget [K], and the size it hands back
    is the smaller of [k] and the size for [K].  The two calls return the
    same status once [k] is more than the six bytes of the header. *)
Theorem encode_smaller_budget fuel source dest d k K e E :
  0 <= k <= K → K <= Z.of_nat (length dest) → K < 2 ^ 60 →
  SQZ_encode fuel source dest d k = Some e →
  SQZ_encode fuel source dest d K = Some E →
  take (Z.to_nat k) (encoded_dest e) = take (Z.to_nat k) (encoded_dest E)
  ∧ (SQZ_HEADER_SIZE < k → encoded_status e = encoded_status E)
  ∧ (encoded_status e = SQZ_RESULT_OK →
     encoded_status E = SQZ_RESULT_OK ∧ encoded_budget e = Z.min k (encoded_budget E)).
Proof. apply encode_smaller_budget_holds. Qed.

Lemma encode_smaller_budget_witness :
  let d := mk_descriptor SQZ_COLOR_MODE_GRAYSCALE SQZ_SCAN_ORDER_RASTER 8 8 1 1 0 in
  ∃ e E, SQZ_encode 100 (replicate 64 200) (replicate 40 0) d 8 = Some e
         ∧ SQZ_encode 100 (replicate 64 200) (replicate 40 0) d 32 = Some E
         ∧ take (Z.to_nat 8) (encoded_dest e) = take (Z.to_nat 8) (encoded_dest E)
         ∧ (SQZ_HEADER_SIZE < 8 → encoded_status e = encoded_status E)
         ∧ (encoded_status e = SQZ_RESULT_OK →
            encoded_status E = SQZ_RESULT_OK
            ∧ encoded_budget e = Z.min 8 (encoded_budget E)).
Proof.
  cbv zeta.
  assert (Hk : 0 <= 8 <= 32) by lia.
  assert (HK : 32 <= Z.of_nat (length (replicate 40 0))) by (vm_compute; discriminate).
  assert (H60 : 32 < 2 ^ 60) by lia.
  eassert (He : SQZ_encode 100 (replicate 64 200) (replicate 40 0)
                  (mk_descriptor SQZ_COLOR_MODE_GRAYSCALE SQZ_SCAN_ORDER_RASTER 8 8 1 1 0) 8
                = Some _) by (vm_compute; reflexivity).
  eassert (HE : SQZ_encode 100 (replicate 64 200) (replicate 40 0)
                  (mk_descriptor SQZ_COLOR_MODE_GRAYSCALE SQZ_SCAN_ORDER_RASTER 8 8 1 1 0) 32
                = Some _) by (vm_compute; reflexivity).
  eexists _, _. split; [exact He|]. split; [exact HE|].
  exact (encode_smaller_budget _ _ _ _ _ _ _ _ Hk HK H60 He HE).
Defined.

(** ** The raster order visits every coefficient once *)

Lemma u16_small z : 0 <= z < 2 ^ 16 → u16 z = z.
Proof. intros. unfold u16. apply Z.mod_small. lia. Qed.

Lemma raster_snoc w x y :
  0 < w → 0 <= x < w → 0 <= y →
  map (λ p, (p mod w, p / w)) (seqZ 0 (y * w + x + 1))
  = map (λ p, (p mod w, p / w)) (seqZ 0 (y * w + x)) ++ [(x, y)].
Proof.
  intros Hw Hx Hy.
  assert (Hp : 0 <= y * w + x) by nia.
  rewrite (seqZ_app 0 (y * w + x) 1) by lia. rewrite map_app. f_equal.
  rewrite seqZ_cons by lia. rewrite seqZ_nil by lia. cbn [map]. f_equal.
  rewrite Z.add_0_l. f_equal.
  - symmetry. apply (Z.mod_unique_pos _ _ y); lia.
  - symmetry. apply (Z.div_unique_pos _ _ _ x); lia.
Qed.

Lemma raster_loop fuel ws ty w h n : ∀ x y,
  0 < w < 2 ^ 16 → 0 < h < 2 ^ 16 → 0 <= x < w → 0 <= y < h →
  (Z.to_nat (w * h - (y * w + x)) <= n)%nat →
  init_subband_loop fuel n (mk_cache (w * h) (y * w + x))
    (map (λ p, (p mod w, p / w)) (seqZ 0 (y * w + x)))
    (mk_scan ws Scan_raster ty x y w h)
  = Some (mk_cache (w * h) (w * h), raster_positions w h,
          mk_scan ws Scan_raster ty 0 h w h).
Proof.
  induction n as [|n IH]; intros x y Hw Hh Hx Hy Hn.
  { assert (y * w + x < w * h) by nia. lia. }
  assert (Hlt : y * w + x < w * h) by nia.
  cbn [init_subband_loop]. unfold SQZ_list_add. cbn [cache_capacity cache_index scan_x scan_y].
  destruct (Z.leb_spec (w * h) (y * w + x)); [lia|].
  rewrite (u16_small x), (u16_small y) by lia.
  rewrite <- raster_snoc by lia.
  unfold call_scan. cbn [scan_fn_of mbind option_bind]. unfold SQZ_scan_raster.
  cbn [scan_x scan_y scan_width scan_height]. rewrite !usize_small by lia.
  destruct (Z.leb_spec w (x + 1)) as [Hlast|Hmore].
  - destruct (Z.leb_spec h (y + 1)) as [Hend|Hrow]; cbn [truthy Z.eqb negb].
    + unfold scan_set_xy. cbn. unfold raster_positions.
      replace (y * w + x + 1) with (w * h) by nia.
      replace (y + 1) with h by lia. reflexivity.
    + unfold scan_set_xy.
      cbn [scan_workspace_of scan_fn_of scan_type scan_width scan_height].
      replace (y * w + x + 1) with ((y + 1) * w + 0) by nia.
      apply IH; try lia; nia.
  - cbn [truthy Z.eqb negb]. unfold scan_set_xy.
    cbn [scan_workspace_of scan_fn_of scan_type scan_width scan_height].
    replace (y * w + x + 1) with (y * w + (x + 1)) by lia.
    apply IH; try lia.
Qed.

(** With the raster order the list of insignificant pixels of a subband
    starts as the coordinates of all its coefficients, row by row and each
    row from left to right, every coefficient once; the two other lists
    are empty and the geometry of the subband is as it was. *)
Theorem raster_lists_every_position fuel band scan :
  0 < band_width band < 2 ^ 16 → 0 < band_height band < 2 ^ 16 →
  scan_type scan = SQZ_SCAN_ORDER_RASTER →
  (Z.to_nat (band_width band * band_height band) <= fuel)%nat →
  ∃ scan0 scan1 band',
    SQZ_scan_init fuel scan band = Some (scan0, SQZ_RESULT_OK)
    ∧ SQZ_common_init_subband fuel band scan0 = Some (band', scan1, SQZ_RESULT_OK)
    ∧ LIP band' = raster_positions (band_width band) (band_height band)
    ∧ LSP band' = [] ∧ NSP band' = []
    ∧ band_geometry band' = band_geometry band.
Proof.
  intros Hw Hh Hty Hfuel.
  unfold SQZ_scan_init, SQZ_scan_init_dims. rewrite Hty. cbn [Z.eqb SQZ_SCAN_ORDER_RASTER].
  unfold SQZ_scan_init_raster_context.
  eexists _, _, _. split; [reflexivity|].
  unfold SQZ_common_init_subband.
  assert (Hsz : 0 <= band_width band * band_height band < 2 ^ 64) by nia.
  rewrite usize_small by exact Hsz. unfold SQZ_node_cache_init, SQZ_list_init.
  pose proof (raster_loop fuel (scan_workspace_of scan) SQZ_SCAN_ORDER_RASTER (band_width band) (band_height band)
                fuel 0 0 Hw Hh ltac:(lia) ltac:(lia)) as Hloop.
  replace (0 * band_width band + 0) with 0 in Hloop by lia.
  rewrite seqZ_nil in Hloop by lia. cbn [map] in Hloop.
  match goal with |- context [init_subband_loop ?a ?b ?c ?d ?e] =>
    replace (init_subband_loop a b c d e)
      with (Some (mk_cache (band_width band * band_height band)
                           (band_width band * band_height band),
                  raster_positions (band_width band) (band_height band),
                  mk_scan (scan_workspace_of scan) Scan_raster SQZ_SCAN_ORDER_RASTER 0
                          (band_height band) (band_width band) (band_height band)))
      by (symmetry; apply Hloop; lia)
  end.
  cbn [mbind option_bind].
  split; [reflexivity|]. cbn. auto.
Qed.

Lemma raster_lists_every_position_witness :
  let band := mk_band (mk_cache 0 0) [] [] [] 0 3 2 8 0 0 0 in
  let scan := mk_scan WS_null Scan_null SQZ_SCAN_ORDER_RASTER 0 0 0 0 in
  ∃ scan0 scan1 band',
    SQZ_scan_init 6 scan band = Some (scan0, SQZ_RESULT_OK)
    ∧ SQZ_common_init_subband 6 band scan0 = Some (band', scan1, SQZ_RESULT_OK)
    ∧ LIP band' = raster_positions (band_width band) (band_height band)
    ∧ LSP band' = [] ∧ NSP band' = []
    ∧ band_geometry band' = band_geometry band.
Proof.
  cbv zeta.
  apply (raster_lists_every_position 6 (mk_band (mk_cache 0 0) [] [] [] 0 3 2 8 0 0 0)
           (mk_scan WS_null Scan_null SQZ_SCAN_ORDER_RASTER 0 0 0 0)).
  - simpl. lia.
  - simpl. lia.
  - reflexivity.
  - simpl. lia.
Defined.

(** ** The decoder reads back what the passes of the encoder wrote *)

Lemma bb_at_wf l eob p : 0 <= p <= 8 * eob → eob <= Z.of_nat (length l) → bb_wf (bb_at l eob p).
Proof.
  intros Hp Hl. unfold bb_wf, bb_at. cbn [bb_ptr bb_index bb_eob bb_data].
  pose proof (Z.div_mod p 8 ltac:(lia)). pose proof (Z.mod_pos_bound p 8 ltac:(lia)).
  repeat split; try lia.
Qed.

Lemma bb_at_pos l eob p : bb_pos (bb_at l eob p) = p.
Proof.
  unfold bb_pos, bb_at. cbn [bb_ptr bb_index]. pose proof (Z.div_mod p 8 ltac:(lia)). lia.
Qed.

Lemma bb_at_eq b : bb_wf b → b = bb_at (bb_data b) (bb_eob b) (bb_pos b).
Proof.
  intros Hwf. destruct (pos_div b Hwf) as [Hd Hm]. unfold bb_at. rewrite Hd, Hm.
  destruct b; reflexivity.
Qed.

Lemma bb_rewind_at b b' : bb_wf b → bb_rewind b b' = bb_at (bb_data b') (bb_eob b) (bb_pos b).
Proof.
  intros Hwf. destruct (pos_div b Hwf) as [Hd Hm]. unfold bb_at, bb_rewind.
  rewrite Hd, Hm. reflexivity.
Qed.

Lemma read_bit_at l eob p :
  0 <= p < 8 * eob → eob <= Z.of_nat (length l) →
  SQZ_bit_buffer_read_bit (bb_at l eob p) = (bb_at l eob (p + 1), of_bool (bit_at l p)).
Proof.
  intros Hp Hl.
  assert (Hwf : bb_wf (bb_at l eob p)) by (apply bb_at_wf; lia).
  destruct (read_bit_spec (bb_at l eob p) Hwf) as (c & E & Hwf' & Hp' & He' & Hd').
  { pose proof Hwf as (? & ? & ? & ?). pose proof (bb_at_pos l eob p) as Hq.
    unfold bb_pos in Hq. cbn [bb_eob bb_at] in *. lia. }
  rewrite E, bb_at_pos. f_equal.
  rewrite (bb_at_eq c Hwf'), Hd', He', Hp', bb_at_pos. reflexivity.
Qed.

(** The reader of run lengths on the code of the run [r] followed by a 1. *)
Lemma read_wdr_run_at l eob p r :
  1 <= r < 2 ^ 31 → 0 <= p → eob <= Z.of_nat (length l) →
  p + 2 * Z.log2 r + 1 <= 8 * eob →
  (∀ q, p <= q < p + 2 * Z.log2 r → bit_at l q = wdr_bit p (Z.log2 r) r q) →
  bit_at l (p + 2 * Z.log2 r) = true →
  SQZ_decode_read_wdr_run (bb_at l eob p) = (bb_at l eob (p + 2 * Z.log2 r + 1), r, 1).
Proof.
  intros Hr Hp Hl Hroom Hbits Hstop.
  assert (Hlog : 0 <= Z.log2 r < 31).
  { split; [apply Z.log2_nonneg|]. apply Z.log2_lt_pow2; lia. }
  set (cost := Z.log2 r) in *.
  assert (Hwf : bb_wf (bb_at l eob p)) by (apply bb_at_wf; lia).
  unfold SQZ_decode_read_wdr_run.
  destruct (read_wdr_loop_spec r ltac:(lia) (Z.to_nat cost)
              (S (Z.to_nat (8 * (bb_eob (bb_at l eob p) - bb_ptr (bb_at l eob p)))))
              (bb_at l eob p) Hwf)
    as (c & E & Hwf' & Hp' & Hd' & He').
  - pose proof Hwf as (? & ? & ? & ?). pose proof (bb_at_pos l eob p) as Hq.
    unfold bb_pos in Hq. cbn [bb_eob bb_at] in *. lia.
  - rewrite bb_at_pos. cbn [bb_eob bb_at]. rewrite Z2Nat.id by lia. lia.
  - intros j Hj. rewrite Z2Nat.id in * by lia. rewrite bb_at_pos. cbn [bb_data bb_at].
    rewrite !Hbits by lia. unfold wdr_bit.
    replace (p + 2 * j - p) with (2 * j) by lia.
    replace (p + 2 * j + 1 - p) with (2 * j + 1) by lia.
    rewrite Z.odd_mul, Z.odd_add, Z.odd_mul. simpl.
    split; [rewrite andb_false_r; reflexivity|].
    destruct (Z.leb_spec p (p + 2 * j + 1)); [|lia].
    destruct (Z.ltb_spec (p + 2 * j + 1) (p + 2 * cost)); [|lia]. simpl.
    f_equal. replace (2 * j + 1) with (1 + j * 2) by lia.
    rewrite Z.div_add by lia. change (1 / 2) with 0. lia.
  - rewrite Z2Nat.id by lia. rewrite bb_at_pos. cbn [bb_data bb_at]. exact Hstop.
  - rewrite Z2Nat.id in * by lia.
    assert (Hone : Z.shiftr r cost = 1).
    { rewrite Z.shiftr_div_pow2 by lia.
      destruct (Z.log2_spec r ltac:(lia)) as [Hlo Hhi]. fold cost in Hlo, Hhi.
      rewrite Z.pow_succ_r in Hhi by lia.
      assert (0 < 2 ^ cost) by (apply Z.pow_pos_nonneg; lia).
      symmetry. apply Z.div_unique with (r - 2 ^ cost); lia. }
    rewrite Hone in E. rewrite E. f_equal. f_equal.
    rewrite (bb_at_eq c Hwf'), Hd', He', Hp', bb_at_pos. reflexivity.
Qed.

(** *** The writes of a pass that does not fill the buffer *)

Lemma extends_not_full b bf :
  bb_extends b bf → SQZ_bit_buffer_eob bf = false → bb_pos b < 8 * bb_eob b.
Proof.
  intros (Hwf & He & _ & (Hpos & _) & _) Hf.
  pose proof Hwf as (? & ? & ? & ?).
  unfold SQZ_bit_buffer_eob in Hf. apply Z.leb_gt in Hf. unfold bb_pos in *. lia.
Qed.

Lemma write_bits_room b v w bf :
  bb_wf b → 0 <= w < 2 ^ 32 → zero_from b →
  bb_extends (SQZ_bit_buffer_write_bits b v w).1 bf → SQZ_bit_buffer_eob bf = false →
  ∃ b1, SQZ_bit_buffer_write_bits b v w = (b1, 1)
    ∧ bb_wf b1 ∧ bb_eob b1 = bb_eob b ∧ bb_pos b1 = bb_pos b + w ∧ zero_from b1
    ∧ (∀ q, 0 <= q < bb_pos b → bit_at (bb_data b1) q = bit_at (bb_data b) q)
    ∧ (∀ q, bb_pos b <= q < bb_pos b + w →
            bit_at (bb_data b1) q = Z.testbit v (bb_pos b + w - 1 - q)).
Proof.
  intros Hwf Hw Hzero Hext Hf.
  pose proof (extends_not_full _ _ Hext Hf) as Hlt.
  destruct (write_bits_spec b v w Hwf Hw)
    as (b1 & ok & E & Hwf1 & He1 & Hl1 & Hp1 & Hok & Hiff & Hb1).
  rewrite E in *. cbn [fst] in *. rewrite He1 in Hlt.
  pose proof Hwf as (? & ? & ? & ?).
  assert (Hroom : bb_pos b + w < 8 * bb_eob b) by lia.
  assert (ok = 1) as -> by (apply Hiff; unfold bb_pos in *; lia).
  exists b1. split; [reflexivity|]. split; [auto|]. split; [auto|]. split; [lia|].
  assert (Hp0 : 0 <= bb_pos b) by (unfold bb_pos; lia).
  split; [|split].
  - intros q Hq. rewrite Hb1 by lia. rewrite Hzero by lia. unfold written.
    destruct (Z.ltb_spec q (Z.min (bb_pos b + w) (8 * bb_eob b))); [lia|].
    rewrite andb_false_r. reflexivity.
  - intros q Hq. rewrite Hb1 by lia. unfold written.
    destruct (Z.leb_spec (bb_pos b) q); [lia|]. simpl. apply orb_false_r.
  - intros q Hq. rewrite Hb1 by lia. rewrite Hzero by lia. unfold written.
    destruct (Z.leb_spec (bb_pos b) q); [|lia].
    destruct (Z.ltb_spec q (Z.min (bb_pos b + w) (8 * bb_eob b))); [|lia]. reflexivity.
Qed.

Lemma write_bit_room b bit bf :
  bb_wf b → (bit = 0 ∨ bit = 1) → zero_from b →
  bb_extends (SQZ_bit_buffer_write_bit b bit).1 bf → SQZ_bit_buffer_eob bf = false →
  ∃ b1, SQZ_bit_buffer_write_bit b bit = (b1, 1)
    ∧ bb_wf b1 ∧ bb_eob b1 = bb_eob b ∧ bb_pos b1 = bb_pos b + 1 ∧ zero_from b1
    ∧ (∀ q, 0 <= q < bb_pos b → bit_at (bb_data b1) q = bit_at (bb_data b) q)
    ∧ bit_at (bb_data b1) (bb_pos b) = (bit =? 1).
Proof.
  intros Hwf Hbit Hzero Hext Hf.
  pose proof (extends_not_full _ _ Hext Hf) as Hlt.
  destruct (write_bit_pos b bit Hwf Hbit) as (_ & He & Hp). rewrite He, Hp in Hlt.
  pose proof Hwf as (? & ? & ? & ?).
  assert (Hptr : bb_ptr b < bb_eob b) by (unfold bb_pos in *; lia).
  destruct (write_bit_spec b bit Hwf Hptr Hbit) as (b1 & E & Hwf1 & Hp1 & He1 & Hl1 & Hb1).
  assert (Hp0 : 0 <= bb_pos b) by (unfold bb_pos; lia).
  exists b1. split; [exact E|]. split; [auto|]. split; [auto|]. split; [auto|].
  split; [|split].
  - intros q Hq. rewrite Hb1 by lia. destruct (Z.eqb_spec q (bb_pos b)); [lia|].
    apply Hzero. lia.
  - intros q Hq. rewrite Hb1 by lia. destruct (Z.eqb_spec q (bb_pos b)); [lia|reflexivity].
  - rewrite Hb1 by lia. rewrite Z.eqb_refl. rewrite Hzero by lia. reflexivity.
Qed.

Lemma write_wdr_run_pos b r :
  bb_wf b → 1 <= r < 2 ^ 31 →
  bb_pos (SQZ_encode_write_wdr_run b r).1 = Z.min (bb_pos b + 2 * Z.log2 r) (8 * bb_eob b).
Proof.
  intros Hwf Hr.
  assert (Hlog : 0 <= Z.log2 r < 31).
  { split; [apply Z.log2_nonneg|]. apply Z.log2_lt_pow2; lia. }
  unfold SQZ_encode_write_wdr_run. rewrite SQZ_ilog2_log2 by lia.
  replace (Z.log2 r + 1 - 1) with (Z.log2 r) by lia. rewrite (u32_small (Z.log2 r)) by lia.
  destruct (Z.leb_spec (Z.log2 r) 16) as [Hc|Hc].
  - rewrite (u32_small (Z.log2 r * 2)) by lia.
    destruct (write_bits_pos b (SQZ_interleave_u16_to_u32 r) (Z.log2 r * 2) Hwf ltac:(lia))
      as (_ & _ & ->). lia.
  - rewrite (u32_small (Z.log2 r - 16)) by lia. rewrite (u32_small ((Z.log2 r - 16) * 2)) by lia.
    destruct (write_bits_spec b (SQZ_interleave_u16_to_u32 (Z.shiftr r 16))
                ((Z.log2 r - 16) * 2) Hwf ltac:(lia))
      as (b1 & ok & E & Hwf1 & He1 & Hl1 & Hp1 & Hok & Hiff & _).
    rewrite E. pose proof Hwf as (? & ? & ? & ?).
    destruct Hok as [-> | ->]; cbn [truthy Z.eqb negb fst].
    + destruct (write_bits_pos b1 (SQZ_interleave_u16_to_u32 r) 32 Hwf1 ltac:(lia))
        as (_ & _ & ->).
      assert (bb_pos b + (Z.log2 r - 16) * 2 <= 8 * bb_eob b) by (apply Hiff; reflexivity).
      rewrite Hp1, He1. lia.
    + assert (Hno : ¬ (bb_ptr b < bb_eob b ∧ bb_pos b + (Z.log2 r - 16) * 2 <= 8 * bb_eob b)).
      { intros Hyes. apply Hiff in Hyes. discriminate. }
      rewrite Hp1. unfold bb_pos in *. lia.
Qed.

Lemma write_wdr_run_room b r bf :
  bb_wf b → 1 <= r < 2 ^ 31 → zero_from b →
  bb_extends (SQZ_encode_write_wdr_run b r).1 bf → SQZ_bit_buffer_eob bf = false →
  ∃ b1, SQZ_encode_write_wdr_run b r = (b1, 1)
    ∧ bb_wf b1 ∧ bb_eob b1 = bb_eob b ∧ bb_pos b1 = bb_pos b + 2 * Z.log2 r ∧ zero_from b1
    ∧ (∀ q, 0 <= q < bb_pos b → bit_at (bb_data b1) q = bit_at (bb_data b) q)
    ∧ (∀ q, bb_pos b <= q < bb_pos b + 2 * Z.log2 r →
            bit_at (bb_data b1) q = wdr_bit (bb_pos b) (Z.log2 r) r q).
Proof.
  intros Hwf Hr Hzero Hext Hf.
  pose proof (extends_not_full _ _ Hext Hf) as Hlt.
  rewrite write_wdr_run_pos in Hlt by auto.
  assert (He : bb_eob (SQZ_encode_write_wdr_run b r).1 = bb_eob b).
  { destruct (write_wdr_run_extends b r Hwf) as (_ & He & _). exact He. }
  rewrite He in Hlt. pose proof Hwf as (? & ? & ? & ?).
  assert (Hp0 : 0 <= bb_pos b) by (unfold bb_pos; lia).
  assert (Hlog : 0 <= Z.log2 r) by apply Z.log2_nonneg.
  destruct (write_wdr_run_spec b r Hwf Hr) as (b1 & E & Hwf1 & He1 & Hl1 & Hp1 & Hb1);
    [unfold bb_pos in *; lia|lia|].
  exists b1. split; [exact E|]. split; [auto|]. split; [auto|]. split; [auto|].
  split; [|split].
  - intros q Hq. rewrite Hb1 by lia. rewrite Hzero by lia. unfold wdr_bit.
    destruct (Z.ltb_spec q (bb_pos b + 2 * Z.log2 r)); [lia|].
    rewrite andb_false_r. reflexivity.
  - intros q Hq. rewrite Hb1 by lia. unfold wdr_bit.
    destruct (Z.leb_spec (bb_pos b) q); [lia|]. simpl. apply orb_false_r.
  - intros q Hq. rewrite Hb1 by lia. rewrite Hzero by lia. reflexivity.
Qed.

(** *** The refinement pass *)

Lemma refinement_sim data band lsp : ∀ b dd F E,
  bb_wf b → zero_from b →
  SQZ_bit_buffer_eob (encode_refinement_loop data band (bitplane_mask_of band) lsp b) = false →
  E <= Z.of_nat (length F) →
  bb_pos (encode_refinement_loop data band (bitplane_mask_of band) lsp b) <= 8 * E →
  (∀ q, 0 <= q < bb_pos (encode_refinement_loop data band (bitplane_mask_of band) lsp b) →
        bit_at F q
        = bit_at (bb_data (encode_refinement_loop data band (bitplane_mask_of band) lsp b)) q) →
  decode_refinement_loop band (bitplane_mask_of band) lsp dd (bb_at F E (bb_pos b))
  = (foldl (mark_refined data band) dd lsp,
     bb_at F E (bb_pos (encode_refinement_loop data band (bitplane_mask_of band) lsp b)))
  ∧ bb_wf (encode_refinement_loop data band (bitplane_mask_of band) lsp b)
  ∧ zero_from (encode_refinement_loop data band (bitplane_mask_of band) lsp b)
  ∧ bb_eob (encode_refinement_loop data band (bitplane_mask_of band) lsp b) = bb_eob b.
Proof.
  induction lsp as [|px lsp IH]; intros b dd F E Hwf Hzero Hf HE Hroom Hagree;
    cbn [encode_refinement_loop decode_refinement_loop foldl] in *; [auto|].
  set (sig := truthy (Z.land (load data (pixel_offset band px)) (bitplane_mask_of band))) in *.
  destruct (write_bit_room b (of_bool sig)
              (let '(buffer, ok) := SQZ_bit_buffer_write_bit b (of_bool sig) in
               if negb (truthy ok) then buffer
               else encode_refinement_loop data band (bitplane_mask_of band) lsp buffer)
              Hwf (of_bool_01 _) Hzero)
    as (b1 & E1 & Hwf1 & He1 & Hp1 & Hz1 & Hlow1 & Hbit1); [|exact Hf|].
  { pose proof (write_bit_extends b (of_bool sig) Hwf (of_bool_01 _)) as Hx.
    destruct (SQZ_bit_buffer_write_bit b (of_bool sig)) as [b1 ok1]. cbn [fst] in *.
    destruct (negb (truthy ok1)); [apply extends_refl; exact (extends_wf _ _ Hx)|].
    apply encode_refinement_loop_extends. exact (extends_wf _ _ Hx). }
  rewrite E1 in *. cbn [truthy Z.eqb negb] in *.
  pose proof (encode_refinement_loop_extends data band (bitplane_mask_of band) lsp b1 Hwf1)
    as (Hwff & Hef & _ & (Hposf & _) & Hbitsf & _).
  pose proof Hwf as (? & ? & ? & ?).
  assert (Hp0 : 0 <= bb_pos b) by (unfold bb_pos; lia).
  rewrite read_bit_at by lia.
  rewrite Hagree by lia. rewrite Hbitsf by lia. rewrite Hbit1.
  destruct (IH b1 (mark_refined data band dd px) F E Hwf1 Hz1 Hf HE Hroom Hagree)
    as (Hdec & Hwf' & Hz' & He').
  rewrite Hp1 in Hdec. split; [|split; [auto|split; [auto|congruence]]].
  assert (Hm : mark_refined data band dd px
               = if sig
                 then store dd (pixel_offset band px)
                        (s16 (Z.lor (load dd (pixel_offset band px)) (bitplane_mask_of band)))
                 else dd) by reflexivity.
  rewrite Hm in *. clear Hm.
  destruct sig;
    [change (0 <? of_bool (of_bool true =? 1)) with true
    |change (0 <? of_bool (of_bool false =? 1)) with false;
     change (of_bool (of_bool false =? 1) <? 0) with false]; exact Hdec.
Qed.

(** *** The sorting pass *)

Lemma sorting_close_extends st :
  bb_wf (sorting_buffer st) → bb_extends (sorting_buffer st) (sorting_close st).
Proof. intros Hwf. unfold sorting_close. ext_solve. Qed.

Lemma encode_sorting_pass_close data band b :
  SQZ_encode_sorting_pass data band b
  = if (Z.of_nat (length (LIP band)) =? 0) || (band_bitplane band <=? 0) then (band, b, 1)
    else
      let st := encode_sorting_loop data band (bitplane_mask_of band) [] (LIP band) (NSP band)
                                    b 1 0 in
      (band_set_lists band (band_cache band) (sorting_visited st ++ sorting_rest st) (LSP band)
                      (sorting_nsp st),
       sorting_close st, of_bool (negb (SQZ_bit_buffer_eob (sorting_close st)))).
Proof.
  unfold SQZ_encode_sorting_pass, sorting_close. destruct (_ || _); [reflexivity|]. cbv zeta.
  destruct (SQZ_bit_buffer_write_bits _ 3 _) as [b1 ok1].
  destruct (SQZ_encode_write_wdr_run b1 _) as [b2 ok2].
  destruct (SQZ_bit_buffer_write_bit b2 1) as [b3 ok3]. reflexivity.
Qed.

Lemma of_bool_land_1 v : of_bool (Z.land v 1 =? 1) = Z.land v 1.
Proof. rewrite land_1. destruct (Z.testbit v 0); reflexivity. Qed.

Lemma width_of_last last :
  1 + of_bool (truthy last) = if last =? 0 then 1 else 2.
Proof. unfold truthy. destruct (last =? 0); reflexivity. Qed.

(** The loop of the encoder on a significant pixel, in a pass that does not
    fill the buffer: the bit that closes the run before (unless this is the
    first), the sign, the digits of the run. *)
Lemma sorting_step data band mask px rest visited nsp b i last :
  truthy (Z.land (load data (pixel_offset band px)) mask) = true →
  bb_wf b → zero_from b → 0 <= last < i → i < 2 ^ 31 →
  SQZ_bit_buffer_eob
    (sorting_close (encode_sorting_loop data band mask visited (px :: rest) nsp b i last))
  = false →
  ∃ b2,
    encode_sorting_loop data band mask visited (px :: rest) nsp b i last
    = encode_sorting_loop data band mask visited rest (nsp ++ [px]) b2 (i + 1) i
    ∧ bb_wf b2 ∧ zero_from b2 ∧ bb_eob b2 = bb_eob b
    ∧ bb_pos b2 = bb_pos b + (if last =? 0 then 1 else 2) + 2 * Z.log2 (i - last)
    ∧ (∀ q, 0 <= q < bb_pos b → bit_at (bb_data b2) q = bit_at (bb_data b) q)
    ∧ (last ≠ 0 → bit_at (bb_data b2) (bb_pos b) = true)
    ∧ bit_at (bb_data b2) (bb_pos b + (if last =? 0 then 0 else 1))
      = (Z.land (load data (pixel_offset band px)) 1 =? 1)
    ∧ (∀ q, bb_pos b + (if last =? 0 then 1 else 2) <= q < bb_pos b2 →
            bit_at (bb_data b2) q
            = wdr_bit (bb_pos b + (if last =? 0 then 1 else 2)) (Z.log2 (i - last))
                      (i - last) q).
Proof.
  intros Hsig Hwf Hz Hl Hi Hf. cbn [encode_sorting_loop] in *. rewrite Hsig in *.
  set (v := load data (pixel_offset band px)) in *.
  rewrite width_of_last in *.
  set (w := if last =? 0 then 1 else 2) in *.
  assert (Hw : 1 <= w <= 2) by (unfold w; destruct (last =? 0); lia).
  pose proof Hwf as (? & ? & ? & ?).
  assert (Hp0 : 0 <= bb_pos b) by (unfold bb_pos; lia).
  match type of Hf with SQZ_bit_buffer_eob ?bf = false =>
    destruct (write_bits_room b (Z.lor 2 (Z.land v 1)) w bf Hwf ltac:(lia) Hz)
      as (b1 & E1 & Hwf1 & He1 & Hp1 & Hz1 & Hlow1 & Hbits1); [|exact Hf|]
  end.
  { pose proof (write_bits_extends b (Z.lor 2 (Z.land v 1)) w Hwf ltac:(lia)) as Hx.
    destruct (SQZ_bit_buffer_write_bits b _ w) as [b1 ok1]. cbn [fst] in *.
    unfold sorting_close. ext_solve. }
  rewrite E1 in *. cbn [truthy Z.eqb negb] in *.
  rewrite (u32_small (i - last)) in * by lia.
  match type of Hf with SQZ_bit_buffer_eob ?bf = false =>
    destruct (write_wdr_run_room b1 (i - last) bf Hwf1 ltac:(lia) Hz1)
      as (b2 & E2 & Hwf2 & He2 & Hp2 & Hz2 & Hlow2 & Hbits2); [|exact Hf|]
  end.
  { pose proof (write_wdr_run_extends b1 (i - last) Hwf1) as Hx.
    destruct (SQZ_encode_write_wdr_run b1 _) as [b2 ok2]. cbn [fst] in *.
    unfold sorting_close. ext_solve. }
  rewrite E2 in *. cbn [truthy Z.eqb negb] in *.
  unfold SQZ_list_exchange. rewrite (u32_small (i + 1)) by lia.
  exists b2. split; [reflexivity|]. split; [auto|]. split; [auto|]. split; [congruence|].
  split; [lia|].
  assert (Hlog : 0 <= Z.log2 (i - last)) by apply Z.log2_nonneg.
  split; [|split; [|split]].
  - intros q Hq. rewrite Hlow2, Hlow1 by lia. reflexivity.
  - intros Hne. rewrite Hlow2, Hbits1 by lia.
    unfold w. destruct (Z.eqb_spec last 0); [lia|].
    replace (bb_pos b + 2 - 1 - bb_pos b) with 1 by lia.
    rewrite Z.lor_spec. reflexivity.
  - rewrite Hlow2, Hbits1 by (unfold w in *; destruct (last =? 0); lia).
    replace (bb_pos b + w - 1 - (bb_pos b + (if last =? 0 then 0 else 1))) with 0
      by (unfold w; destruct (last =? 0); lia).
    rewrite Z.lor_spec. change (Z.testbit 2 0) with false. cbn [orb].
    rewrite land_1. destruct (Z.testbit v 0); reflexivity.
  - intros q Hq. rewrite Hbits2 by lia. rewrite Hp1. reflexivity.
Qed.

(** The marker of the end of the pass has the form of one more pixel, with
    a set sign and a run that leads past the end of the list. *)
Lemma sorting_close_spec visited rest nsp b i last :
  bb_wf b → zero_from b → 0 <= last < i → i < 2 ^ 31 → (nsp = [] ↔ last = 0) →
  SQZ_bit_buffer_eob (sorting_close (mk_sorting visited rest nsp b i last)) = false →
  bb_wf (sorting_close (mk_sorting visited rest nsp b i last))
  ∧ zero_from (sorting_close (mk_sorting visited rest nsp b i last))
  ∧ bb_eob (sorting_close (mk_sorting visited rest nsp b i last)) = bb_eob b
  ∧ bb_pos (sorting_close (mk_sorting visited rest nsp b i last))
    = bb_pos b + (if last =? 0 then 1 else 2) + 2 * Z.log2 (i - last) + 1
  ∧ (∀ q, 0 <= q < bb_pos b →
          bit_at (bb_data (sorting_close (mk_sorting visited rest nsp b i last))) q
          = bit_at (bb_data b) q)
  ∧ (last ≠ 0 →
     bit_at (bb_data (sorting_close (mk_sorting visited rest nsp b i last))) (bb_pos b) = true)
  ∧ bit_at (bb_data (sorting_close (mk_sorting visited rest nsp b i last)))
           (bb_pos b + (if last =? 0 then 0 else 1)) = true
  ∧ (∀ q, bb_pos b + (if last =? 0 then 1 else 2) <= q
          < bb_pos b + (if last =? 0 then 1 else 2) + 2 * Z.log2 (i - last) →
          bit_at (bb_data (sorting_close (mk_sorting visited rest nsp b i last))) q
          = wdr_bit (bb_pos b + (if last =? 0 then 1 else 2)) (Z.log2 (i - last))
                    (i - last) q)
  ∧ bit_at (bb_data (sorting_close (mk_sorting visited rest nsp b i last)))
           (bb_pos b + (if last =? 0 then 1 else 2) + 2 * Z.log2 (i - last)) = true.
Proof.
  intros Hwf Hz Hl Hi Hnsp Hf. unfold sorting_close in *.
  cbn [sorting_buffer sorting_nsp sorting_i sorting_last] in *.
  assert (Hwidth : 1 + of_bool (0 <? Z.of_nat (length nsp)) = if last =? 0 then 1 else 2).
  { destruct (Z.eqb_spec last 0) as [E|E].
    - apply Hnsp in E. subst nsp. reflexivity.
    - destruct nsp as [|x l]; [exfalso; apply E, Hnsp; reflexivity|]. reflexivity. }
  rewrite Hwidth in *.
  set (w := if last =? 0 then 1 else 2) in *.
  assert (Hw : 1 <= w <= 2) by (unfold w; destruct (last =? 0); lia).
  pose proof Hwf as (? & ? & ? & ?).
  assert (Hp0 : 0 <= bb_pos b) by (unfold bb_pos; lia).
  match type of Hf with SQZ_bit_buffer_eob ?bf = false =>
    destruct (write_bits_room b 3 w bf Hwf ltac:(lia) Hz)
      as (b1 & E1 & Hwf1 & He1 & Hp1 & Hz1 & Hlow1 & Hbits1); [|exact Hf|]
  end.
  { pose proof (write_bits_extends b 3 w Hwf ltac:(lia)) as Hx.
    destruct (SQZ_bit_buffer_write_bits b 3 w) as [b1 ok1]. cbn [fst] in *. ext_solve. }
  rewrite E1 in *.
  rewrite (u32_small (i - last)) in * by lia.
  match type of Hf with SQZ_bit_buffer_eob ?bf = false =>
    destruct (write_wdr_run_room b1 (i - last) bf Hwf1 ltac:(lia) Hz1)
      as (b2 & E2 & Hwf2 & He2 & Hp2 & Hz2 & Hlow2 & Hbits2); [|exact Hf|]
  end.
  { pose proof (write_wdr_run_extends b1 (i - last) Hwf1) as Hx.
    destruct (SQZ_encode_write_wdr_run b1 _) as [b2 ok2]. cbn [fst] in *. ext_solve. }
  rewrite E2 in *.
  match type of Hf with SQZ_bit_buffer_eob ?bf = false =>
    destruct (write_bit_room b2 1 bf Hwf2 ltac:(auto) Hz2)
      as (b3 & E3 & Hwf3 & He3 & Hp3 & Hz3 & Hlow3 & Hbit3); [|exact Hf|]
  end.
  { destruct (SQZ_bit_buffer_write_bit b2 1) as [b3 ok3] eqn:E3. cbn [fst].
    pose proof (write_bit_extends b2 1 Hwf2 ltac:(auto)) as Hx. rewrite E3 in Hx.
    apply extends_refl. exact (extends_wf _ _ Hx). }
  rewrite E3 in *.
  assert (Hlog : 0 <= Z.log2 (i - last)) by apply Z.log2_nonneg.
  split; [auto|]. split; [auto|]. split; [congruence|]. split; [lia|].
  split; [|split; [|split; [|split]]].
  - intros q Hq. rewrite Hlow3, Hlow2, Hlow1 by lia. reflexivity.
  - intros Hne. rewrite Hlow3, Hlow2, Hbits1 by lia.
    unfold w. destruct (Z.eqb_spec last 0); [lia|].
    replace (bb_pos b + 2 - 1 - bb_pos b) with 1 by lia. reflexivity.
  - rewrite Hlow3, Hlow2, Hbits1 by (unfold w in *; destruct (last =? 0); lia).
    replace (bb_pos b + w - 1 - (bb_pos b + (if last =? 0 then 0 else 1))) with 0
      by (unfold w; destruct (last =? 0); lia).
    reflexivity.
  - intros q Hq. rewrite Hlow3, Hbits2 by lia. rewrite Hp1. reflexivity.
  - rewrite <- Hp1, <- Hp2. exact Hbit3.
Qed.

Lemma sorting_rest_extends data band mask rest visited nsp b i last :
  bb_wf b →
  bb_extends b (sorting_close (encode_sorting_loop data band mask visited rest nsp b i last)).
Proof.
  intros Hwf.
  pose proof (encode_sorting_loop_extends data band mask rest visited nsp b i last Hwf) as H1.
  exact (extends_trans _ _ _ H1 (sorting_close_extends _ (extends_wf _ _ H1))).
Qed.

(** After a significant pixel the next bit written is a 1: it closes the
    run of that pixel. *)
Lemma sorting_first_bit data band mask rest : ∀ visited nsp b i last,
  bb_wf b → zero_from b → 0 < last < i → i + Z.of_nat (length rest) < 2 ^ 31 →
  nsp ≠ [] →
  SQZ_bit_buffer_eob
    (sorting_close (encode_sorting_loop data band mask visited rest nsp b i last)) = false →
  bb_pos b
  < bb_pos (sorting_close (encode_sorting_loop data band mask visited rest nsp b i last))
  ∧ bit_at (bb_data (sorting_close
                       (encode_sorting_loop data band mask visited rest nsp b i last)))
           (bb_pos b) = true.
Proof.
  induction rest as [|px rest IH]; intros visited nsp b i last Hwf Hz Hl Hi Hnsp Hf.
  - cbn [encode_sorting_loop] in *. cbn [length] in Hi.
    destruct (sorting_close_spec visited [] nsp b i last Hwf Hz ltac:(lia) ltac:(lia))
      as (_ & _ & _ & Hp & _ & Hone & _); [|exact Hf|].
    { split; intros; [contradiction|lia]. }
    assert (0 <= Z.log2 (i - last)) by apply Z.log2_nonneg.
    split; [destruct (last =? 0); lia|]. apply Hone. lia.
  - cbn [length] in Hi.
    destruct (truthy (Z.land (load data (pixel_offset band px)) mask)) eqn:Hsig.
    + destruct (sorting_step data band mask px rest visited nsp b i last Hsig Hwf Hz
                  ltac:(lia) ltac:(lia) Hf)
        as (b2 & E & Hwf2 & Hz2 & He2 & Hp2 & _ & Hone & _).
      rewrite E in *.
      destruct (sorting_rest_extends data band mask rest visited (nsp ++ [px]) b2 (i + 1) i Hwf2)
        as (_ & _ & _ & (Hpos & _) & Hbits & _).
      assert (0 <= Z.log2 (i - last)) by apply Z.log2_nonneg.
      pose proof Hwf as (? & ? & ? & ?).
      assert (0 <= bb_pos b) by (unfold bb_pos; lia).
      split; [destruct (last =? 0); lia|].
      rewrite Hbits by (destruct (last =? 0); lia). apply Hone. lia.
    + cbn [encode_sorting_loop] in *. rewrite Hsig in *.
      assert (Hu : u32 (i + 1) = i + 1) by (apply u32_small; lia). rewrite Hu in *.
      apply IH; auto; lia.
Qed.

Lemma skip_nodes_run s : ∀ visited rest,
  skip_nodes (Z.of_nat (length s)) visited (s ++ rest) = (visited ++ s, rest).
Proof.
  induction s as [|a s IH]; intros visited rest.
  - cbn [length app]. rewrite app_nil_r. destruct rest; reflexivity.
  - cbn [length app skip_nodes]. rewrite Nat2Z.inj_succ.
    destruct (Z.ltb_spec 0 (Z.succ (Z.of_nat (length s)))); [|lia].
    replace (Z.succ (Z.of_nat (length s)) - 1) with (Z.of_nat (length s)) by lia.
    rewrite IH, <- app_assoc. reflexivity.
Qed.

(** The loop of the decoder follows that of the encoder.  The encoder is
    at position [i] of the list, its last significant pixel was at [last];
    the decoder has handled that pixel and has yet to pass the [skipped]
    pixels since then.  When [last] is not 0 the decoder has read one bit
    more than the encoder has written: the 1 that closes the run. *)
Lemma sorting_sim data band rest : ∀ visited skipped nsp b i last dd n F E,
  bb_wf b → zero_from b →
  SQZ_bit_buffer_eob
    (sorting_close (encode_sorting_loop data band (bitplane_mask_of band) (visited ++ skipped)
                                        rest nsp b i last)) = false →
  0 <= last < i → i + Z.of_nat (length rest) < 2 ^ 31 →
  Z.of_nat (length skipped) = i - last - 1 → (nsp = [] ↔ last = 0) →
  E <= Z.of_nat (length F) →
  bb_pos (sorting_close (encode_sorting_loop data band (bitplane_mask_of band)
                                             (visited ++ skipped) rest nsp b i last))
  <= 8 * E →
  (∀ q, 0 <= q < bb_pos (sorting_close
                           (encode_sorting_loop data band (bitplane_mask_of band)
                                                (visited ++ skipped) rest nsp b i last)) →
        bit_at F q
        = bit_at (bb_data (sorting_close
                             (encode_sorting_loop data band (bitplane_mask_of band)
                                                  (visited ++ skipped) rest nsp b i last))) q) →
  (length (skipped ++ rest) < n)%nat →
  decode_sorting_loop n band (bitplane_mask_of band)
    (mk_decode_sorting dd visited (skipped ++ rest) nsp
                       (bb_at F E (bb_pos b + (if last =? 0 then 0 else 1))))
  = mk_decode_sorting
      (foldl (mark_significant data band) dd (List.filter (significant data band) rest))
      (visited ++ skipped ++ List.filter (λ px, negb (significant data band px)) rest) []
      (nsp ++ List.filter (significant data band) rest)
      (bb_at F E (bb_pos (sorting_close
                            (encode_sorting_loop data band (bitplane_mask_of band)
                                                 (visited ++ skipped) rest nsp b i last))))
  ∧ sorting_visited (encode_sorting_loop data band (bitplane_mask_of band) (visited ++ skipped)
                                         rest nsp b i last)
    ++ sorting_rest (encode_sorting_loop data band (bitplane_mask_of band) (visited ++ skipped)
                                         rest nsp b i last)
    = visited ++ skipped ++ List.filter (λ px, negb (significant data band px)) rest
  ∧ sorting_nsp (encode_sorting_loop data band (bitplane_mask_of band) (visited ++ skipped)
                                     rest nsp b i last)
    = nsp ++ List.filter (significant data band) rest
  ∧ bb_wf (sorting_close (encode_sorting_loop data band (bitplane_mask_of band)
                                              (visited ++ skipped) rest nsp b i last))
  ∧ zero_from (sorting_close (encode_sorting_loop data band (bitplane_mask_of band)
                                                  (visited ++ skipped) rest nsp b i last))
  ∧ bb_eob (sorting_close (encode_sorting_loop data band (bitplane_mask_of band)
                                               (visited ++ skipped) rest nsp b i last))
    = bb_eob b.
Proof.
  induction rest as [|px rest IH];
    intros visited skipped nsp b i last dd n F E Hwf Hz Hf Hl Hi Hsk Hnsp HE Hroom Hagree Hn.
  - cbn [encode_sorting_loop List.filter foldl length] in *.
    cbn [sorting_visited sorting_rest sorting_nsp].
    destruct (sorting_close_spec (visited ++ skipped) [] nsp b i last Hwf Hz Hl ltac:(lia)
                Hnsp Hf)
      as (Hwff & Hzf & Hef & Hpf & Hlow & Hone & Hsign & Hrun & Hstop).
    set (bf := sorting_close _) in *.
    set (s := if last =? 0 then 0 else 1) in *.
    assert (Hs : (if last =? 0 then 1 else 2) = s + 1) by (unfold s; destruct (last =? 0); lia).
    rewrite Hs in *.
    assert (Hlog : 0 <= Z.log2 (i - last)) by apply Z.log2_nonneg.
    pose proof Hwf as (? & ? & ? & ?).
    assert (Hp0 : 0 <= bb_pos b) by (unfold bb_pos; lia).
    assert (Hs0 : 0 <= s <= 1) by (unfold s; destruct (last =? 0); lia).
    split; [|rewrite !app_nil_r; auto].
    destruct n as [|n]; [simpl in Hn; lia|]. cbn [decode_sorting_loop].
    rewrite read_bit_at by lia. rewrite Hagree, Hsign by lia.
    change (of_bool true <? 0) with false. cbv iota.
    rewrite (read_wdr_run_at F E (bb_pos b + s + 1) (i - last)); try lia.
    + cbn [truthy Z.eqb negb]. rewrite (u32_small (i - last - 1)) by lia.
      rewrite <- Hsk. rewrite skip_nodes_run. rewrite !app_nil_r.
      f_equal. f_equal. lia.
    + intros q Hq. rewrite Hagree by lia.
      replace (bb_pos b + s + 1) with (bb_pos b + (s + 1)) by lia. apply Hrun. lia.
    + rewrite Hagree by lia.
      replace (bb_pos b + s + 1) with (bb_pos b + (s + 1)) by lia. exact Hstop.
  - cbn [length] in Hi. rewrite Nat2Z.inj_succ in Hi.
    destruct (significant data band px) eqn:Hsig; cbn [List.filter]; rewrite Hsig;
      cbn [negb foldl].
    + destruct (sorting_step data band (bitplane_mask_of band) px rest (visited ++ skipped) nsp
                  b i last Hsig Hwf Hz Hl ltac:(lia) Hf)
        as (b2 & Estep & Hwf2 & Hz2 & He2 & Hp2 & Hlow2 & Hone2 & Hsign2 & Hrun2).
      rewrite Estep in *.
      assert (Hnsp' : nsp ++ [px] ≠ []) by (destruct nsp; discriminate).
      destruct (sorting_first_bit data band (bitplane_mask_of band) rest (visited ++ skipped)
                  (nsp ++ [px]) b2 (i + 1) i Hwf2 Hz2 ltac:(lia) ltac:(lia) Hnsp' Hf)
        as (Hlt & Hstop).
      destruct (sorting_rest_extends data band (bitplane_mask_of band) rest (visited ++ skipped)
                  (nsp ++ [px]) b2 (i + 1) i Hwf2)
        as (_ & _ & _ & _ & Hbits & _).
      set (bf := sorting_close _) in *.
      set (s := if last =? 0 then 0 else 1) in *.
      assert (Hs : (if last =? 0 then 1 else 2) = s + 1)
        by (unfold s; destruct (last =? 0); lia).
      rewrite Hs in *.
      assert (Hlog : 0 <= Z.log2 (i - last)) by apply Z.log2_nonneg.
      pose proof Hwf as (? & ? & ? & ?).
      assert (Hp0 : 0 <= bb_pos b) by (unfold bb_pos; lia).
      assert (Hs0 : 0 <= s <= 1) by (unfold s; destruct (last =? 0); lia).
      destruct (IH (visited ++ skipped) [] (nsp ++ [px]) b2 (i + 1) i
                  (mark_significant data band dd px) (pred n) F E Hwf2 Hz2)
        as (Hdec & Hlip & Hnsp2 & Hwff & Hzf & Hef); try lia.
      * rewrite app_nil_r. exact Hf.
      * cbn [length]. lia.
      * split; [intros; contradiction|lia].
      * rewrite app_nil_r. exact Hroom.
      * rewrite app_nil_r. exact Hagree.
      * cbn [app]. rewrite length_app in Hn. cbn [length] in Hn. lia.
      * rewrite !app_nil_r in *. cbn [app] in *. fold bf in Hdec, Hlip, Hnsp2, Hwff, Hzf, Hef.
        rewrite <- !app_assoc in Hdec, Hlip. cbn [app] in Hdec.
        split; [|split; [exact Hlip|split; [rewrite Hnsp2, <- app_assoc; reflexivity|]]];
          [|split; [auto|split; [auto|congruence]]].
        destruct n as [|n]; [simpl in Hn; lia|]. cbn [decode_sorting_loop Nat.pred] in *.
        rewrite read_bit_at by lia. rewrite Hagree, Hbits, Hsign2 by lia.
        assert (Hneg : (of_bool (Z.land (load data (pixel_offset band px)) 1 =? 1) <? 0)
                       = false) by (destruct (_ =? 1); reflexivity).
        rewrite Hneg. cbv iota.
        rewrite (read_wdr_run_at F E (bb_pos b + s + 1) (i - last)); try lia.
        -- cbn [truthy Z.eqb negb]. rewrite (u32_small (i - last - 1)) by lia.
           rewrite <- Hsk. rewrite skip_nodes_run. unfold SQZ_list_exchange.
           rewrite of_bool_land_1.
           replace (bb_pos b + s + 1 + 2 * Z.log2 (i - last) + 1)
             with (bb_pos b2 + (if i + 1 - 1 =? 0 then 0 else 1)).
           2:{ replace (i + 1 - 1) with i by lia.
               destruct (Z.eqb_spec i 0); lia. }
           replace (i + 1 - 1) with i by lia.
           rewrite <- (app_assoc nsp [px]) in Hdec. exact Hdec.
        -- intros q Hq. rewrite Hagree, Hbits by lia.
           replace (bb_pos b + s + 1) with (bb_pos b + (s + 1)) by lia. apply Hrun2. lia.
        -- rewrite Hagree by lia.
           replace (bb_pos b + s + 1 + 2 * Z.log2 (i - last)) with (bb_pos b2) by lia.
           exact Hstop.
    + assert (Hsig' : truthy (Z.land (load data (pixel_offset band px)) (bitplane_mask_of band))
                      = false) by exact Hsig.
      cbn [encode_sorting_loop] in *. rewrite Hsig' in *.
      assert (Hu : u32 (i + 1) = i + 1) by (apply u32_small; lia). rewrite Hu in *.
      destruct (IH visited (skipped ++ [px]) nsp b (i + 1) last dd n F E Hwf Hz)
        as (Hdec & Hlip & Hnsp2 & Hwff & Hzf & Hef); try lia.
      * rewrite app_assoc. exact Hf.
      * rewrite length_app. cbn [length]. lia.
      * exact Hnsp.
      * rewrite app_assoc. exact Hroom.
      * rewrite app_assoc. exact Hagree.
      * rewrite <- app_assoc. exact Hn.
      * rewrite !app_assoc in *. rewrite <- !app_assoc in *. cbn [app] in *.
        auto 10.
Qed.

Lemma eob_at F E p : 0 <= p < 8 * E → SQZ_bit_buffer_eob (bb_at F E p) = false.
Proof.
  intros Hp. unfold SQZ_bit_buffer_eob, bb_at. cbn [bb_eob bb_ptr].
  apply Z.leb_gt. apply Z.div_lt_upper_bound; lia.
Qed.

Lemma not_eob_pos b : bb_wf b → SQZ_bit_buffer_eob b = false → bb_pos b < 8 * bb_eob b.
Proof.
  intros (? & ? & ? & ?) Hf. unfold SQZ_bit_buffer_eob in Hf. apply Z.leb_gt in Hf.
  unfold bb_pos. lia.
Qed.

Lemma of_bool_negb_1 x : of_bool (negb x) = 1 → x = false.
Proof. destruct x; [discriminate|reflexivity]. Qed.

(** The sorting pass of the decoder on a stream [F] that holds, from the
    cursor of the encoder on, what the sorting pass of the encoder wrote. *)
Lemma sorting_pass_sim data band b dd F E :
  bb_wf b → zero_from b → NSP band = [] → Z.of_nat (length (LIP band)) < 2 ^ 30 →
  (SQZ_encode_sorting_pass data band b).2 = 1 →
  E <= Z.of_nat (length F) → bb_pos (SQZ_encode_sorting_pass data band b).1.2 < 8 * E →
  (∀ q, 0 <= q < bb_pos (SQZ_encode_sorting_pass data band b).1.2 →
        bit_at F q = bit_at (bb_data (SQZ_encode_sorting_pass data band b).1.2) q) →
  SQZ_decode_sorting_pass dd band (bb_at F E (bb_pos b))
  = (foldl (mark_significant data band) dd (NSP (SQZ_encode_sorting_pass data band b).1.1),
     (SQZ_encode_sorting_pass data band b).1.1,
     bb_at F E (bb_pos (SQZ_encode_sorting_pass data band b).1.2), 1)
  ∧ bb_wf (SQZ_encode_sorting_pass data band b).1.2
  ∧ zero_from (SQZ_encode_sorting_pass data band b).1.2
  ∧ bb_eob (SQZ_encode_sorting_pass data band b).1.2 = bb_eob b
  ∧ (0 < band_bitplane band →
     LIP (SQZ_encode_sorting_pass data band b).1.1
     = List.filter (λ px, negb (significant data band px)) (LIP band)
     ∧ NSP (SQZ_encode_sorting_pass data band b).1.1
       = List.filter (significant data band) (LIP band))
  ∧ (band_bitplane band <= 0 → NSP (SQZ_encode_sorting_pass data band b).1.1 = []).
Proof.
  intros Hwf Hz Hnsp Hlen. rewrite encode_sorting_pass_close. unfold SQZ_decode_sorting_pass.
  destruct (Z.eqb_spec (Z.of_nat (length (LIP band))) 0) as [Hempty|Hne]; cbn [orb].
  { intros _ HE Hroom Hagree. cbn [fst snd]. rewrite Hnsp. cbn [foldl].
    split; [reflexivity|]. split; [auto|]. split; [auto|]. split; [auto|].
    split; [|auto].
    intros _. destruct (LIP band); [auto|simpl in Hempty; lia]. }
  destruct (Z.leb_spec (band_bitplane band) 0) as [Hb|Hb].
  { intros _ HE Hroom Hagree. cbn [fst snd]. rewrite Hnsp. cbn [foldl].
    split; [reflexivity|]. split; [auto|]. split; [auto|]. split; [auto|].
    split; [lia|auto]. }
  cbv zeta. cbn [fst snd]. rewrite Hnsp. intros Hok HE Hroom Hagree.
  apply of_bool_negb_1 in Hok.
  destruct (sorting_sim data band (LIP band) [] [] [] b 1 0 dd (S (length (LIP band))) F E
              Hwf Hz Hok ltac:(lia) ltac:(lia) ltac:(reflexivity) ltac:(tauto) HE
              ltac:(cbn [app]; lia) Hagree ltac:(cbn [app]; lia))
    as (Hdec & Hlip & Hn & Hwff & Hzf & Hef).
  cbn [app Z.eqb] in *. rewrite Z.add_0_r in Hdec. rewrite Hdec.
  cbn [dsort_data dsort_visited dsort_rest dsort_nsp dsort_buffer
       band_set_lists NSP LIP].
  rewrite eob_at.
  2:{ pose proof Hwff as (? & ? & ? & ?). unfold bb_pos in *. lia. }
  cbn [negb of_bool]. rewrite Hlip, Hn, app_nil_r.
  split; [reflexivity|]. split; [auto|]. split; [auto|]. split; [auto|].
  split; [auto|lia].
Qed.

(** The sorting pass of the decoder reads back what that of the encoder
    wrote.  When the encoder's pass returns 1, the decoder's pass over the
    bits just written rebuilds the same two lists, ends at the same cursor,
    and sets the bit of the bitplane and the sign in the coefficient of
    every pixel the encoder found significant: those of the old list whose
    coefficient has the bit of the bitplane set, in their order. *)
Theorem sorting_pass_roundtrip data band b dd band' b' :
  bb_wf b → zero_from b → NSP band = [] → Z.of_nat (length (LIP band)) < 2 ^ 30 →
  SQZ_encode_sorting_pass data band b = (band', b', 1) →
  SQZ_decode_sorting_pass dd band (bb_rewind b b')
  = (foldl (mark_significant data band) dd (NSP band'), band', b', 1)
  ∧ (0 < band_bitplane band →
     LIP band' = List.filter (λ px, negb (significant data band px)) (LIP band)
     ∧ NSP band' = List.filter (significant data band) (LIP band)).
Proof.
  intros Hwf Hz Hnsp Hlen He.
  destruct ((Z.of_nat (length (LIP band)) =? 0) || (band_bitplane band <=? 0)) eqn:Hc.
  { pose proof (encode_sorting_pass_close data band b) as Hcl. rewrite Hc, He in Hcl.
    injection Hcl as -> ->. unfold SQZ_decode_sorting_pass. rewrite Hc, Hnsp. cbn [foldl].
    replace (bb_rewind b b) with b by (destruct b; reflexivity).
    split; [reflexivity|]. intros Hb.
    apply orb_true_iff in Hc as [Hc|Hc]; [|apply Z.leb_le in Hc; lia].
    apply Z.eqb_eq in Hc. destruct (LIP band); [auto|simpl in Hc; lia]. }
  assert (Hf : SQZ_bit_buffer_eob b' = false).
  { pose proof (encode_sorting_pass_close data band b) as Hcl. rewrite Hc, He in Hcl.
    cbv zeta in Hcl. injection Hcl as _ -> Hok. symmetry in Hok.
    apply of_bool_negb_1 in Hok. exact Hok. }
  pose proof (encode_sorting_pass_extends data band b Hwf) as Hx. rewrite He in Hx.
  cbn [fst snd] in Hx.
  destruct (sorting_pass_sim data band b dd (bb_data b') (bb_eob b) Hwf Hz Hnsp Hlen)
    as (Hdec & Hwf' & _ & He' & Hlists & _); rewrite ?He; cbn [fst snd]; auto.
  - destruct Hx as (Hwf' & He' & Hl' & _). destruct Hwf' as (_ & _ & _ & Hlen').
    rewrite He' in Hlen'. exact Hlen'.
  - destruct Hx as (Hwf' & He' & _). rewrite <- He'. apply not_eob_pos; auto.
  - rewrite He in *. cbn [fst snd] in *. split; [|exact Hlists].
    rewrite bb_rewind_at by exact Hwf. rewrite Hdec.
    rewrite <- He', <- (bb_at_eq b' Hwf'). reflexivity.
Qed.

(** *** A whole bitplane of a subband *)

Lemma encode_sorting_pass_band data band b :
  ∃ lip nsp,
    (SQZ_encode_sorting_pass data band b).1.1
    = band_set_lists band (band_cache band) lip (LSP band) nsp.
Proof.
  rewrite encode_sorting_pass_close. destruct (_ || _); cbv zeta; cbn [fst snd].
  - exists (LIP band), (NSP band). destruct band; reflexivity.
  - eexists _, _. reflexivity.
Qed.

Lemma encode_sorting_pass_flag data band b :
  (SQZ_encode_sorting_pass data band b).2 = 0 ∨ (SQZ_encode_sorting_pass data band b).2 = 1.
Proof.
  rewrite encode_sorting_pass_close. destruct (_ || _); cbv zeta; cbn [fst snd]; auto.
  destruct (SQZ_bit_buffer_eob _); auto.
Qed.

(** A bitplane of the decoder on a stream [F] that holds, from the cursor
    of the encoder on, what the bitplane of the encoder wrote. *)
Lemma bitplane_sim data band b dd F E :
  bb_wf b → zero_from b → NSP band = [] → Z.of_nat (length (LIP band)) < 2 ^ 30 →
  (SQZ_encode_bitplane data band b).2 = 1 →
  E <= Z.of_nat (length F) → bb_pos (SQZ_encode_bitplane data band b).1.2 < 8 * E →
  (∀ q, 0 <= q < bb_pos (SQZ_encode_bitplane data band b).1.2 →
        bit_at F q = bit_at (bb_data (SQZ_encode_bitplane data band b).1.2) q) →
  SQZ_decode_bitplane dd band (bb_at F E (bb_pos b))
  = (foldl (mark_refined data band)
           (foldl (mark_significant data band) dd
                  (if band_bitplane band <=? 0 then []
                   else List.filter (significant data band) (LIP band)))
           (LSP band),
     (SQZ_encode_bitplane data band b).1.1.2,
     bb_at F E (bb_pos (SQZ_encode_bitplane data band b).1.2), 1)
  ∧ (SQZ_encode_bitplane data band b).1.1.1 = data
  ∧ bb_wf (SQZ_encode_bitplane data band b).1.2
  ∧ zero_from (SQZ_encode_bitplane data band b).1.2
  ∧ bb_eob (SQZ_encode_bitplane data band b).1.2 = bb_eob b.
Proof.
  intros Hwf Hz Hnsp Hlen. unfold SQZ_encode_bitplane, SQZ_decode_bitplane.
  pose proof (sorting_pass_sim data band b dd F E Hwf Hz Hnsp Hlen) as Hsort.
  pose proof (encode_sorting_pass_extends data band b Hwf) as Hx1.
  destruct (encode_sorting_pass_band data band b) as (lip & nsp & Hband).
  destruct (encode_sorting_pass_flag data band b) as [Hflag|Hflag];
    destruct (SQZ_encode_sorting_pass data band b) as [[band1 b1] ok1];
    cbn [fst snd] in *; subst ok1; cbn [truthy Z.eqb negb]; [discriminate|].
  unfold SQZ_encode_refinement_pass, SQZ_decode_refinement_pass.
  set (b2 := encode_refinement_loop data band1 (bitplane_mask_of band1) (LSP band1) b1).
  destruct (SQZ_bit_buffer_eob b2) eqn:Hf; cbn [negb of_bool truthy Z.eqb fst snd];
    [discriminate|].
  intros _ HE Hroom Hagree.
  pose proof (encode_refinement_loop_extends data band1 (bitplane_mask_of band1) (LSP band1) b1
                (extends_wf _ _ Hx1)) as Hx2.
  fold b2 in Hx2. destruct Hx2 as (_ & _ & _ & (Hpos2 & _) & Hbits2 & _).
  pose proof (extends_wf _ _ Hx1) as Hwf1. pose proof Hwf1 as (? & ? & ? & ?).
  assert (Hp1 : 0 <= bb_pos b1) by (unfold bb_pos; lia).
  destruct Hsort as (Hdec1 & _ & Hz1 & He1 & Hlists & Hnone); auto; try lia.
  { intros q Hq. rewrite Hagree by lia. apply Hbits2. lia. }
  rewrite Hdec1. cbn [truthy Z.eqb negb].
  destruct (refinement_sim data band1 (LSP band1) b1
              (foldl (mark_significant data band) dd (NSP band1)) F E Hwf1 Hz1 Hf HE
              ltac:(fold b2; lia) Hagree)
    as (Hdec2 & Hwf2 & Hz2 & He2).
  fold b2 in Hdec2, Hwf2, Hz2, He2. rewrite Hdec2.
  rewrite eob_at by (pose proof Hwf2 as (? & ? & ? & ?); unfold bb_pos in *; lia).
  cbn [negb of_bool truthy Z.eqb].
  split; [|split; [reflexivity|split; [auto|split; [auto|congruence]]]].
  f_equal. f_equal. f_equal.
  assert (Hnew : NSP band1 = if band_bitplane band <=? 0 then []
                             else List.filter (significant data band) (LIP band)).
  { destruct (Z.leb_spec (band_bitplane band) 0) as [Hb|Hb].
    - apply Hnone. lia.
    - apply Hlists. lia. }
  rewrite Hnew, Hband. reflexivity.
Qed.

(** A bitplane of the decoder reads back what that of the encoder wrote.
    When [SQZ_encode_bitplane] returns 1, [SQZ_decode_bitplane] over the
    bits just written leaves the subband with the same lists and the same
    bitplane, ends at the same cursor and returns 1; in the coefficients of
    the decoder it sets the bit of the bitplane and the sign for every
    pixel that became significant, and the bit of the bitplane for every
    pixel of the list of significant pixels whose coefficient has it. *)
Theorem bitplane_roundtrip data band b dd data' band' b' :
  bb_wf b → zero_from b → NSP band = [] → Z.of_nat (length (LIP band)) < 2 ^ 30 →
  SQZ_encode_bitplane data band b = (data', band', b', 1) →
  SQZ_decode_bitplane dd band (bb_rewind b b')
  = (foldl (mark_refined data band)
           (foldl (mark_significant data band) dd
                  (if band_bitplane band <=? 0 then []
                   else List.filter (significant data band) (LIP band)))
           (LSP band),
     band', b', 1)
  ∧ data' = data ∧ zero_from b'.
Proof.
  intros Hwf Hz Hnsp Hlen He.
  pose proof (encode_bitplane_extends data band b Hwf) as Hx. rewrite He in Hx.
  cbn [fst snd] in Hx. pose proof Hx as (Hwf' & He' & Hl' & _).
  assert (Hf : SQZ_bit_buffer_eob b' = false).
  { revert He. unfold SQZ_encode_bitplane.
    destruct (SQZ_encode_sorting_pass data band b) as [[band1 b1] ok1].
    destruct (negb (truthy ok1)); [intros H; injection H; discriminate|].
    destruct (SQZ_encode_refinement_pass data band1 b1) as [b2 ok2].
    destruct (negb (truthy ok2)); [intros H; injection H; discriminate|].
    intros H; injection H as _ _ <- Hok. apply of_bool_negb_1 in Hok. exact Hok. }
  destruct (bitplane_sim data band b dd (bb_data b') (bb_eob b) Hwf Hz Hnsp Hlen)
    as (Hdec & Hdata & _ & Hz' & _); rewrite ?He; cbn [fst snd]; auto.
  - destruct Hwf' as (_ & _ & _ & Hlen'). rewrite He' in Hlen'. exact Hlen'.
  - rewrite <- He'. apply not_eob_pos; auto.
  - rewrite He in *. cbn [fst snd] in *. split; [|auto].
    rewrite bb_rewind_at by exact Hwf. rewrite Hdec.
    rewrite <- He', <- (bb_at_eq b' Hwf'). reflexivity.
Qed.

Lemma zero_from_init n k :
  0 <= k <= Z.of_nat n → zero_from (SQZ_bit_buffer_init (replicate n 0) k).
Proof.
  intros Hk q Hq. change (bb_pos (SQZ_bit_buffer_init (replicate n 0) k)) with 0 in Hq.
  change (bb_eob (SQZ_bit_buffer_init (replicate n 0) k)) with k in Hq.
  unfold bit_at, load. cbn [bb_data SQZ_bit_buffer_init].
  assert (0 <= q / 8 < k).
  { split; [apply Z.div_pos; lia|]. apply Z.div_lt_upper_bound; lia. }
  rewrite lookup_total_replicate_2 by lia. apply Z.bits_0.
Qed.

Lemma sorting_pass_roundtrip_witness :
  let data := [4; 5; 0; 6] in
  let band := mk_band (mk_cache 4 4) [(0, 0); (1, 0); (0, 1); (1, 1)] [] [] 0 2 2 2 2 2 0 in
  let b := SQZ_bit_buffer_init (replicate 8 0) 8 in
  ∃ band' b',
    SQZ_encode_sorting_pass data band b = (band', b', 1)
    ∧ SQZ_decode_sorting_pass [0; 0; 0; 0] band (bb_rewind b b')
      = (foldl (mark_significant data band) [0; 0; 0; 0] (NSP band'), band', b', 1)
    ∧ (0 < band_bitplane band →
       LIP band' = List.filter (λ px, negb (significant data band px)) (LIP band)
       ∧ NSP band' = List.filter (significant data band) (LIP band)).
Proof.
  cbv zeta.
  assert (Hwf : bb_wf (SQZ_bit_buffer_init (replicate 8 0) 8))
    by (unfold bb_wf; vm_compute; repeat split; try discriminate; left; reflexivity).
  assert (Hz : zero_from (SQZ_bit_buffer_init (replicate 8 0) 8))
    by (apply zero_from_init; simpl; lia).
  assert (Hlen : Z.of_nat (length [(0, 0); (1, 0); (0, 1); (1, 1)]) < 2 ^ 30)
    by (vm_compute; reflexivity).
  eassert (He : SQZ_encode_sorting_pass [4; 5; 0; 6]
                  (mk_band (mk_cache 4 4) [(0, 0); (1, 0); (0, 1); (1, 1)] [] [] 0 2 2 2 2 2 0)
                  (SQZ_bit_buffer_init (replicate 8 0) 8) = (_, _, 1))
    by (vm_compute; reflexivity).
  eexists _, _. split; [exact He|].
  exact (sorting_pass_roundtrip [4; 5; 0; 6]
           (mk_band (mk_cache 4 4) [(0, 0); (1, 0); (0, 1); (1, 1)] [] [] 0 2 2 2 2 2 0)
           _ [0; 0; 0; 0] _ _ Hwf Hz eq_refl Hlen He).
Defined.

Lemma bitplane_roundtrip_witness :
  let data := [4; 5; 0; 6; 12; 9] in
  let band := mk_band (mk_cache 6 6) [(0, 0); (1, 0); (0, 1); (1, 1)] [(0, 2); (1, 2)] []
                      0 2 3 2 3 2 0 in
  let b := SQZ_bit_buffer_init (replicate 8 0) 8 in
  ∃ data' band' b',
    SQZ_encode_bitplane data band b = (data', band', b', 1)
    ∧ SQZ_decode_bitplane [0; 0; 0; 0; 8; 9] band (bb_rewind b b')
      = (foldl (mark_refined data band)
               (foldl (mark_significant data band) [0; 0; 0; 0; 8; 9]
                      (if band_bitplane band <=? 0 then []
                       else List.filter (significant data band) (LIP band)))
               (LSP band),
         band', b', 1)
    ∧ data' = data ∧ zero_from b'.
Proof.
  cbv zeta.
  assert (Hwf : bb_wf (SQZ_bit_buffer_init (replicate 8 0) 8))
    by (unfold bb_wf; vm_compute; repeat split; try discriminate; left; reflexivity).
  assert (Hz : zero_from (SQZ_bit_buffer_init (replicate 8 0) 8))
    by (apply zero_from_init; simpl; lia).
  assert (Hlen : Z.of_nat (length [(0, 0); (1, 0); (0, 1); (1, 1)]) < 2 ^ 30)
    by (vm_compute; reflexivity).
  eassert (He : SQZ_encode_bitplane [4; 5; 0; 6; 12; 9]
                  (mk_band (mk_cache 6 6) [(0, 0); (1, 0); (0, 1); (1, 1)] [(0, 2); (1, 2)] []
                           0 2 3 2 3 2 0)
                  (SQZ_bit_buffer_init (replicate 8 0) 8) = (_, _, _, 1))
    by (vm_compute; reflexivity).
  eexists _, _, _. split; [exact He|].
  exact (bitplane_roundtrip [4; 5; 0; 6; 12; 9]
           (mk_band (mk_cache 6 6) [(0, 0); (1, 0); (0, 1); (1, 1)] [(0, 2); (1, 2)] []
                    0 2 3 2 3 2 0)
           _ [0; 0; 0; 0; 8; 9] _ _ _ Hwf Hz eq_refl Hlen He).
Defined.

(** ** The scheduler of the decoder follows that of the encoder *)

Lemma insert_lookup_total_cases {A : Type} `{Inhabited A} (l : list A) (i j : nat) (v : A) :
  (<[i:=v]> l) !!! j = v ∨ (<[i:=v]> l) !!! j = l !!! j.
Proof.
  rewrite list_lookup_total_insert. destruct (decide _); auto.
Qed.

Lemma band_at_set ctx plane level orientation band i j :
  band_at (ctx_plane (set_band ctx plane level orientation band)) i j = band
  ∨ band_at (ctx_plane (set_band ctx plane level orientation band)) i j
    = band_at (ctx_plane ctx) i j.
Proof.
  unfold band_at, set_band. cbn [ctx_plane].
  rewrite list_lookup_total_insert. destruct (decide _) as [[<- _]|_]; [|right; reflexivity].
  cbn [plane_band]. apply insert_lookup_total_cases.
Qed.

Lemma bands_set (P : SQZ_dwt_subband_t → Prop) ctx plane level orientation band :
  (∀ i j, P (band_at (ctx_plane ctx) i j)) → P band →
  ∀ i j, P (band_at (ctx_plane (set_band ctx plane level orientation band)) i j).
Proof.
  intros Hall Hb i j.
  destruct (band_at_set ctx plane level orientation band i j) as [-> | ->]; auto.
Qed.

Lemma set_band_planes ctx ctx' plane level orientation band :
  ctx_plane ctx' = ctx_plane ctx →
  ctx_plane (set_band ctx' plane level orientation band)
  = ctx_plane (set_band ctx plane level orientation band).
Proof. intros H. unfold set_band. cbn [ctx_plane]. rewrite H. reflexivity. Qed.

Lemma get_max_range data band :
  (∀ o, 0 <= load data o < 2 ^ 15) → 0 <= SQZ_dwt_get_max data band < 2 ^ 15.
Proof.
  intros HD. unfold SQZ_dwt_get_max.
  apply (for_range_inv (λ m, 0 <= m < 2 ^ 15)); [apply HD|].
  intros y m Hm.
  apply (for_range_inv (λ m, 0 <= m < 2 ^ 15)); [exact Hm|].
  intros x m' Hm'. destruct (_ <? _); [apply HD|exact Hm'].
Qed.

Lemma max_bitplane_range data band :
  (∀ o, 0 <= load data o < 2 ^ 15) →
  0 <= s32 (SQZ_ilog2 (u32 (Z.shiftr (SQZ_dwt_get_max data band) 1))) <= 14.
Proof.
  intros HD. pose proof (get_max_range data band HD) as Hm.
  assert (Hs : 0 <= Z.shiftr (SQZ_dwt_get_max data band) 1 < 2 ^ 14).
  { rewrite Z.shiftr_div_pow2 by lia. change (2 ^ 1) with 2.
    split; [apply Z.div_pos; lia|apply Z.div_lt_upper_bound; lia]. }
  rewrite u32_small by lia. rewrite SQZ_ilog2_bit_length by lia.
  pose proof (bit_length_range _ Hs). rewrite s32_small by lia. lia.
Qed.

Lemma init_subband_loop_length fuel n : ∀ cache lip scan cache' lip' scan',
  Z.of_nat (length lip) <= cache_index cache →
  cache_index cache <= Z.max (cache_capacity cache) 0 →
  init_subband_loop fuel n cache lip scan = Some (cache', lip', scan') →
  Z.of_nat (length lip') <= Z.max (cache_capacity cache) 0.
Proof.
  induction n as [|n IH]; intros cache lip scan cache' lip' scan' Hl Hi; [discriminate|].
  cbn [init_subband_loop]. unfold SQZ_list_add.
  destruct (Z.leb_spec (cache_capacity cache) (cache_index cache)) as [Hfull|Hroom];
    (destruct (call_scan fuel scan) as [[scan1 more]|]; cbn [mbind option_bind];
     [|discriminate]);
    destruct (truthy more).
  - apply IH; assumption.
  - intros H. injection H as <- <- <-. lia.
  - intros H. apply IH in H; cbn [cache_capacity cache_index] in *; try lia.
    rewrite length_app. cbn [length]. lia.
  - intros H. injection H as <- <- <-. rewrite length_app. cbn [length]. lia.
Qed.

Lemma common_init_subband_lists fuel band scan band0 scan' res :
  SQZ_common_init_subband fuel band scan = Some (band0, scan', res) →
  ∃ cache lip,
    band0 = band_set_lists band cache lip [] []
    ∧ Z.of_nat (length lip) <= Z.max (usize (band_width band * band_height band)) 0.
Proof.
  unfold SQZ_common_init_subband.
  destruct (init_subband_loop _ _ _ _ _) as [[[cache lip] scan1]|] eqn:Hloop;
    cbn [mbind option_bind]; [|discriminate].
  intros H. injection H as <- <- <-. exists cache, lip. split; [reflexivity|].
  apply init_subband_loop_length in Hloop;
    cbn [SQZ_node_cache_init cache_capacity cache_index SQZ_list_init length] in *; lia.
Qed.

Lemma encode_sorting_pass_full data band b :
  (SQZ_encode_sorting_pass data band b).2 = 0 →
  SQZ_bit_buffer_eob (SQZ_encode_sorting_pass data band b).1.2 = true.
Proof.
  rewrite encode_sorting_pass_close. destruct (_ || _); cbv zeta; cbn [fst snd];
    [discriminate|].
  destruct (SQZ_bit_buffer_eob _); [reflexivity|discriminate].
Qed.

Lemma encode_bitplane_flag data band b :
  (SQZ_encode_bitplane data band b).2
  = of_bool (negb (SQZ_bit_buffer_eob (SQZ_encode_bitplane data band b).1.2)).
Proof.
  unfold SQZ_encode_bitplane.
  pose proof (encode_sorting_pass_full data band b) as Hfull.
  destruct (encode_sorting_pass_flag data band b) as [Hflag|Hflag];
    destruct (SQZ_encode_sorting_pass data band b) as [[band1 b1] ok1];
    cbn [fst snd] in *; subst ok1; cbn [truthy Z.eqb negb fst snd].
  - rewrite Hfull by reflexivity. reflexivity.
  - unfold SQZ_encode_refinement_pass.
    set (b2 := encode_refinement_loop data band1 (bitplane_mask_of band1) (LSP band1) b1).
    destruct (SQZ_bit_buffer_eob b2) eqn:He; cbn [negb of_bool truthy Z.eqb fst snd];
      rewrite ?He; reflexivity.
Qed.

(** After a bitplane that went through, the subband has no pixel in its
    NSP, its LIP has not grown and its extent is as it was. *)
Lemma encode_bitplane_ready data band b :
  NSP band = [] → (SQZ_encode_bitplane data band b).2 = 1 →
  NSP (SQZ_encode_bitplane data band b).1.1.2 = []
  ∧ (length (LIP (SQZ_encode_bitplane data band b).1.1.2) <= length (LIP band))%nat
  ∧ band_width (SQZ_encode_bitplane data band b).1.1.2 = band_width band
  ∧ band_height (SQZ_encode_bitplane data band b).1.1.2 = band_height band.
Proof.
  intros Hnsp. unfold SQZ_encode_bitplane.
  pose proof (encode_sorting_pass_lists data band b) as (Hperm & Hgeo & _).
  destruct (encode_sorting_pass_band data band b) as (lip & nsp & Hband).
  destruct (SQZ_encode_sorting_pass data band b) as [[band1 b1] ok1]. cbn [fst snd] in *.
  destruct (negb (truthy ok1)); [discriminate|].
  destruct (SQZ_encode_refinement_pass data band1 b1) as [b2 ok2].
  destruct (negb (truthy ok2)); [discriminate|]. cbn [fst snd]. intros _.
  apply Permutation_length in Hperm. rewrite !length_app, Hnsp in Hperm.
  subst band1. cbn [LIP LSP NSP band_set_lists length] in Hperm.
  unfold bitplane_done, SQZ_list_merge.
  cbn [LIP LSP NSP band_set_lists band_set_bitplanes band_cache band_max_bitplane
       band_bitplane band_width band_height].
  destruct nsp; cbn [LIP LSP NSP band_set_lists band_set_bitplanes band_width band_height];
    repeat split; lia.
Qed.

Section schedule_follows.
Variables (D F : list Z) (E : Z) (bf : SQZ_bit_buffer_t) (fuel : nat).
Variable K : SQZ_dwt_subband_t → list Z → Prop.
Variable Sc : SQZ_scan_context_t → Prop.
Hypothesis HD : ∀ o, 0 <= load D o < 2 ^ 15.
Hypothesis HE : E <= Z.of_nat (length F).
Hypothesis Hbf : SQZ_bit_buffer_eob bf = false.
Hypothesis HposE : bb_pos bf < 8 * E.
Hypothesis HF : ∀ q, 0 <= q < bb_pos bf → bit_at F q = bit_at (bb_data bf) q.
Hypothesis K_init : ∀ band scan0 scan1 r band0 scan2 res dd,
  Sc scan0 → K band dd →
  SQZ_scan_init fuel scan0 band = Some (scan1, r) →
  SQZ_common_init_subband fuel band scan1 = Some (band0, scan2, res) →
  K (band_set_bitplanes band0
       (s32 (SQZ_ilog2 (u32 (Z.shiftr (SQZ_dwt_get_max D band0) 1))))
       (s32 (SQZ_ilog2 (u32 (Z.shiftr (SQZ_dwt_get_max D band0) 1))))) dd
  ∧ Sc scan2.
Hypothesis K_task : ∀ band b dd,
  bb_wf b → zero_from b → NSP band = [] → Z.of_nat (length (LIP band)) < 2 ^ 30 →
  (SQZ_encode_bitplane D band b).2 = 1 → K band dd →
  K (SQZ_encode_bitplane D band b).1.1.2 (bitplane_marks D band dd).
Hypothesis K_mono : ∀ band band2 dd,
  K band dd → K band2 dd → K band (bitplane_marks D band2 dd).

Lemma schedule_advance_follows ce cd scan state plane level orientation round done :
  ctx_follows K D F E ce cd → Sc scan →
  step_follows K Sc D F E
    (schedule_advance (mk_schedule ce scan state plane level orientation round done))
    (schedule_advance (mk_schedule cd scan state plane level orientation round done)).
Proof.
  intros Hc Hs. pose proof Hc as (_ & Him & _).
  unfold schedule_advance. rewrite Him.
  repeat match goal with |- context [if ?c then _ else _] => destruct c end;
    cbn [step_follows]; (split; [exact Hc|split; [exact Hs|reflexivity]]).
Qed.

#[local] Opaque schedule_advance.

Lemma not_full b :
  bb_wf b → bb_extends b bf → SQZ_bit_buffer_eob b = false ∧ 0 <= bb_pos b < 8 * E.
Proof.
  intros Hwf Hx. pose proof (extends_not_full b bf Hx Hbf) as Hlt.
  destruct Hx as (_ & He & _ & (Hpos & _) & _). pose proof Hwf as (? & ? & ? & ?).
  split; [|unfold bb_pos in *; lia].
  unfold SQZ_bit_buffer_eob. apply Z.leb_gt. unfold bb_pos in Hlt. lia.
Qed.

Lemma agree_below b q :
  bb_extends b bf → 0 <= q < bb_pos b → bit_at F q = bit_at (bb_data b) q.
Proof.
  intros (_ & _ & _ & (Hpos & _) & Hbits & _) Hq. rewrite HF by lia. apply Hbits. exact Hq.
Qed.

(** The initialization of a subband by the decoder reads the four bits of
    [max_bitplane] that the encoder wrote. *)
Lemma decode_init_follows band scan b band1 scan1 b1 res dd :
  bb_wf b → zero_from b →
  SQZ_encode_init_subband fuel D band scan b = Some (band1, scan1, b1, res) →
  bb_extends b1 bf →
  SQZ_decode_init_subband fuel dd band scan (bb_at F E (bb_pos b))
  = Some (band1, scan1, bb_at F E (bb_pos b1), res)
  ∧ bb_wf b1 ∧ zero_from b1
  ∧ ∃ band0 r,
      SQZ_common_init_subband fuel band scan = Some (band0, scan1, r)
      ∧ band1 = band_set_bitplanes band0
                  (s32 (SQZ_ilog2 (u32 (Z.shiftr (SQZ_dwt_get_max D band0) 1))))
                  (s32 (SQZ_ilog2 (u32 (Z.shiftr (SQZ_dwt_get_max D band0) 1)))).
Proof.
  intros Hwf Hz Henc Hx. unfold SQZ_encode_init_subband in Henc.
  unfold SQZ_decode_init_subband.
  destruct (SQZ_common_init_subband fuel band scan) as [[[band0 scan2] r]|] eqn:Hc;
    cbn [mbind option_bind] in *; [|discriminate].
  pose proof (max_bitplane_range D band0 HD) as Hm.
  set (m := s32 (SQZ_ilog2 (u32 (Z.shiftr (SQZ_dwt_get_max D band0) 1)))) in *.
  cbn [band_max_bitplane band_set_bitplanes] in Henc.
  destruct (SQZ_bit_buffer_write_bits b (u32 m) 4) as [bw okw] eqn:Hw.
  injection Henc as <- <- <- <-.
  destruct (write_bits_room b (u32 m) 4 bf Hwf ltac:(lia) Hz)
    as (b1 & Hw1 & Hwf1 & He1 & Hp1 & Hz1 & Hold & Hnew).
  { rewrite Hw. exact Hx. }
  { exact Hbf. }
  rewrite Hw in Hw1. injection Hw1 as <- ->.
  destruct (not_full bw Hwf1 Hx) as (_ & Hroom).
  pose proof Hwf as (? & ? & ? & ?).
  assert (Hp0 : 0 <= bb_pos b) by (unfold bb_pos; lia).
  destruct (read_field (bb_at F E (bb_pos b)) 4 m) as (c & Hr & Hwc & Hec & Hdc & Hpc).
  { apply bb_at_wf; [lia|exact HE]. }
  { lia. }
  { lia. }
  { rewrite bb_at_pos. cbn [bb_at bb_eob]. lia. }
  { rewrite bb_at_pos. cbn [bb_at bb_data]. intros j Hj.
    rewrite (agree_below bw) by (auto; lia). rewrite Hnew by lia.
    rewrite u32_small by lia. f_equal. lia. }
  rewrite Hr. rewrite bb_at_pos in Hpc. cbn [bb_at bb_eob bb_data] in Hec, Hdc.
  split; [|split; [exact Hwf1|split; [exact Hz1|exists band0, r; split; reflexivity]]].
  rewrite (bb_at_eq c Hwc), Hec, Hdc, Hpc, Hp1. reflexivity.
Qed.

(** The second half of a turn of the scheduler: the task on the subband and
    the move to the next one. *)
Lemma visit_task_follows ce cd scan state plane level orientation round done band b xe :
  ctx_plane cd = ctx_plane ce → ctx_image cd = ctx_image ce → ctx_data ce = D →
  bb_wf b → zero_from b → bands_ready (ctx_plane ce) →
  NSP band = [] → Z.of_nat (length (LIP band)) < 2 ^ 30 →
  usize (band_width band * band_height band) < 2 ^ 30 →
  (∀ i j, K (band_at (ctx_plane ce) i j) (ctx_data cd)) → K band (ctx_data cd) → Sc scan →
  (let '(data, band', buffer, ok) := SQZ_encode_bitplane (ctx_data ce) band b in
   let ctx' := ctx_set_buffer (ctx_set_data (set_band ce plane level orientation band') data)
                              buffer in
   if negb (truthy ok) then Some (Step_return ctx' SQZ_RESULT_OK)
   else Some (schedule_advance
                (mk_schedule ctx' scan state plane level orientation round
                             (Z.land done (of_bool (band_bitplane band' =? 0)))))) = Some xe →
  bb_extends (step_buffer xe) bf →
  ∃ xd,
    (let '(data, band', buffer, ok) :=
       SQZ_decode_bitplane (ctx_data cd) band (bb_at F E (bb_pos b)) in
     let ctx' := ctx_set_buffer (ctx_set_data (set_band cd plane level orientation band') data)
                                buffer in
     if negb (truthy ok) then Some (Step_return ctx' SQZ_RESULT_OK)
     else Some (schedule_advance
                  (mk_schedule ctx' scan state plane level orientation round
                               (Z.land done (of_bool (band_bitplane band' =? 0)))))) = Some xd
    ∧ step_follows K Sc D F E xe xd.
Proof.
  intros Hpl Him Hdata Hwf Hz Hready Hnsp Hlen Hcap HK HKb HS. rewrite Hdata.
  pose proof (encode_bitplane_flag D band b) as Hflag.
  pose proof (encode_bitplane_extends D band b Hwf) as Hx.
  pose proof (bitplane_sim D band b (ctx_data cd) F E Hwf Hz Hnsp Hlen) as Hsim.
  pose proof (encode_bitplane_ready D band b Hnsp) as Hrd.
  pose proof (K_task band b (ctx_data cd) Hwf Hz Hnsp Hlen) as Htask.
  destruct (SQZ_encode_bitplane D band b) as [[[d3 band3] b3] ok3]. cbn [fst snd] in *.
  pose proof (extends_wf _ _ Hx) as Hwf3.
  destruct (SQZ_bit_buffer_eob b3) eqn:Heob; subst ok3; cbn [negb of_bool truthy Z.eqb];
    intros Henc Hxbf; injection Henc as <-.
  { cbn [step_buffer ctx_buffer ctx_set_buffer] in Hxbf.
    destruct (not_full b3 Hwf3 Hxbf) as (Hne & _). congruence. }
  rewrite schedule_advance_buffer in Hxbf. cbn [sched_ctx ctx_buffer ctx_set_buffer] in Hxbf.
  destruct (not_full b3 Hwf3 Hxbf) as (_ & Hroom).
  destruct Hsim as (Hdec & Hd3 & _ & Hz3 & He3); [reflexivity|exact HE|lia| |].
  { intros q Hq. apply agree_below; assumption. }
  fold (bitplane_marks D band (ctx_data cd)) in Hdec. rewrite Hdec.
  cbn [negb of_bool truthy Z.eqb]. eexists. split; [reflexivity|].
  destruct Hrd as (Hnsp3 & Hlen3 & Hw3 & Hh3); [reflexivity|]. subst d3.
  apply schedule_advance_follows; [|exact HS].
  unfold ctx_follows. cbn [ctx_plane ctx_image ctx_buffer ctx_data ctx_set_buffer ctx_set_data].
  split; [apply set_band_planes; exact Hpl|].
  split; [exact Him|]. split; [reflexivity|]. split; [reflexivity|].
  split; [exact Hwf3|]. split; [exact Hz3|]. split.
  - unfold bands_ready.
    apply (bands_set (λ band, NSP band = [] ∧ Z.of_nat (length (LIP band)) < 2 ^ 30
                              ∧ usize (band_width band * band_height band) < 2 ^ 30));
      [exact Hready|].
    rewrite Hw3, Hh3. split; [exact Hnsp3|split; [lia|exact Hcap]].
  - apply (bands_set (λ band', K band' (bitplane_marks D band (ctx_data cd)))).
    + intros i j. apply K_mono; [apply HK|exact HKb].
    + apply Htask; [reflexivity|exact HKb].
Qed.

(** One turn of the [for (;;)] of the scheduler. *)
Lemma schedule_visit_follows se sd xe :
  sched_follows K Sc D F E se sd →
  schedule_visit fuel SQZ_encode_init_subband SQZ_encode_bitplane se = Some xe →
  bb_extends (step_buffer xe) bf →
  ∃ xd, schedule_visit fuel SQZ_decode_init_subband SQZ_decode_bitplane sd = Some xd
        ∧ step_follows K Sc D F E xe xd.
Proof.
  intros (Hc & HS & Hsd).
  destruct se as [ce scan state plane level orientation round done].
  cbn [sched_ctx sched_scan] in Hc, HS. unfold sched_set_ctx in Hsd.
  cbn [sched_scan sched_state sched_plane sched_level sched_orientation sched_round
       sched_done] in Hsd.
  set (cd := sched_ctx sd) in *. clearbody cd. subst sd.
  pose proof Hc as (Hpl & Him & Hbuf & Hdata & Hwf & Hz & Hready & HK).
  unfold schedule_visit.
  assert (Hgb : get_band cd plane level orientation = get_band ce plane level orientation)
    by (unfold get_band; rewrite Hpl; reflexivity).
  rewrite Hgb. set (band := get_band ce plane level orientation).
  assert (Hband : band = band_at (ctx_plane ce) (Z.to_nat plane) (band_slot level orientation))
    by reflexivity.
  pose proof (Hready (Z.to_nat plane) (band_slot level orientation)) as (Hnsp & Hlen & Hcap).
  pose proof (HK (Z.to_nat plane) (band_slot level orientation)) as HKb.
  rewrite <- Hband in Hnsp, Hlen, Hcap, HKb.
  destruct (_ || _).
  { intros H _. injection H as <-. eexists. split; [reflexivity|].
    apply schedule_advance_follows; assumption. }
  rewrite Hbuf, Hdata.
  destruct (band_round band =? round).
  - destruct (SQZ_scan_init fuel scan band) as [[scan1 r1]|] eqn:Hsi;
      cbn [mbind option_bind]; [|discriminate].
    destruct (SQZ_encode_init_subband fuel D band scan1 (ctx_buffer ce))
      as [[[[band2 scan2] b2] result2]|] eqn:Hin; cbn [mbind option_bind]; [|discriminate].
    pose proof (encode_init_ok _ _ _ _ _ _ _ _ _ Hin) as ->.
    intros Hvis Hxbf.
    pose proof (encode_init_extends _ _ _ _ _ _ _ _ _ Hwf Hin) as Hx2.
    pose proof (extends_wf _ _ Hx2) as Hwf2.
    pose proof (visit_task_extends
                  (ctx_set_buffer (set_band ce plane level orientation band2) b2)
                  scan2 state plane level orientation round done band2 b2 xe Hwf2 Hvis) as Hx3.
    destruct (decode_init_follows band scan1 (ctx_buffer ce) band2 scan2 b2 SQZ_RESULT_OK
                (ctx_data cd) Hwf Hz Hin (extends_trans _ _ _ Hx3 Hxbf))
      as (Hdec & _ & Hz2 & band0 & r0 & Hcommon & Hband2).
    rewrite Hdec. cbn [mbind option_bind].
    destruct (K_init band scan scan1 r1 band0 scan2 r0 (ctx_data cd) HS HKb Hsi Hcommon)
      as (HK2 & HS2).
    rewrite <- Hband2 in HK2.
    destruct (common_init_subband_lists _ _ _ _ _ _ Hcommon) as (cache & lip & Hb0 & Hlip).
    assert (Hr2 : NSP band2 = [] ∧ Z.of_nat (length (LIP band2)) < 2 ^ 30
                  ∧ usize (band_width band2 * band_height band2) < 2 ^ 30).
    { subst band2 band0. cbn [NSP LIP band_width band_height band_set_bitplanes band_set_lists].
      split; [reflexivity|split; [lia|exact Hcap]]. }
    destruct Hr2 as (Hnsp2 & Hlen2 & Hcap2).
    refine (visit_task_follows
              (ctx_set_buffer (set_band ce plane level orientation band2) b2)
              (ctx_set_buffer (set_band cd plane level orientation band2)
                              (bb_at F E (bb_pos b2)))
              scan2 state plane level orientation round done band2 b2 xe
              _ Him Hdata Hwf2 Hz2 _ Hnsp2 Hlen2 Hcap2 _ HK2 HS2 Hvis Hxbf).
    + cbn [ctx_plane ctx_set_buffer]. apply set_band_planes. exact Hpl.
    + cbn [ctx_plane ctx_set_buffer]. unfold bands_ready.
      apply (bands_set (λ band, NSP band = [] ∧ Z.of_nat (length (LIP band)) < 2 ^ 30
                                ∧ usize (band_width band * band_height band) < 2 ^ 30));
        [exact Hready|auto].
    + cbn [ctx_plane ctx_set_buffer ctx_data].
      change (ctx_data (set_band cd plane level orientation band2)) with (ctx_data cd).
      apply (bands_set (λ band', K band' (ctx_data cd))); [exact HK|exact HK2].
  - cbn [mbind option_bind]. intros Hvis Hxbf.
    refine (visit_task_follows
              (ctx_set_buffer (set_band ce plane level orientation band) (ctx_buffer ce))
              (ctx_set_buffer (set_band cd plane level orientation band)
                              (bb_at F E (bb_pos (ctx_buffer ce))))
              scan state plane level orientation round done band (ctx_buffer ce) xe
              _ Him Hdata Hwf Hz _ Hnsp Hlen Hcap _ HKb HS Hvis Hxbf).
    + cbn [ctx_plane ctx_set_buffer]. apply set_band_planes. exact Hpl.
    + cbn [ctx_plane ctx_set_buffer]. unfold bands_ready.
      apply (bands_set (λ band, NSP band = [] ∧ Z.of_nat (length (LIP band)) < 2 ^ 30
                                ∧ usize (band_width band * band_height band) < 2 ^ 30));
        [exact Hready|auto].
    + cbn [ctx_plane ctx_set_buffer ctx_data].
      change (ctx_data (set_band cd plane level orientation band)) with (ctx_data cd).
      apply (bands_set (λ band', K band' (ctx_data cd))); [exact HK|exact HKb].
Qed.

#[local] Transparent schedule_advance.

Lemma step_follows_wf xe xd :
  step_follows K Sc D F E xe xd → bb_wf (step_buffer xe).
Proof.
  destruct xe, xd; cbn [step_follows]; try contradiction;
    intros ((_ & _ & _ & _ & Hwf & _) & _); exact Hwf.
Qed.

(** The [for (;;)] of the scheduler. *)
Lemma schedule_round_follows n : ∀ se sd xe,
  sched_follows K Sc D F E se sd →
  schedule_round fuel n SQZ_encode_init_subband SQZ_encode_bitplane se = Some xe →
  bb_extends (step_buffer xe) bf →
  ∃ xd, schedule_round fuel n SQZ_decode_init_subband SQZ_decode_bitplane sd = Some xd
        ∧ step_follows K Sc D F E xe xd.
Proof.
  induction n as [|n IH]; intros se sd xe Hf; [discriminate|].
  cbn [schedule_round].
  destruct (schedule_visit fuel SQZ_encode_init_subband SQZ_encode_bitplane se)
    as [x1|] eqn:Hv; cbn [mbind option_bind]; [|discriminate].
  intros Hround Hxbf.
  assert (Hx1 : bb_extends (step_buffer x1) bf).
  { destruct x1 as [st1|st1|c1 r1]; try (injection Hround as <-; exact Hxbf).
    pose proof Hf as ((_ & _ & _ & _ & Hwf & _) & _).
    pose proof (schedule_visit_extends _ _ _ _ _ encode_init_extends encode_bitplane_extends
                  Hwf Hv) as Hx.
    refine (extends_trans _ _ _ _ Hxbf).
    exact (schedule_round_extends _ _ _ _ _ _ encode_init_extends encode_bitplane_extends
             (extends_wf _ _ Hx) Hround). }
  destruct (schedule_visit_follows se sd x1 Hf Hv Hx1) as (xd1 & Hvd & Hf1).
  rewrite Hvd. cbn [mbind option_bind].
  destruct x1 as [st1|st1|c1 r1], xd1 as [sd1|sd1|cd1 rd1]; cbn [step_follows] in Hf1;
    try contradiction.
  - exact (IH st1 sd1 xe Hf1 Hround Hxbf).
  - injection Hround as <-. eexists. split; [reflexivity|exact Hf1].
Qed.

(** The [while] of the scheduler. *)
Lemma schedule_rounds_follows n : ∀ se sd ce' re,
  sched_follows K Sc D F E se sd →
  schedule_rounds fuel n SQZ_encode_init_subband SQZ_encode_bitplane se = Some (ce', re) →
  bb_extends (ctx_buffer ce') bf →
  ∃ cd', schedule_rounds fuel n SQZ_decode_init_subband SQZ_decode_bitplane sd
         = Some (cd', re)
         ∧ ctx_follows K D F E ce' cd'.
Proof.
  induction n as [|n IH]; intros se sd ce' re Hf; [discriminate|].
  cbn [schedule_rounds].
  pose proof Hf as (Hc & HS & Hsd).
  destruct se as [ce scan state plane level orientation round done].
  cbn [sched_ctx sched_scan] in Hc, HS. unfold sched_set_ctx in Hsd.
  cbn [sched_scan sched_state sched_plane sched_level sched_orientation sched_round
       sched_done] in Hsd.
  set (cd := sched_ctx sd) in *. clearbody cd. subst sd.
  cbn [sched_done sched_ctx].
  pose proof Hc as (Hpl & Him & Hbuf & Hdata & Hwf & Hz & Hready & HK).
  intros Hrounds Hxbf.
  assert (Hx0 : bb_extends (ctx_buffer ce) bf).
  { refine (extends_trans _ _ _ _ Hxbf).
    exact (schedule_rounds_extends fuel _ _ (S n)
             (mk_schedule ce scan state plane level orientation round done) (ce', re)
             encode_init_extends encode_bitplane_extends Hwf Hrounds). }
  destruct (not_full _ Hwf Hx0) as (Hne & Hroom).
  rewrite Hbuf. rewrite (eob_at F E _ Hroom).
  cbn [schedule_rounds sched_done sched_ctx] in Hrounds. rewrite Hne in Hrounds.
  destruct (negb (truthy done)); cbn [andb negb] in *.
  2:{ injection Hrounds as <- <-. eexists. split; [reflexivity|].
      exact Hc. }
  destruct (schedule_round fuel fuel SQZ_encode_init_subband SQZ_encode_bitplane
              (mk_schedule ce scan state plane level orientation round 1)) as [x1|] eqn:Hr;
    cbn [mbind option_bind] in Hrounds; [|discriminate].
  assert (Hf1 : sched_follows K Sc D F E
                  (mk_schedule ce scan state plane level orientation round 1)
                  (mk_schedule cd scan state plane level orientation round 1)).
  { split; [exact Hc|split; [exact HS|reflexivity]]. }
  pose proof (schedule_round_extends fuel _ _ fuel
                (mk_schedule ce scan state plane level orientation round 1) x1
                encode_init_extends encode_bitplane_extends Hwf Hr) as Hxr.
  cbn [sched_ctx] in Hxr.
  assert (Hx1 : bb_extends (step_buffer x1) bf).
  { destruct x1 as [st1|st1|c1 r1].
    - destruct st1 as [c1 s1 a1 p1 l1 o1 r1 d1]. refine (extends_trans _ _ _ _ Hxbf).
      exact (schedule_rounds_extends fuel _ _ n
               (mk_schedule c1 s1 a1 p1 l1 o1 (s32 (r1 + 1)) d1) (ce', re)
               encode_init_extends encode_bitplane_extends (extends_wf _ _ Hxr) Hrounds).
    - destruct st1 as [c1 s1 a1 p1 l1 o1 r1 d1]. refine (extends_trans _ _ _ _ Hxbf).
      exact (schedule_rounds_extends fuel _ _ n
               (mk_schedule c1 s1 a1 p1 l1 o1 (s32 (r1 + 1)) d1) (ce', re)
               encode_init_extends encode_bitplane_extends (extends_wf _ _ Hxr) Hrounds).
    - injection Hrounds as <- <-. exact Hxbf. }
  destruct (schedule_round_follows fuel _ _ x1 Hf1 Hr Hx1) as (xd1 & Hrd & Hfx).
  rewrite Hrd. cbn [mbind option_bind].
  destruct x1 as [st1|st1|c1 r1], xd1 as [sd1|sd1|cd1 rd1]; cbn [step_follows] in Hfx;
    try contradiction.
  - destruct Hfx as (Hc1 & HS1 & Hsd1).
    destruct st1 as [c1 s1 a1 p1 l1 o1 r1 d1].
    set (cd1 := sched_ctx sd1) in *. clearbody cd1. subst sd1.
    cbn [sched_set_ctx sched_scan sched_state sched_plane sched_level sched_orientation
         sched_round sched_done sched_ctx] in *.
    apply (IH (mk_schedule c1 s1 a1 p1 l1 o1 (s32 (r1 + 1)) d1)); [|exact Hrounds|exact Hxbf].
    split; [exact Hc1|split; [exact HS1|reflexivity]].
  - destruct Hfx as (Hc1 & HS1 & Hsd1).
    destruct st1 as [c1 s1 a1 p1 l1 o1 r1 d1].
    set (cd1 := sched_ctx sd1) in *. clearbody cd1. subst sd1.
    cbn [sched_set_ctx sched_scan sched_state sched_plane sched_level sched_orientation
         sched_round sched_done sched_ctx] in *.
    apply (IH (mk_schedule c1 s1 a1 p1 l1 o1 (s32 (r1 + 1)) d1)); [|exact Hrounds|exact Hxbf].
    split; [exact Hc1|split; [exact HS1|reflexivity]].
Qed.

End schedule_follows.

(** [SQZ_schedule_task] with the functions of the decoder, on the bits that
    [SQZ_schedule_task] with those of the encoder wrote without filling the
    buffer. *)
Lemma schedule_task_follows (K : SQZ_dwt_subband_t → list Z → Prop)
  (Sc : SQZ_scan_context_t → Prop) fuel ctx ctx' result dd :
  (∀ band scan0 scan1 r band0 scan2 res dd,
     Sc scan0 → K band dd →
     SQZ_scan_init fuel scan0 band = Some (scan1, r) →
     SQZ_common_init_subband fuel band scan1 = Some (band0, scan2, res) →
     K (band_set_bitplanes band0
          (s32 (SQZ_ilog2 (u32 (Z.shiftr (SQZ_dwt_get_max (ctx_data ctx) band0) 1))))
          (s32 (SQZ_ilog2 (u32 (Z.shiftr (SQZ_dwt_get_max (ctx_data ctx) band0) 1))))) dd
     ∧ Sc scan2) →
  (∀ band b dd,
     bb_wf b → zero_from b → NSP band = [] → Z.of_nat (length (LIP band)) < 2 ^ 30 →
     (SQZ_encode_bitplane (ctx_data ctx) band b).2 = 1 → K band dd →
     K (SQZ_encode_bitplane (ctx_data ctx) band b).1.1.2
       (bitplane_marks (ctx_data ctx) band dd)) →
  (∀ band band2 dd,
     K band dd → K band2 dd → K band (bitplane_marks (ctx_data ctx) band2 dd)) →
  (∀ o, 0 <= load (ctx_data ctx) o < 2 ^ 15) →
  bb_wf (ctx_buffer ctx) → zero_from (ctx_buffer ctx) → bands_ready (ctx_plane ctx) →
  (∀ i j, K (band_at (ctx_plane ctx) i j) dd) →
  Sc (mk_scan WS_null Scan_null (scan_order (ctx_image ctx)) 0 0 0 0) →
  SQZ_schedule_task fuel ctx SQZ_encode_init_subband SQZ_encode_bitplane
  = Some (ctx', result) →
  SQZ_bit_buffer_eob (ctx_buffer ctx') = false →
  ∃ dd',
    SQZ_schedule_task fuel
      (mk_context (ctx_plane ctx) dd (bb_rewind (ctx_buffer ctx) (ctx_buffer ctx'))
                  (ctx_image ctx))
      SQZ_decode_init_subband SQZ_decode_bitplane
    = Some (mk_context (ctx_plane ctx') dd' (ctx_buffer ctx') (ctx_image ctx'), result)
    ∧ ctx_data ctx' = ctx_data ctx
    ∧ bb_extends (ctx_buffer ctx) (ctx_buffer ctx')
    ∧ ∀ i j, K (band_at (ctx_plane ctx') i j) dd'.
Proof.
  intros K_init K_task K_mono HD Hwf Hz Hready HK HS Henc Hne.
  pose proof (schedule_task_extends fuel ctx _ _ (ctx', result) encode_init_extends
                encode_bitplane_extends Hwf Henc) as Hx.
  cbn [fst] in Hx. pose proof (extends_wf _ _ Hx) as Hwf'.
  pose proof Hx as (_ & He & _).
  pose proof (not_eob_pos _ Hwf' Hne) as Hpos. pose proof Hwf' as (_ & _ & _ & Hlen).
  unfold SQZ_schedule_task in *. cbn [ctx_image].
  destruct (schedule_rounds_follows (ctx_data ctx) (bb_data (ctx_buffer ctx'))
              (bb_eob (ctx_buffer ctx')) (ctx_buffer ctx') fuel K Sc HD Hlen Hne Hpos
              ltac:(auto) K_init K_task K_mono fuel
              (mk_schedule ctx (mk_scan WS_null Scan_null (scan_order (ctx_image ctx)) 0 0 0 0)
                           0 0 0 0 0 0)
              (mk_schedule
                 (mk_context (ctx_plane ctx) dd (bb_rewind (ctx_buffer ctx) (ctx_buffer ctx'))
                             (ctx_image ctx))
                 (mk_scan WS_null Scan_null (scan_order (ctx_image ctx)) 0 0 0 0)
                 0 0 0 0 0 0)
              ctx' result)
    as (cd' & Hdec & Hf).
  - split; [|split; [exact HS|reflexivity]].
    cbn [sched_ctx]. unfold ctx_follows. cbn [ctx_plane ctx_image ctx_buffer ctx_data].
    split; [reflexivity|]. split; [reflexivity|].
    split; [rewrite (bb_rewind_at _ _ Hwf), He; reflexivity|]. auto 10.
  - exact Henc.
  - apply extends_refl. exact Hwf'.
  - destruct Hf as (Hpl & Him & Hbuf & Hdata & _ & _ & _ & HK').
    exists (ctx_data cd'). rewrite Hdec. split; [|split; [exact Hdata|split; [exact Hx|exact HK']]].
    f_equal. f_equal. destruct cd' as [pl' dd' b' im']. cbn [ctx_plane ctx_image ctx_buffer
                                                             ctx_data] in *.
    subst pl' im' b'. rewrite <- (bb_at_eq _ Hwf'). reflexivity.
Qed.

Lemma load_range_check (data : list Z) :
  forallb (λ v, (0 <=? v) && (v <? 2 ^ 15)) data = true → ∀ o, 0 <= load data o < 2 ^ 15.
Proof.
  intros Hall o. unfold load.
  destruct (data !! Z.to_nat o) as [v|] eqn:Hv.
  - rewrite (list_lookup_total_correct _ _ _ Hv).
    rewrite forallb_forall in Hall. apply list_elem_of_lookup_2, list_elem_of_In in Hv.
    apply Hall in Hv. lia.
  - rewrite list_lookup_total_alt, Hv. cbn. lia.
Qed.

Lemma bands_check (P : SQZ_dwt_subband_t → Prop) (check : SQZ_dwt_subband_t → bool) planes :
  (∀ band, check band = true → P band) →
  check band_zero = true →
  forallb (λ p, forallb check (plane_band p)) planes = true →
  ∀ i j, P (band_at planes i j).
Proof.
  intros Hcheck Hzero Hall i j. apply Hcheck. unfold band_at.
  assert (Hp : forallb check (plane_band (planes !!! i)) = true).
  { destruct (planes !! i) as [p|] eqn:Hp.
    - rewrite (list_lookup_total_correct _ _ _ Hp).
      rewrite forallb_forall in Hall. apply Hall.
      apply list_elem_of_In. eapply list_elem_of_lookup_2. exact Hp.
    - rewrite list_lookup_total_alt, Hp.
      change (forallb check (replicate (Z.to_nat (SQZ_DWT_MAX_LEVEL * SQZ_DWT_SUBBANDS))
                                       band_zero) = true).
      induction (Z.to_nat _) as [|n IH]; cbn [replicate forallb]; [reflexivity|].
      rewrite Hzero, IH. reflexivity. }
  destruct (plane_band (planes !!! i) !! j) as [band|] eqn:Hb.
  - rewrite (list_lookup_total_correct _ _ _ Hb).
    rewrite forallb_forall in Hp. apply Hp.
    apply list_elem_of_In. eapply list_elem_of_lookup_2. exact Hb.
  - rewrite list_lookup_total_alt, Hb. exact Hzero.
Qed.

Lemma bands_ready_check planes :
  forallb (λ p, forallb (λ band, (length (NSP band) =? 0)%nat
                                 && (Z.of_nat (length (LIP band)) <? 2 ^ 30)
                                 && (usize (band_width band * band_height band) <? 2 ^ 30))
                        (plane_band p)) planes = true →
  bands_ready planes.
Proof.
  intros Hall. unfold bands_ready.
  apply (bands_check (λ band, NSP band = [] ∧ Z.of_nat (length (LIP band)) < 2 ^ 30
                              ∧ usize (band_width band * band_height band) < 2 ^ 30)
                     (λ band, (length (NSP band) =? 0)%nat
                              && (Z.of_nat (length (LIP band)) <? 2 ^ 30)
                              && (usize (band_width band * band_height band) <? 2 ^ 30))
                     planes); [|reflexivity|exact Hall].
  intros band Hb. apply andb_prop in Hb as (Hb & H3). apply andb_prop in Hb as (H1 & H2).
  split; [|lia]. destruct (NSP band); [reflexivity|discriminate].
Qed.

(** The scheduler of the decoder reads back what that of the encoder
    wrote.  When [SQZ_schedule_task] with the functions of the encoder ends
    with room left in the bit buffer, [SQZ_schedule_task] with those of the
    decoder, started on the same subbands with the cursor put back where
    the encoder started, gives the same result: it ends with every subband
    in the state the encoder left it in, lists and bitplanes, and with
    its cursor where that of the encoder ended.  The coefficients are in
    sign-magnitude form and below 2^15; the buffer is zeroed from the
    cursor on, every NSP is empty and no subband has 2^30 pixels. *)
Theorem schedule_task_roundtrip fuel ctx ctx' result dd :
  bb_wf (ctx_buffer ctx) → zero_from (ctx_buffer ctx) → bands_ready (ctx_plane ctx) →
  (∀ o, 0 <= load (ctx_data ctx) o < 2 ^ 15) →
  SQZ_schedule_task fuel ctx SQZ_encode_init_subband SQZ_encode_bitplane
  = Some (ctx', result) →
  SQZ_bit_buffer_eob (ctx_buffer ctx') = false →
  ∃ dd',
    SQZ_schedule_task fuel
      (mk_context (ctx_plane ctx) dd (bb_rewind (ctx_buffer ctx) (ctx_buffer ctx'))
                  (ctx_image ctx))
      SQZ_decode_init_subband SQZ_decode_bitplane
    = Some (mk_context (ctx_plane ctx') dd' (ctx_buffer ctx') (ctx_image ctx'), result).
Proof.
  intros Hwf Hz Hready HD Henc Hne.
  destruct (schedule_task_follows (λ _ _, True) (λ _, True) fuel ctx ctx' result dd)
    as (dd' & Hdec & _); auto.
  exists dd'. exact Hdec.
Qed.

Lemma schedule_task_roundtrip_witness :
  let d := mk_descriptor SQZ_COLOR_MODE_GRAYSCALE SQZ_SCAN_ORDER_SNAKE 8 8 1 1 0 in
  let b := SQZ_bit_buffer_init (replicate 64 0) 64 in
  let ctx := ctx_set_data (SQZ_common_init_context (context_zero d b)).1
                          (replicate 32 9 ++ replicate 32 2) in
  ∃ ctx' dd',
    SQZ_schedule_task 100 ctx SQZ_encode_init_subband SQZ_encode_bitplane
    = Some (ctx', SQZ_RESULT_OK)
    ∧ SQZ_schedule_task 100
        (mk_context (ctx_plane ctx) (replicate 64 0) (bb_rewind (ctx_buffer ctx) (ctx_buffer ctx'))
                    (ctx_image ctx))
        SQZ_decode_init_subband SQZ_decode_bitplane
      = Some (mk_context (ctx_plane ctx') dd' (ctx_buffer ctx') (ctx_image ctx'),
              SQZ_RESULT_OK).
Proof.
  cbv zeta.
  set (ctx := ctx_set_data
                (SQZ_common_init_context
                   (context_zero
                      (mk_descriptor SQZ_COLOR_MODE_GRAYSCALE SQZ_SCAN_ORDER_SNAKE 8 8 1 1 0)
                      (SQZ_bit_buffer_init (replicate 64 0) 64))).1
                (replicate 32 9 ++ replicate 32 2)).
  assert (Hwf : bb_wf (ctx_buffer ctx))
    by (unfold bb_wf; vm_compute; repeat split; try discriminate; left; reflexivity).
  assert (Hz : zero_from (ctx_buffer ctx)) by (apply (zero_from_init 64 64); simpl; lia).
  assert (Hready : bands_ready (ctx_plane ctx))
    by (apply bands_ready_check; vm_compute; reflexivity).
  assert (HD : ∀ o, 0 <= load (ctx_data ctx) o < 2 ^ 15)
    by (apply load_range_check; vm_compute; reflexivity).
  eassert (He : SQZ_schedule_task 100 ctx SQZ_encode_init_subband SQZ_encode_bitplane
                = Some (_, SQZ_RESULT_OK)) by (vm_compute; reflexivity).
  match type of He with
  | _ = Some (?c, _) =>
      assert (Hne : SQZ_bit_buffer_eob (ctx_buffer c) = false) by (vm_compute; reflexivity)
  end.
  destruct (schedule_task_roundtrip 100 ctx _ _ (replicate 64 0) Hwf Hz Hready HD He Hne)
    as (dd' & Hdec).
  eexists _, dd'. split; [exact He|exact Hdec].
Defined.

(** ** The coefficients of the decoder after the scheduler *)

Lemma mask_pow2 band :
  0 <= band_bitplane band <= 14 → bitplane_mask_of band = 2 ^ band_bitplane band.
Proof.
  intros Hk. unfold bitplane_mask_of. rewrite Z.shiftl_1_l.
  assert (0 < 2 ^ band_bitplane band <= 2 ^ 14)
    by (split; [apply Z.pow_pos_nonneg; lia|apply Z.pow_le_mono_r; lia]).
  rewrite u32_small by lia. apply s16_small. lia.
Qed.

Lemma land_pow2_truthy v k : 0 <= k → truthy (Z.land v (2 ^ k)) = Z.testbit v k.
Proof.
  intros Hk. unfold truthy. destruct (Z.testbit v k) eqn:Hb.
  - assert (Hbit : Z.testbit (Z.land v (2 ^ k)) k = true)
      by (rewrite Z.land_spec, Hb, Z.pow2_bits_true by lia; reflexivity).
    destruct (Z.eqb_spec (Z.land v (2 ^ k)) 0) as [e|]; [|reflexivity].
    rewrite e, Z.bits_0 in Hbit. discriminate.
  - replace (Z.land v (2 ^ k)) with 0; [reflexivity|].
    symmetry. apply Z.bits_inj'. intros n Hn. rewrite Z.land_spec, Z.bits_0.
    destruct (Z.eq_dec n k) as [->|Hne]; [rewrite Hb; reflexivity|].
    rewrite Z.pow2_bits_false by lia. apply andb_false_r.
Qed.

Lemma significant_testbit D band px :
  0 <= band_bitplane band <= 14 →
  significant D band px = Z.testbit (load D (pixel_offset band px)) (band_bitplane band).
Proof.
  intros Hk. unfold significant. rewrite mask_pow2 by exact Hk.
  apply land_pow2_truthy. lia.
Qed.

Lemma within_bound a d :
  0 <= a → 0 <= d < 2 ^ 15 → bits_within a d → a < 2 ^ 15.
Proof.
  intros Ha Hd Hw. destruct (Z.lt_ge_cases a (2 ^ 15)) as [|Hge]; [assumption|exfalso].
  assert (Hpos : 0 < a) by lia.
  pose proof (Z.bit_log2 a Hpos) as Hbit.
  assert (Hlog : 15 <= Z.log2 a) by (apply Z.log2_le_pow2; lia).
  apply Hw in Hbit; [|lia].
  destruct (Z.eq_dec d 0) as [->|Hne]; [rewrite Z.bits_0 in Hbit; discriminate|].
  assert (Z.log2 d < 15) by (apply Z.log2_lt_pow2; lia).
  rewrite Z.bits_above_log2 in Hbit by lia. discriminate.
Qed.

Lemma lor_within a m d :
  0 <= a → 0 <= m → 0 <= d < 2 ^ 15 → bits_within a d → bits_within m d →
  s16 (Z.lor a m) = Z.lor a m ∧ 0 <= Z.lor a m ∧ bits_within (Z.lor a m) d
  ∧ bits_within a (Z.lor a m) ∧ bits_within m (Z.lor a m).
Proof.
  intros Ha Hm Hd Hwa Hwm.
  assert (Hnn : 0 <= Z.lor a m) by (apply Z.lor_nonneg; lia).
  assert (Hw : bits_within (Z.lor a m) d).
  { intros n Hn. rewrite Z.lor_spec. intros Hb. apply orb_prop in Hb as [Hb|Hb]; auto. }
  pose proof (within_bound _ _ Hnn Hd Hw).
  split; [apply s16_small; lia|]. split; [exact Hnn|]. split; [exact Hw|].
  split; intros n Hn Hb; rewrite Z.lor_spec, Hb; [reflexivity|apply orb_true_r].
Qed.

Lemma load_store l o v o' :
  load (store l o v) o'
  = if decide (Z.to_nat o = Z.to_nat o' ∧ (Z.to_nat o < length l)%nat) then v else load l o'.
Proof. unfold load, store. apply list_lookup_total_insert. Qed.

Lemma load_outside (D dd : list Z) o :
  length dd = length D → ¬ (Z.to_nat o < length dd)%nat → load dd o = load D o.
Proof.
  intros Hlen Ho. unfold load. rewrite !list_lookup_total_alt.
  rewrite (lookup_ge_None_2 dd), (lookup_ge_None_2 D) by lia. reflexivity.
Qed.

(** A store that only adds bits of the coefficient of the encoder. *)
Lemma store_within D dd o v :
  coefficients_within D dd → 0 <= v → bits_within v (load D o) →
  bits_within (load dd o) v →
  coefficients_within D (store dd o v)
  ∧ coefficients_grow dd (store dd o v)
  ∧ bits_within v (load (store dd o v) o).
Proof.
  intros (Hlen & Hdd) Hv Hvd Hmono.
  split; [split|split].
  - unfold store. rewrite length_insert. exact Hlen.
  - intros o'. rewrite load_store. destruct (decide _) as [(Heq & _)|_]; [|apply Hdd].
    split; [exact Hv|]. unfold load in *. rewrite <- Heq. exact Hvd.
  - intros o'. rewrite load_store. destruct (decide _) as [(Heq & _)|_]; [|intros n _ Hb; exact Hb].
    unfold load in *. rewrite <- Heq. exact Hmono.
  - rewrite load_store. destruct (decide _) as [_|Hout]; [intros n _ Hb; exact Hb|].
    assert (Ho : ¬ (Z.to_nat o < length dd)%nat) by (intros Hin; apply Hout; auto).
    rewrite (load_outside D dd o Hlen Ho). exact Hvd.
Qed.

Lemma bits_within_refl a : bits_within a a.
Proof. intros n _ Hb. exact Hb. Qed.

Lemma bits_within_trans a b c : bits_within a b → bits_within b c → bits_within a c.
Proof. intros Hab Hbc n Hn Hb. apply Hbc, Hab; assumption. Qed.

Lemma grow_refl dd : coefficients_grow dd dd.
Proof. intros o. apply bits_within_refl. Qed.

Lemma grow_trans a b c : coefficients_grow a b → coefficients_grow b c → coefficients_grow a c.
Proof. intros Hab Hbc o. exact (bits_within_trans _ _ _ (Hab o) (Hbc o)). Qed.

Lemma pow2_within k d : 0 <= k → Z.testbit d k = true → bits_within (2 ^ k) d.
Proof.
  intros Hk Hd n Hn Hb. destruct (Z.eq_dec n k) as [->|Hne]; [exact Hd|].
  rewrite Z.pow2_bits_false in Hb by lia. discriminate.
Qed.

Lemma land_1_within d : bits_within (Z.land d 1) d.
Proof. intros n Hn. rewrite Z.land_spec. intros Hb. apply andb_prop in Hb as (Hb & _). exact Hb. Qed.

Section marks.
Variables (D : list Z) (band : SQZ_dwt_subband_t).
Hypothesis HD : ∀ o, 0 <= load D o < 2 ^ 15.
Hypothesis Hk : 0 <= band_bitplane band <= 14.

Lemma mark_significant_grows dd px :
  coefficients_within D dd → significant D band px = true →
  coefficients_within D (mark_significant D band dd px)
  ∧ coefficients_grow dd (mark_significant D band dd px)
  ∧ Z.testbit (load (mark_significant D band dd px) (pixel_offset band px))
              (band_bitplane band) = true
  ∧ (Z.testbit (load D (pixel_offset band px)) 0 = true →
     Z.testbit (load (mark_significant D band dd px) (pixel_offset band px)) 0 = true).
Proof.
  intros Hw Hsig. rewrite significant_testbit in Hsig by exact Hk.
  unfold mark_significant. rewrite mask_pow2 by exact Hk.
  set (o := pixel_offset band px) in *.
  set (m := Z.lor (2 ^ band_bitplane band) (Z.land (load D o) 1)).
  pose proof Hw as (_ & Hdd). destruct (Hdd o) as (Ha & Hwa).
  assert (Hm0 : 0 <= m).
  { apply Z.lor_nonneg. split; [apply Z.pow_nonneg; lia|].
    apply Z.land_nonneg. right. lia. }
  assert (Hwm : bits_within m (load D o)).
  { intros n Hn. unfold m. rewrite Z.lor_spec. intros Hb. apply orb_prop in Hb as [Hb|Hb].
    - exact (pow2_within (band_bitplane band) _ (proj1 Hk) Hsig n Hn Hb).
    - exact (land_1_within _ n Hn Hb). }
  destruct (lor_within _ _ _ Ha Hm0 (HD o) Hwa Hwm) as (Hs & Hnn & Hwv & Hav & Hmv).
  rewrite Hs.
  destruct (store_within D dd o _ Hw Hnn Hwv Hav) as (H1 & H2 & H3).
  split; [exact H1|]. split; [exact H2|]. split.
  - apply H3; [lia|]. apply Hmv; [lia|]. unfold m. rewrite Z.lor_spec, Z.pow2_bits_true by lia.
    reflexivity.
  - intros Hsign. apply H3; [lia|]. apply Hmv; [lia|]. unfold m.
    rewrite Z.lor_spec, Z.land_spec, Hsign. cbn. apply orb_true_r.
Qed.

Lemma mark_refined_grows dd px :
  coefficients_within D dd →
  coefficients_within D (mark_refined D band dd px)
  ∧ coefficients_grow dd (mark_refined D band dd px)
  ∧ (Z.testbit (load D (pixel_offset band px)) (band_bitplane band) = true →
     Z.testbit (load (mark_refined D band dd px) (pixel_offset band px))
               (band_bitplane band) = true).
Proof.
  intros Hw. unfold mark_refined. rewrite significant_testbit by exact Hk.
  destruct (Z.testbit (load D (pixel_offset band px)) (band_bitplane band)) eqn:Hsig.
  2:{ split; [exact Hw|]. split; [apply grow_refl|discriminate]. }
  rewrite mask_pow2 by exact Hk.
  set (o := pixel_offset band px) in *.
  pose proof Hw as (_ & Hdd). destruct (Hdd o) as (Ha & Hwa).
  assert (Hm0 : 0 <= 2 ^ band_bitplane band) by (apply Z.pow_nonneg; lia).
  destruct (lor_within _ _ _ Ha Hm0 (HD o) Hwa (pow2_within (band_bitplane band) _ (proj1 Hk) Hsig))
    as (Hs & Hnn & Hwv & Hav & Hmv).
  rewrite Hs.
  destruct (store_within D dd o _ Hw Hnn Hwv Hav) as (H1 & H2 & H3).
  split; [exact H1|]. split; [exact H2|]. intros _.
  apply H3; [lia|]. apply Hmv; [lia|]. apply Z.pow2_bits_true. lia.
Qed.

Lemma marks_significant_grow l : ∀ dd,
  coefficients_within D dd → (∀ px, px ∈ l → significant D band px = true) →
  coefficients_within D (foldl (mark_significant D band) dd l)
  ∧ coefficients_grow dd (foldl (mark_significant D band) dd l)
  ∧ ∀ px, px ∈ l →
      Z.testbit (load (foldl (mark_significant D band) dd l) (pixel_offset band px))
                (band_bitplane band) = true
      ∧ (Z.testbit (load D (pixel_offset band px)) 0 = true →
         Z.testbit (load (foldl (mark_significant D band) dd l) (pixel_offset band px)) 0
         = true).
Proof.
  induction l as [|p l IH]; intros dd Hw Hsig; cbn [foldl].
  - split; [exact Hw|]. split; [apply grow_refl|]. intros px Hpx. inversion Hpx.
  - destruct (mark_significant_grows dd p Hw (Hsig p ltac:(left))) as (H1 & H2 & H3 & H4).
    destruct (IH _ H1 (λ px Hpx, Hsig px ltac:(right; exact Hpx))) as (I1 & I2 & I3).
    split; [exact I1|]. split; [exact (grow_trans _ _ _ H2 I2)|].
    intros px Hpx. apply elem_of_cons in Hpx as [->|Hpx]; [|apply I3; exact Hpx].
    split; [apply (I2 _ (band_bitplane band) (proj1 Hk) H3)|].
    intros Hs. apply (I2 _ 0 ltac:(lia)). apply H4. exact Hs.
Qed.

Lemma marks_refined_grow l : ∀ dd,
  coefficients_within D dd →
  coefficients_within D (foldl (mark_refined D band) dd l)
  ∧ coefficients_grow dd (foldl (mark_refined D band) dd l)
  ∧ ∀ px, px ∈ l →
      Z.testbit (load D (pixel_offset band px)) (band_bitplane band) = true →
      Z.testbit (load (foldl (mark_refined D band) dd l) (pixel_offset band px))
                (band_bitplane band) = true.
Proof.
  induction l as [|p l IH]; intros dd Hw; cbn [foldl].
  - split; [exact Hw|]. split; [apply grow_refl|]. intros px Hpx. inversion Hpx.
  - destruct (mark_refined_grows dd p Hw) as (H1 & H2 & H3).
    destruct (IH _ H1) as (I1 & I2 & I3).
    split; [exact I1|]. split; [exact (grow_trans _ _ _ H2 I2)|].
    intros px Hpx Hb. apply elem_of_cons in Hpx as [->|Hpx]; [|apply I3; assumption].
    apply (I2 _ (band_bitplane band) (proj1 Hk)). apply H3. exact Hb.
Qed.

(** The marks of a bitplane of the subband. *)
Lemma bitplane_marks_grow dd :
  coefficients_within D dd →
  coefficients_within D (bitplane_marks D band dd)
  ∧ coefficients_grow dd (bitplane_marks D band dd)
  ∧ (∀ px, px ∈ LSP band →
       Z.testbit (load D (pixel_offset band px)) (band_bitplane band) = true →
       Z.testbit (load (bitplane_marks D band dd) (pixel_offset band px))
                 (band_bitplane band) = true)
  ∧ (∀ px, 0 < band_bitplane band → px ∈ LIP band → significant D band px = true →
       Z.testbit (load (bitplane_marks D band dd) (pixel_offset band px))
                 (band_bitplane band) = true
       ∧ (Z.testbit (load D (pixel_offset band px)) 0 = true →
          Z.testbit (load (bitplane_marks D band dd) (pixel_offset band px)) 0 = true)).
Proof.
  intros Hw. unfold bitplane_marks.
  set (l := if band_bitplane band <=? 0 then []
            else List.filter (significant D band) (LIP band)).
  assert (Hl : ∀ px, px ∈ l → significant D band px = true).
  { intros px Hpx. unfold l in Hpx. destruct (_ <=? _); [inversion Hpx|].
    apply list_elem_of_In, filter_In in Hpx. apply Hpx. }
  destruct (marks_significant_grow l dd Hw Hl) as (H1 & H2 & H3).
  destruct (marks_refined_grow (LSP band) _ H1) as (I1 & I2 & I3).
  split; [exact I1|]. split; [exact (grow_trans _ _ _ H2 I2)|]. split; [exact I3|].
  intros px Hpos Hpx Hsig.
  assert (Hin : px ∈ l).
  { unfold l. destruct (Z.leb_spec (band_bitplane band) 0); [lia|].
    apply list_elem_of_In, filter_In. split; [apply list_elem_of_In; exact Hpx|exact Hsig]. }
  destruct (H3 px Hin) as (Hb & Hs).
  split; [apply (I2 _ (band_bitplane band) (proj1 Hk) Hb)|].
  intros Hsign. apply (I2 _ 0 ltac:(lia)). apply Hs. exact Hsign.
Qed.

End marks.

Lemma encode_sorting_pass_idle D band b :
  band_bitplane band <= 0 → (SQZ_encode_sorting_pass D band b).1.1 = band.
Proof.
  intros Hk. rewrite encode_sorting_pass_close.
  destruct (Z.leb_spec (band_bitplane band) 0); [|lia].
  rewrite orb_true_r. reflexivity.
Qed.

(** The subband after a bitplane that went through. *)
Lemma encode_bitplane_band D band b :
  bb_wf b → zero_from b → NSP band = [] → Z.of_nat (length (LIP band)) < 2 ^ 30 →
  (SQZ_encode_bitplane D band b).2 = 1 →
  LIP (SQZ_encode_bitplane D band b).1.1.2
  = (if band_bitplane band <=? 0 then LIP band
     else List.filter (λ px, negb (significant D band px)) (LIP band))
  ∧ (∀ px, px ∈ LSP (SQZ_encode_bitplane D band b).1.1.2
           ↔ px ∈ LSP band
             ∨ (0 < band_bitplane band ∧ px ∈ LIP band ∧ significant D band px = true))
  ∧ band_bitplane (SQZ_encode_bitplane D band b).1.1.2
    = s32 (band_bitplane band - of_bool (0 <? band_bitplane band))
  ∧ band_width (SQZ_encode_bitplane D band b).1.1.2 = band_width band
  ∧ band_height (SQZ_encode_bitplane D band b).1.1.2 = band_height band
  ∧ band_stride (SQZ_encode_bitplane D band b).1.1.2 = band_stride band
  ∧ band_data (SQZ_encode_bitplane D band b).1.1.2 = band_data band.
Proof.
  intros Hwf Hz Hnsp Hlen. unfold SQZ_encode_bitplane.
  pose proof (sorting_pass_sim D band b []
                (bb_data (SQZ_encode_sorting_pass D band b).1.2)
                (bb_eob (SQZ_encode_sorting_pass D band b).1.2) Hwf Hz Hnsp Hlen) as Hsort.
  pose proof (encode_sorting_pass_extends D band b Hwf) as Hx1.
  pose proof (encode_sorting_pass_idle D band b) as Hidle.
  destruct (encode_sorting_pass_band D band b) as (lip & nsp & Hband).
  destruct (encode_sorting_pass_flag D band b) as [Hflag|Hflag];
    destruct (SQZ_encode_sorting_pass D band b) as [[band1 b1] ok1];
    cbn [fst snd] in *; subst ok1; cbn [truthy Z.eqb negb]; [discriminate|].
  unfold SQZ_encode_refinement_pass.
  set (b2 := encode_refinement_loop D band1 (bitplane_mask_of band1) (LSP band1) b1).
  destruct (SQZ_bit_buffer_eob b2) eqn:Hf; cbn [negb of_bool truthy Z.eqb fst snd];
    [discriminate|].
  intros _.
  pose proof (extends_wf _ _ Hx1) as Hwf1.
  pose proof (encode_refinement_loop_extends D band1 (bitplane_mask_of band1) (LSP band1) b1
                Hwf1) as Hx2.
  fold b2 in Hx2. pose proof (extends_not_full _ _ Hx2 Hf) as Hroom.
  pose proof Hwf1 as (_ & _ & _ & Hl1).
  destruct Hsort as (_ & _ & _ & _ & Hlists & Hnone); auto.
  assert (Hlip : LIP band1 = if band_bitplane band <=? 0 then LIP band
                             else List.filter (λ px, negb (significant D band px)) (LIP band)).
  { destruct (Z.leb_spec (band_bitplane band) 0) as [Hb|Hb].
    - rewrite Hidle by exact Hb. reflexivity.
    - apply Hlists. lia. }
  assert (Hnew : ∀ px, px ∈ NSP band1
                       ↔ 0 < band_bitplane band ∧ px ∈ LIP band ∧ significant D band px = true).
  { intros px. destruct (Z.leb_spec (band_bitplane band) 0) as [Hb|Hb].
    - rewrite Hnone by exact Hb. split; [intros Hpx; inversion Hpx|lia].
    - destruct (Hlists Hb) as (_ & ->). rewrite list_elem_of_In, filter_In, <- list_elem_of_In.
      tauto. }
  subst band1. cbn [LIP LSP NSP band_set_lists] in *.
  unfold bitplane_done, SQZ_list_merge.
  cbn [LIP LSP NSP band_set_lists band_set_bitplanes band_cache band_max_bitplane
       band_bitplane band_width band_height band_stride band_data].
  destruct nsp as [|p nsp];
    cbn [LIP LSP NSP band_set_lists band_set_bitplanes band_cache band_max_bitplane
         band_bitplane band_width band_height band_stride band_data];
    (split; [exact Hlip|]); (split; [|auto 10]); intros px.
  - rewrite <- Hnew. split; [auto|intros [H|H]; [exact H|inversion H]].
  - rewrite elem_of_app, <- Hnew. reflexivity.
Qed.

Lemma small_without_top v k :
  0 <= k → 0 <= v < 2 ^ (k + 1) → Z.testbit v k = false → v < 2 ^ k.
Proof.
  intros Hk Hv Hb. destruct (Z.lt_ge_cases v (2 ^ k)) as [|Hge]; [assumption|exfalso].
  assert (Hpos : 0 < v) by (pose proof (Z.pow_pos_nonneg 2 k); lia).
  assert (Hlog : Z.log2 v = k).
  { apply Z.log2_unique; [lia|]. rewrite Z.add_1_r in Hv. rewrite <- Z.add_1_r. lia. }
  pose proof (Z.bit_log2 v Hpos) as Hbit. rewrite Hlog in Hbit. congruence.
Qed.

Lemma bits_above v k n :
  0 <= v < 2 ^ (k + 1) → k < n → Z.testbit v n = false.
Proof.
  intros Hv Hn. destruct (Z.eq_dec v 0) as [->|Hne]; [apply Z.bits_0|].
  assert (0 <= k + 1).
  { destruct (Z.lt_ge_cases (k + 1) 0); [|lia]. rewrite Z.pow_neg_r in Hv by lia. lia. }
  apply Z.bits_above_log2; [lia|].
  assert (Z.log2 v < k + 1) by (apply Z.log2_lt_pow2; lia). lia.
Qed.

Section known.
Variable D : list Z.
Hypothesis HD : ∀ o, 0 <= load D o < 2 ^ 15.

(** What is known of a subband stays known when the decoder marks the
    coefficients of another one. *)
Lemma band_known_mono band band2 dd :
  band_known D band dd → band_known D band2 dd →
  band_known D band (bitplane_marks D band2 dd).
Proof.
  intros (Hw & Hk & Hext & Hlsp & Hlip) (_ & Hk2 & _).
  destruct (bitplane_marks_grow D band2 HD Hk2 dd Hw) as (H1 & H2 & _).
  split; [exact H1|]. split; [exact Hk|]. split; [exact Hext|]. split; [|exact Hlip].
  intros px n Hpx Hn Hb. apply (H2 _ n); [lia|]. apply (Hlsp px n); assumption.
Qed.

(** What is known of a subband after one of its bitplanes. *)
Lemma band_known_task band b dd :
  bb_wf b → zero_from b → NSP band = [] → Z.of_nat (length (LIP band)) < 2 ^ 30 →
  (SQZ_encode_bitplane D band b).2 = 1 → band_known D band dd →
  band_known D (SQZ_encode_bitplane D band b).1.1.2 (bitplane_marks D band dd).
Proof.
  intros Hwf Hz Hnsp Hlen Hflag (Hw & Hk & Hext & Hlsp & Hlip).
  destruct (encode_bitplane_band D band b Hwf Hz Hnsp Hlen Hflag)
    as (Hlip' & Hlsp' & Hk' & Hw' & Hh' & Hs' & Hd').
  destruct (bitplane_marks_grow D band HD Hk dd Hw) as (H1 & H2 & H3 & H4).
  set (band' := (SQZ_encode_bitplane D band b).1.1.2) in *.
  assert (Hoff : ∀ px, pixel_offset band' px = pixel_offset band px)
    by (intros px; unfold pixel_offset; rewrite Hs', Hd'; reflexivity).
  assert (Hkk : band_bitplane band' = if 0 <? band_bitplane band then band_bitplane band - 1
                                      else 0).
  { rewrite Hk'. destruct (Z.ltb_spec 0 (band_bitplane band)); cbn [of_bool];
      rewrite s32_small by lia; lia. }
  split; [exact H1|].
  split; [rewrite Hkk; destruct (Z.ltb_spec 0 (band_bitplane band)); lia|].
  split; [unfold band_extent_ok; rewrite Hw', Hh', Hs'; exact Hext|].
  split.
  - intros px n Hpx Hn. rewrite Hoff. intros Hb.
    assert (Hn0 : 0 <= n)
      by (rewrite Hkk in Hn; destruct (Z.ltb_spec 0 (band_bitplane band)); lia).
    apply Hlsp' in Hpx as [Hpx|(Hpos & Hpx & Hsig)].
    + destruct (Z.eq_dec n (band_bitplane band)) as [->|Hne].
      * apply H3; assumption.
      * apply (H2 _ n); [exact Hn0|]. apply (Hlsp px n); [exact Hpx| |exact Hb].
        rewrite Hkk in Hn. destruct (Z.ltb_spec 0 (band_bitplane band)); lia.
    + destruct (H4 px Hpos Hpx Hsig) as (Hbit & Hsign).
      destruct Hn as [->|Hn]; [apply Hsign; exact Hb|].
      destruct (Z.eq_dec n (band_bitplane band)) as [->|Hne]; [exact Hbit|].
      rewrite Hkk in Hn. destruct (Z.ltb_spec 0 (band_bitplane band)); [|lia].
      rewrite (bits_above _ (band_bitplane band) n) in Hb; [discriminate| |lia].
      split; [apply HD|apply Hlip; exact Hpx].
  - intros px. rewrite Hlip', Hoff, Hkk.
    destruct (Z.leb_spec (band_bitplane band) 0) as [Hz0|Hpos];
      destruct (Z.ltb_spec 0 (band_bitplane band)); try lia.
    + intros Hpx. replace (0 + 1) with (band_bitplane band + 1) by lia. apply Hlip. exact Hpx.
    + rewrite list_elem_of_In, filter_In, <- list_elem_of_In. intros (Hpx & Hins).
      rewrite significant_testbit in Hins by exact Hk.
      replace (band_bitplane band - 1 + 1) with (band_bitplane band) by lia.
      apply small_without_top; [lia| |destruct (Z.testbit _ _); [discriminate|reflexivity]].
      split; [apply HD|apply Hlip; exact Hpx].
Qed.

End known.

(** *** The raster and Morton orders stay inside the subband *)

Section scan_inside.
Variables (fuel : nat) (w h : Z) (T : SQZ_scan_context_t → Prop).
Hypothesis Hw : 0 <= w < 2 ^ 16.
Hypothesis Hh : 0 <= h < 2 ^ 16.
Hypothesis T_step : ∀ scan scan' more,
  T scan → call_scan fuel scan = Some (scan', more) →
  T scan'
  ∧ (0 <= scan_x scan < w ∧ 0 <= scan_y scan < h → truthy more = true →
     0 <= scan_x scan' < w ∧ 0 <= scan_y scan' < h).

Lemma init_subband_loop_inside n : ∀ cache lip scan cache' lip' scan',
  T scan →
  cache_capacity cache <= cache_index cache
  ∨ (0 <= scan_x scan < w ∧ 0 <= scan_y scan < h) →
  (∀ px, px ∈ lip → 0 <= px.1 < w ∧ 0 <= px.2 < h) →
  init_subband_loop fuel n cache lip scan = Some (cache', lip', scan') →
  (∀ px, px ∈ lip' → 0 <= px.1 < w ∧ 0 <= px.2 < h) ∧ T scan'.
Proof.
  induction n as [|n IH]; intros cache lip scan cache' lip' scan' HT Hpos Hlip; [discriminate|].
  cbn [init_subband_loop]. unfold SQZ_list_add.
  destruct (call_scan fuel scan) as [[scan1 more]|] eqn:Hcall.
  2:{ destruct (_ <=? _); cbn [mbind option_bind]; discriminate. }
  destruct (T_step scan scan1 more HT Hcall) as (HT1 & Hin1).
  destruct (Z.leb_spec (cache_capacity cache) (cache_index cache)) as [Hfull|Hroom];
    cbn [mbind option_bind]; destruct (truthy more) eqn:Hmore.
  - apply IH; auto.
  - intros H. injection H as <- <- <-. auto.
  - destruct Hpos as [Hpos|Hpos]; [lia|].
    apply IH; [exact HT1|right; auto|].
    intros px Hpx. apply elem_of_app in Hpx as [Hpx|Hpx]; [auto|].
    apply list_elem_of_singleton in Hpx as ->. cbn [fst snd].
    rewrite !u16_small by lia. exact Hpos.
  - destruct Hpos as [Hpos|Hpos]; [lia|].
    intros H. injection H as <- <- <-. split; [|exact HT1].
    intros px Hpx. apply elem_of_app in Hpx as [Hpx|Hpx]; [auto|].
    apply list_elem_of_singleton in Hpx as ->. cbn [fst snd].
    rewrite !u16_small by lia. exact Hpos.
Qed.

End scan_inside.

Lemma raster_step fuel w h scan scan' more :
  0 <= w < 2 ^ 16 → 0 <= h < 2 ^ 16 →
  scan_fn_of scan = Scan_raster ∧ scan_type scan = SQZ_SCAN_ORDER_RASTER
  ∧ scan_width scan = w ∧ scan_height scan = h →
  call_scan fuel scan = Some (scan', more) →
  (scan_fn_of scan' = Scan_raster ∧ scan_type scan' = SQZ_SCAN_ORDER_RASTER
   ∧ scan_width scan' = w ∧ scan_height scan' = h)
  ∧ (0 <= scan_x scan < w ∧ 0 <= scan_y scan < h → truthy more = true →
     0 <= scan_x scan' < w ∧ 0 <= scan_y scan' < h).
Proof.
  intros Hw Hh (Hfn & Hty & Hsw & Hsh). unfold call_scan. rewrite Hfn.
  unfold SQZ_scan_raster. rewrite Hsw, Hsh.
  destruct (Z.leb_spec w (usize (scan_x scan + 1))) as [Hx|Hx];
    [destruct (Z.leb_spec h (usize (scan_y scan + 1))) as [Hy|Hy]|];
    intros H; injection H as <- <-; (split; [auto|]); cbn [scan_x scan_y scan_set_xy truthy];
    intros (Hin & Hin') Hmore; try discriminate.
  - rewrite usize_small in Hy |- * by lia. lia.
  - rewrite usize_small in Hx |- * by lia. lia.
Qed.

Lemma deinterleave_nonneg i : 0 <= SQZ_deinterleave_u32_to_u16 i.
Proof. unfold SQZ_deinterleave_u32_to_u16. apply Z.land_nonneg. right. lia. Qed.

Lemma morton_loop_inside n : ∀ morton w h morton' x y,
  morton_loop n morton w h = (morton', Some (x, y)) → 0 <= x < w ∧ 0 <= y < h.
Proof.
  induction n as [|n IH]; intros morton w h morton' x y; cbn [morton_loop]; [discriminate|].
  cbv zeta. cbn [morton_range morton_mask morton_index morton_length].
  set (index := usize (morton_index morton + 1)).
  set (m := u32 (Z.shiftr (Z.land index (usize (Z.lnot (morton_mask morton))))
                          (morton_range morton))).
  set (x0 := SQZ_deinterleave_u32_to_u16 (u32 (Z.land index (morton_mask morton)))).
  set (y0 := SQZ_deinterleave_u32_to_u16 (u32 (Z.land (Z.shiftr index 1)
                                                      (morton_mask morton)))).
  assert (Hm : 0 <= m) by (unfold m, u32; apply Z.mod_pos_bound; lia).
  assert (Hx0 : 0 <= x0) by apply deinterleave_nonneg.
  assert (Hy0 : 0 <= y0) by apply deinterleave_nonneg.
  assert (Hx : 0 <= (if h <? w then Z.lor x0 m else x0))
    by (destruct (h <? w); [apply Z.lor_nonneg; lia|exact Hx0]).
  assert (Hy : 0 <= (if h <? w then y0 else Z.lor y0 m))
    by (destruct (h <? w); [exact Hy0|apply Z.lor_nonneg; lia]).
  destruct (Z.ltb_spec (if h <? w then Z.lor x0 m else x0) w) as [Hxw|Hxw];
    [destruct (Z.ltb_spec (if h <? w then y0 else Z.lor y0 m) h) as [Hyh|Hyh]|];
    cbn [andb].
  - intros H. injection H as _ <- <-. lia.
  - destruct (index <? morton_length morton); [apply IH|discriminate].
  - destruct (index <? morton_length morton); [apply IH|discriminate].
Qed.

Lemma morton_step fuel w h scan scan' more :
  scan_fn_of scan = Scan_morton ∧ scan_type scan = SQZ_SCAN_ORDER_MORTON
  ∧ scan_width scan = w ∧ scan_height scan = h →
  call_scan fuel scan = Some (scan', more) →
  (scan_fn_of scan' = Scan_morton ∧ scan_type scan' = SQZ_SCAN_ORDER_MORTON
   ∧ scan_width scan' = w ∧ scan_height scan' = h)
  ∧ (0 <= scan_x scan < w ∧ 0 <= scan_y scan < h → truthy more = true →
     0 <= scan_x scan' < w ∧ 0 <= scan_y scan' < h).
Proof.
  intros (Hfn & Hty & Hsw & Hsh). unfold call_scan. rewrite Hfn.
  unfold SQZ_scan_morton. rewrite Hsw, Hsh.
  destruct (scan_workspace_of scan) as [| | morton |];
    try (intros H; injection H as <- <-; split; [auto|intros _ Hm; discriminate]).
  destruct (morton_loop _ morton w h) as [morton' [[x y]|]] eqn:Hloop.
  - intros H. injection H as <- <-. split; [auto|]. intros _ _.
    cbn [scan_x scan_y scan_set_xy]. exact (morton_loop_inside _ _ _ _ _ _ _ Hloop).
  - destruct (morton_last morton' w h) as [x y]. intros H. injection H as <- <-.
    split; [auto|intros _ Hm; discriminate].
Qed.

(** The pixels that the initialization of a subband lists in the raster and
    in the Morton order are inside the subband. *)
Lemma common_init_subband_inside fuel order band scan0 scan1 r band0 scan2 res :
  order = SQZ_SCAN_ORDER_RASTER ∨ order = SQZ_SCAN_ORDER_MORTON →
  scan_type scan0 = order → band_extent_ok band →
  SQZ_scan_init fuel scan0 band = Some (scan1, r) →
  SQZ_common_init_subband fuel band scan1 = Some (band0, scan2, res) →
  (∀ px, px ∈ LIP band0 → pixel_inside band px) ∧ scan_type scan2 = order.
Proof.
  intros Horder Hty (Hw & Hh & _). unfold SQZ_scan_init, SQZ_scan_init_dims. rewrite Hty.
  unfold SQZ_common_init_subband.
  assert (Hstart : usize (band_width band * band_height band) <= 0
                   ∨ (0 <= 0 < band_width band ∧ 0 <= 0 < band_height band)).
  { destruct (Z.eq_dec (band_width band) 0) as [e|];
      [left; rewrite e, Z.mul_0_l; reflexivity|].
    destruct (Z.eq_dec (band_height band) 0) as [e|];
      [left; rewrite e, Z.mul_0_r; reflexivity|right; lia]. }
  destruct Horder as [-> | ->]; cbn [Z.eqb SQZ_SCAN_ORDER_RASTER SQZ_SCAN_ORDER_MORTON
                                     SQZ_SCAN_ORDER_SNAKE Pos.eqb];
    intros H; injection H as <- <-;
    (destruct (init_subband_loop _ _ _ _ _) as [[[cache lip] scan3]|] eqn:Hloop;
     cbn [mbind option_bind]; [|discriminate]);
    intros H; injection H as <- <- <-; cbn [LIP band_set_lists]; unfold pixel_inside.
  - eapply (init_subband_loop_inside fuel (band_width band) (band_height band)
              (λ scan, scan_fn_of scan = Scan_raster ∧ scan_type scan = SQZ_SCAN_ORDER_RASTER
                       ∧ scan_width scan = band_width band
                       ∧ scan_height scan = band_height band) Hw Hh) in Hloop.
    + destruct Hloop as (Hin & _ & Ht & _). split; [exact Hin|exact Ht].
    + intros scan scan' more. apply raster_step; assumption.
    + unfold SQZ_scan_init_raster_context. cbn. auto.
    + exact Hstart.
    + intros px Hpx. inversion Hpx.
  - eapply (init_subband_loop_inside fuel (band_width band) (band_height band)
              (λ scan, scan_fn_of scan = Scan_morton ∧ scan_type scan = SQZ_SCAN_ORDER_MORTON
                       ∧ scan_width scan = band_width band
                       ∧ scan_height scan = band_height band) Hw Hh) in Hloop.
    + destruct Hloop as (Hin & _ & Ht & _). split; [exact Hin|exact Ht].
    + intros scan scan' more. apply morton_step.
    + unfold SQZ_scan_init_morton_context. cbn. auto.
    + exact Hstart.
    + intros px Hpx. inversion Hpx.
Qed.

Lemma bit_length_above v : 0 <= v → v < 2 ^ bit_length v.
Proof.
  intros Hv. unfold bit_length. destruct (Z.eqb_spec v 0) as [->|Hne]; [reflexivity|].
  apply Z.log2_spec. lia.
Qed.

(** The largest coefficient of a subband has no bit above [max_bitplane]. *)
Lemma get_max_below D band :
  (∀ o, 0 <= load D o < 2 ^ 15) →
  SQZ_dwt_get_max D band
  < 2 ^ (s32 (SQZ_ilog2 (u32 (Z.shiftr (SQZ_dwt_get_max D band) 1))) + 1).
Proof.
  intros HD. pose proof (get_max_range D band HD) as Hm.
  assert (Hdiv : Z.shiftr (SQZ_dwt_get_max D band) 1 = SQZ_dwt_get_max D band / 2)
    by (rewrite Z.shiftr_div_pow2 by lia; reflexivity).
  set (s := Z.shiftr (SQZ_dwt_get_max D band) 1) in *.
  assert (Hs : 0 <= s < 2 ^ 14).
  { rewrite Hdiv. split; [apply Z.div_pos; lia|apply Z.div_lt_upper_bound; lia]. }
  rewrite u32_small by lia. rewrite SQZ_ilog2_bit_length by lia.
  pose proof (bit_length_range _ Hs). rewrite s32_small by lia.
  pose proof (bit_length_above _ (proj1 Hs)) as Hb.
  rewrite Z.pow_add_r by lia. change (2 ^ 1) with 2.
  pose proof (Z.div_mod (SQZ_dwt_get_max D band) 2 ltac:(lia)).
  pose proof (Z.mod_pos_bound (SQZ_dwt_get_max D band) 2 ltac:(lia)). lia.
Qed.

(** What is known of a subband after its initialization. *)
Lemma band_known_init D fuel order band scan0 scan1 r band0 scan2 res dd :
  (∀ o, 0 <= load D o < 2 ^ 15) →
  order = SQZ_SCAN_ORDER_RASTER ∨ order = SQZ_SCAN_ORDER_MORTON →
  scan_type scan0 = order → band_known D band dd →
  SQZ_scan_init fuel scan0 band = Some (scan1, r) →
  SQZ_common_init_subband fuel band scan1 = Some (band0, scan2, res) →
  band_known D (band_set_bitplanes band0
                  (s32 (SQZ_ilog2 (u32 (Z.shiftr (SQZ_dwt_get_max D band0) 1))))
                  (s32 (SQZ_ilog2 (u32 (Z.shiftr (SQZ_dwt_get_max D band0) 1))))) dd
  ∧ scan_type scan2 = order.
Proof.
  intros HD Horder Hty (Hw & _ & Hext & _) Hsi Hci.
  destruct (common_init_subband_inside fuel order band scan0 scan1 r band0 scan2 res
              Horder Hty Hext Hsi Hci) as (Hin & Hty2).
  split; [|exact Hty2].
  destruct (common_init_subband_lists _ _ _ _ _ _ Hci) as (cache & lip & Hb0 & _).
  pose proof (max_bitplane_range D band0 HD) as Hm.
  pose proof (get_max_below D band0 HD) as Hmax.
  set (m := s32 (SQZ_ilog2 (u32 (Z.shiftr (SQZ_dwt_get_max D band0) 1)))) in *.
  assert (Hgeo : band_width band0 = band_width band ∧ band_height band0 = band_height band
                 ∧ band_stride band0 = band_stride band ∧ band_data band0 = band_data band)
    by (subst band0; cbn; auto).
  destruct Hgeo as (Hw0 & Hh0 & Hs0 & Hd0).
  split; [exact Hw|]. split; [cbn [band_bitplane band_set_bitplanes]; lia|].
  split; [unfold band_extent_ok; cbn [band_width band_height band_stride band_set_bitplanes];
          rewrite Hw0, Hh0, Hs0; exact Hext|].
  split.
  - intros px n Hpx. subst band0. cbn in Hpx. inversion Hpx.
  - intros px Hpx. cbn [LIP band_set_bitplanes band_bitplane] in *.
    destruct (Hin px Hpx) as (Hx & Hy). destruct Hext as (Hbw & Hbh & Hbs).
    assert (Hoff : pixel_offset (band_set_bitplanes band0 m m) px
                   = band_data band0 + px.2 * band_stride band0 + px.1).
    { unfold pixel_offset. cbn [band_data band_stride band_set_bitplanes].
      rewrite usize_small; [lia|]. rewrite Hs0. nia. }
    rewrite Hoff.
    destruct (SQZ_dwt_get_max_spec D band0) as (Hle & _); [lia|lia|].
    pose proof (Hle px.1 px.2 ltac:(lia) ltac:(lia)) as Hc. unfold coefficient in Hc. lia.
Qed.

Lemma zero_coefficients_within D :
  coefficients_within D (replicate (length D) 0).
Proof.
  split; [apply length_replicate|]. intros o.
  destruct (decide (Z.to_nat o < length D)%nat) as [Hin|Hout].
  - unfold load at 1 2. rewrite lookup_total_replicate_2 by exact Hin.
    split; [lia|]. intros n _. rewrite Z.bits_0. discriminate.
  - rewrite (load_outside D (replicate (length D) 0) o) by (rewrite ?length_replicate; auto).
    split; [|apply bits_within_refl].
    unfold load. rewrite list_lookup_total_alt, lookup_ge_None_2 by lia. cbn. lia.
Qed.

Lemma band_known_decoded D band dd :
  (∀ o, 0 <= load D o < 2 ^ 15) → band_known D band dd → band_decoded D dd band.
Proof.
  intros HD ((_ & Hw) & Hk & _ & Hlsp & Hlip).
  assert (Hbits : ∀ px n, px ∈ LSP band → n = 0 ∨ band_bitplane band < n →
                          Z.testbit (load dd (pixel_offset band px)) n
                          = Z.testbit (load D (pixel_offset band px)) n).
  { intros px n Hpx Hn.
    destruct (Z.testbit (load D (pixel_offset band px)) n) eqn:Hb.
    - apply (Hlsp px n); assumption.
    - destruct (Z.testbit (load dd (pixel_offset band px)) n) eqn:Hd; [|reflexivity].
      destruct (Hw (pixel_offset band px)) as (_ & Hwithin).
      apply Hwithin in Hd; [congruence|lia]. }
  split; [exact Hbits|]. split.
  - intros px Hpx Hzero. apply Z.bits_inj'. intros n Hn. apply Hbits; [exact Hpx|lia].
  - intros px Hpx. split; [apply HD|apply Hlip; exact Hpx].
Qed.

Lemma bands_fresh_check planes :
  forallb (λ p, forallb (λ band, (length (LIP band) =? 0)%nat && (length (LSP band) =? 0)%nat
                                 && (length (NSP band) =? 0)%nat
                                 && (0 <=? band_bitplane band) && (band_bitplane band <=? 14)
                                 && (0 <=? band_width band) && (band_width band <? 2 ^ 16)
                                 && (0 <=? band_height band) && (band_height band <? 2 ^ 16)
                                 && (0 <=? band_stride band) && (band_stride band <? 2 ^ 32)
                                 && (band_width band * band_height band <? 2 ^ 30))
                        (plane_band p)) planes = true →
  bands_fresh planes.
Proof.
  intros Hall. unfold bands_fresh.
  apply (bands_check (λ band, LIP band = [] ∧ LSP band = [] ∧ NSP band = []
                              ∧ 0 <= band_bitplane band <= 14 ∧ band_extent_ok band
                              ∧ band_width band * band_height band < 2 ^ 30)
                     (λ band, (length (LIP band) =? 0)%nat && (length (LSP band) =? 0)%nat
                              && (length (NSP band) =? 0)%nat
                              && (0 <=? band_bitplane band) && (band_bitplane band <=? 14)
                              && (0 <=? band_width band) && (band_width band <? 2 ^ 16)
                              && (0 <=? band_height band) && (band_height band <? 2 ^ 16)
                              && (0 <=? band_stride band) && (band_stride band <? 2 ^ 32)
                              && (band_width band * band_height band <? 2 ^ 30))
                     planes); [|reflexivity|exact Hall].
  intros band Hb. repeat (apply andb_prop in Hb as (Hb & ?)).
  unfold band_extent_ok.
  destruct (LIP band); [|discriminate]. destruct (LSP band); [|discriminate].
  destruct (NSP band); [|discriminate]. repeat split; lia.
Qed.

Lemma schedule_task_coefficients_holds fuel ctx ctx' result :
  scan_order (ctx_image ctx) = SQZ_SCAN_ORDER_RASTER
  ∨ scan_order (ctx_image ctx) = SQZ_SCAN_ORDER_MORTON →
  bb_wf (ctx_buffer ctx) → zero_from (ctx_buffer ctx) → bands_fresh (ctx_plane ctx) →
  (∀ o, 0 <= load (ctx_data ctx) o < 2 ^ 15) →
  SQZ_schedule_task fuel ctx SQZ_encode_init_subband SQZ_encode_bitplane
  = Some (ctx', result) →
  SQZ_bit_buffer_eob (ctx_buffer ctx') = false →
  ∃ dd',
    SQZ_schedule_task fuel
      (mk_context (ctx_plane ctx) (replicate (length (ctx_data ctx)) 0)
                  (bb_rewind (ctx_buffer ctx) (ctx_buffer ctx')) (ctx_image ctx))
      SQZ_decode_init_subband SQZ_decode_bitplane
    = Some (mk_context (ctx_plane ctx') dd' (ctx_buffer ctx') (ctx_image ctx'), result)
    ∧ coefficients_within (ctx_data ctx) dd'
    ∧ ∀ i j, band_decoded (ctx_data ctx) dd' (band_at (ctx_plane ctx') i j).
Proof.
  intros Horder Hwf Hz Hfresh HD Henc Hne.
  destruct (schedule_task_follows (band_known (ctx_data ctx))
              (λ scan, scan_type scan = scan_order (ctx_image ctx))
              fuel ctx ctx' result (replicate (length (ctx_data ctx)) 0))
    as (dd' & Hdec & _ & _ & HK); auto.
  - intros band scan0 scan1 r band0 scan2 res dd Hty Hk Hsi Hci.
    exact (band_known_init _ fuel _ band scan0 scan1 r band0 scan2 res dd HD Horder Hty Hk
             Hsi Hci).
  - intros band b dd. apply band_known_task. exact HD.
  - intros band band2 dd. apply band_known_mono. exact HD.
  - intros i j. destruct (Hfresh i j) as (_ & _ & Hnsp & _ & (Hw & Hh & _) & Hcap).
    split; [exact Hnsp|]. destruct (Hfresh i j) as (-> & _). cbn [length].
    split; [lia|]. rewrite usize_small by nia. exact Hcap.
  - intros i j. destruct (Hfresh i j) as (Hlip & Hlsp & _ & Hk & Hext & _).
    split; [apply zero_coefficients_within|]. split; [exact Hk|]. split; [exact Hext|].
    rewrite Hlip, Hlsp. split; intros px; intros; match goal with H : _ ∈ [] |- _ =>
                                                    inversion H end.
  - exists dd'. split; [exact Hdec|]. split.
    + destruct (HK 0%nat 0%nat) as (Hw & _). exact Hw.
    + intros i j. apply band_known_decoded; [exact HD|apply HK].
Qed.

(** The coefficients that the scheduler of the decoder rebuilds from a run
    of the encoder that ended with room left in the buffer (nothing is said
    here of a stream cut short).  With the raster or the Morton order, from
    subbands not yet touched, zeroed coefficients and the bits that
    [SQZ_schedule_task] of the encoder wrote, [SQZ_schedule_task] of the
    decoder ends with the subbands of the encoder and with coefficients that
    hold no bit the coefficients of the encoder do not have.  For every
    pixel in the LSP of a subband they have the sign bit and every bit above
    the bitplane the subband ended at, so the whole coefficient when that is
    0; a pixel still in the LIP has a coefficient below 2^(bitplane + 1). *)
Theorem schedule_task_coefficients fuel ctx ctx' result :
  scan_order (ctx_image ctx) = SQZ_SCAN_ORDER_RASTER
  ∨ scan_order (ctx_image ctx) = SQZ_SCAN_ORDER_MORTON →
  bb_wf (ctx_buffer ctx) → zero_from (ctx_buffer ctx) → bands_fresh (ctx_plane ctx) →
  (∀ o, 0 <= load (ctx_data ctx) o < 2 ^ 15) →
  SQZ_schedule_task fuel ctx SQZ_encode_init_subband SQZ_encode_bitplane
  = Some (ctx', result) →
  SQZ_bit_buffer_eob (ctx_buffer ctx') = false →
  ∃ dd',
    SQZ_schedule_task fuel
      (mk_context (ctx_plane ctx) (replicate (length (ctx_data ctx)) 0)
                  (bb_rewind (ctx_buffer ctx) (ctx_buffer ctx')) (ctx_image ctx))
      SQZ_decode_init_subband SQZ_decode_bitplane
    = Some (mk_context (ctx_plane ctx') dd' (ctx_buffer ctx') (ctx_image ctx'), result)
    ∧ coefficients_within (ctx_data ctx) dd'
    ∧ ∀ i j, band_decoded (ctx_data ctx) dd' (band_at (ctx_plane ctx') i j).
Proof. apply schedule_task_coefficients_holds. Qed.

Lemma schedule_task_coefficients_witness :
  let d := mk_descriptor SQZ_COLOR_MODE_GRAYSCALE SQZ_SCAN_ORDER_MORTON 8 8 1 1 0 in
  let b := SQZ_bit_buffer_init (replicate 64 0) 64 in
  let ctx := ctx_set_data (SQZ_common_init_context (context_zero d b)).1
                          (replicate 32 9 ++ replicate 32 2) in
  ∃ ctx' dd',
    SQZ_schedule_task 100 ctx SQZ_encode_init_subband SQZ_encode_bitplane
    = Some (ctx', SQZ_RESULT_OK)
    ∧ SQZ_schedule_task 100
        (mk_context (ctx_plane ctx) (replicate (length (ctx_data ctx)) 0)
                    (bb_rewind (ctx_buffer ctx) (ctx_buffer ctx')) (ctx_image ctx))
        SQZ_decode_init_subband SQZ_decode_bitplane
      = Some (mk_context (ctx_plane ctx') dd' (ctx_buffer ctx') (ctx_image ctx'),
              SQZ_RESULT_OK)
    ∧ coefficients_within (ctx_data ctx) dd'
    ∧ ∀ i j, band_decoded (ctx_data ctx) dd' (band_at (ctx_plane ctx') i j).
Proof.
  cbv zeta.
  set (ctx := ctx_set_data
                (SQZ_common_init_context
                   (context_zero
                      (mk_descriptor SQZ_COLOR_MODE_GRAYSCALE SQZ_SCAN_ORDER_MORTON 8 8 1 1 0)
                      (SQZ_bit_buffer_init (replicate 64 0) 64))).1
                (replicate 32 9 ++ replicate 32 2)).
  assert (Horder : scan_order (ctx_image ctx) = SQZ_SCAN_ORDER_RASTER
                   ∨ scan_order (ctx_image ctx) = SQZ_SCAN_ORDER_MORTON)
    by (right; reflexivity).
  assert (Hwf : bb_wf (ctx_buffer ctx))
    by (unfold bb_wf; vm_compute; repeat split; try discriminate; left; reflexivity).
  assert (Hz : zero_from (ctx_buffer ctx)) by (apply (zero_from_init 64 64); simpl; lia).
  assert (Hfresh : bands_fresh (ctx_plane ctx))
    by (apply bands_fresh_check; vm_compute; reflexivity).
  assert (HD : ∀ o, 0 <= load (ctx_data ctx) o < 2 ^ 15)
    by (apply load_range_check; vm_compute; reflexivity).
  eassert (He : SQZ_schedule_task 100 ctx SQZ_encode_init_subband SQZ_encode_bitplane
                = Some (_, SQZ_RESULT_OK)) by (vm_compute; reflexivity).
  match type of He with
  | _ = Some (?c, _) =>
      assert (Hne : SQZ_bit_buffer_eob (ctx_buffer c) = false) by (vm_compute; reflexivity)
  end.
  destruct (schedule_task_coefficients 100 ctx _ _ Horder Hwf Hz Hfresh HD He Hne)
    as (dd' & Hdec & Hrest).
  eexists _, dd'. split; [exact He|]. split; [exact Hdec|exact Hrest].
Defined.

(** ** The horizontal pass of the wavelet transform *)

Ltac load_at p a :=
  let Heq := fresh "Heq" in
  destruct (Z.eq_dec p a) as [Heq|Heq];
  [rewrite Heq; rewrite load_store_eq by (rewrite ?length_insert; unfold store; rewrite ?length_insert; lia)
  |rewrite (load_store_ne _ a p) by lia].

Lemma scratch_fill (data : list Z) row odds half_w scratch :
  0 <= row → 0 <= half_w <= odds → odds + half_w <= Z.of_nat (length scratch) →
  length (for_range 0 half_w
            (fun i scratch =>
               let scratch := store scratch i (load data (row + 2 * i)) in
               store scratch (odds + i) (load data (row + 2 * i + 1)))
            scratch) = length scratch
  ∧ ∀ p, 0 <= p →
      load (for_range 0 half_w
              (fun i scratch =>
                 let scratch := store scratch i (load data (row + 2 * i)) in
                 store scratch (odds + i) (load data (row + 2 * i + 1)))
              scratch) p
      = if p <? half_w then load data (row + 2 * p)
        else if (odds <=? p) && (p <? odds + half_w) then load data (row + 2 * (p - odds) + 1)
             else load scratch p.
Proof.
  intros Hrow Hh Hlen.
  apply (for_range_ind
           (λ k s, length s = length scratch
                   ∧ ∀ p, 0 <= p →
                       load s p
                       = if p <? k then load data (row + 2 * p)
                         else if (odds <=? p) && (p <? odds + k)
                              then load data (row + 2 * (p - odds) + 1)
                              else load scratch p)); [lia| |].
  - split; [reflexivity|]. intros p Hp.
    destruct (Z.ltb_spec p 0); [lia|].
    destruct (Z.leb_spec odds p), (Z.ltb_spec p (odds + 0)); cbn [andb]; try reflexivity; lia.
  - intros j s Hj (Hl & Hs). cbv zeta. split; [rewrite !length_store; exact Hl|].
    intros p Hp.
    destruct (Z.eq_dec p (odds + j)) as [->|Hne1].
    + rewrite load_store_eq by (rewrite length_store; lia).
      destruct (Z.ltb_spec (odds + j) (j + 1)); [lia|].
      destruct (Z.leb_spec odds (odds + j)), (Z.ltb_spec (odds + j) (odds + (j + 1)));
        cbn [andb]; try lia.
      f_equal. lia.
    + rewrite load_store_ne by lia.
      destruct (Z.eq_dec p j) as [->|Hne2].
      * rewrite load_store_eq by lia. destruct (Z.ltb_spec j (j + 1)); [reflexivity|lia].
      * rewrite load_store_ne by lia. rewrite Hs by lia.
        destruct (Z.ltb_spec p j), (Z.ltb_spec p (j + 1)); try lia; try reflexivity.
        destruct (Z.leb_spec odds p), (Z.ltb_spec p (odds + j)), (Z.ltb_spec p (odds + (j + 1)));
          cbn [andb]; try lia; reflexivity.
Qed.

Lemma shiftr_2 a : Z.shiftr a 2 = a / 4.
Proof. rewrite Z.shiftr_div_pow2 by lia. reflexivity. Qed.

Lemma truthy_land_1 a : truthy (Z.land a 1) = Z.odd a.
Proof.
  rewrite land_1, Z.bit0_odd. unfold truthy. destruct (Z.odd a); reflexivity.
Qed.

Ltac div_lia :=
  rewrite ?shiftr_1, ?shiftr_2 in *; Z.div_mod_to_equations; lia.

Lemma small_s32 a : - 2 ^ 15 <= a < 2 ^ 15 → s32 a = a.
Proof. intros. apply s32_small. lia. Qed.

Lemma lift_high_small w (E O : Z → Z) :
  (∀ j, 0 <= j <= w → - 2 ^ 13 <= E j < 2 ^ 13) →
  (∀ j, 0 <= j <= w → - 2 ^ 13 <= O j < 2 ^ 13) →
  ∀ j, 0 <= j < w → - 2 ^ 14 <= lift_high E O j < 2 ^ 14.
Proof.
  intros HEr HOr j Hj. unfold lift_high.
  pose proof (HEr j ltac:(lia)). pose proof (HEr (j + 1) ltac:(lia)).
  pose proof (HOr j ltac:(lia)). div_lia.
Qed.

Lemma lift_low_small w (E O : Z → Z) :
  (∀ j, 0 <= j <= w → - 2 ^ 13 <= E j < 2 ^ 13) →
  (∀ j, 0 <= j <= w → - 2 ^ 13 <= O j < 2 ^ 13) →
  ∀ j, 1 <= j < w → - 2 ^ 15 <= lift_low E O j < 2 ^ 15.
Proof.
  intros HEr HOr j Hj. unfold lift_low. destruct (Z.eqb_spec j 0); [lia|].
  pose proof (lift_high_small w E O HEr HOr (j - 1) ltac:(lia)).
  pose proof (lift_high_small w E O HEr HOr j ltac:(lia)).
  pose proof (HEr j ltac:(lia)). div_lia.
Qed.

(** The loop of the forward pass.  [E] and [O] are the even and the odd
    samples of the line, as the pass has put them in [scratch]; the
    coefficients [w] of the two bands are left to the code after the loop. *)
Section dwt_loop.
Variables (scratch : list Z) (data0 : list Z) (row stride w : Z) (E O : Z → Z).
Hypothesis Hrow : 0 <= row.
Hypothesis Hw : 1 <= w < stride.
Hypothesis Hlen : row + stride + w < Z.of_nat (length data0).
Hypothesis HE : ∀ j, 0 <= j <= w → load scratch j = E j.
Hypothesis HO : ∀ j, 0 <= j <= w → load scratch (stride + j) = O j.
Hypothesis HEr : ∀ j, 0 <= j <= w → - 2 ^ 13 <= E j < 2 ^ 13.
Hypothesis HOr : ∀ j, 0 <= j <= w → - 2 ^ 13 <= O j < 2 ^ 13.

Local Notation "'Hc'" := (lift_high E O).
Local Notation "'Lc'" := (lift_low E O).
Local Notation "'inv'" := (dwt_loop_inv data0 row stride w E O).

Lemma dwt_loop_step i d cf0 cf1 cf2 cf3 :
  1 <= i < w → inv i (mk_lift d cf0 cf1 cf2 cf3) →
  ∃ st, dwt_horizontal_loop 1 i w scratch row (row + stride) stride (mk_lift d cf0 cf1 cf2 cf3)
        = st ∧ inv (i + 2) st
        ∧ ∀ n, dwt_horizontal_loop (S n) i w scratch row (row + stride) stride
                 (mk_lift d cf0 cf1 cf2 cf3)
               = dwt_horizontal_loop n (i + 1 + 1) w scratch row (row + stride) stride st.
Proof.
  intros Hi (Hl & Hcf & Hd). cbn [lift_data lift_cf1 lift_cf2] in *.
  destruct (Hcf ltac:(lia)) as (-> & ->).
  eexists. split; [reflexivity|]. cbn [dwt_horizontal_loop].
  destruct (Z.ltb_spec i w); [|lia].
  rewrite (HO i), (HE (i + 1)) by lia.
  fold (Hc i).
  pose proof (lift_high_small w E O HEr HOr i ltac:(lia)) as Hhi.
  pose proof (lift_high_small w E O HEr HOr (i - 1) ltac:(lia)) as Hhp.
  rewrite (small_s32 (Hc i)) by lia.
  assert (HLi : E i + Z.shiftr (Hc (i - 1) + Hc i + 2) 2 = Lc i)
    by (unfold lift_low; destruct (Z.eqb_spec i 0); [lia|reflexivity]).
  rewrite HLi. pose proof (lift_low_small w E O HEr HOr i ltac:(lia)) as Hli.
  rewrite (small_s32 (Lc i)) by lia.
  rewrite (s16_small (Hc i)), (s16_small (Lc i)) by lia.
  split; [|intros n; reflexivity].
  set (c1 := s32 (load scratch (stride + (i + 1))
                  + Z.shiftr (- (load scratch (i + 1 + 1) + E (i + 1))) 1)).
  assert (Hsecond : i + 1 < w →
                    c1 = Hc (i + 1) ∧ load scratch (i + 1 + 1) = E (i + 1 + 1)
                    ∧ s16 (Hc (i + 1)) = Hc (i + 1)
                    ∧ s16 (s32 (E (i + 1) + Z.shiftr (Hc (i + 1) + Hc i + 2) 2))
                      = Lc (i + 1)).
  { intros Hlt. pose proof (lift_high_small w E O HEr HOr (i + 1) ltac:(lia)) as Hh1.
    pose proof (lift_low_small w E O HEr HOr (i + 1) ltac:(lia)) as Hl1.
    split.
    { unfold c1. rewrite (HO (i + 1)), (HE (i + 1 + 1)) by lia.
      replace (E (i + 1 + 1) + E (i + 1)) with (E (i + 1) + E (i + 1 + 1)) by lia.
      fold (Hc (i + 1)). apply small_s32. lia. }
    split; [apply HE; lia|]. split; [apply s16_small; lia|].
    replace (Hc (i + 1) + Hc i) with (Hc (i + 1 - 1) + Hc (i + 1))
      by (replace (i + 1 - 1) with i by lia; lia).
    assert (HL : E (i + 1) + Z.shiftr (Hc (i + 1 - 1) + Hc (i + 1) + 2) 2 = Lc (i + 1))
      by (unfold lift_low; destruct (Z.eqb_spec (i + 1) 0); [lia|reflexivity]).
    rewrite HL, small_s32 by lia. apply s16_small. lia. }
  split; [cbn [lift_data]; rewrite !length_store; exact Hl|].
  cbn [lift_data lift_cf1 lift_cf2]. split.
  - intros Hnext. destruct (Hsecond ltac:(lia)) as (H1 & H0 & _).
    replace (i + 2 - 1) with (i + 1) by lia. replace (i + 2) with (i + 1 + 1) by lia.
    split; [exact H1|exact H0].
  - intros p Hp Hph Hpl.
    destruct (Z.eq_dec p (row + (i + 1))) as [->|Hn3].
    { rewrite load_store_eq by (rewrite !length_store; lia).
      destruct (Hsecond ltac:(lia)) as (H1 & _ & _ & H3). rewrite H1, H3.
      destruct (Z.leb_spec (row + stride) (row + (i + 1))); [lia|]. cbn [andb].
      destruct (Z.leb_spec row (row + (i + 1))), (Z.ltb_spec (row + (i + 1)) (row + (i + 2)));
        cbn [andb]; try lia.
      f_equal. lia. }
    rewrite (load_store_ne _ (row + (i + 1)) p) by lia.
    destruct (Z.eq_dec p (row + stride + (i + 1))) as [->|Hn4].
    { rewrite load_store_eq by (rewrite !length_store; lia).
      destruct (Hsecond ltac:(lia)) as (H1 & _ & H2 & _). rewrite H1, H2.
      destruct (Z.leb_spec (row + stride) (row + stride + (i + 1))),
               (Z.ltb_spec (row + stride + (i + 1)) (row + stride + (i + 2)));
        cbn [andb]; try lia.
      f_equal. lia. }
    rewrite (load_store_ne _ (row + stride + (i + 1)) p) by lia.
    destruct (Z.eq_dec p (row + i)) as [->|Hn1].
    { rewrite load_store_eq by (rewrite length_store; lia).
      destruct (Z.leb_spec (row + stride) (row + i)); [lia|]. cbn [andb].
      destruct (Z.leb_spec row (row + i)), (Z.ltb_spec (row + i) (row + (i + 2)));
        cbn [andb]; try lia.
      f_equal. lia. }
    rewrite load_store_ne by lia.
    destruct (Z.eq_dec p (row + stride + i)) as [->|Hn2].
    { rewrite load_store_eq by lia.
      destruct (Z.leb_spec (row + stride) (row + stride + i)),
               (Z.ltb_spec (row + stride + i) (row + stride + (i + 2))); cbn [andb]; try lia.
      f_equal. lia. }
    rewrite load_store_ne by lia. rewrite Hd by assumption.
    destruct (Z.leb_spec (row + stride) p), (Z.ltb_spec p (row + stride + i)),
             (Z.ltb_spec p (row + stride + (i + 2))); cbn [andb]; try lia; try reflexivity.
    + destruct (Z.leb_spec row p), (Z.ltb_spec p (row + i)), (Z.ltb_spec p (row + (i + 2)));
        cbn [andb]; try lia; reflexivity.
    + destruct (Z.leb_spec row p), (Z.ltb_spec p (row + i)), (Z.ltb_spec p (row + (i + 2)));
        cbn [andb]; try lia; try reflexivity.
Qed.

Lemma dwt_loop_spec n : ∀ i st,
  1 <= i <= w + 1 → w - i < 2 * Z.of_nat n → inv i st →
  length (lift_data (dwt_horizontal_loop n i w scratch row (row + stride) stride st))
  = length data0
  ∧ ∀ p, 0 <= p → p ≠ row + stride + w → p ≠ row + w →
      load (lift_data (dwt_horizontal_loop n i w scratch row (row + stride) stride st)) p
      = if (row + stride <=? p) && (p <? row + stride + w) then Hc (p - (row + stride))
        else if (row <=? p) && (p <? row + w) then Lc (p - row)
             else load data0 p.
Proof.
  assert (Hend : ∀ i st, w <= i <= w + 1 → inv i st →
                 length (lift_data st) = length data0
                 ∧ ∀ p, 0 <= p → p ≠ row + stride + w → p ≠ row + w →
                     load (lift_data st) p
                     = if (row + stride <=? p) && (p <? row + stride + w)
                       then Hc (p - (row + stride))
                       else if (row <=? p) && (p <? row + w) then Lc (p - row)
                            else load data0 p).
  { intros i st Hi (Hl & _ & Hd). split; [exact Hl|]. intros p Hp Hph Hpl.
    rewrite Hd by assumption.
    destruct (Z.leb_spec (row + stride) p), (Z.ltb_spec p (row + stride + i)),
             (Z.ltb_spec p (row + stride + w)); cbn [andb]; try lia; try reflexivity;
      destruct (Z.leb_spec row p), (Z.ltb_spec p (row + i)), (Z.ltb_spec p (row + w));
      cbn [andb]; try lia; reflexivity. }
  induction n as [|n IH]; intros i st Hi Hfuel Hinv.
  - cbn [dwt_horizontal_loop]. apply (Hend i); [lia|exact Hinv].
  - destruct (Z.lt_ge_cases i w) as [Hlt|Hge].
    + destruct st as [d cf0 cf1 cf2 cf3].
      destruct (dwt_loop_step i d cf0 cf1 cf2 cf3 ltac:(lia) Hinv) as (st2 & _ & Hinv2 & Heq).
      rewrite Heq. replace (i + 1 + 1) with (i + 2) by lia.
      apply IH; [lia|lia|exact Hinv2].
    + cbn [dwt_horizontal_loop]. destruct (Z.ltb_spec i w); [lia|].
      apply (Hend i); [lia|exact Hinv].
Qed.
End dwt_loop.

Lemma odd_width width :
  width = 2 * (width / 2) + (if Z.odd width then 1 else 0)
  ∧ (width + 1) / 2 = (if Z.odd width then width / 2 + 1 else width / 2).
Proof.
  pose proof (Zmod_odd width) as Hm. pose proof (Z.div_mod width 2 ltac:(lia)) as Hd.
  destruct (Z.odd width); split; try lia.
  - replace (width + 1) with ((width / 2 + 1) * 2) by lia. apply Z.div_mul. lia.
  - replace (width + 1) with (1 + (width / 2) * 2) by lia.
    rewrite Z.div_add by lia. reflexivity.
Qed.

Lemma dwt_high_lift x width i :
  0 <= i → (i < width / 2 - 1 ∨ Z.odd width = true) →
  dwt_high x width i = lift_high (λ j, x (2 * j)) (λ j, x (2 * j + 1)) i.
Proof.
  intros Hi Hor. unfold dwt_high, lift_high.
  replace (2 * (i + 1)) with (2 * i + 2) by lia.
  destruct (Z.ltb_spec i (width / 2 - 1)); cbn [orb]; [reflexivity|].
  destruct Hor as [Hlt|Hodd]; [lia|rewrite Hodd; reflexivity].
Qed.

Lemma dwt_low_lift x width i :
  0 <= i < width / 2 - 1 →
  dwt_low x width i = lift_low (λ j, x (2 * j)) (λ j, x (2 * j + 1)) i.
Proof.
  intros Hi. unfold dwt_low, lift_low. rewrite Z.mul_0_r.
  destruct (Z.eqb_spec i 0) as [->|Hne].
  - rewrite dwt_high_lift by lia. reflexivity.
  - destruct (Z.ltb_spec i (width / 2)); [|lia].
    rewrite !dwt_high_lift by lia. reflexivity.
Qed.

(** What the forward pass leaves in a line of samples between -2^13 and
    2^13: the two bands of the 5/3 lifting. *)
Lemma dwt_horizontal_spec data row scratch width :
  4 <= width < 2 ^ 62 → 0 <= row → row + width <= Z.of_nat (length data) →
  width <= Z.of_nat (length scratch) →
  (∀ j, 0 <= j < width → - 2 ^ 13 <= load data (row + j) < 2 ^ 13) →
  length (SQZ_dwt_5_3i_horizontal_pass data row scratch width).1 = length data
  ∧ length (SQZ_dwt_5_3i_horizontal_pass data row scratch width).2 = length scratch
  ∧ ∀ p, 0 <= p →
      load (SQZ_dwt_5_3i_horizontal_pass data row scratch width).1 p
      = if (row <=? p) && (p <? row + width)
        then dwt_row (λ j, load data (row + j)) width (p - row)
        else load data p.
Proof.
  intros Hw4 Hrow Hfit Hscr Hrange.
  unfold SQZ_dwt_5_3i_horizontal_pass. change (Z.shiftr SQZ_MIN_DIMENSION 1) with 4.
  destruct (Z.ltb_spec width 4); [lia|].
  rewrite truthy_land_1, (shiftr_1 width).
  destruct (odd_width width) as (Hwd & Hst).
  set (x := λ j, load data (row + j)).
  set (half_w := width / 2) in *.
  assert (Hhalf : 2 <= half_w < 2 ^ 62)
    by (unfold half_w; split; [apply Z.div_le_lower_bound; lia|apply Z.div_lt_upper_bound; lia]).
  assert (Hwd' : width = 2 * half_w ∨ width = 2 * half_w + 1)
    by (revert Hwd; destruct (Z.odd width); lia).
  rewrite (usize_small (half_w - 1)) by lia.
  set (w := half_w - 1).
  set (stride := if Z.odd width then half_w + 1 else half_w) in *.
  assert (Hstride : stride = half_w + (if Z.odd width then 1 else 0))
    by (unfold stride; destruct (Z.odd width); lia).
  cbv zeta. rewrite (usize_small (w - 1)) by lia.
  destruct (scratch_fill data row stride half_w scratch Hrow ltac:(lia) ltac:(lia))
    as (Hfl & Hfill).
  set (fill := for_range 0 half_w _ scratch) in *.
  set (scratch1 := if Z.odd width then store fill half_w (load data (row + 2 * half_w))
                   else fill).
  assert (Hl1 : length scratch1 = length scratch)
    by (unfold scratch1; destruct (Z.odd width); rewrite ?length_store; exact Hfl).
  assert (HE : ∀ j, 0 <= j → 2 * j < width → load scratch1 j = x (2 * j)).
  { intros j Hj Hjw. unfold scratch1. destruct (Z.odd width) eqn:Hodd.
    - destruct (Z.eq_dec j half_w) as [->|Hne].
      + rewrite load_store_eq by lia. reflexivity.
      + rewrite load_store_ne by lia. rewrite Hfill by lia.
        destruct (Z.ltb_spec j half_w); [reflexivity|lia].
    - rewrite Hfill by lia. destruct (Z.ltb_spec j half_w); [reflexivity|lia]. }
  assert (HO : ∀ j, 0 <= j < half_w → load scratch1 (stride + j) = x (2 * j + 1)).
  { intros j Hj. unfold scratch1. destruct (Z.odd width) eqn:Hodd.
    - rewrite load_store_ne by lia. rewrite Hfill by lia.
      destruct (Z.ltb_spec (stride + j) half_w); [lia|].
      destruct (Z.leb_spec stride (stride + j)), (Z.ltb_spec (stride + j) (stride + half_w));
        cbn [andb]; try lia.
      unfold x. f_equal. lia.
    - rewrite Hfill by lia.
      destruct (Z.ltb_spec (stride + j) half_w); [lia|].
      destruct (Z.leb_spec stride (stride + j)), (Z.ltb_spec (stride + j) (stride + half_w));
        cbn [andb]; try lia.
      unfold x. f_equal. lia. }
  assert (Hx : ∀ j, 0 <= j < width → - 2 ^ 13 <= x j < 2 ^ 13) by (intros; apply Hrange; lia).
  set (E := λ j, x (2 * j)). set (O := λ j, x (2 * j + 1)).
  assert (HE' : ∀ j, 0 <= j <= w → load scratch1 j = E j)
    by (intros j Hj; apply HE; unfold w in *; lia).
  assert (HO' : ∀ j, 0 <= j <= w → load scratch1 (stride + j) = O j)
    by (intros j Hj; apply HO; unfold w in *; lia).
  assert (HEr : ∀ j, 0 <= j <= w → - 2 ^ 13 <= E j < 2 ^ 13)
    by (intros j Hj; apply Hx; unfold w in *; lia).
  assert (HOr : ∀ j, 0 <= j <= w → - 2 ^ 13 <= O j < 2 ^ 13)
    by (intros j Hj; apply Hx; unfold w in *; lia).
  (* the first coefficient of each band *)
  rewrite (HE' 0), (HE' 1) by (unfold w; lia).
  replace (load scratch1 stride) with (O 0)
    by (rewrite <- (HO' 0) by (unfold w; lia); f_equal; lia).
  change (O 0 + Z.shiftr (- (E 0 + E 1)) 1) with (lift_high E O 0).
  pose proof (lift_high_small w E O HEr HOr 0 ltac:(unfold w; lia)) as Hh0.
  rewrite (small_s32 (lift_high E O 0)) by lia.
  assert (HL0 : E 0 + Z.shiftr (lift_high E O 0 + 1) 1 = lift_low E O 0) by reflexivity.
  rewrite HL0.
  assert (Hl0 : - 2 ^ 15 <= lift_low E O 0 < 2 ^ 15).
  { rewrite <- HL0. pose proof (HEr 0 ltac:(unfold w; lia)). div_lia. }
  rewrite (small_s32 (lift_low E O 0)), (s16_small (lift_high E O 0)),
    (s16_small (lift_low E O 0)) by lia.
  set (data2 := store (store data (row + stride) (lift_high E O 0)) row (lift_low E O 0)).
  assert (Hinv : dwt_loop_inv data row stride w E O 1
                   (mk_lift data2 (lift_low E O 0) (lift_high E O 0) (E 1) 0)).
  { split; [cbn [lift_data]; unfold data2; rewrite !length_store; reflexivity|].
    cbn [lift_data lift_cf1 lift_cf2]. split; [intros _; split; reflexivity|].
    intros p Hp Hph Hpl. unfold data2.
    destruct (Z.eq_dec p row) as [->|Hn1].
    { rewrite load_store_eq by (rewrite length_store; lia).
      destruct (Z.leb_spec (row + stride) row); [lia|]. cbn [andb].
      destruct (Z.leb_spec row row), (Z.ltb_spec row (row + 1)); cbn [andb]; try lia.
      f_equal. lia. }
    rewrite load_store_ne by lia.
    destruct (Z.eq_dec p (row + stride)) as [->|Hn2].
    { rewrite load_store_eq by lia.
      destruct (Z.leb_spec (row + stride) (row + stride)),
               (Z.ltb_spec (row + stride) (row + stride + 1)); cbn [andb]; try lia.
      f_equal. lia. }
    rewrite load_store_ne by lia.
    destruct (Z.leb_spec (row + stride) p), (Z.ltb_spec p (row + stride + 1)); cbn [andb];
      try lia;
      destruct (Z.leb_spec row p), (Z.ltb_spec p (row + 1)); cbn [andb]; try lia;
      reflexivity. }
  destruct (dwt_loop_spec scratch1 data row stride w E O Hrow ltac:(unfold w; lia)
              ltac:(unfold w; lia) HE' HO' HEr HOr (Z.to_nat w) 1 _ ltac:(unfold w; lia)
              ltac:(unfold w; lia) Hinv) as (Hl3 & Hd3).
  set (data3 := lift_data (dwt_horizontal_loop (Z.to_nat w) 1 w scratch1 row (row + stride)
                                               stride _)) in *.
  (* the last coefficient of each band *)
  rewrite (HO' w), (HE' w) by (unfold w; lia).
  set (last := s32 (O w + (if Z.odd width
                           then Z.shiftr (- (E w + load scratch1 (w + 1))) 1 else - E w))).
  assert (Hlast : last = dwt_high x width w ∧ - 2 ^ 14 <= last < 2 ^ 14).
  { unfold last, dwt_high. change (width / 2 - 1) with w. rewrite Z.ltb_irrefl. cbn [orb].
    pose proof (HEr w ltac:(lia)). pose proof (HOr w ltac:(lia)).
    destruct (Z.odd width) eqn:Hodd.
    - rewrite (HE (w + 1)) by (unfold w; lia).
      pose proof (Hx (2 * (w + 1)) ltac:(unfold w; lia)).
      replace (2 * w + 2) with (2 * (w + 1)) by lia.
      unfold E, O in *. rewrite small_s32 by div_lia. split; [reflexivity|div_lia].
    - unfold E, O in *. rewrite small_s32 by lia. split; [reflexivity|lia]. }
  destruct Hlast as (Hlast & Hlr).
  rewrite (s16_small last) by lia.
  assert (Hprev : load (store data3 (row + stride + w) last) (row + stride + (w - 1))
                  = lift_high E O (w - 1)).
  { rewrite load_store_ne by (unfold w; lia). rewrite Hd3 by (unfold w; lia).
    destruct (Z.leb_spec (row + stride) (row + stride + (w - 1))),
             (Z.ltb_spec (row + stride + (w - 1)) (row + stride + w)); cbn [andb]; try lia.
    f_equal. lia. }
  rewrite Hprev.
  pose proof (lift_high_small w E O HEr HOr (w - 1) ltac:(unfold w; lia)) as Hhp.
  assert (Hlw : E w + Z.shiftr (lift_high E O (w - 1) + last + 2) 2 = dwt_low x width w
                ∧ - 2 ^ 15 <= dwt_low x width w < 2 ^ 15).
  { unfold dwt_low. fold half_w. destruct (Z.eqb_spec w 0); [unfold w in *; lia|].
    destruct (Z.ltb_spec w half_w); [|unfold w in *; lia].
    rewrite <- Hlast. rewrite (dwt_high_lift x width (w - 1)) by (fold half_w; unfold w; lia).
    fold E O. split; [reflexivity|].
    pose proof (HEr w ltac:(lia)). unfold E in *. div_lia. }
  destruct Hlw as (Hlw & Hlwr). rewrite Hlw, (s16_small (dwt_low x width w)) by lia.
  set (data5 := store (store data3 (row + stride + w) last) (row + w) (dwt_low x width w)).
  assert (Hl5 : length data5 = length data)
    by (unfold data5; rewrite !length_store; exact Hl3).
  assert (Hd5 : ∀ p, 0 <= p →
                  load data5 p
                  = if (row + stride <=? p) && (p <? row + stride + half_w)
                    then dwt_high x width (p - (row + stride))
                    else if (row <=? p) && (p <? row + half_w) then dwt_low x width (p - row)
                         else load data p).
  { intros p Hp. unfold data5.
    destruct (Z.eq_dec p (row + w)) as [->|Hn1].
    { rewrite load_store_eq by (rewrite length_store; unfold w; lia).
      destruct (Z.leb_spec (row + stride) (row + w)); [unfold w in *; lia|]. cbn [andb].
      destruct (Z.leb_spec row (row + w)), (Z.ltb_spec (row + w) (row + half_w)); cbn [andb];
        try (unfold w in *; lia).
      f_equal. lia. }
    rewrite load_store_ne by (unfold w; lia).
    destruct (Z.eq_dec p (row + stride + w)) as [->|Hn2].
    { rewrite load_store_eq by (unfold w; lia).
      destruct (Z.leb_spec (row + stride) (row + stride + w)),
               (Z.ltb_spec (row + stride + w) (row + stride + half_w)); cbn [andb];
        try (unfold w in *; lia).
      rewrite Hlast. f_equal. lia. }
    rewrite load_store_ne by (unfold w; lia). rewrite Hd3 by assumption.
    destruct (Z.leb_spec (row + stride) p), (Z.ltb_spec p (row + stride + w)),
             (Z.ltb_spec p (row + stride + half_w)); cbn [andb]; try (unfold w in *; lia).
    - rewrite dwt_high_lift by (fold half_w; unfold w in *; lia). reflexivity.
    - destruct (Z.leb_spec row p), (Z.ltb_spec p (row + w)), (Z.ltb_spec p (row + half_w));
        cbn [andb]; try (unfold w in *; lia); try reflexivity.
    - destruct (Z.leb_spec row p), (Z.ltb_spec p (row + w)), (Z.ltb_spec p (row + half_w));
        cbn [andb]; try (unfold w in *; lia); try reflexivity.
      rewrite dwt_low_lift by (fold half_w; unfold w in *; lia). reflexivity. }
  clearbody data5. cbn [fst snd].
  destruct (Z.odd width) eqn:Hodd.
  - (* odd width: one more low coefficient *)
    rewrite (HE (w + 1)) by (unfold w; lia).
    assert (Hlh : x (2 * (w + 1)) + Z.shiftr (last + 1) 1 = dwt_low x width (w + 1)
                  ∧ - 2 ^ 15 <= dwt_low x width (w + 1) < 2 ^ 15).
    { unfold dwt_low. fold half_w. destruct (Z.eqb_spec (w + 1) 0); [unfold w in *; lia|].
      destruct (Z.ltb_spec (w + 1) half_w); [unfold w in *; lia|].
      replace (w + 1 - 1) with w by lia. rewrite <- Hlast. split; [reflexivity|].
      pose proof (Hx (2 * (w + 1)) ltac:(unfold w; lia)). div_lia. }
    destruct Hlh as (Hlh & Hlhr). rewrite Hlh, (s16_small (dwt_low x width (w + 1))) by lia.
    split; [rewrite length_store; exact Hl5|]. split; [exact Hl1|].
    intros p Hp. unfold dwt_row. rewrite Hst.
    destruct (Z.eq_dec p (row + w + 1)) as [->|Hn1].
    { rewrite load_store_eq by (unfold w; lia).
      destruct (Z.leb_spec row (row + w + 1)), (Z.ltb_spec (row + w + 1) (row + width));
        cbn [andb]; try (unfold w in *; lia).
      destruct (Z.ltb_spec (row + w + 1 - row) stride); [|unfold w in *; lia].
      f_equal. lia. }
    rewrite load_store_ne by (unfold w; lia). rewrite Hd5 by assumption.
    destruct (Z.leb_spec (row + stride) p), (Z.ltb_spec p (row + stride + half_w));
      cbn [andb];
      destruct (Z.leb_spec row p), (Z.ltb_spec p (row + width)); cbn [andb];
      try (unfold w in *; lia);
      destruct (Z.ltb_spec (p - row) stride); try (unfold w in *; lia);
      try (f_equal; lia);
      destruct (Z.ltb_spec p (row + half_w)); cbn [andb]; try (unfold w in *; lia);
      reflexivity.
  - split; [exact Hl5|]. split; [exact Hl1|].
    intros p Hp. unfold dwt_row. rewrite Hst. rewrite Hd5 by assumption.
    destruct (Z.leb_spec (row + stride) p), (Z.ltb_spec p (row + stride + half_w));
      cbn [andb];
      destruct (Z.leb_spec row p), (Z.ltb_spec p (row + width)); cbn [andb];
      try (unfold w in *; lia);
      destruct (Z.ltb_spec (p - row) stride); try (unfold w in *; lia);
      try (f_equal; lia);
      destruct (Z.ltb_spec p (row + half_w)); cbn [andb]; try (unfold w in *; lia);
      reflexivity.
Qed.

(** The loop of the inverse pass on the two bands [L] and [H] of the line
    with even samples [E] and odd samples [O]. *)
Section idwt_loop.
Variables (data scratch0 : list Z) (row stride w : Z) (E O L H : Z → Z).
Hypothesis Hw : 1 <= w < stride.
Hypothesis Hwmax : w < 2 ^ 62.
Hypothesis Hlen : stride + w < Z.of_nat (length scratch0).
Hypothesis HdL : ∀ j, 0 <= j <= w → load data (row + j) = L j.
Hypothesis HdH : ∀ j, 0 <= j <= w → load data (row + stride + j) = H j.
Hypothesis HEr : ∀ j, 0 <= j <= w → - 2 ^ 13 <= E j < 2 ^ 13.
Hypothesis HOr : ∀ j, 0 <= j < w → - 2 ^ 13 <= O j < 2 ^ 13.
Hypothesis HL : ∀ j, 1 <= j <= w → L j = E j + Z.shiftr (H (j - 1) + H j + 2) 2.
Hypothesis HH : ∀ j, 0 <= j < w → H j = O j + Z.shiftr (- (E j + E (j + 1))) 1.

Local Notation "'inv'" := (idwt_loop_inv scratch0 stride E O H).

Lemma idwt_loop_step i scratch cf0 cf1 cf2 cf3 :
  1 <= i < w → inv i (mk_ilift scratch cf0 cf1 cf2 cf3) →
  ∃ st, inv (i + 2) st
        ∧ ∀ n, idwt_horizontal_loop (S n) i w data row (row + stride) stride
                 (mk_ilift scratch cf0 cf1 cf2 cf3)
               = idwt_horizontal_loop n (i + 1 + 1) w data row (row + stride) stride st.
Proof.
  intros Hi (Hl & Hc0 & Hc1 & Hs). cbn [ilift_scratch ilift_cf0 ilift_cf1] in *.
  subst cf0 cf1.
  eexists. split; [|intros n; cbn [idwt_horizontal_loop];
                    destruct (Z.ltb_spec i w); [reflexivity|lia]].
  rewrite (HdL i), (HdH i), (HdL (i + 1)), (HdH (i + 1)) by lia.
  rewrite (usize_small (i - 1)), (usize_small (i + 1 - 1)) by lia.
  assert (He1 : s32 (L i - Z.shiftr (H (i - 1) + H i + 2) 2) = E i).
  { rewrite (HL i) by lia. pose proof (HEr i ltac:(lia)).
    replace (E i + Z.shiftr (H (i - 1) + H i + 2) 2 - Z.shiftr (H (i - 1) + H i + 2) 2)
      with (E i) by lia.
    apply small_s32. lia. }
  rewrite He1.
  assert (He2 : s32 (L (i + 1) - Z.shiftr (H (i + 1) + H i + 2) 2) = E (i + 1)).
  { rewrite (HL (i + 1)) by lia. pose proof (HEr (i + 1) ltac:(lia)).
    replace (i + 1 - 1) with i by lia.
    replace (H (i + 1) + H i) with (H i + H (i + 1)) by lia.
    replace (E (i + 1) + Z.shiftr (H i + H (i + 1) + 2) 2 - Z.shiftr (H i + H (i + 1) + 2) 2)
      with (E (i + 1)) by lia.
    apply small_s32. lia. }
  rewrite He2.
  assert (Ho1 : H (i - 1) - Z.shiftr (- (E (i - 1) + E i)) 1 = O (i - 1)).
  { rewrite (HH (i - 1)) by lia. replace (i - 1 + 1) with i by lia. lia. }
  assert (Ho2 : H i - Z.shiftr (- (E (i + 1) + E i)) 1 = O i).
  { rewrite (HH i) by lia. replace (E (i + 1) + E i) with (E i + E (i + 1)) by lia. lia. }
  rewrite Ho1, Ho2.
  pose proof (HEr i ltac:(lia)). pose proof (HEr (i + 1) ltac:(lia)).
  pose proof (HOr (i - 1) ltac:(lia)). pose proof (HOr i ltac:(lia)).
  rewrite (s16_small (E i)), (s16_small (E (i + 1))), (s16_small (O (i - 1))),
    (s16_small (O i)) by lia.
  split; [cbn [ilift_scratch]; rewrite !length_store; exact Hl|].
  cbn [ilift_scratch ilift_cf0 ilift_cf1].
  replace (i + 2 - 1) with (i + 1) by lia.
  split; [reflexivity|]. split; [reflexivity|].
  intros p Hp.
  destruct (Z.eq_dec p (stride + (i + 1 - 1))) as [->|Hn1].
  { rewrite load_store_eq by (rewrite !length_store; lia).
    destruct (Z.ltb_spec (stride + (i + 1 - 1)) (i + 2)); [lia|].
    destruct (Z.leb_spec stride (stride + (i + 1 - 1))),
             (Z.ltb_spec (stride + (i + 1 - 1)) (stride + (i + 1))); cbn [andb]; try lia.
    f_equal. lia. }
  rewrite load_store_ne by lia.
  destruct (Z.eq_dec p (i + 1)) as [->|Hn2].
  { rewrite load_store_eq by (rewrite !length_store; lia).
    destruct (Z.ltb_spec (i + 1) (i + 2)); [reflexivity|lia]. }
  rewrite load_store_ne by lia.
  destruct (Z.eq_dec p (stride + (i - 1))) as [->|Hn3].
  { rewrite load_store_eq by (rewrite !length_store; lia).
    destruct (Z.ltb_spec (stride + (i - 1)) (i + 2)); [lia|].
    destruct (Z.leb_spec stride (stride + (i - 1))),
             (Z.ltb_spec (stride + (i - 1)) (stride + (i + 1))); cbn [andb]; try lia.
    f_equal. lia. }
  rewrite load_store_ne by lia.
  destruct (Z.eq_dec p i) as [->|Hn4].
  { rewrite load_store_eq by lia. destruct (Z.ltb_spec i (i + 2)); [reflexivity|lia]. }
  rewrite load_store_ne by lia. rewrite Hs by assumption.
  destruct (Z.ltb_spec p i), (Z.ltb_spec p (i + 2)); try lia; try reflexivity.
  destruct (Z.leb_spec stride p), (Z.ltb_spec p (stride + (i - 1))),
           (Z.ltb_spec p (stride + (i + 1))); cbn [andb]; try lia; reflexivity.
Qed.

Lemma idwt_loop_spec n : ∀ i st,
  1 <= i <= w + 1 → w - i < 2 * Z.of_nat n → inv i st →
  ∃ i', w <= i' <= w + 1
        ∧ inv i' (idwt_horizontal_loop n i w data row (row + stride) stride st).
Proof.
  induction n as [|n IH]; intros i st Hi Hfuel Hinv.
  - exists i. split; [lia|exact Hinv].
  - destruct (Z.lt_ge_cases i w) as [Hlt|Hge].
    + destruct st as [d cf0 cf1 cf2 cf3].
      destruct (idwt_loop_step i d cf0 cf1 cf2 cf3 ltac:(lia) Hinv) as (st2 & Hinv2 & Heq).
      rewrite Heq. replace (i + 1 + 1) with (i + 2) by lia.
      apply IH; [lia|lia|exact Hinv2].
    + exists i. split; [lia|]. cbn [idwt_horizontal_loop].
      destruct (Z.ltb_spec i w); [lia|exact Hinv].
Qed.
End idwt_loop.

Lemma row_unfill (s data : list Z) row stride half_w (x : Z → Z) :
  0 <= row → 0 <= half_w → row + 2 * half_w <= Z.of_nat (length data) →
  (∀ j, 0 <= j < half_w → load s j = x (2 * j)) →
  (∀ j, 0 <= j < half_w → load s (stride + j) = x (2 * j + 1)) →
  length (for_range 0 half_w
            (fun i data =>
               let data := store data (row + 2 * i) (load s i) in
               store data (row + 2 * i + 1) (load s (stride + i)))
            data) = length data
  ∧ ∀ p, 0 <= p →
      load (for_range 0 half_w
              (fun i data =>
                 let data := store data (row + 2 * i) (load s i) in
                 store data (row + 2 * i + 1) (load s (stride + i)))
              data) p
      = if (row <=? p) && (p <? row + 2 * half_w) then x (p - row) else load data p.
Proof.
  intros Hrow Hh Hlen HE HO.
  apply (for_range_ind
           (λ k d, length d = length data
                   ∧ ∀ p, 0 <= p →
                       load d p
                       = if (row <=? p) && (p <? row + 2 * k) then x (p - row)
                         else load data p)); [lia| |].
  - split; [reflexivity|]. intros p Hp.
    destruct (Z.leb_spec row p), (Z.ltb_spec p (row + 2 * 0)); cbn [andb]; try reflexivity; lia.
  - intros j d Hj (Hl & Hd). cbv zeta. split; [rewrite !length_store; exact Hl|].
    intros p Hp.
    destruct (Z.eq_dec p (row + 2 * j + 1)) as [->|Hn1].
    { rewrite load_store_eq by (rewrite length_store; lia). rewrite HO by lia.
      destruct (Z.leb_spec row (row + 2 * j + 1)),
               (Z.ltb_spec (row + 2 * j + 1) (row + 2 * (j + 1))); cbn [andb]; try lia.
      f_equal. lia. }
    rewrite load_store_ne by lia.
    destruct (Z.eq_dec p (row + 2 * j)) as [->|Hn2].
    { rewrite load_store_eq by lia. rewrite HE by lia.
      destruct (Z.leb_spec row (row + 2 * j)),
               (Z.ltb_spec (row + 2 * j) (row + 2 * (j + 1))); cbn [andb]; try lia.
      f_equal. lia. }
    rewrite load_store_ne by lia. rewrite Hd by assumption.
    destruct (Z.leb_spec row p), (Z.ltb_spec p (row + 2 * j)),
             (Z.ltb_spec p (row + 2 * (j + 1))); cbn [andb]; try lia; reflexivity.
Qed.

(** The inverse pass on the two bands of a line gives the line back. *)
Lemma idwt_horizontal_inverts data row scratch width (x : Z → Z) :
  4 <= width < 2 ^ 62 → 0 <= row → row + width <= Z.of_nat (length data) →
  width <= Z.of_nat (length scratch) →
  (∀ j, 0 <= j < width → - 2 ^ 13 <= x j < 2 ^ 13) →
  (∀ j, 0 <= j < width → load data (row + j) = dwt_row x width j) →
  length (SQZ_idwt_5_3i_horizontal_pass data row scratch width).1 = length data
  ∧ length (SQZ_idwt_5_3i_horizontal_pass data row scratch width).2 = length scratch
  ∧ ∀ p, 0 <= p →
      load (SQZ_idwt_5_3i_horizontal_pass data row scratch width).1 p
      = if (row <=? p) && (p <? row + width) then x (p - row) else load data p.
Proof.
  intros Hw4 Hrow Hfit Hscr Hx Hdata.
  unfold SQZ_idwt_5_3i_horizontal_pass. change (Z.shiftr SQZ_MIN_DIMENSION 1) with 4.
  destruct (Z.ltb_spec width 4); [lia|].
  rewrite truthy_land_1, (shiftr_1 width).
  destruct (odd_width width) as (Hwd & Hst).
  set (half_w := width / 2) in *.
  assert (Hhalf : 2 <= half_w < 2 ^ 62)
    by (unfold half_w; split; [apply Z.div_le_lower_bound; lia|apply Z.div_lt_upper_bound; lia]).
  assert (Hwd' : width = 2 * half_w ∨ width = 2 * half_w + 1)
    by (revert Hwd; destruct (Z.odd width); lia).
  rewrite (usize_small (half_w - 1)) by lia.
  set (w := half_w - 1).
  set (stride := if Z.odd width then half_w + 1 else half_w) in *.
  assert (Hstride : stride = half_w + (if Z.odd width then 1 else 0))
    by (unfold stride; destruct (Z.odd width); lia).
  assert (Hsw : half_w <= stride <= half_w + 1 ∧ width = stride + half_w)
    by (revert Hwd Hstride; destruct (Z.odd width); lia).
  cbv zeta. rewrite !(usize_small (w - 1)) by (unfold w; lia).
  set (E := λ j, x (2 * j)). set (O := λ j, x (2 * j + 1)).
  set (Lb := dwt_low x width). set (Hb := dwt_high x width).
  assert (HdL : ∀ j, 0 <= j < stride → load data (row + j) = Lb j).
  { intros j Hj. rewrite Hdata by lia. unfold dwt_row. rewrite Hst. fold stride.
    destruct (Z.ltb_spec j stride); [reflexivity|lia]. }
  assert (HdH : ∀ j, 0 <= j < half_w → load data (row + stride + j) = Hb j).
  { intros j Hj. replace (row + stride + j) with (row + (stride + j)) by lia.
    rewrite Hdata by lia. unfold dwt_row. rewrite Hst. fold stride.
    destruct (Z.ltb_spec (stride + j) stride); [lia|]. unfold Hb. f_equal. lia. }
  assert (HEr : ∀ j, 0 <= j → 2 * j < width → - 2 ^ 13 <= E j < 2 ^ 13)
    by (intros j Hj Hjw; apply Hx; lia).
  assert (HOr : ∀ j, 0 <= j < half_w → - 2 ^ 13 <= O j < 2 ^ 13)
    by (intros j Hj; apply Hx; lia).
  assert (HL : ∀ j, 1 <= j <= w → Lb j = E j + Z.shiftr (Hb (j - 1) + Hb j + 2) 2).
  { intros j Hj. unfold Lb, dwt_low. fold half_w.
    destruct (Z.eqb_spec j 0); [lia|]. destruct (Z.ltb_spec j half_w); [reflexivity|].
    unfold w in *; lia. }
  assert (HH : ∀ j, 0 <= j < w → Hb j = O j + Z.shiftr (- (E j + E (j + 1))) 1).
  { intros j Hj. unfold Hb. rewrite dwt_high_lift by (fold half_w; unfold w in *; lia).
    reflexivity. }
  assert (HL0 : Lb 0 = E 0 + Z.shiftr (Hb 0 + 1) 1) by reflexivity.
  assert (HHw : Hb w = O w + (if Z.odd width then Z.shiftr (- (E w + E (w + 1))) 1 else - E w)).
  { unfold Hb, dwt_high. change (width / 2 - 1) with w. rewrite Z.ltb_irrefl. cbn [orb].
    unfold E, O. replace (2 * (w + 1)) with (2 * w + 2) by lia.
    destruct (Z.odd width); [reflexivity|lia]. }
  (* the first even sample *)
  replace (load data (row + stride)) with (Hb 0)
    by (rewrite <- (HdH 0) by lia; f_equal; lia).
  replace (load data row) with (Lb 0) by (rewrite <- (HdL 0) by lia; f_equal; lia).
  assert (He0 : s32 (Lb 0 - Z.shiftr (Hb 0 + 1) 1) = E 0).
  { rewrite HL0. pose proof (HEr 0 ltac:(lia) ltac:(lia)).
    replace (E 0 + Z.shiftr (Hb 0 + 1) 1 - Z.shiftr (Hb 0 + 1) 1) with (E 0) by lia.
    apply small_s32. lia. }
  rewrite He0. pose proof (HEr 0 ltac:(lia) ltac:(lia)) as Hr0.
  rewrite (s16_small (E 0)) by lia.
  assert (Hinv : idwt_loop_inv scratch stride E O Hb 1
                   (mk_ilift (store scratch 0 (E 0)) (E 0) (Hb 0) 0 0)).
  { split; [cbn [ilift_scratch]; rewrite length_store; reflexivity|].
    cbn [ilift_scratch ilift_cf0 ilift_cf1]. split; [reflexivity|]. split; [reflexivity|].
    intros p Hp. destruct (Z.eq_dec p 0) as [->|Hne].
    - rewrite load_store_eq by lia. reflexivity.
    - rewrite load_store_ne by lia.
      destruct (Z.ltb_spec p 1); [lia|].
      destruct (Z.leb_spec stride p), (Z.ltb_spec p (stride + (1 - 1))); cbn [andb];
        try lia; reflexivity. }
  destruct (idwt_loop_spec data scratch row stride w E O Lb Hb ltac:(unfold w; lia)
              ltac:(unfold w; lia) ltac:(unfold w; lia)
              ltac:(intros; apply HdL; unfold w in *; lia)
              ltac:(intros; apply HdH; unfold w in *; lia)
              ltac:(intros; apply HEr; unfold w in *; lia)
              ltac:(intros; apply HOr; unfold w in *; lia) HL HH
              (Z.to_nat w) 1 _ ltac:(unfold w; lia) ltac:(unfold w; lia) Hinv)
    as (i' & Hi' & Hl3 & _ & _ & Hs3).
  set (scratch3 := ilift_scratch (idwt_horizontal_loop (Z.to_nat w) 1 w data row
                                                       (row + stride) stride _)) in *.
  clearbody scratch3.
  (* the last samples *)
  rewrite (HdL w), (HdH w) by (unfold w; lia).
  replace (load data (row + stride + (w - 1))) with (Hb (w - 1))
    by (symmetry; apply HdH; unfold w; lia).
  assert (Hew : s16 (Lb w - Z.shiftr (Hb (w - 1) + Hb w + 2) 2) = E w).
  { rewrite (HL w) by (unfold w; lia). pose proof (HEr w ltac:(unfold w; lia) ltac:(unfold w; lia)).
    replace (E w + Z.shiftr (Hb (w - 1) + Hb w + 2) 2 - Z.shiftr (Hb (w - 1) + Hb w + 2) 2)
      with (E w) by lia.
    apply s16_small. lia. }
  rewrite Hew.
  set (sb := store scratch3 w (E w)).
  assert (Hsb1 : load sb (w - 1) = E (w - 1)).
  { unfold sb. rewrite load_store_ne by (unfold w; lia). rewrite Hs3 by (unfold w; lia).
    destruct (Z.ltb_spec (w - 1) i'); [reflexivity|lia]. }
  assert (Hsb2 : load sb w = E w)
    by (unfold sb; apply load_store_eq; unfold w; lia).
  rewrite Hsb1, Hsb2.
  assert (How1 : s16 (Hb (w - 1) - Z.shiftr (- (E (w - 1) + E w)) 1) = O (w - 1)).
  { rewrite (HH (w - 1)) by (unfold w; lia). replace (w - 1 + 1) with w by lia.
    pose proof (HOr (w - 1) ltac:(unfold w; lia)).
    replace (O (w - 1) + Z.shiftr (- (E (w - 1) + E w)) 1 - Z.shiftr (- (E (w - 1) + E w)) 1)
      with (O (w - 1)) by lia.
    apply s16_small. lia. }
  rewrite How1.
  set (sc := store sb (stride + (w - 1)) (O (w - 1))).
  set (sd := if Z.odd width
             then store sc (w + 1) (s16 (load data (row + w + 1) - Z.shiftr (Hb w + 1) 1))
             else sc).
  assert (Hlsd : length sd = length scratch)
    by (unfold sd, sc, sb; destruct (Z.odd width); rewrite ?length_store; exact Hl3).
  assert (Hsd : ∀ p, 0 <= p →
                  load sd p
                  = if 2 * p <? width then E p
                    else if (stride <=? p) && (p <? stride + w) then O (p - stride)
                         else load scratch3 p).
  { intros p Hp. unfold sd. destruct (Z.odd width) eqn:Hodd.
    - destruct (Z.eq_dec p (w + 1)) as [->|Hn0].
      { rewrite load_store_eq by (unfold sc, sb; rewrite !length_store; unfold w; lia).
        destruct (Z.ltb_spec (2 * (w + 1)) width); [|unfold w in *; lia].
        replace (row + w + 1) with (row + (w + 1)) by lia.
        rewrite (HdL (w + 1)) by (unfold w; lia).
        unfold Lb, dwt_low. fold half_w.
        destruct (Z.eqb_spec (w + 1) 0); [unfold w in *; lia|].
        destruct (Z.ltb_spec (w + 1) half_w); [unfold w in *; lia|].
        replace (w + 1 - 1) with w by lia. fold Hb. fold (E (w + 1)).
        pose proof (HEr (w + 1) ltac:(unfold w; lia) ltac:(unfold w; lia)).
        replace (E (w + 1) + Z.shiftr (Hb w + 1) 1 - Z.shiftr (Hb w + 1) 1) with (E (w + 1))
          by lia.
        apply s16_small. lia. }
      rewrite load_store_ne by (unfold w; lia). unfold sc, sb.
      destruct (Z.eq_dec p (stride + (w - 1))) as [->|Hn1].
      { rewrite load_store_eq by (rewrite length_store; unfold w; lia).
        destruct (Z.ltb_spec (2 * (stride + (w - 1))) width); [unfold w in *; lia|].
        destruct (Z.leb_spec stride (stride + (w - 1))),
                 (Z.ltb_spec (stride + (w - 1)) (stride + w)); cbn [andb]; try lia.
        f_equal. lia. }
      rewrite load_store_ne by (unfold w; lia).
      destruct (Z.eq_dec p w) as [->|Hn2].
      { rewrite load_store_eq by (unfold w; lia).
        destruct (Z.ltb_spec (2 * w) width); [reflexivity|unfold w in *; lia]. }
      rewrite load_store_ne by (unfold w; lia). rewrite Hs3 by assumption.
      destruct (Z.ltb_spec p i'), (Z.ltb_spec (2 * p) width); try (unfold w in *; lia);
        try reflexivity.
      destruct (Z.leb_spec stride p), (Z.ltb_spec p (stride + (i' - 1))),
               (Z.ltb_spec p (stride + w)); cbn [andb]; try (unfold w in *; lia); reflexivity.
    - unfold sc, sb.
      destruct (Z.eq_dec p (stride + (w - 1))) as [->|Hn1].
      { rewrite load_store_eq by (rewrite length_store; unfold w; lia).
        destruct (Z.ltb_spec (2 * (stride + (w - 1))) width); [unfold w in *; lia|].
        destruct (Z.leb_spec stride (stride + (w - 1))),
                 (Z.ltb_spec (stride + (w - 1)) (stride + w)); cbn [andb]; try lia.
        f_equal. lia. }
      rewrite load_store_ne by (unfold w; lia).
      destruct (Z.eq_dec p w) as [->|Hn2].
      { rewrite load_store_eq by (unfold w; lia).
        destruct (Z.ltb_spec (2 * w) width); [reflexivity|unfold w in *; lia]. }
      rewrite load_store_ne by (unfold w; lia). rewrite Hs3 by assumption.
      destruct (Z.ltb_spec p i'), (Z.ltb_spec (2 * p) width); try (unfold w in *; lia);
        try reflexivity.
      destruct (Z.leb_spec stride p), (Z.ltb_spec p (stride + (i' - 1))),
               (Z.ltb_spec p (stride + w)); cbn [andb]; try (unfold w in *; lia); reflexivity. }
  clearbody sd. clear Hsb1 Hsb2. 
  assert (Hsdw : load sd w = E w).
  { rewrite Hsd by (unfold w; lia).
    destruct (Z.ltb_spec (2 * w) width); [reflexivity|unfold w in *; lia]. }
  assert (Hsdw1 : Z.odd width = true → load sd (w + 1) = E (w + 1)).
  { intros Hodd. rewrite Hsd by (unfold w; lia). rewrite Hodd in *.
    destruct (Z.ltb_spec (2 * (w + 1)) width); [reflexivity|unfold w in *; lia]. }
  assert (How : s16 (Hb w - (if Z.odd width
                            then Z.shiftr (- (load sd w + load sd (w + 1))) 1
                            else - load sd w)) = O w).
  { rewrite Hsdw, HHw. pose proof (HOr w ltac:(unfold w; lia)).
    destruct (Z.odd width) eqn:Hodd.
    - rewrite Hsdw1 by reflexivity.
      replace (O w + Z.shiftr (- (E w + E (w + 1))) 1 - Z.shiftr (- (E w + E (w + 1))) 1)
        with (O w) by lia.
      apply s16_small. lia.
    - replace (O w + - E w - - E w) with (O w) by lia. apply s16_small. lia. }
  rewrite How.
  set (se := store sd (stride + w) (O w)).
  assert (Hlse : length se = length scratch) by (unfold se; rewrite length_store; exact Hlsd).
  assert (HsE : ∀ j, 0 <= j → 2 * j < width → load se j = E j).
  { intros j Hj Hjw. unfold se. rewrite load_store_ne by (unfold w in *; lia).
    rewrite Hsd by lia. destruct (Z.ltb_spec (2 * j) width); [reflexivity|lia]. }
  assert (HsO : ∀ j, 0 <= j < half_w → load se (stride + j) = O j).
  { intros j Hj. unfold se. destruct (Z.eq_dec j w) as [->|Hne].
    - rewrite load_store_eq by (unfold w; lia). reflexivity.
    - rewrite load_store_ne by lia. rewrite Hsd by lia.
      destruct (Z.ltb_spec (2 * (stride + j)) width); [lia|].
      destruct (Z.leb_spec stride (stride + j)), (Z.ltb_spec (stride + j) (stride + w));
        cbn [andb]; try (unfold w in *; lia).
      f_equal. lia. }
  clearbody se.
  destruct (row_unfill se data row stride half_w x Hrow ltac:(lia) ltac:(lia)
              ltac:(intros; apply HsE; lia) HsO) as (Hl6 & Hd6).
  set (data6 := for_range 0 half_w _ data) in *. clearbody data6.
  cbn [fst snd]. split; [destruct (Z.odd width); rewrite ?length_store; exact Hl6|].
  split; [exact Hlse|].
  intros p Hp. destruct (Z.odd width) eqn:Hodd.
  - destruct (Z.eq_dec p (row + 2 * half_w)) as [->|Hne].
    + rewrite load_store_eq by lia. rewrite HsE by lia.
      destruct (Z.leb_spec row (row + 2 * half_w)),
               (Z.ltb_spec (row + 2 * half_w) (row + width)); cbn [andb]; try lia.
      unfold E. f_equal. lia.
    + rewrite load_store_ne by lia. rewrite Hd6 by assumption.
      destruct (Z.leb_spec row p), (Z.ltb_spec p (row + 2 * half_w)),
               (Z.ltb_spec p (row + width)); cbn [andb]; try lia; reflexivity.
  - rewrite Hd6 by assumption.
    destruct (Z.leb_spec row p), (Z.ltb_spec p (row + 2 * half_w)),
             (Z.ltb_spec p (row + width)); cbn [andb]; try lia; reflexivity.
Qed.

Lemma horizontal_pass_roundtrip_holds data row scratch scratch' width :
  width < 2 ^ 62 → 0 <= row → row + width <= Z.of_nat (length data) →
  width <= Z.of_nat (length scratch) → width <= Z.of_nat (length scratch') →
  (∀ j, 0 <= j < width → - 2 ^ 13 <= load data (row + j) < 2 ^ 13) →
  (SQZ_idwt_5_3i_horizontal_pass
     (SQZ_dwt_5_3i_horizontal_pass data row scratch width).1 row scratch' width).1 = data.
Proof.
  intros Hmax Hrow Hfit Hscr Hscr' Hrange.
  destruct (Z.lt_ge_cases width 4) as [Hsmall|Hbig].
  { unfold SQZ_dwt_5_3i_horizontal_pass, SQZ_idwt_5_3i_horizontal_pass.
    change (Z.shiftr SQZ_MIN_DIMENSION 1) with 4.
    destruct (Z.ltb_spec width 4); [reflexivity|lia]. }
  destruct (dwt_horizontal_spec data row scratch width ltac:(lia) Hrow Hfit Hscr Hrange)
    as (Hl1 & _ & Hd1).
  set (data1 := (SQZ_dwt_5_3i_horizontal_pass data row scratch width).1) in *.
  destruct (idwt_horizontal_inverts data1 row scratch' width (λ j, load data (row + j))
              ltac:(lia) Hrow ltac:(lia) Hscr' Hrange) as (Hl2 & _ & Hd2).
  { intros j Hj. rewrite Hd1 by lia.
    destruct (Z.leb_spec row (row + j)), (Z.ltb_spec (row + j) (row + width)); cbn [andb];
      try lia.
    f_equal. lia. }
  apply list_load_ext; [congruence|].
  intros j Hj. rewrite Hd2 by lia.
  destruct (Z.leb_spec row j), (Z.ltb_spec j (row + width)); cbn [andb];
    try (f_equal; lia);
    rewrite Hd1 by lia;
    destruct (Z.leb_spec row j), (Z.ltb_spec j (row + width)); cbn [andb]; try lia;
    reflexivity.
Qed.

(** The forward horizontal pass is the reversible 5/3 lifting of the line.
    On a line of [width] >= 4 samples between -2^13 and 2^13, the pass
    leaves the (width + 1) / 2 low coefficients first and the width / 2 high
    coefficients after them: high coefficient i is the odd sample 2i + 1
    plus floor(- (x(2i) + x(2i + 2)) / 2), that is less the mean of the even
    samples 2i and 2i + 2 rounded up (at the end of a line of even width,
    less the sample 2i), low coefficient i is
    the even sample 2i plus floor((h(i-1) + h(i) + 2) / 4), or
    floor((h + 1) / 2) of the only high coefficient next to it at the two
    ends.  Nothing else of the array changes. *)
Theorem dwt_horizontal_lifting data row scratch width :
  4 <= width < 2 ^ 62 → 0 <= row → row + width <= Z.of_nat (length data) →
  width <= Z.of_nat (length scratch) →
  (∀ j, 0 <= j < width → - 2 ^ 13 <= load data (row + j) < 2 ^ 13) →
  length (SQZ_dwt_5_3i_horizontal_pass data row scratch width).1 = length data
  ∧ length (SQZ_dwt_5_3i_horizontal_pass data row scratch width).2 = length scratch
  ∧ ∀ p, 0 <= p →
      load (SQZ_dwt_5_3i_horizontal_pass data row scratch width).1 p
      = if (row <=? p) && (p <? row + width)
        then dwt_row (λ j, load data (row + j)) width (p - row)
        else load data p.
Proof. apply dwt_horizontal_spec. Qed.

Lemma dwt_horizontal_lifting_witness :
  let data := [7; 10; 21; 30; 40; 53; 8; 9] in
  let scratch := replicate 5 0 in
  (length (SQZ_dwt_5_3i_horizontal_pass data 1 scratch 5).1 = length data
   ∧ length (SQZ_dwt_5_3i_horizontal_pass data 1 scratch 5).2 = length scratch
   ∧ ∀ p, 0 <= p →
       load (SQZ_dwt_5_3i_horizontal_pass data 1 scratch 5).1 p
       = if (1 <=? p) && (p <? 1 + 5)
         then dwt_row (λ j, load data (1 + j)) 5 (p - 1)
         else load data p)
  ∧ dwt_high (λ j, load data (1 + j)) 5 1 = 40 + Z.shiftr (- (30 + 53)) 1
  ∧ dwt_high (λ j, load data (1 + j)) 5 1 = 40 - 42
  ∧ (SQZ_dwt_5_3i_horizontal_pass data 1 scratch 5).1 = [7; 11; 30; 52; 1; -2; 8; 9].
Proof.
  cbv zeta. split.
  - apply (dwt_horizontal_lifting [7; 10; 21; 30; 40; 53; 8; 9] 1 (replicate 5 0) 5).
    + lia.
    + lia.
    + simpl. lia.
    + simpl. lia.
    + intros j Hj.
      assert (Hc : j = 0 ∨ j = 1 ∨ j = 2 ∨ j = 3 ∨ j = 4) by lia.
      destruct Hc as [->|[->|[->|[->| ->]]]]; vm_compute; (split; [discriminate|reflexivity]).
  - split; [reflexivity|]. split; [reflexivity|]. vm_compute. reflexivity.
Defined.

(** The inverse horizontal pass undoes the forward one: on a line of less
    than 2^62 samples between -2^13 and 2^13, inside the array and no
    longer than the line buffers, [SQZ_idwt_5_3i_horizontal_pass] after
    [SQZ_dwt_5_3i_horizontal_pass] gives the array back, whatever is in
    the line buffers (lines of fewer than four samples are left alone by
    both). *)
Theorem horizontal_pass_roundtrip data row scratch scratch' width :
  width < 2 ^ 62 → 0 <= row → row + width <= Z.of_nat (length data) →
  width <= Z.of_nat (length scratch) → width <= Z.of_nat (length scratch') →
  (∀ j, 0 <= j < width → - 2 ^ 13 <= load data (row + j) < 2 ^ 13) →
  (SQZ_idwt_5_3i_horizontal_pass
     (SQZ_dwt_5_3i_horizontal_pass data row scratch width).1 row scratch' width).1 = data.
Proof. apply horizontal_pass_roundtrip_holds. Qed.

Lemma horizontal_pass_roundtrip_witness :
  let data := [7; 10; -20; 30; 41; 50; -3; 8; 9] in
  (SQZ_idwt_5_3i_horizontal_pass
     (SQZ_dwt_5_3i_horizontal_pass data 1 (replicate 6 0) 6).1 1 (replicate 6 1) 6).1 = data.
Proof.
  cbv zeta.
  apply (horizontal_pass_roundtrip [7; 10; -20; 30; 41; 50; -3; 8; 9] 1 (replicate 6 0)
           (replicate 6 1) 6).
  - lia.
  - lia.
  - simpl. lia.
  - simpl. lia.
  - simpl. lia.
  - intros j Hj.
    assert (Hc : j = 0 ∨ j = 1 ∨ j = 2 ∨ j = 3 ∨ j = 4 ∨ j = 5) by lia.
    destruct Hc as [->|[->|[->|[->|[->| ->]]]]]; vm_compute; (split; [discriminate|reflexivity]).
Defined.
